(* ===== verification/_CoqProject ===== *)
-Q . S2P
Prelude.v
Text.v
BTree.v
F32.v
External.v
Model.v
Crypto.v
Records.v
Identity.v
Membership.v
PeerStore.v
Discovery.v
Netcheck.v
Scheduler.v
Protocol.v
Policy.v
Routing.v
RelayWire.v
Relay.v
Transport.v
Calendar.v
Quic.v
QuicProps.v
Control.v
ControlFetch.v
Authority.v
AuthorityProps.v
Fabric.v
FabricProps.v
FabricPaths.v
Durable.v
FabricPlane.v
FabricRuntime.v
DurableProps.v
Backup.v
FabricPathsProps.v
FabricPlaneProps.v
FabricRuntimeProps.v
EndToEnd.v
FabricQuic.v
Quipd.v
DaemonApi.v
QuipdApi.v
QuipdControl.v
QuipdServer.v
QuipdProps.v
QuipdSafety.v
QuipdCycle.v
Unreadable.v
QuipdControlProps.v
QuipdFiles.v
Revocation.v
Processes.v
Quip.v
QuipCommands.v
QuipProps.v
ClientServer.v
Scripts.v
Interleaving.v
RelayHttp.v
RelayHttpProps.v
