(* ===== verification/Prelude.v ===== *)
(** * Quipnet: a verification library

    Quipnet is a peer-to-peer network in Rust: peers hold identities and signed
    membership artifacts, an authority publishes snapshots of those artifacts,
    a client merges them, discovers peers, chooses paths, and opens transport
    sessions directly or through relays that check who may use them.  This
    library models the crates that carry that logic as executable definitions,
    translated function by function, and proves what makes them correct.  Paths
    below are relative to [src/].

    ** Parts, and where they are modelled

    - [Prelude]: results with their monad, machine integers as [Z] with their
      wrap-around or saturation written out, and the slice and iterator
      operations the code uses, with their lemmas.  [Text]: strings as byte
      strings, slicing with its panics, hexadecimal, trimming.  [BTree]:
      [BTreeMap] and [BTreeSet] as [gmap] and [gset] with sorted iteration.
      [F32]: binary32 arithmetic.  [External]: third-party crates as type
      classes with laws, and one concrete instance of each in Module [Demo].
    - [Model] (crates/model): identifiers and shared enums.  [Crypto]
      (crates/crypto): keys, signatures, hashes.  [Records] (crates/records):
      signed records.  [Identity] (crates/identity): session credentials and
      the key file.  [Membership] (crates/membership): tokens, certificates,
      grants and revocations.
    - [PeerStore], [Discovery], [Netcheck], [Scheduler], [Protocol], [Policy],
      [Routing]: the crates of the same names.
    - [RelayWire], [Relay] (crates/relaywire, crates/relay): the session
      runtime, admission of sessions, the in-process registry, and the HTTP
      handler [control_response].  The trait of the same name is the class
      [RelayControl]; [RelayControlLaws] is what a client may rely on, and the
      in-process control is proved to keep it.
    - [Transport], [Calendar], [Quic], [QuicProps] (crates/transport,
      crates/quic): the data, the calendar of event times, every operation of
      the transport adapter, and their properties.
    - [Control] (crates/control): snapshot validation and merging.
      [ControlFetch]: its requests, over an interface that answers URLs.
    - [Authority], [AuthorityProps] (cmd/authority): the state file, every
      command, the snapshot projection and the request routing.  A disk maps
      paths to decoded states; [run_command] is [main] for one command line.
      [disk_step] is the abstract machine the commands refine: nothing, a fresh
      state, or one edit followed by a rebuilt snapshot.
    - crates/fabric, in thirteen files.  [Fabric], [FabricProps]: the daemon's
      state, the artifacts, relay maps and revocations that enter it, its policy
      and its routes; [daemon_step] is the abstract machine of that state, and
      [daemon_advances] the order its steps respect.  [FabricPaths],
      [FabricPathsProps]: path and health reports.  [Durable], [DurableProps]:
      the state file, its schema and migration.  [Backup]: encrypted bundles.
      [FabricPlane], [FabricPlaneProps]: the operations of [LocalControlPlane]
      on files, each of which refines [daemon_step]s of the state its file
      holds.  [FabricRuntime], [FabricRuntimeProps]: its operations on a
      transport, against the class [LifecycleTransport], with the laws
      [LifecycleLaws] of what a transport promises about its sessions.
      [FabricQuic]: the Quic adapter is such a transport.  [EndToEnd]: a daemon
      that follows an authority.
    - cmd/quipd, in twelve files.  [Quipd]: arguments, watched files, the wait,
      the identity, the cycle [run_cycle] and the process [run].  [DaemonApi]
      (crates/daemonapi): what clients send and receive.  [QuipdApi],
      [QuipdControl]: the control server, from [route_control_request] down to
      one handler per operation.  [QuipdServer]: the discovery file, its guard,
      and the thread that serves requests until one of them panics.
      [QuipdProps], [QuipdSafety], [QuipdCycle], [QuipdControlProps]: what a
      wait, a start and a connection attempt do, what the process as a whole
      keeps, with [process_step] for its cycles and requests in any order, what
      a cycle enforces, and what the server promises its clients.
      [QuipdFiles]: the files the daemon leaves alone, whatever it does, with
      [serving] for its steps once it has started.  [Revocation]: a revocation from the authority
      to the sessions of a daemon.  [Unreadable]: a state file that does not
      load.
    - cmd/quip, the command line client.  [Quip]: commands, arguments and
      rendering.  [QuipCommands]: one definition per command and [run_cli], the
      whole of [run].  A [Shell] is a node and the lines printed; requests go to
      the daemon through a function [post], and [ClientRequest] lists them with
      the type of result each asks for.  [QuipProps]: the client against the
      control server, and against the state file; the world it meets is a
      [Served] one, that of a daemon and whether its listener still runs.
      [ClientServer]: how a daemon is found.
    - The files they share.  [Scripts]: every operation on the state file, of
      the daemon and of the client, as a script of single accesses, each proved
      to be its operation when it runs alone.  [Interleaving]: pools of scripts
      that run at once, in any order, each of which may be stopped anywhere.
    - cmd/relay and the HTTP client of crates/relay.  [RelayHttp]: the node the
      arguments name, the loop of the process, and [http_relay_control], an
      instance of [RelayControl] over the class [HttpNet].  [RelayHttpProps]:
      the client over such processes keeps [RelayControlLaws], so that what
      [QuicProps] and [FabricQuic] show of relayed sessions holds over HTTP.
    - [Processes]: the bootstrap service and its process, the lab, the simulated
      network of the test kit and the C interface.

    ** How the code is represented

    A struct is a record, an enum an inductive type, [Result] the type [result]
    with [?] as its bind, and a panic the second constructor of [outcome].  A
    [&mut self] method returns the new state beside its result.  A unsigned
    integer is a [Z]; the shipped binaries are release builds, where [+] and
    [*] wrap, so the model wraps too, and the saturating operations saturate.
    The transport adapter shares its registries between clones behind locks
    that are held for single steps; its operations are state transformers over
    a [World] that holds the registries, the relays its control drives, and the
    number of readings made of the clock and of the generator, which are
    functions from that number.  What an operation did before it failed stays
    done.  Clock readings and random bytes are arguments everywhere else.

    A daemon is a [Node]: its files, a map from paths to contents, and its
    transport; its operations are state transformers [NodeM] over both, and a
    call on either is lifted by [on_files] or [on_transport].  What the outside
    does while the process runs is an argument: the authority's answer to a URL,
    file metadata and the clock at each poll of a wait, signals, and the requests
    that arrive.  There a request is handled in one step, and so is a cycle,
    and a save of the state file is whole; what the file goes through when they
    overlap or break off is in [Interleaving].  The writes of the key file and
    of the discovery file may fail, before the file is opened or with a part of
    the text written ([WriteFault]).

    Each definition that translates code is preceded by a comment with the file,
    the lines and the name of the code.

    ** What the theorems show

    - Relays (C1, C5, C6, C7): a request is accepted exactly when it is
      admissible; over any requests and closes no source exceeds its quota and
      no session goes to a destination the relay does not serve; the HTTP client
      does to a relay process, and answers, what the service does; a process
      keeps serving what its arguments allow, and what stops it.
    - Transport (C2, C3, C4, C37, C38): an invariant of every reachable
      state, by rule induction over one step per operation, proved in a small
      Hoare logic over the adapter; what connect, migrate and close do, on
      success and on failure; that a relayed session is open at its relay while
      it lives and closed there afterwards, for any relay control that keeps the
      laws of the interface.
    - Control plane (C8, C33): when a merge succeeds and what it keeps, and that
      no series of snapshots loses a revocation or rolls the membership back.
    - Authority (C34, C35, C36): the invariant of every state file, by
      refinement of the commands to edits; that a client which merges what the
      server projects converges to it; and that records are never lost.
    - Revocation (C9): once a daemon that follows its authority has run a cycle,
      it has no session with a peer the authority has revoked, and gets none.
    - Fabric state (C10, C19, C20): a daemon ends with every revocation its
      authority has and denies whom they name; every reachable state is well
      formed; the policy decision against its specification.
    - Concurrency (C13): operations whose accesses interleave or break off
      leave in the state file a state that descends from the one at the start,
      or a text that is no JSON value; one can put back an older state over what
      another saved, and one that is stopped while it writes leaves an empty
      file for good.
    - State file and backups (C29, C30, C31, C32): that validation accepts the
      objects of the fields a state is written with, that saved states load back
      when their losses are finite, that a daemon stops on a file that does not
      load and leaves it alone, that bundles restore.
    - Fabric runtime (C17, C18, C21, C28): enforcement and reconciliation leave
      only sessions the policy allows, proved against the laws of the transport
      with a logic of triples over its sessions; the path and health reports.
    - Daemon (C14, C16, C24, C25, C26): over a whole run, with requests between
      the cycles, the state file only goes forward, the transport stays well
      formed and a revoked peer gets no new session; a cycle enforces the policy of the state it reports; waits end,
      and attempts to reach the target stop; the identity a start finds or makes.
    - Control server (C22, C23): the answer to every request, the requests that
      panic it, and what connecting asks, does and answers.
    - Client (C11, C12, C15, C27): a request gets the result of its operation or
      its error, and nothing else happens; the commands that rewrite files ask
      for a confirmation and a stopped daemon; no other command takes the state
      back; and a daemon is found from its start until a guard of its path is
      dropped, whatever it does meanwhile.
    - Calendar, routing (C39, C40): event dates are Gregorian dates, scores are
      the sums modulo 2^32 of the costs they report, but for bulk traffic, which
      leaves the loss out.

    The other operations have their specifications as lemmas of their files:
    issuing and verifying in [Membership], stored keys in [Identity], route
    plans in [FabricProps], migration in [DurableProps], the files the control
    plane leaves in [FabricPlaneProps], closing a session on request in
    [QuipdControlProps], projecting, the token a snapshot carries and the
    requests of the control client in [AuthorityProps], policy,
    negotiation, selection and ingestion in the files of those names,
    suppression and the backoff of reconnects in [QuicProps], the log of a
    bootstrap service and the panic of the lab in [Processes].

    ** Bounds

    No function needs fuel beyond structural recursion, except the loop of
    [Relay.parse_session_bytes], which runs its 16 slots, and [Text.trim], whose
    fuel is the length of the string.  The loop of a wait recurses over the
    polls it makes; C24 shows that [wait_bound] of them are enough, one per
    poll interval in the cycle interval and two more.  The loop of the process
    recurses over the inputs of its cycles, and C14 holds for any number of them.
    C39 holds below 2^55 seconds, where the year still fits an [i32].  C34 to
    C36 hold below 2^64 - 1 commands,
    where the sequence counters do not wrap.

    ** What is not modelled

    Sockets, and HTTP below a request and its answer: a server is a function
    from requests, a client posts through an interface.  JSON texts (an
    interface with the laws the proofs use), argument parsing by clap, log
    set-up (crates/observability), and code compiled for tests only.  Directories:
    a map of paths has none; where creating one may fail with consequences, for
    the key file and the discovery file, the failure is an argument.  The locks
    of the adapter, which are held for single steps.  The state file has none:
    C13 covers accesses of several operations in any order, where a write cuts
    the file to nothing in one step and puts its text in in another, from which
    it may also break off, though not over the text of another write; a read is
    one step, and so are the reads with which an export or a restoration begins.
    Elsewhere a request, a cycle or a command is one step.  The trait [Fabric] of crates/transport, which
    nothing implements. *)
From stdpp Require Import base list strings gmap pretty option sorting.
From Stdlib Require Import ZArith Lia.

(** * Results

    Rust's [Result<T, E>], with the error type first so that [result E] is a
    monad for stdpp's notations; [?] is the bind. *)

Inductive result (E A : Type) : Type :=
| Ok (a : A)
| Err (e : E).
Arguments Ok {E A} a.
Arguments Err {E A} e.

#[export] Instance result_eq_dec {E A} `{EqDecision E, EqDecision A} :
  EqDecision (result E A).
Proof. solve_decision. Defined.

#[export] Instance result_ret {E} : MRet (result E) := λ A a, Ok a.
#[export] Instance result_bind {E} : MBind (result E) := λ A B f r,
  match r with Ok a => f a | Err e => Err e end.

Definition ok_or {E A} (e : E) (o : option A) : result E A :=
  match o with Some a => Ok a | None => Err e end.

Definition map_err {E F A} (f : E → F) (r : result E A) : result F A :=
  match r with Ok a => Ok a | Err e => Err (f e) end.

Definition is_ok {E A} (r : result E A) : bool :=
  match r with Ok _ => true | Err _ => false end.

Lemma result_bind_Ok {E A B} (r : result E A) (f : A → result E B) b :
  (r ≫= f) = Ok b ↔ ∃ a, r = Ok a ∧ f a = Ok b.
Proof. destruct r; simpl; naive_solver. Qed.

Lemma ok_or_Ok {E A} (e : E) (o : option A) a : ok_or e o = Ok a ↔ o = Some a.
Proof. destruct o; simpl; naive_solver. Qed.

Lemma map_err_Ok {E F A} (f : E → F) (r : result E A) a :
  map_err f r = Ok a ↔ r = Ok a.
Proof. destruct r; simpl; naive_solver. Qed.

(** * Machine integers

    A [u8], [u16], [u32], [u64] or [usize] value is the [Z] it denotes.  The
    shipped binaries are built with [--release] (deploy/docker/Dockerfile) and
    no manifest turns overflow checks on, so plain [+] and [*] wrap. *)

Definition u32_max : Z := 2 ^ 32 - 1.
Definition u64_max : Z := 2 ^ 64 - 1.

Definition u32_wrap (z : Z) : Z := z mod 2 ^ 32.
Definition u64_wrap (z : Z) : Z := z mod 2 ^ 64.
Definition u32_add (a b : Z) : Z := u32_wrap (a + b).
Definition u32_mul (a b : Z) : Z := u32_wrap (a * b).
Definition u64_add (a b : Z) : Z := u64_wrap (a + b).

Definition u32_sat_add (a b : Z) : Z := Z.min u32_max (a + b).
Definition u32_sat_mul (a b : Z) : Z := Z.min u32_max (a * b).
Definition sat_sub (a b : Z) : Z := Z.max 0 (a - b).
Definition u64_sat_add (a b : Z) : Z := Z.min u64_max (a + b).
Definition u64_sat_mul (a b : Z) : Z := Z.min u64_max (a * b).

Definition in_u32 (z : Z) : Prop := (0 ≤ z ≤ u32_max)%Z.
Definition in_u64 (z : Z) : Prop := (0 ≤ z ≤ u64_max)%Z.

Lemma u32_wrap_id z : in_u32 z → u32_wrap z = z.
Proof. unfold in_u32, u32_max, u32_wrap. intros. apply Z.mod_small. lia. Qed.
Lemma u64_wrap_id z : in_u64 z → u64_wrap z = z.
Proof. unfold in_u64, u64_max, u64_wrap. intros. apply Z.mod_small. lia. Qed.
Lemma u32_wrap_range z : in_u32 (u32_wrap z).
Proof.
  unfold in_u32, u32_max, u32_wrap.
  pose proof (Z.mod_pos_bound z (2 ^ 32) eq_refl). lia.
Qed.
Lemma u64_wrap_range z : in_u64 (u64_wrap z).
Proof.
  unfold in_u64, u64_max, u64_wrap.
  pose proof (Z.mod_pos_bound z (2 ^ 64) eq_refl). lia.
Qed.

(** * Slices and vectors *)

Section lists.
Context {A : Type}.
Implicit Types (p : A → bool) (l : list A).

(** [Iterator::any] and [Iterator::find]. *)
Definition any p l : bool := existsb p l.

Fixpoint find_first p l : option A :=
  match l with
  | [] => None
  | x :: l => if p x then Some x else find_first p l
  end.

(** [Vec::retain] and [Iterator::filter] on boolean tests. *)
Fixpoint retain p l : list A :=
  match l with
  | [] => []
  | x :: l => if p x then x :: retain p l else retain p l
  end.

(** [iter().filter(p).count()], a [usize]. *)
Definition count p l : Z := Z.of_nat (length (retain p l)).

(** [if let Some(x) = iter_mut().find(p) { *x = f(x) }]. *)
Fixpoint update_first p (f : A → A) l : list A :=
  match l with
  | [] => []
  | x :: l => if p x then f x :: l else x :: update_first p f l
  end.

(** [if let Some(i) = v.iter().position(p) { v[i] = x } else { v.push(x) }]. *)
Definition upsert_by p (x : A) l : list A :=
  if any p l then update_first p (λ _, x) l else l ++ [x].

(** [while v.len() > n { v.pop_front(); }]. *)
Fixpoint trim_front (n : nat) l : list A :=
  match l with
  | [] => []
  | x :: l' => if decide (length l ≤ n) then l else trim_front n l'
  end.

(** [iter().rev().take(n)], in the order it yields. *)
Definition last_rev (n : nat) l : list A := take n (reverse l).

(** [Iterator::min_by_key]: the first element whose key is least. *)
Fixpoint min_by_key_from (key : A → Z) (best : A) l : A :=
  match l with
  | [] => best
  | x :: l => min_by_key_from key (if decide (key x < key best)%Z then x else best) l
  end.
Definition min_by_key (key : A → Z) l : option A :=
  match l with [] => None | x :: l => Some (min_by_key_from key x l) end.

Lemma any_true p l : any p l = true ↔ ∃ x, x ∈ l ∧ p x = true.
Proof.
  unfold any. rewrite existsb_exists. setoid_rewrite list_elem_of_In. done.
Qed.

Lemma any_false p l : any p l = false ↔ ∀ x, x ∈ l → p x = false.
Proof.
  rewrite <-not_true_iff_false, any_true. split.
  - intros H x Hx. apply not_true_iff_false. naive_solver.
  - intros H (x & Hx & Hp). by rewrite (H x Hx) in Hp.
Qed.

Lemma any_app p l k : any p (l ++ k) = any p l || any p k.
Proof. apply existsb_app. Qed.

Lemma find_first_Some p l x : find_first p l = Some x → x ∈ l ∧ p x = true.
Proof.
  induction l as [|y l IH]; simpl; [done|].
  rewrite elem_of_cons. destruct (p y) eqn:E; naive_solver.
Qed.

Lemma find_first_None p l : find_first p l = None ↔ any p l = false.
Proof.
  unfold any. induction l as [|y l IH]; simpl; [done|]. by destruct (p y).
Qed.

Lemma find_first_ext p q l :
  (∀ x, x ∈ l → p x = q x) → find_first p l = find_first q l.
Proof.
  induction l as [|y l IH]; simpl; intros H; [done|].
  rewrite (H y) by set_solver. destruct (q y); [done|]. apply IH. set_solver.
Qed.

Lemma find_first_app p l k :
  find_first p (l ++ k) =
  match find_first p l with Some x => Some x | None => find_first p k end.
Proof. induction l as [|y l IH]; simpl; [done|]. by destruct (p y). Qed.

Lemma elem_of_retain p l x : x ∈ retain p l ↔ x ∈ l ∧ p x = true.
Proof.
  induction l as [|y l IH]; simpl; [set_solver|].
  destruct (p y) eqn:E; rewrite !elem_of_cons, IH; clear IH;
    intuition congruence.
Qed.

Lemma retain_sublist p l : retain p l `sublist_of` l.
Proof.
  induction l as [|y l IH]; simpl; [done|].
  destruct (p y); [by apply sublist_skip | by apply sublist_cons].
Qed.

Lemma retain_app p l k : retain p (l ++ k) = retain p l ++ retain p k.
Proof. induction l as [|y l IH]; simpl; [done|]. rewrite IH. by destruct (p y). Qed.

Lemma retain_all p l : (∀ x, x ∈ l → p x = true) → retain p l = l.
Proof.
  induction l as [|y l IH]; simpl; intros H; [done|].
  rewrite (H y) by set_solver. f_equal. apply IH. set_solver.
Qed.

Lemma retain_none p l : (∀ x, x ∈ l → p x = false) → retain p l = [].
Proof.
  induction l as [|y l IH]; simpl; intros H; [done|].
  rewrite (H y) by set_solver. apply IH. set_solver.
Qed.

Lemma length_retain p l : length (retain p l) ≤ length l.
Proof. apply sublist_length, retain_sublist. Qed.

Lemma retain_ext p q l :
  (∀ x, x ∈ l → p x = q x) → retain p l = retain q l.
Proof.
  induction l as [|y l IH]; simpl; intros H; [done|].
  rewrite (H y) by set_solver. rewrite IH by set_solver. done.
Qed.

Lemma retain_Permutation p l k : l ≡ₚ k → retain p l ≡ₚ retain p k.
Proof.
  induction 1 as [|x l k ? IH|x y l|]; simpl; [done| | |by etrans].
  - destruct (p x); by rewrite IH.
  - destruct (p x), (p y); try apply perm_swap; apply Permutation_refl.
Qed.

Lemma length_update_first p f l : length (update_first p f l) = length l.
Proof. induction l as [|y l IH]; simpl; [done|]. destruct (p y); simpl; lia. Qed.

Lemma fmap_update_first {B} (g : A → B) p f l :
  (∀ x, g (f x) = g x) → g <$> update_first p f l = g <$> l.
Proof.
  intros H. induction l as [|y l IH]; [done|]. cbn [update_first].
  destruct (p y); rewrite !fmap_cons; [by rewrite H | by rewrite IH].
Qed.

(** An upsert by key keeps the keys, or adds one at the end. *)
Lemma fmap_upsert_by {B} (key : A → B) p x l :
  (∀ y, p y = true ↔ key y = key x) →
  key <$> upsert_by p x l = if any p l then key <$> l else (key <$> l) ++ [key x].
Proof.
  intros Hp. unfold upsert_by. destruct (any p l); [|by rewrite fmap_app].
  induction l as [|y l IH]; [done|]. cbn [update_first].
  destruct (p y) eqn:E; rewrite !fmap_cons; [|by rewrite IH].
  by rewrite (proj1 (Hp y) E).
Qed.

Lemma NoDup_upsert_by {B} (key : A → B) p x l :
  (∀ y, p y = true ↔ key y = key x) →
  NoDup (key <$> l) → NoDup (key <$> upsert_by p x l).
Proof.
  intros Hp Hl. rewrite (fmap_upsert_by key) by done. destruct (any p l) eqn:Ha; [done|].
  apply NoDup_app. split_and!; [done| |apply NoDup_singleton].
  intros k (y & -> & Hy)%list_elem_of_fmap Hk%list_elem_of_singleton.
  rewrite any_false in Ha. apply Hp in Hk. by rewrite (Ha y Hy) in Hk.
Qed.

Lemma elem_of_update_first p f l x :
  x ∈ update_first p f l → x ∈ l ∨ ∃ y, y ∈ l ∧ p y = true ∧ x = f y.
Proof.
  induction l as [|y l IH]; simpl; [set_solver|].
  destruct (p y) eqn:E; rewrite !elem_of_cons; intros [->|Hx]; auto.
  - right. exists y. by rewrite elem_of_cons; auto.
  - destruct (IH Hx) as [?|(z & ? & ? & ->)]; [auto|].
    right. exists z. by rewrite elem_of_cons; auto.
Qed.

Lemma elem_of_upsert_by p x l y : y ∈ upsert_by p x l → y ∈ l ∨ y = x.
Proof.
  unfold upsert_by. destruct (any p l).
  - intros [?|(z & _ & _ & ->)]%elem_of_update_first; auto.
  - intros [?| ->%list_elem_of_singleton]%elem_of_app; auto.
Qed.

Lemma find_first_update_first p f l x :
  (∀ y, p y = true → p (f y) = true) →
  find_first p l = Some x → find_first p (update_first p f l) = Some (f x).
Proof.
  intros Hf. induction l as [|y l IH]; simpl; [done|].
  destruct (p y) eqn:E; simpl; [|rewrite E; exact IH].
  intros [= ->]. by rewrite Hf.
Qed.

(** What an upsert finds afterwards, under a test that agrees with its own. *)
Lemma find_first_upsert p q x l :
  p x = true → q x = true → (∀ y, p y = true → q y = true) →
  (∀ y, q y = true → p y = true) → find_first q (upsert_by p x l) = Some x.
Proof.
  intros Hpx Hqx Hpq Hqp. unfold upsert_by. destruct (any p l) eqn:Ha.
  - induction l as [|y l IH]; [done|]. simpl in *. destruct (p y) eqn:Ey; simpl.
    + by rewrite Hqx.
    + destruct (q y) eqn:Eq; [by rewrite Hqp in Ey|]. by apply IH.
  - rewrite find_first_app. assert (find_first q l = None) as ->.
    { apply find_first_None, any_false. intros y Hy. rewrite any_false in Ha.
      apply not_true_iff_false. intros Hq%Hqp. by rewrite (Ha y Hy) in Hq. }
    simpl. by rewrite Hqx.
Qed.

Lemma find_first_upsert_ne p q x l :
  q x = false → (∀ y, p y = true → q y = false) → find_first q (upsert_by p x l) = find_first q l.
Proof.
  intros Hqx Hpq. unfold upsert_by. destruct (any p l).
  - induction l as [|y l IH]; [done|]. simpl. destruct (p y) eqn:Ey; simpl.
    + by rewrite Hqx, (Hpq y).
    + by rewrite IH.
  - rewrite find_first_app. simpl. rewrite Hqx. by destruct (find_first q l).
Qed.

Lemma upsert_by_fresh p x l : (∀ y, y ∈ l → p y = false) → upsert_by p x l = l ++ [x].
Proof. intros Hp. unfold upsert_by. by rewrite (proj2 (any_false p l)). Qed.

Lemma retain_update_first p f l :
  (∀ y, p y = true → p (f y) = true) →
  retain (λ y, negb (p y)) (update_first p f l) = retain (λ y, negb (p y)) l.
Proof.
  intros Hf. induction l as [|y l IH]; [done|]. cbn [update_first].
  destruct (p y) eqn:E; simpl; rewrite ?E, ?IH; [|done]. by rewrite Hf.
Qed.

Lemma find_first_retain p q l :
  (∀ y, p y = true → q y = true) → find_first p (retain q l) = find_first p l.
Proof.
  intros Hpq. induction l as [|y l IH]; simpl; [done|].
  destruct (q y) eqn:Eq; simpl; [by rewrite IH|].
  destruct (p y) eqn:Ep; [|done]. by rewrite Hpq in Eq.
Qed.

Lemma find_first_retain_none p l : find_first p (retain (λ y, negb (p y)) l) = None.
Proof.
  apply find_first_None, any_false. intros x [_ Hx]%elem_of_retain. by apply negb_true_iff.
Qed.

Lemma trim_front_drop n l : trim_front n l = drop (length l - n) l.
Proof.
  induction l as [|y l IH]; [done|]. cbn [trim_front]. case_decide as H.
  - replace (length (y :: l) - n) with 0 by lia. done.
  - rewrite IH. simpl length in *.
    replace (S (length l) - n) with (S (length l - n)) by lia. done.
Qed.

Lemma length_trim_front n l : length (trim_front n l) = min n (length l).
Proof. rewrite trim_front_drop, length_drop. lia. Qed.

Lemma trim_front_id n l : length l ≤ n → trim_front n l = l.
Proof. intros. rewrite trim_front_drop. replace (length l - n) with 0 by lia. done. Qed.

Lemma elem_of_trim_front n l x : x ∈ trim_front n l → x ∈ l.
Proof. rewrite trim_front_drop. intros Hx. eapply elem_of_sublist; [exact Hx|]. apply sublist_drop. Qed.

Lemma trim_front_snoc_last n l x :
  0 < n → last (trim_front n (l ++ [x])) = Some x.
Proof.
  intros. rewrite trim_front_drop, length_app, drop_app_le by (simpl; lia).
  by rewrite last_snoc.
Qed.

Lemma min_by_key_from_split key best l :
  let m := min_by_key_from key best l in
  ∃ before after, best :: l = before ++ m :: after ∧
    (∀ y, y ∈ before → (key m < key y)%Z) ∧ (∀ y, y ∈ after → (key m ≤ key y)%Z).
Proof.
  simpl. revert best. induction l as [|x l IH]; intros best; simpl.
  { exists [], []. split_and!; [done| |]; set_solver. }
  assert (Hhd : ∀ z, (key (min_by_key_from key z l) ≤ key z)%Z).
  { intros z. destruct (IH z) as ([|z' b] & a & Heq & Hb & _).
    - injection Heq as Hz _. rewrite <-Hz. lia.
    - pose proof (Hb z' ltac:(left)). injection Heq as -> _. lia. }
  case_decide as Hlt.
  - destruct (IH x) as (b & a & Heq & Hb & Ha). exists (best :: b), a.
    rewrite Heq. split_and!; [done| |done]. specialize (Hhd x).
    intros y [->|Hy]%elem_of_cons; [lia|by apply Hb].
  - destruct (IH best) as ([|z b] & a & Heq & Hb & Ha).
    + injection Heq as Hm Hl. exists [], (x :: l). subst l. rewrite <-Hm in Ha |- *.
      split_and!; [done|set_solver|].
      intros y [->|Hy]%elem_of_cons; [lia|by apply Ha].
    + injection Heq as <- Hl. exists (best :: x :: b), a. rewrite Hl at 1.
      pose proof (Hb best ltac:(left)). split_and!; [done| |done].
      intros y [->|[->|Hy]%elem_of_cons]%elem_of_cons; [lia|lia|].
      apply Hb. by right.
Qed.

Lemma min_by_key_None key l : min_by_key key l = None ↔ l = [].
Proof. destruct l; simpl; naive_solver. Qed.

Lemma min_by_key_Some key l x :
  min_by_key key l = Some x →
  ∃ before after, l = before ++ x :: after ∧
    (∀ y, y ∈ before → (key x < key y)%Z) ∧ (∀ y, y ∈ after → (key x ≤ key y)%Z).
Proof.
  destruct l as [|z l]; simpl; [done|]. intros [= <-].
  apply min_by_key_from_split.
Qed.

(** [slice::sort_by]: stable. *)
Fixpoint insert_by (le : A → A → bool) (x : A) l : list A :=
  match l with
  | [] => [x]
  | y :: l' => if le x y then x :: l else y :: insert_by le x l'
  end.
Definition stable_sort (le : A → A → bool) l : list A := foldr (insert_by le) [] l.

Lemma insert_by_perm le x l : insert_by le x l ≡ₚ x :: l.
Proof.
  induction l as [|y l IH]; simpl; [done|]. destruct (le x y); [done|].
  rewrite IH. apply Permutation_swap.
Qed.

Lemma stable_sort_perm le l : stable_sort le l ≡ₚ l.
Proof. induction l as [|x l IH]; simpl; [done|]. by rewrite insert_by_perm, IH. Qed.

Lemma stable_sort_sorted le l :
  (∀ x y, le x y = true ∨ le y x = true) → Sorted (λ x y, le x y = true) (stable_sort le l).
Proof.
  intros Htot. induction l as [|x l IH]; simpl; [constructor|].
  induction IH as [|y k Hk IHk Hy]; simpl; [by repeat constructor|].
  destruct (le x y) eqn:E.
  - constructor; [by constructor|by constructor].
  - constructor; [exact IHk|].
    assert (le y x = true) as Hyx by (destruct (Htot x y); congruence).
    destruct k as [|z k]; simpl; [by constructor|].
    destruct (le x z); [by constructor|]. inversion_clear Hy. by constructor.
Qed.
End lists.

Create HintDb quip.
#[export] Hint Resolve u32_wrap_range u64_wrap_range : quip.
