(* ===== verification/Text.v ===== *)
(** Rust's [str], [String] and byte strings, as far as the crates use them.

    A [String] or [&str] is its UTF-8 byte sequence (a Rocq [string]); [len]
    and slicing offsets count bytes, as in Rust.  [Vec<u8>] and [[u8; N]] are
    [list byte].  These are the standard library's operations, so nothing here
    maps to a file of the repository. *)
From stdpp Require Import base list strings gmap pretty option countable.
From Stdlib Require Import ZArith Lia Strings.Byte Strings.Ascii.
From S2P Require Import Prelude.

Notation bytes := (list byte).

#[export] Instance byte_eq_dec : EqDecision byte := Byte.byte_eq_dec.
#[export] Program Instance byte_countable : Countable byte :=
  inj_countable Byte.to_N Byte.of_N _.
Next Obligation. intros b. apply Byte.of_to_N. Qed.

(** A computation that returns or panics. *)
Inductive outcome (A : Type) : Type := Returns (a : A) | Panics.
Arguments Returns {A} a.
Arguments Panics {A}.

#[export] Instance outcome_ret : MRet outcome := λ A a, Returns a.
#[export] Instance outcome_bind : MBind outcome := λ A B f o,
  match o with Returns a => f a | Panics => Panics end.

(** [expect] on an option and on a result. *)
Definition expect_some {A} (o : option A) : outcome A :=
  match o with Some a => Returns a | None => Panics end.
Definition expect_ok {E A} (r : result E A) : outcome A :=
  match r with Ok a => Returns a | Err _ => Panics end.

Lemma outcome_bind_Returns {A B} (o : outcome A) (f : A → outcome B) b :
  (o ≫= f) = Returns b ↔ ∃ a, o = Returns a ∧ f a = Returns b.
Proof. destruct o; simpl; naive_solver. Qed.

(** [str::as_bytes], and [b"..."] literals. *)
Definition as_bytes (s : string) : bytes := String.list_byte_of_string s.

Definition byte_Z (b : byte) : Z := Z.of_N (Byte.to_N b).

Definition str_len (s : string) : Z := Z.of_nat (String.length s).

Definition starts_with (prefix s : string) : bool := String.prefix prefix s.

Fixpoint strip_prefix (prefix s : string) : option string :=
  match prefix, s with
  | EmptyString, _ => Some s
  | String a p, String b s => if Ascii.eqb a b then strip_prefix p s else None
  | String _ _, EmptyString => None
  end.

Fixpoint contains (needle s : string) : bool :=
  String.prefix needle s ||
  match s with EmptyString => false | String _ s => contains needle s end.

(** [s.matches(c).count()]. *)
Fixpoint count_char (c : ascii) (s : string) : nat :=
  match s with
  | EmptyString => 0
  | String a s => (if Ascii.eqb a c then 1 else 0) + count_char c s
  end.

Fixpoint string_forallb (p : ascii → bool) (s : string) : bool :=
  match s with EmptyString => true | String a s => p a && string_forallb p s end.

Fixpoint map_ascii (f : ascii → ascii) (s : string) : string :=
  match s with EmptyString => EmptyString | String a s => String (f a) (map_ascii f s) end.

(** [s.trim_end_matches(c)]. *)
Fixpoint trim_end_matches (c : ascii) (s : string) : string :=
  match s with
  | EmptyString => EmptyString
  | String a s' =>
      match trim_end_matches c s' with
      | EmptyString => if Ascii.eqb a c then EmptyString else String a EmptyString
      | t => String a t
      end
  end.

Definition ascii_upper (a : ascii) : ascii :=
  let n := N_of_ascii a in
  if (97 <=? n)%N && (n <=? 122)%N then ascii_of_N (n - 32) else a.
Definition ascii_lower (a : ascii) : ascii :=
  let n := N_of_ascii a in
  if (65 <=? n)%N && (n <=? 90)%N then ascii_of_N (n + 32) else a.
Definition to_ascii_uppercase (s : string) : string := map_ascii ascii_upper s.
(** [str::to_lowercase] on a string of ASCII characters. *)
Definition to_ascii_lowercase (s : string) : string := map_ascii ascii_lower s.

(** ** [str::trim]: Unicode [White_Space], matched on its UTF-8 encodings. *)

Definition whitespace_encodings : list (list N) :=
  [[9]; [10]; [11]; [12]; [13]; [32];
   [194; 133]; [194; 160]; [225; 154; 128];
   [226; 128; 128]; [226; 128; 129]; [226; 128; 130]; [226; 128; 131];
   [226; 128; 132]; [226; 128; 133]; [226; 128; 134]; [226; 128; 135];
   [226; 128; 136]; [226; 128; 137]; [226; 128; 138];
   [226; 128; 168]; [226; 128; 169]; [226; 128; 175]; [226; 129; 159];
   [227; 128; 128]]%N.

Fixpoint drop_code (code s : list N) : option (list N) :=
  match code, s with
  | [], _ => Some s
  | c :: code, x :: s => if (c =? x)%N then drop_code code s else None
  | _ :: _, [] => None
  end.

Fixpoint drop_any_code (codes : list (list N)) (s : list N) : option (list N) :=
  match codes with
  | [] => None
  | code :: codes =>
      match drop_code code s with Some s' => Some s' | None => drop_any_code codes s end
  end.

Fixpoint trim_codes (codes : list (list N)) (fuel : nat) (s : list N) : list N :=
  match fuel with
  | 0 => s
  | S fuel =>
      match drop_any_code codes s with
      | Some s' => trim_codes codes fuel s'
      | None => s
      end
  end.

Definition string_codes (s : string) : list N := N_of_ascii <$> String.list_ascii_of_string s.
Definition codes_string (l : list N) : string := String.string_of_list_ascii (ascii_of_N <$> l).

(** Every step removes at least one byte, so the length is enough fuel. *)
Definition trim (s : string) : string :=
  let l := string_codes s in
  let l := trim_codes whitespace_encodings (length l) l in
  let r := trim_codes (reverse <$> whitespace_encodings) (length l) (reverse l) in
  codes_string (reverse r).

(** ** Splitting and joining *)

Fixpoint split_acc (c : ascii) (s : string) : string * list string :=
  match s with
  | EmptyString => ("", [])
  | String a s =>
      let '(w, ws) := split_acc c s in
      if Ascii.eqb a c then ("", w :: ws) else (String a w, ws)
  end.
Definition split_char (c : ascii) (s : string) : list string :=
  let '(w, ws) := split_acc c s in w :: ws.

Fixpoint split_once (c : ascii) (s : string) : option (string * string) :=
  match s with
  | EmptyString => None
  | String a s =>
      if Ascii.eqb a c then Some ("", s)
      else match split_once c s with
           | Some (l, r) => Some (String a l, r)
           | None => None
           end
  end.

(** [str::parse::<u64>]: an optional plus, then decimal digits below 2^64. *)
Definition decimal_digit (a : ascii) : option Z :=
  let n := Z.of_N (N_of_ascii a) in
  if (48 <=? n)%Z && (n <=? 57)%Z then Some (n - 48)%Z else None.
Fixpoint decimal_value (acc : Z) (s : string) : option Z :=
  match s with
  | EmptyString => Some acc
  | String a s =>
      d ← decimal_digit a;
      if (acc * 10 + d <=? u64_max)%Z then decimal_value (acc * 10 + d) s else None
  end.
Definition parse_u64 (s : string) : option Z :=
  match s with
  | EmptyString => None
  | String "+"%char EmptyString => None
  | String "+"%char s => decimal_value 0 s
  | _ => decimal_value 0 s
  end.

Definition join (sep : string) (l : list string) : string := String.concat sep l.

(** ** Slices: [&s[a..b]] panics off a character boundary. *)

Definition is_char_boundary (s : string) (i : nat) : bool :=
  match i with
  | 0 => true
  | _ => match String.get i s with
         | Some a => negb ((128 <=? N_of_ascii a)%N && (N_of_ascii a <? 192)%N)
         | None => Nat.eqb i (String.length s)
         end
  end.

Definition str_slice (s : string) (a b : nat) : outcome string :=
  if (a <=? b)%nat && is_char_boundary s a && is_char_boundary s b
  then Returns (String.substring a (b - a) s) else Panics.

(** ** Hexadecimal *)

Definition hex_digit (n : N) : ascii :=
  if (n <? 10)%N then ascii_of_N (48 + n) else ascii_of_N (87 + n).

(** [format!("{byte:02x}")]. *)
Definition hex_byte (b : byte) : string :=
  let n := Byte.to_N b in
  String (hex_digit (n / 16)) (String (hex_digit (n mod 16)) EmptyString).

Fixpoint hex_string (l : bytes) : string :=
  match l with [] => "" | b :: l => hex_byte b +:+ hex_string l end.

Definition digit_value (a : ascii) : option N :=
  let n := N_of_ascii a in
  if (48 <=? n)%N && (n <=? 57)%N then Some (n - 48)%N
  else if (97 <=? n)%N && (n <=? 102)%N then Some (n - 87)%N
  else if (65 <=? n)%N && (n <=? 70)%N then Some (n - 55)%N
  else None.

Fixpoint digits_value (acc : N) (s : string) : option N :=
  match s with
  | EmptyString => Some acc
  | String a s =>
      match digit_value a with
      | Some d => if (acc * 16 + d <? 256)%N then digits_value (acc * 16 + d) s else None
      | None => None
      end
  end.

(** [u8::from_str_radix(s, 16).ok()]: one leading ['+'] is accepted. *)
Definition u8_from_hex (s : string) : option byte :=
  match s with
  | EmptyString => None
  | String a s' =>
      if Ascii.eqb a "+"%char
      then match s' with EmptyString => None | _ => digits_value 0 s' ≫= Byte.of_N end
      else digits_value 0 s ≫= Byte.of_N
  end.

Lemma u8_from_hex_byte b : u8_from_hex (hex_byte b) = Some b.
Proof. by destruct b. Qed.

Lemma length_hex_string l : String.length (hex_string l) = 2 * length l.
Proof.
  induction l as [|b l IH]; [done|].
  change (S (S (String.length (hex_string l))) = 2 * S (length l)). lia.
Qed.

Lemma hex_digit_ascii n : (n < 16)%N → (N_of_ascii (hex_digit n) < 128)%N.
Proof.
  intros H. unfold hex_digit.
  destruct (N.ltb_spec n 10); rewrite N_ascii_embedding; lia.
Qed.

(** ASCII text has a character boundary at every offset. *)
Definition is_ascii (s : string) : bool :=
  string_forallb (λ a, N_of_ascii a <? 128)%N s.

Lemma string_forallb_app p s t :
  string_forallb p (s +:+ t) = string_forallb p s && string_forallb p t.
Proof. induction s; simpl; [done|]. by rewrite IHs, andb_assoc. Qed.

Lemma string_forallb_get p s i a :
  string_forallb p s = true → String.get i s = Some a → p a = true.
Proof.
  revert i. induction s as [|b s IH]; intros i; simpl; [done|].
  intros [? ?]%andb_true_iff. destruct i; [naive_solver|]. by apply IH.
Qed.

Lemma string_get_None s i : String.get i s = None ↔ String.length s ≤ i.
Proof.
  revert i. induction s as [|b s IH]; intros [|i]; simpl; try (split; [done|lia]).
  - split; [lia|done].
  - split; [lia|done].
  - rewrite IH. lia.
Qed.

Lemma is_ascii_boundary s i :
  is_ascii s = true → i ≤ String.length s → is_char_boundary s i = true.
Proof.
  intros Hs Hi. unfold is_char_boundary. destruct i as [|i]; [done|].
  destruct (String.get (S i) s) as [a|] eqn:E.
  - pose proof (string_forallb_get _ _ _ _ Hs E) as H%N.ltb_lt.
    destruct (N.leb_spec 128 (N_of_ascii a)); [lia|done].
  - apply string_get_None in E. apply Nat.eqb_eq. lia.
Qed.

Lemma is_ascii_hex_string l : is_ascii (hex_string l) = true.
Proof.
  unfold is_ascii. induction l as [|b l IH]; [done|]. cbn [hex_string].
  rewrite string_forallb_app, IH, andb_true_r. by destruct b.
Qed.

Lemma strip_prefix_app p s : strip_prefix p (p +:+ s) = Some s.
Proof. induction p as [|a p IH]; simpl; [done|]. by rewrite Ascii.eqb_refl. Qed.

Lemma strip_prefix_Some p s t : strip_prefix p s = Some t ↔ s = p +:+ t.
Proof.
  split; [|intros ->; apply strip_prefix_app].
  revert s. induction p as [|a p IH]; intros [|b s]; simpl; try naive_solver.
  destruct (Ascii.eqb_spec a b) as [->|]; [|done]. intros ?%IH. by subst.
Qed.

Lemma starts_with_strip p s : starts_with p s = bool_decide (is_Some (strip_prefix p s)).
Proof.
  unfold starts_with. revert s. induction p as [|a p IH]; intros [|b s]; simpl; try done.
  destruct (ascii_dec a b) as [->|Hne].
  - rewrite Ascii.eqb_refl. apply IH.
  - apply Ascii.eqb_neq in Hne. by rewrite Hne.
Qed.

Lemma starts_with_app p s : starts_with p (p +:+ s) = true.
Proof. rewrite starts_with_strip, strip_prefix_app. by apply bool_decide_eq_true. Qed.

Lemma string_app_cons a s t : String a s +:+ t = String a (s +:+ t).
Proof. reflexivity. Qed.

Lemma string_app_assoc (s t u : string) : (s +:+ t) +:+ u = s +:+ (t +:+ u).
Proof. induction s as [|a s IH]; [done|]. rewrite !string_app_cons. by rewrite IH. Qed.

Lemma length_app_string (s t : string) :
  String.length (s +:+ t) = String.length s + String.length t.
Proof.
  induction s as [|a s IH]; [done|]. rewrite string_app_cons. simpl. by rewrite IH.
Qed.

Lemma substring_prefix (t u : string) : String.substring 0 (String.length t) (t +:+ u) = t.
Proof.
  induction t as [|a t IH]; [by destruct u|]. rewrite string_app_cons. simpl. by rewrite IH.
Qed.

Lemma substring_middle (s t u : string) :
  String.substring (String.length s) (String.length t) (s +:+ (t +:+ u)) = t.
Proof.
  induction s as [|a s IH]; [exact (substring_prefix t u)|]. rewrite string_app_cons. exact IH.
Qed.

Lemma str_slice_middle (s t u : string) :
  is_ascii (s +:+ (t +:+ u)) = true →
  str_slice (s +:+ (t +:+ u)) (String.length s) (String.length s + String.length t) = Returns t.
Proof.
  intros Ha. unfold str_slice.
  rewrite !is_ascii_boundary by (done || rewrite !length_app_string; lia).
  rewrite (proj2 (Nat.leb_le _ _)) by lia.
  replace (String.length s + String.length t - String.length s) with (String.length t) by lia.
  simpl. by rewrite substring_middle.
Qed.

Lemma hex_string_app (l k : bytes) : hex_string (l ++ k) = hex_string l +:+ hex_string k.
Proof.
  induction l as [|b l IH]; [done|]. cbn [hex_string app]. by rewrite IH, string_app_assoc.
Qed.

Lemma prefix_app_true p s : String.prefix p (p +:+ s) = true.
Proof. apply starts_with_app. Qed.

Lemma contains_app_l n s t : contains n s = true → contains n (s +:+ t) = true.
Proof.
  induction s as [|a s IH]; cbn [contains].
  - rewrite orb_false_r. intros H. destruct n; [|done]. by destruct t.
  - rewrite string_app_cons. cbn [contains]. intros [H|H]%orb_true_iff.
    + apply orb_true_iff. left. clear IH.
      change (String.prefix n (String a s +:+ t) = true).
      revert H. generalize (String a s). clear a s.
      induction n as [|b n IH]; intros [|a s]; simpl; try done; [by destruct t|].
      destruct (ascii_dec b a); [|done]. apply IH.
    + rewrite IH by done. apply orb_true_r.
Qed.

Lemma contains_app_r n s t : contains n t = true → contains n (s +:+ t) = true.
Proof.
  intros H. induction s as [|a s IH]; [done|].
  rewrite string_app_cons. cbn [contains]. rewrite IH. apply orb_true_r.
Qed.

Lemma contains_self n : contains n n = true.
Proof.
  assert (String.prefix n n = true) as H.
  { induction n as [|a n IH]; simpl; [done|]. by destruct (ascii_dec a a). }
  destruct n; [done|]. cbn [contains]. by rewrite H.
Qed.

(** ** Decimal numbers *)

Definition is_digit (a : ascii) : bool := bool_decide (is_Some (decimal_digit a)).

Lemma decimal_digit_char (x : N) :
  (x < 10)%N → decimal_digit (pretty_N_char x) = Some (Z.of_N x).
Proof.
  intros Hx. assert (x = 0 ∨ x = 1 ∨ x = 2 ∨ x = 3 ∨ x = 4 ∨ x = 5 ∨ x = 6 ∨ x = 7
    ∨ x = 8 ∨ x = 9)%N by lia. naive_solver.
Qed.

Lemma decimal_value_go (x : N) s :
  (Z.of_N x ≤ u64_max)%Z →
  decimal_value 0 (pretty_N_go x s) = decimal_value (Z.of_N x) s.
Proof.
  revert s. induction (N.lt_wf_0 x) as [x _ IH]; intros s Hx.
  assert (x = 0 ∨ 0 < x)%N as [->|Hpos] by lia; [by rewrite pretty_N_go_0|].
  pose proof (N.div_mod x 10 ltac:(lia)) as Hdm. pose proof (N.mod_lt x 10 ltac:(lia)) as Hr.
  pose proof (N.div_lt x 10 Hpos eq_refl) as Hlt.
  rewrite pretty_N_go_step by done. rewrite IH by (done || (clear - Hlt Hx; lia)).
  cbn [decimal_value]. rewrite decimal_digit_char by done. cbn [mbind option_bind].
  replace (Z.of_N (x `div` 10) * 10 + Z.of_N (x `mod` 10))%Z with (Z.of_N x) by lia.
  by rewrite (proj2 (Z.leb_le _ _)).
Qed.

Lemma pretty_N_go_digits (x : N) s :
  string_forallb is_digit s = true → string_forallb is_digit (pretty_N_go x s) = true.
Proof.
  revert s. induction (N.lt_wf_0 x) as [x _ IH]; intros s Hs.
  assert (x = 0 ∨ 0 < x)%N as [->|Hpos] by lia; [by rewrite pretty_N_go_0|].
  rewrite pretty_N_go_step by done. apply IH; [by apply N.div_lt|]. simpl.
  unfold is_digit. rewrite decimal_digit_char by (apply N.mod_lt; lia).
  by rewrite bool_decide_eq_true_2 by eauto.
Qed.

Lemma pretty_Z_N (z : Z) : (0 ≤ z)%Z → pretty z = pretty (Z.to_N z).
Proof. by destruct z. Qed.

Lemma pretty_digits (z : Z) : (0 ≤ z)%Z → string_forallb is_digit (pretty z) = true.
Proof.
  intros Hz. rewrite pretty_Z_N by done. unfold pretty, pretty_N.
  case_decide; [done|by apply pretty_N_go_digits].
Qed.

Lemma parse_u64_digits s :
  s ≠ "" → string_forallb is_digit s = true → parse_u64 s = decimal_value 0 s.
Proof.
  destruct s as [|a s]; [done|]. intros _ Hs. cbn [string_forallb] in Hs.
  apply andb_true_iff in Hs as [Ha _].
  destruct a as [[] [] [] [] [] [] [] []]; done.
Qed.

Lemma decimal_value_pretty z : in_u64 z → decimal_value 0 (pretty z) = Some z.
Proof.
  intros [Hz Hmax]. destruct (decide (z = 0%Z)) as [->|Hne]; [done|].
  rewrite pretty_Z_N by done. unfold pretty, pretty_N. rewrite decide_False by lia.
  rewrite decimal_value_go by lia. simpl. f_equal. lia.
Qed.

Lemma pretty_nonempty z : in_u64 z → pretty z ≠ "".
Proof.
  intros Hz He. pose proof (decimal_value_pretty z Hz) as Hv. rewrite He in Hv.
  simpl in Hv. injection Hv as <-. done.
Qed.

(** [parse] inverts [to_string]. *)
Lemma parse_u64_pretty z : in_u64 z → parse_u64 (pretty z) = Some z.
Proof.
  intros Hz. rewrite parse_u64_digits; [by apply decimal_value_pretty|by apply pretty_nonempty|].
  apply pretty_digits, Hz.
Qed.

Lemma split_char_none c s :
  string_forallb (λ a, negb (Ascii.eqb a c)) s = true → split_char c s = [s].
Proof.
  intros Hs. unfold split_char. assert (split_acc c s = (s, [])) as ->; [|done].
  induction s as [|a s IH]; [done|]. cbn [string_forallb split_acc] in *.
  apply andb_true_iff in Hs as [Ha Hs]. rewrite IH by done.
  apply negb_true_iff in Ha. by rewrite Ha.
Qed.

Lemma string_forallb_impl (p q : ascii → bool) s :
  (∀ a, p a = true → q a = true) → string_forallb p s = true → string_forallb q s = true.
Proof.
  intros Hpq. induction s as [|a s IH]; [done|]. simpl. rewrite !andb_true_iff. naive_solver.
Qed.
