(* ===== verification/BTree.v ===== *)
(** Rust's [BTreeMap] and [BTreeSet]: stdpp's [gmap] and [gset] for lookup,
    insertion and equality, with iteration in increasing key order.

    Derived [Ord] on byte vectors, byte arrays and strings is lexicographic on
    bytes; [OrdKey] gives the sequence of numbers a key is compared by. *)
From stdpp Require Import base list strings gmap option countable sorting.
From Stdlib Require Import ZArith Lia Strings.Byte Strings.Ascii.
From S2P Require Import Prelude Text.

Fixpoint lex_le (l k : list N) : bool :=
  match l, k with
  | [], _ => true
  | _ :: _, [] => false
  | x :: l, y :: k => if (x <? y)%N then true else if (y <? x)%N then false else lex_le l k
  end.

Lemma lex_le_total l k : lex_le l k = true ∨ lex_le k l = true.
Proof.
  revert k. induction l as [|x l IH]; intros [|y k]; simpl; auto.
  destruct (N.ltb_spec x y), (N.ltb_spec y x); auto.
Qed.

Lemma lex_le_trans l k m : lex_le l k = true → lex_le k m = true → lex_le l m = true.
Proof.
  revert k m. induction l as [|x l IH]; intros [|y k] [|z m]; simpl; try done.
  destruct (N.ltb_spec x y), (N.ltb_spec y x), (N.ltb_spec y z), (N.ltb_spec z y),
    (N.ltb_spec x z), (N.ltb_spec z x); try done; try lia. apply IH.
Qed.

Lemma lex_le_antisym l k : lex_le l k = true → lex_le k l = true → l = k.
Proof.
  revert k. induction l as [|x l IH]; intros [|y k]; simpl; try done.
  destruct (N.ltb_spec x y), (N.ltb_spec y x); try done; try lia.
  intros. assert (x = y) as -> by lia. f_equal. by apply IH.
Qed.

Class OrdKey (K : Type) := {
  key_rank : K → list N;
  key_rank_inj :: Inj (=) (=) key_rank;
}.

Definition byte_codes (l : bytes) : list N := Byte.to_N <$> l.

Lemma byte_codes_inj : Inj (=) (=) byte_codes.
Proof.
  intros l k. unfold byte_codes. apply list_fmap_eq_inj. intros a b H.
  apply (f_equal Byte.of_N) in H. rewrite !Byte.of_to_N in H. by simplify_eq.
Qed.

Lemma string_codes_inj : Inj (=) (=) string_codes.
Proof.
  intros s t H. unfold string_codes in H. apply list_fmap_eq_inj in H.
  - apply (f_equal String.string_of_list_ascii) in H.
    by rewrite !String.string_of_list_ascii_of_string in H.
  - intros a b Hab. apply (f_equal ascii_of_N) in Hab. by rewrite !ascii_N_embedding in Hab.
Qed.

Lemma singleton_code_inj : Inj (=) (=) (λ n : N, [n]).
Proof. intros a b. by intros [= ->]. Qed.

#[export] Instance ord_bytes : OrdKey bytes :=
  {| key_rank := byte_codes; key_rank_inj := byte_codes_inj |}.
#[export] Instance ord_string : OrdKey string :=
  {| key_rank := string_codes; key_rank_inj := string_codes_inj |}.
(** Unsigned integers, kept as [N] when they are keys. *)
#[export] Instance ord_N : OrdKey N :=
  {| key_rank := λ n, [n]; key_rank_inj := singleton_code_inj |}.

(** The derived order of a newtype is the order of its content. *)
Definition ord_newtype {A K} `{OrdKey K} (f : A → K) (Hf : Inj (=) (=) f) : OrdKey A :=
  {| key_rank := key_rank ∘ f; key_rank_inj := _ |}.

Section order.
Context {K : Type} `{OrdKey K}.
Definition key_le (a b : K) : Prop := lex_le (key_rank a) (key_rank b) = true.
Definition key_lt (a b : K) : Prop := key_le a b ∧ a ≠ b.

#[export] Instance key_le_dec a b : Decision (key_le a b).
Proof. unfold key_le. apply _. Defined.
#[export] Instance key_le_total : Total key_le.
Proof. intros a b. apply lex_le_total. Qed.
#[export] Instance key_le_trans : Transitive key_le.
Proof. intros a b c. apply lex_le_trans. Qed.
#[export] Instance key_le_antisym : AntiSymm (=) key_le.
Proof. intros a b ??. by apply (inj key_rank), lex_le_antisym. Qed.
End order.

Section map.
Context {K V : Type} `{Countable K, OrdKey K}.
Implicit Types (m : gmap K V) (p : V → bool).

Definition entry_le (a b : K * V) : Prop := key_le a.1 b.1.
#[export] Instance entry_le_dec a b : Decision (entry_le a b).
Proof. unfold entry_le. apply _. Defined.
#[export] Instance entry_le_total : Total entry_le.
Proof. intros a b. apply key_le_total. Qed.
#[export] Instance entry_le_trans : Transitive entry_le.
Proof. intros a b c. apply key_le_trans. Qed.

(** [iter()], [keys()], [values()] and [len()]. *)
Definition bt_entries m : list (K * V) := merge_sort entry_le (map_to_list m).
Definition bt_keys m : list K := (bt_entries m).*1.
Definition bt_values m : list V := (bt_entries m).*2.
Definition bt_len m : Z := Z.of_nat (size m).

Lemma bt_entries_Permutation m : bt_entries m ≡ₚ map_to_list m.
Proof. apply merge_sort_Permutation. Qed.

Lemma elem_of_bt_entries m k v : (k, v) ∈ bt_entries m ↔ m !! k = Some v.
Proof. by rewrite bt_entries_Permutation, elem_of_map_to_list. Qed.

Lemma elem_of_bt_values m v : v ∈ bt_values m ↔ ∃ k, m !! k = Some v.
Proof.
  unfold bt_values. rewrite list_elem_of_fmap. split.
  - intros ([k w] & -> & Hk%elem_of_bt_entries). by exists k.
  - intros (k & Hk%elem_of_bt_entries). by exists (k, v).
Qed.

Lemma elem_of_bt_keys m k : k ∈ bt_keys m ↔ is_Some (m !! k).
Proof.
  unfold bt_keys. rewrite list_elem_of_fmap. split.
  - intros ([k' v] & -> & Hk%elem_of_bt_entries). by exists v.
  - intros (v & Hk%elem_of_bt_entries). by exists (k, v).
Qed.

Lemma NoDup_bt_keys m : NoDup (bt_keys m).
Proof. unfold bt_keys. rewrite bt_entries_Permutation. apply NoDup_fst_map_to_list. Qed.

Lemma length_bt_entries m : length (bt_entries m) = size m.
Proof. rewrite bt_entries_Permutation. apply length_map_to_list. Qed.

Lemma length_bt_values m : length (bt_values m) = size m.
Proof. unfold bt_values. by rewrite length_fmap, length_bt_entries. Qed.

Lemma bt_keys_sorted m : StronglySorted key_lt (bt_keys m).
Proof.
  pose proof (NoDup_bt_keys m) as Hnd. unfold bt_keys, bt_entries in *.
  pose proof (StronglySorted_merge_sort entry_le (map_to_list m)) as Hs.
  induction Hs as [|x l Hs IH Hx]; simpl in *; [constructor|].
  apply NoDup_cons in Hnd as [Hn Hnd]. constructor; [by apply IH|].
  apply Forall_forall. intros k (y & -> & Hy)%list_elem_of_fmap.
  split; [by eapply Forall_forall in Hx|]. intros Heq. apply Hn. rewrite Heq.
  by apply list_elem_of_fmap_2.
Qed.

Lemma bt_keys_ext m m' :
  (∀ k, is_Some (m !! k) ↔ is_Some (m' !! k)) → bt_keys m = bt_keys m'.
Proof.
  intros Hk.
  assert (∀ m, StronglySorted key_le (bt_keys m)) as Hs.
  { intros n. pose proof (bt_keys_sorted n) as Hn.
    induction Hn as [|k l _ IH Hl]; constructor; [done|].
    eapply Forall_impl; [exact Hl|]. by intros j [? _]. }
  apply (StronglySorted_unique key_le); [done..|].
  apply NoDup_Permutation; [apply NoDup_bt_keys..|].
  intros k. by rewrite !elem_of_bt_keys.
Qed.

Lemma bt_values_insert_fresh m k v :
  m !! k = None → bt_values (<[k:=v]> m) ≡ₚ v :: bt_values m.
Proof.
  intros. unfold bt_values. rewrite !bt_entries_Permutation, map_to_list_insert by done.
  reflexivity.
Qed.

Lemma bt_values_delete m k v :
  m !! k = Some v → bt_values m ≡ₚ v :: bt_values (delete k m).
Proof.
  intros. unfold bt_values.
  rewrite !bt_entries_Permutation, <-(map_to_list_delete m k v) by done. reflexivity.
Qed.

(** The number of values that pass a test, under insertion. *)
Definition count_values p m : Z := count p (bt_values m).

Lemma count_cons p v l :
  count p (v :: l) = ((if p v then 1 else 0) + count p l)%Z.
Proof. unfold count. simpl. destruct (p v); simpl; lia. Qed.

Lemma count_Permutation p l l' : l ≡ₚ l' → count p l = count p l'.
Proof. intros Hp. unfold count. by rewrite (retain_Permutation _ _ _ Hp). Qed.

Lemma count_nonneg p l : (0 ≤ count p l)%Z.
Proof. unfold count. lia. Qed.

Lemma count_values_fresh p m k v :
  m !! k = None →
  count_values p (<[k:=v]> m) = ((if p v then 1 else 0) + count_values p m)%Z.
Proof.
  intros Hk. unfold count_values.
  by rewrite (count_Permutation _ _ _ (bt_values_insert_fresh _ _ v Hk)), count_cons.
Qed.

Lemma count_values_replace p m k v w :
  m !! k = Some w →
  count_values p (<[k:=v]> m) =
  (count_values p m - (if p w then 1 else 0) + (if p v then 1 else 0))%Z.
Proof.
  intros Hk. rewrite <-insert_delete_eq, count_values_fresh by apply lookup_delete_eq.
  unfold count_values.
  rewrite (count_Permutation _ _ _ (bt_values_delete _ _ _ Hk)), count_cons. lia.
Qed.

Lemma count_values_insert_le p m k v :
  (count_values p (<[k:=v]> m) ≤ count_values p m + (if p v then 1 else 0))%Z.
Proof.
  destruct (m !! k) as [w|] eqn:Hk.
  - rewrite (count_values_replace _ _ _ _ _ Hk). destruct (p w); lia.
  - rewrite count_values_fresh by done. lia.
Qed.

Lemma count_values_empty p : count_values p (∅ : gmap K V) = 0%Z.
Proof.
  unfold count_values, count, bt_values, bt_entries. by rewrite map_to_list_empty.
Qed.
End map.

(** [BTreeSet]: elements in increasing order. *)
Section set.
Context {K : Type} `{Countable K, OrdKey K}.

Definition bs_elements (X : gset K) : list K := merge_sort key_le (elements X).

Lemma elem_of_bs_elements X x : x ∈ bs_elements X ↔ x ∈ X.
Proof. unfold bs_elements. by rewrite merge_sort_Permutation, elem_of_elements. Qed.

Lemma NoDup_bs_elements X : NoDup (bs_elements X).
Proof. unfold bs_elements. rewrite merge_sort_Permutation. apply NoDup_elements. Qed.
End set.
