(* ===== verification/F32.v ===== *)
(** [f32] as IEEE 754 binary32, with the standard library's executable
    specification floats (24 bits of precision, exponents below 128). *)
From stdpp Require Import base list strings gmap pretty option.
From Stdlib Require Import ZArith Lia SpecFloat.
From S2P Require Import Prelude.

Notation f32 := spec_float.

#[export] Instance f32_eq_dec : EqDecision f32.
Proof. solve_decision. Defined.

Definition f32_mul (a b : f32) : f32 := SFmul 24 128 a b.
Definition f32_add (a b : f32) : f32 := SFadd 24 128 a b.
(** [a >= b], false on NaN; [a == b]. *)
Definition f32_ge (a b : f32) : bool := SFleb b a.
Definition f32_eqb (a b : f32) : bool := SFeqb a b.

(** An integer literal, and the decimal literal n/d correctly rounded. *)
Definition f32_of_Z (n : Z) : f32 := binary_normalize 24 128 n 0 false.
Definition f32_ratio (n d : Z) : f32 := SFdiv 24 128 (f32_of_Z n) (f32_of_Z d).

(** [x as u32]: truncation towards zero, saturating, NaN to 0. *)
Definition f32_as_u32 (x : f32) : Z :=
  match x with
  | S754_zero _ | S754_nan => 0
  | S754_infinity s => if s then 0 else u32_max
  | S754_finite true _ _ => 0
  | S754_finite false m e =>
      Z.min u32_max (if (0 <=? e)%Z then Z.pos m * 2 ^ e else Z.pos m / 2 ^ (- e))
  end.

(** [format!("{:.1}", x)]: exact, ties to even. *)
Definition f32_fixed1 (x : f32) : string :=
  match x with
  | S754_nan => "NaN"
  | S754_zero s => (if s then "-" else "") +:+ "0.0"
  | S754_infinity s => (if s then "-" else "") +:+ "inf"
  | S754_finite s m e =>
      let n := (if 0 <=? e then Z.pos m * 2 ^ e * 10 else Z.pos m * 10)%Z in
      let d := (if 0 <=? e then 1 else 2 ^ (- e))%Z in
      let q := (n / d)%Z in
      let r := (2 * (n mod d))%Z in
      let t := (if d <? r then q + 1 else if r <? d then q
                else if Z.even q then q else q + 1)%Z in
      (if s then "-" else "") +:+ pretty (t / 10)%Z +:+ "." +:+ pretty (t mod 10)%Z
  end.

(** Neither a NaN nor an infinity. *)
Definition f32_finite (x : f32) : bool :=
  match x with S754_zero _ | S754_finite _ _ _ => true | _ => false end.

Lemma f32_as_u32_range x : in_u32 (f32_as_u32 x).
Proof.
  unfold in_u32, f32_as_u32. pose proof (eq_refl : u32_max = 4294967295%Z).
  destruct x as [s|s| |[] m e]; try lia; [by destruct s; lia|].
  destruct (Z.leb_spec 0 e).
  - pose proof (Z.pow_nonneg 2 e). nia.
  - pose proof (Z.div_pos (Z.pos m) (2 ^ (- e))).
    pose proof (Z.pow_pos_nonneg 2 (- e)). lia.
Qed.

#[export] Hint Resolve f32_as_u32_range : quip.
