(* ===== verification/External.v ===== *)
(** Operations of third-party crates the program calls, as interfaces: each
    class lists the functions, and its [...Laws] companion the documented
    behaviour the theorems rely on.  The last section gives one concrete
    instance of every interface, at which the witnesses evaluate. *)
From stdpp Require Import base list strings gmap pretty option countable.
From Stdlib Require Import ZArith Lia Strings.Byte Strings.Ascii.
From S2P Require Import Prelude Text.

(** ** blake3, unsigned-varint, data-encoding *)

(** [blake3::hash]; a [Hasher] fed by several [update]s hashes their
    concatenation. *)
Class Blake3 := blake3 : bytes → bytes.
Class Blake3Laws `{Blake3} := blake3_length l : length (blake3 l) = 32.

(** [unsigned_varint::encode::u64]. *)
Class Varint := varint_u64 : Z → bytes.

(** [data_encoding::BASE32_NOPAD]; a decoding error is its display text. *)
Class Base32 := {
  b32_encode : bytes → string;
  b32_decode : bytes → result string bytes;
}.

Definition b32_symbol (a : ascii) : bool :=
  let n := N_of_ascii a in
  ((65 <=? n)%N && (n <=? 90)%N) || ((50 <=? n)%N && (n <=? 55)%N).

Class Base32Laws `{Base32} := {
  b32_alphabet l : string_forallb b32_symbol (b32_encode l) = true;
  b32_decode_encode l : b32_decode (as_bytes (b32_encode l)) = Ok l;
}.

(** ** ed25519-dalek, x25519-dalek, hkdf *)

Class Curves := {
  (** [SigningKey::from_bytes(s).verifying_key().to_bytes()] *)
  ed_public : bytes → bytes;
  (** [SigningKey::sign(msg).to_bytes()] *)
  ed_sign : bytes → bytes → bytes;
  (** [VerifyingKey::from_bytes(..).is_ok()] *)
  ed_valid_key : bytes → bool;
  (** [VerifyingKey::verify(msg, sig).is_ok()] *)
  ed_verify : bytes → bytes → bytes → bool;
  (** [PublicKey::from(&StaticSecret)], [StaticSecret::diffie_hellman] *)
  x_public : bytes → bytes;
  x_shared : bytes → bytes → bytes;
  (** [Hkdf::<Sha256>::new(None, secret).expand(info, [0; 32])] *)
  hkdf_expand32 : bytes → bytes → option bytes;
}.

Class CurveLaws `{Curves} := {
  ed_public_length s : length (ed_public s) = 32;
  ed_public_valid s : ed_valid_key (ed_public s) = true;
  ed_sign_length s m : length (ed_sign s m) = 64;
  ed_verify_sign s m : ed_verify (ed_public s) m (ed_sign s m) = true;
  x_shared_comm a b : x_shared a (x_public b) = x_shared b (x_public a);
}.

(** ** serde_json: [to_vec] of a type deriving [Serialize] *)

Class JsonBytes (A : Type) := to_vec : A → bytes.

(** ** std::fs

    What can stop [fs::write]: the path cannot be opened, or the write breaks
    off when the file has been emptied and part of the contents written. *)
Inductive WriteFault (C : Type) :=
| CannotOpen (err : string)
| BrokenOff (written : C) (err : string).
Arguments CannotOpen {C} err.
Arguments BrokenOff {C} written err.

Definition fs_write {C : Type} (fault : option (WriteFault C)) (path : string) (contents : C)
    (fs : gmap string C) : result string () * gmap string C :=
  match fault with
  | None => (Ok (), <[path := contents]> fs)
  | Some (CannotOpen err) => (Err err, fs)
  | Some (BrokenOff written err) => (Err err, <[path := written]> fs)
  end.

Lemma fs_write_other {C : Type} (fault : option (WriteFault C)) path contents (fs : gmap string C) other :
  other ≠ path → (fs_write fault path contents fs).2 !! other = fs !! other.
Proof. intros Ho. destruct fault as [[]|]; cbn; by rewrite ?lookup_insert_ne. Qed.

(** [serde_json::Value], with an object's entries in the order they are
    written, and its [to_string]. *)
Inductive Json :=
| JNull
| JBool (b : bool)
| JNum (n : Z)
| JStr (s : string)
| JArr (l : list Json)
| JObj (l : list (string * Json)).

Class JsonText := json_text : Json → string.

(** ** tiny_http *)

(** A request as the HTTP server hands it over: its method and URL, its
    Content-Length, and what reading that many bytes of body gives. *)
Record HttpRequest := {
  req_method : string;
  req_url : string;
  req_body_length : option Z;
  req_read : result string bytes;
}.

(** ** sha2: [Sha256] over a whole message *)

Class Sha256 := sha256 : bytes → bytes.

(** ** scrypt, chacha20poly1305, base64, hex *)

Class Sealing := {
  (** [scrypt(passphrase, salt, Params::recommended(), [0; 32])] *)
  scrypt_key : bytes → bytes → option bytes;
  (** [ChaCha20Poly1305::new(key).encrypt(nonce, msg)] and [decrypt] *)
  aead_encrypt : bytes → bytes → bytes → option bytes;
  aead_decrypt : bytes → bytes → bytes → option bytes;
  b64_encode : bytes → string;
  b64_decode : string → option bytes;
}.

Class SealingLaws `{Sealing} := {
  aead_roundtrip k n m c : aead_encrypt k n m = Some c → aead_decrypt k n c = Some m;
  b64_roundtrip l : b64_decode (b64_encode l) = Some l;
}.

(** ** One concrete instance *)

Module Demo.
Definition pad (n : nat) (l : bytes) : bytes := take n (l ++ replicate n x00).

Lemma length_pad n l : length (pad n l) = n.
Proof. unfold pad. rewrite length_take, length_app, length_replicate. lia. Qed.

#[export] Instance demo_blake3 : Blake3 := pad 32.
#[export] Instance demo_blake3_laws : Blake3Laws.
Proof. intros l. apply length_pad. Qed.

#[export] Instance demo_sha256 : Sha256 := pad 32.

(** Any countable type as bytes, one bit each. *)
Fixpoint pos_bytes (p : positive) : bytes :=
  match p with xH => [] | xO p => x00 :: pos_bytes p | xI p => x01 :: pos_bytes p end.
Fixpoint bytes_pos (l : bytes) : positive :=
  match l with
  | [] => xH
  | b :: l => if Byte.eqb b x00 then xO (bytes_pos l) else xI (bytes_pos l)
  end.
Lemma bytes_pos_bytes p : bytes_pos (pos_bytes p) = p.
Proof. induction p as [p IH|p IH|]; simpl; by rewrite ?IH. Qed.

Definition pack {A} `{Countable A} (a : A) : bytes := pos_bytes (encode a).
Definition unpack {A} `{Countable A} (l : bytes) : option A := decode (bytes_pos l).
Lemma unpack_pack {A} `{Countable A} (a : A) : unpack (pack a) = Some a.
Proof. unfold unpack, pack. by rewrite bytes_pos_bytes, decode_encode. Qed.

(** The same as a text. *)
Definition pack_text {A} `{Countable A} (a : A) : string := String.string_of_list_byte (pack a).
Definition unpack_text {A} `{Countable A} (s : string) : option A := unpack (as_bytes s).
Lemma pack_text_bytes {A} `{Countable A} (a : A) : as_bytes (pack_text a) = pack a.
Proof. apply String.list_byte_of_string_of_list_byte. Qed.
Lemma unpack_pack_text {A} `{Countable A} (a : A) : unpack_text (pack_text a) = Some a.
Proof. unfold unpack_text. by rewrite pack_text_bytes, unpack_pack. Qed.

(** JSON values as trees of a countable type. *)
Fixpoint json_tree (v : Json) : gen_tree (bool + Z + string) :=
  match v with
  | JNull => GenNode 0 []
  | JBool b => GenLeaf (inl (inl b))
  | JNum n => GenLeaf (inl (inr n))
  | JStr t => GenLeaf (inr t)
  | JArr l => GenNode 1 (json_tree <$> l)
  | JObj l => GenNode 2 ((λ kv, GenNode 3 [GenLeaf (inr kv.1); json_tree kv.2]) <$> l)
  end.
Fixpoint tree_json (t : gen_tree (bool + Z + string)) : Json :=
  match t with
  | GenLeaf (inl (inl b)) => JBool b
  | GenLeaf (inl (inr n)) => JNum n
  | GenLeaf (inr t) => JStr t
  | GenNode 1 ts => JArr (tree_json <$> ts)
  | GenNode 2 ts => JObj ((λ t, match t with
      | GenNode _ [GenLeaf (inr k); v] => (k, tree_json v) | _ => ("", JNull) end) <$> ts)
  | GenNode _ _ => JNull
  end.
Lemma tree_json_tree : ∀ v, tree_json (json_tree v) = v.
Proof.
  fix IH 1. intros [|b|n|t|l|l]; cbn [json_tree tree_json]; f_equal.
  - induction l as [|v l IHl]; [reflexivity|]. cbn. f_equal; [apply IH|exact IHl].
  - induction l as [|[k v] l IHl]; [reflexivity|]. cbn. f_equal; [f_equal; apply IH|exact IHl].
Qed.

#[export] Instance demo_varint : Varint := λ z,
  match Byte.of_N (Z.to_N (z mod 128)) with Some b => [b] | None => [] end.

(** Two letters per byte. *)
Definition letter (n : N) : ascii := ascii_of_N (65 + n).
Definition letters (b : byte) : string :=
  String (letter (Byte.to_N b / 16)) (String (letter (Byte.to_N b mod 16)) "").
Fixpoint letters_of (l : bytes) : string :=
  match l with [] => "" | b :: l => letters b +:+ letters_of l end.
Fixpoint bytes_of (l : bytes) : result string bytes :=
  match l with
  | [] => Ok []
  | [_] => Err "invalid length"
  | hi :: lo :: l =>
      match Byte.of_N ((Byte.to_N hi - 65) * 16 + (Byte.to_N lo - 65)) with
      | Some b => match bytes_of l with Ok k => Ok (b :: k) | Err e => Err e end
      | None => Err "invalid symbol"
      end
  end.

Lemma decode_letters b s :
  bytes_of (as_bytes (letters b +:+ s)) =
  match bytes_of (as_bytes s) with Ok k => Ok (b :: k) | Err e => Err e end.
Proof. by destruct b. Qed.

#[export] Instance demo_base32 : Base32 := {| b32_encode := letters_of; b32_decode := bytes_of |}.

#[export] Instance demo_base32_laws : Base32Laws.
Proof.
  split.
  - intros l. induction l as [|b l IH]; [done|].
    change (string_forallb b32_symbol (letters b +:+ letters_of l) = true).
    rewrite string_forallb_app. apply andb_true_iff. split; [by destruct b|exact IH].
  - intros l. induction l as [|b l IH]; [done|].
    change (bytes_of (as_bytes (letters b +:+ letters_of l)) = Ok (b :: l)).
    change (bytes_of (as_bytes (letters_of l)) = Ok l) in IH.
    by rewrite decode_letters, IH.
Qed.

(** Public keys are the secret padded to 32 bytes; a signature is the public
    key followed by 32 bytes of the message. *)
Definition demo_sign_public (p m : bytes) : bytes := pad 32 p ++ pad 32 m.

#[export] Instance demo_curves : Curves := {|
  ed_public s := pad 32 s;
  ed_sign s m := demo_sign_public (pad 32 s) m;
  ed_valid_key _ := true;
  ed_verify p m sig := bool_decide (sig = demo_sign_public p m);
  x_public s := pad 32 s;
  x_shared _ _ := replicate 32 x00;
  hkdf_expand32 s i := Some (pad 32 (s ++ i));
|}.

#[export] Instance demo_curve_laws : CurveLaws.
Proof.
  split; intros; simpl; try done.
  - apply length_pad.
  - unfold demo_sign_public. by rewrite length_app, !length_pad.
  - by apply bool_decide_eq_true.
Qed.

#[export] Instance demo_sealing : Sealing := {|
  scrypt_key p s := Some (pad 32 (p ++ s));
  aead_encrypt k n m := Some (pad 4 k ++ m);
  aead_decrypt k n c := if bool_decide (take 4 c = pad 4 k) then Some (drop 4 c) else None;
  b64_encode l := letters_of l;
  b64_decode s := match bytes_of (as_bytes s) with Ok l => Some l | Err _ => None end;
|}.

#[export] Instance demo_sealing_laws : SealingLaws.
Proof.
  split.
  - intros k n m c [= <-]. simpl.
    rewrite take_app_length', drop_app_length' by (by rewrite length_pad).
    by rewrite bool_decide_eq_true_2.
  - intros l. simpl. pose proof (b32_decode_encode l) as H. simpl in H. by rewrite H.
Qed.
End Demo.
