(* ===== verification/Model.v ===== *)
(** crates/model: identifiers and the small enums every other crate shares. *)
From stdpp Require Import base list strings gmap pretty option countable.
From Stdlib Require Import ZArith Lia Strings.Byte Strings.Ascii.
From S2P Require Import Prelude Text BTree F32 External.

(* crates/model/src/lib.rs:14-19 KeyAlgorithm *)
Inductive KeyAlgorithm := Ed25519 | X25519.

(* crates/model/src/lib.rs:21-25 KeyAlgorithm::codec *)
Definition codec (a : KeyAlgorithm) : Z :=
  match a with Ed25519 => 0xED | X25519 => 0xEC end.

(* crates/model/src/lib.rs:27-35 TypeError *)
Inductive TypeError :=
| InvalidPeerIdPrefix
| InvalidPeerIdEncoding (err : string)
| InvalidProtocolId.

(* crates/model/src/lib.rs:27-35 TypeError (Display) *)
Definition type_error_text (e : TypeError) : string :=
  match e with
  | InvalidPeerIdPrefix => "peer id text prefix is invalid"
  | InvalidPeerIdEncoding err => "peer id encoding is invalid: " +:+ err
  | InvalidProtocolId => "protocol id must start with '/' and contain at least one namespace"
  end.

(* crates/model/src/lib.rs:37-38 PeerId *)
Record PeerId := mk_PeerId { peer_bytes : bytes }.

(* crates/model/src/lib.rs:83-84 NetworkId *)
Record NetworkId := mk_NetworkId { network_bytes : bytes }.

(* crates/model/src/lib.rs:120-121 ContentId *)
Record ContentId := mk_ContentId { content_bytes : bytes }.

(* crates/model/src/lib.rs:138-139 ProtocolId *)
Record ProtocolId := mk_ProtocolId { protocol_text : string }.

(* crates/model/src/lib.rs:169-170 RecordNamespace *)
Record RecordNamespace := mk_RecordNamespace { namespace_text : string }.

(* crates/model/src/lib.rs:178-184 TrafficClass *)
Inductive TrafficClass := Control | Interactive | Bulk | Background.

(* crates/model/src/lib.rs:186-193 PathKind *)
Inductive PathKind := DirectUdp | DirectIpv6 | Relay | Loopback | Lan.

#[export] Instance KeyAlgorithm_eq_dec : EqDecision KeyAlgorithm.
Proof. solve_decision. Defined.
#[export] Instance TypeError_eq_dec : EqDecision TypeError.
Proof. solve_decision. Defined.
#[export] Instance PeerId_eq_dec : EqDecision PeerId.
Proof. solve_decision. Defined.
#[export] Instance NetworkId_eq_dec : EqDecision NetworkId.
Proof. solve_decision. Defined.
#[export] Instance ContentId_eq_dec : EqDecision ContentId.
Proof. solve_decision. Defined.
#[export] Instance ProtocolId_eq_dec : EqDecision ProtocolId.
Proof. solve_decision. Defined.
#[export] Instance RecordNamespace_eq_dec : EqDecision RecordNamespace.
Proof. solve_decision. Defined.
#[export] Instance TrafficClass_eq_dec : EqDecision TrafficClass.
Proof. solve_decision. Defined.
#[export] Instance PathKind_eq_dec : EqDecision PathKind.
Proof. solve_decision. Defined.

#[export] Program Instance PeerId_countable : Countable PeerId :=
  inj_countable' peer_bytes mk_PeerId _.
Next Obligation. by intros []. Qed.
#[export] Program Instance ProtocolId_countable : Countable ProtocolId :=
  inj_countable' protocol_text mk_ProtocolId _.
Next Obligation. by intros []. Qed.

Lemma peer_bytes_inj : Inj (=) (=) peer_bytes.
Proof. intros [] [] ?. simpl in *. by subst. Qed.
Lemma protocol_text_inj : Inj (=) (=) protocol_text.
Proof. intros [] [] ?. simpl in *. by subst. Qed.
#[export] Instance ord_PeerId : OrdKey PeerId := ord_newtype peer_bytes peer_bytes_inj.
#[export] Instance ord_ProtocolId : OrdKey ProtocolId :=
  ord_newtype protocol_text protocol_text_inj.

(* crates/model/src/lib.rs:195-203 PathStats *)
Record PathStats := {
  ps_peer : PeerId;
  ps_path_kind : PathKind;
  ps_rtt_ms : Z;
  ps_jitter_ms : Z;
  ps_loss_pct : f32;
  ps_relay_peer : option PeerId;
}.

(* crates/model/src/lib.rs:205-211 PeerView *)
Record PeerView := {
  pv_peer : PeerId;
  pv_protocols : gset ProtocolId;
  pv_addresses : list string;
  pv_metadata : gmap string string;
}.

(* crates/model/src/lib.rs:10-12 NETWORK_ID_DOMAIN *)
Definition NETWORK_ID_DOMAIN : bytes := as_bytes "quip:network-id:v1".
(* crates/model/src/lib.rs:11-11 CONTENT_ID_DOMAIN *)
Definition CONTENT_ID_DOMAIN : bytes := as_bytes "quip:content-id:v1".
(* crates/model/src/lib.rs:12-12 BLAKE3_256_MULTIHASH_CODE *)
Definition BLAKE3_256_MULTIHASH_CODE : Z := 0x1E.

Section ids.
Context `{Blake3, Varint, Base32}.

(* crates/model/src/lib.rs:99-112 encode_multihash *)
Definition encode_multihash (payload : bytes) : bytes :=
  let digest := blake3 payload in
  varint_u64 BLAKE3_256_MULTIHASH_CODE ++ varint_u64 (Z.of_nat (length digest)) ++ digest.

(* crates/model/src/lib.rs:41-50 PeerId::from_public_key *)
Definition PeerId_from_public_key (algorithm : KeyAlgorithm) (public_key : bytes) : PeerId :=
  mk_PeerId (varint_u64 (codec algorithm) ++ encode_multihash public_key).

(* crates/model/src/lib.rs:56-58 PeerId::to_text *)
Definition PeerId_to_text (p : PeerId) : string :=
  "peer1" +:+ to_ascii_lowercase (b32_encode (peer_bytes p)).

(* crates/model/src/lib.rs:67-81 PeerId::from_str *)
Definition PeerId_from_str (value : string) : result TypeError PeerId :=
  match strip_prefix "peer1" value with
  | None => Err InvalidPeerIdPrefix
  | Some encoded =>
      match b32_decode (as_bytes (to_ascii_uppercase encoded)) with
      | Err err => Err (InvalidPeerIdEncoding err)
      | Ok bytes => Ok (mk_PeerId bytes)
      end
  end.

(* crates/model/src/lib.rs:87-92 NetworkId::derive *)
Definition NetworkId_derive (scope : bytes) : NetworkId :=
  mk_NetworkId (blake3 (NETWORK_ID_DOMAIN ++ scope)).

(* crates/model/src/lib.rs:94-96 NetworkId::to_text *)
Definition NetworkId_to_text (n : NetworkId) : string :=
  "net1" +:+ to_ascii_lowercase (b32_encode (network_bytes n)).

(* crates/model/src/lib.rs:123-130 ContentId::hash *)
Definition ContentId_hash (content : bytes) : ContentId :=
  mk_ContentId (blake3 (CONTENT_ID_DOMAIN ++ content)).

(* crates/model/src/lib.rs:132-136 ContentId::fmt *)
Definition ContentId_to_text (c : ContentId) : string :=
  to_ascii_lowercase (b32_encode (content_bytes c)).
End ids.

(* crates/model/src/lib.rs:141-153 ProtocolId::new *)
Definition ProtocolId_new (value : string) : result TypeError ProtocolId :=
  if negb (starts_with "/" value) || (count_char "/"%char value <? 2)%nat
  then Err InvalidProtocolId else Ok (mk_ProtocolId value).

(* crates/model/src/lib.rs:161-167 ProtocolId::from_str *)
Definition ProtocolId_from_str (s : string) : result TypeError ProtocolId := ProtocolId_new s.

(* crates/model/src/lib.rs:172-176 RecordNamespace::new *)
Definition RecordNamespace_new (value : string) : RecordNamespace := mk_RecordNamespace value.

(** [{:?}] of the shared enums. *)
Definition TrafficClass_debug (c : TrafficClass) : string :=
  match c with
  | Control => "Control" | Interactive => "Interactive"
  | Bulk => "Bulk" | Background => "Background"
  end.
Definition PathKind_debug (k : PathKind) : string :=
  match k with
  | DirectUdp => "DirectUdp" | DirectIpv6 => "DirectIpv6" | Relay => "Relay"
  | Loopback => "Loopback" | Lan => "Lan"
  end.

(** ** Lemmas *)

Lemma upper_lower_b32 s :
  string_forallb b32_symbol s = true → to_ascii_uppercase (to_ascii_lowercase s) = s.
Proof.
  induction s as [|a s IH]; [done|]. cbn [string_forallb].
  intros [Ha Hs]%andb_true_iff. unfold to_ascii_uppercase, to_ascii_lowercase in *.
  cbn [map_ascii]. rewrite IH by done. f_equal. clear IH Hs.
  revert Ha. by destruct a as [[] [] [] [] [] [] [] []].
Qed.

Section id_lemmas.
Context `{Blake3, Varint, Base32, !Base32Laws}.

(** A peer identifier survives its textual form: parsing what
    [to_text] prints gives the identifier back. *)
Lemma peer_id_text_roundtrip (p : PeerId) : PeerId_from_str (PeerId_to_text p) = Ok p.
Proof.
  unfold PeerId_from_str, PeerId_to_text. rewrite strip_prefix_app.
  rewrite upper_lower_b32 by apply b32_alphabet.
  rewrite b32_decode_encode. by destruct p.
Qed.
End id_lemmas.

Section witnesses.
Import External.Demo.

Lemma peer_id_text_roundtrip_witness :
  PeerId_from_str (PeerId_to_text (PeerId_from_public_key Ed25519 [x61; x62])) =
  Ok (PeerId_from_public_key Ed25519 [x61; x62]).
Proof. apply peer_id_text_roundtrip. Defined.
End witnesses.

(** Accepted protocol identifiers are exactly those with two slashes, the
    first one leading, and [new] keeps the text. *)
Lemma ProtocolId_new_spec v p :
  ProtocolId_new v = Ok p ↔
  protocol_text p = v ∧ starts_with "/" v = true ∧ 2 ≤ count_char "/"%char v.
Proof.
  unfold ProtocolId_new. destruct p as [t]. simpl.
  destruct (starts_with "/" v); simpl; [|naive_solver].
  destruct (Nat.ltb_spec (count_char "/"%char v) 2); simpl.
  - split; [done|]. intros (_ & _ & ?). lia.
  - split; [|naive_solver]. intros [= ->]. auto.
Qed.
