(* ===== verification/Crypto.v ===== *)
(** crates/crypto: identity keys, signatures, session keys and hashing, over
    the curve and hash operations of the crates it wraps. *)
From stdpp Require Import base list strings gmap pretty option countable.
From Stdlib Require Import ZArith Lia Strings.Byte.
From S2P Require Import Prelude Text BTree F32 External Model.

(* crates/crypto/src/lib.rs:13-23 CryptoError *)
Inductive CryptoError :=
| InvalidSignature
| InvalidPublicKey
| InvalidKeyMaterial
| KeyDerivationFailed.

(* crates/crypto/src/lib.rs:25-29 PublicIdentityKey *)
Record PublicIdentityKey := {
  pk_algorithm : KeyAlgorithm;
  pk_bytes : bytes;
}.

(* crates/crypto/src/lib.rs:46-49 IdentityKeypair *)
Record IdentityKeypair := { signing_key : bytes }.

(* crates/crypto/src/lib.rs:91-92 SignatureBytes *)
Record SignatureBytes := mk_SignatureBytes { signature_bytes : bytes }.

(* crates/crypto/src/lib.rs:122-126 SessionKeypair *)
Record SessionKeypair := { sk_secret : bytes; sk_public : bytes }.

#[export] Instance CryptoError_eq_dec : EqDecision CryptoError.
Proof. solve_decision. Defined.
#[export] Instance PublicIdentityKey_eq_dec : EqDecision PublicIdentityKey.
Proof. solve_decision. Defined.
#[export] Instance IdentityKeypair_eq_dec : EqDecision IdentityKeypair.
Proof. solve_decision. Defined.
#[export] Instance SignatureBytes_eq_dec : EqDecision SignatureBytes.
Proof. solve_decision. Defined.

(** [<[u8; N]>::try_from(Vec<u8>)]. *)
Definition to_array {E} (n : nat) (e : E) (l : bytes) : result E bytes :=
  if decide (length l = n) then Ok l else Err e.

Section crypto.
Context `{Blake3, Varint, Curves}.

(* crates/crypto/src/lib.rs:32-39 PublicIdentityKey::as_verifying_key *)
Definition as_verifying_key (k : PublicIdentityKey) : result CryptoError bytes :=
  bytes ← to_array 32 InvalidPublicKey (pk_bytes k);
  if ed_valid_key bytes then Ok bytes else Err InvalidPublicKey.

(* crates/crypto/src/lib.rs:41-43 PublicIdentityKey::peer_id *)
Definition key_peer_id (k : PublicIdentityKey) : PeerId :=
  PeerId_from_public_key (pk_algorithm k) (pk_bytes k).

(* crates/crypto/src/lib.rs:52-56 IdentityKeypair::generate *)
Definition keypair_generate (random : bytes) : IdentityKeypair :=
  {| signing_key := random |}.

(* crates/crypto/src/lib.rs:58-62 IdentityKeypair::from_secret_bytes *)
Definition from_secret_bytes (bytes : bytes) : IdentityKeypair :=
  {| signing_key := bytes |}.

(* crates/crypto/src/lib.rs:64-69 IdentityKeypair::public_key *)
Definition public_key (k : IdentityKeypair) : PublicIdentityKey :=
  {| pk_algorithm := Ed25519; pk_bytes := ed_public (signing_key k) |}.

(* crates/crypto/src/lib.rs:71-73 IdentityKeypair::peer_id *)
Definition peer_id (k : IdentityKeypair) : PeerId := key_peer_id (public_key k).

(* crates/crypto/src/lib.rs:75-77 IdentityKeypair::sign *)
Definition sign (k : IdentityKeypair) (payload : bytes) : SignatureBytes :=
  mk_SignatureBytes (ed_sign (signing_key k) payload).

(* crates/crypto/src/lib.rs:79-81 IdentityKeypair::secret_bytes *)
Definition secret_bytes (k : IdentityKeypair) : bytes := signing_key k.

(* crates/crypto/src/lib.rs:95-110 SignatureBytes::verify *)
Definition verify (s : SignatureBytes) (k : PublicIdentityKey) (payload : bytes)
    : result CryptoError () :=
  signature ← to_array 64 InvalidSignature (signature_bytes s);
  key ← as_verifying_key k;
  if ed_verify key payload signature then Ok () else Err InvalidSignature.

(* crates/crypto/src/lib.rs:114-119 SignatureBytes::fmt *)
Definition signature_text (s : SignatureBytes) : string := hex_string (signature_bytes s).

(* crates/crypto/src/lib.rs:129-133 SessionKeypair::generate *)
Definition session_generate (random : bytes) : SessionKeypair :=
  {| sk_secret := random; sk_public := x_public random |}.

(* crates/crypto/src/lib.rs:135-137 SessionKeypair::public_key_bytes *)
Definition public_key_bytes (k : SessionKeypair) : bytes := sk_public k.

(* crates/crypto/src/lib.rs:139-151 SessionKeypair::derive_shared_secret *)
Definition derive_shared_secret (k : SessionKeypair) (remote info : bytes)
    : result CryptoError bytes :=
  ok_or KeyDerivationFailed (hkdf_expand32 (x_shared (sk_secret k) remote) info).

(* crates/crypto/src/lib.rs:160-162 hash_bytes *)
Definition hash_bytes (payload : bytes) : bytes := blake3 payload.

(* crates/crypto/src/lib.rs:164-170 hkdf_derive *)
Definition hkdf_derive (secret context : bytes) : result CryptoError bytes :=
  ok_or KeyDerivationFailed (hkdf_expand32 secret context).
End crypto.

Section crypto_lemmas.
Context `{Blake3, Varint, Curves, !CurveLaws}.

(** Which error [verify] reports: the signature's length is looked at first,
    then the key, then the equation. *)
Lemma verify_cases s k m :
  verify s k m =
  if decide (length (signature_bytes s) = 64)
  then if decide (length (pk_bytes k) = 32 ∧ ed_valid_key (pk_bytes k) = true)
       then if ed_verify (pk_bytes k) m (signature_bytes s)
            then Ok () else Err InvalidSignature
       else Err InvalidPublicKey
  else Err InvalidSignature.
Proof.
  unfold verify, as_verifying_key, to_array.
  destruct (decide (length (signature_bytes s) = 64)); simpl; [|done].
  destruct (decide (length (pk_bytes k) = 32)) as [E|E]; simpl.
  - destruct (ed_valid_key (pk_bytes k)) eqn:Ev; simpl.
    + by rewrite decide_True.
    + rewrite decide_False by (intros [??]; congruence). done.
  - rewrite decide_False by tauto. done.
Qed.

Lemma verify_sign k m : verify (sign k m) (public_key k) m = Ok ().
Proof.
  rewrite verify_cases. simpl. pose proof (ed_public_length (signing_key k)).
  rewrite decide_True by apply ed_sign_length.
  rewrite decide_True by auto using ed_public_valid.
  by rewrite ed_verify_sign.
Qed.

Lemma shared_secret_agrees a b info :
  derive_shared_secret (session_generate a) (public_key_bytes (session_generate b)) info =
  derive_shared_secret (session_generate b) (public_key_bytes (session_generate a)) info.
Proof. unfold derive_shared_secret. simpl. by rewrite x_shared_comm. Qed.
End crypto_lemmas.

