(* ===== verification/Records.v ===== *)
(** crates/records: signed records. *)
From stdpp Require Import base list strings gmap pretty option countable.
From Stdlib Require Import ZArith Lia Strings.Byte.
From S2P Require Import Prelude Text BTree F32 External Model Crypto.

(* crates/records/src/lib.rs:6-12 RecordError *)
Inductive RecordError := RecordInvalidSignature | PayloadHashMismatch.

(* crates/records/src/lib.rs:14-28 SignedRecord *)
Record SignedRecord := {
  sr_network_id : NetworkId;
  sr_namespace : RecordNamespace;
  sr_record_type : string;
  sr_schema_version : Z;
  sr_author_peer_id : PeerId;
  sr_sequence : Z;
  sr_issued_at : Z;
  sr_expires_at : Z;
  sr_previous_hash : option bytes;
  sr_payload_hash : bytes;
  sr_payload : bytes;
  sr_signature : SignatureBytes;
}.

(* crates/records/src/lib.rs:88-101 UnsignedRecord *)
Record UnsignedRecord := {
  ur_network_id : NetworkId;
  ur_namespace : RecordNamespace;
  ur_record_type : string;
  ur_schema_version : Z;
  ur_author_peer_id : PeerId;
  ur_sequence : Z;
  ur_issued_at : Z;
  ur_expires_at : Z;
  ur_previous_hash : option bytes;
  ur_payload_hash : bytes;
  ur_payload : bytes;
}.

#[export] Instance SignedRecord_eq_dec : EqDecision SignedRecord.
Proof. solve_decision. Defined.

(* crates/records/src/lib.rs:103-119 UnsignedRecord::from *)
Definition unsigned_record (v : SignedRecord) : UnsignedRecord := {|
  ur_network_id := sr_network_id v;
  ur_namespace := sr_namespace v;
  ur_record_type := sr_record_type v;
  ur_schema_version := sr_schema_version v;
  ur_author_peer_id := sr_author_peer_id v;
  ur_sequence := sr_sequence v;
  ur_issued_at := sr_issued_at v;
  ur_expires_at := sr_expires_at v;
  ur_previous_hash := sr_previous_hash v;
  ur_payload_hash := sr_payload_hash v;
  ur_payload := sr_payload v;
|}.

Section records.
Context `{Blake3, Varint, Curves, JsonBytes UnsignedRecord}.

(* crates/records/src/lib.rs:31-73 SignedRecord::sign *)
Definition record_sign (network_id : NetworkId) (namespace : RecordNamespace)
    (record_type : string) (schema_version : Z) (author : IdentityKeypair)
    (sequence issued_at expires_at : Z) (previous_hash : option bytes)
    (payload : bytes) : SignedRecord :=
  let payload_hash := hash_bytes payload in
  let unsigned := {|
    ur_network_id := network_id;
    ur_namespace := namespace;
    ur_record_type := record_type;
    ur_schema_version := schema_version;
    ur_author_peer_id := peer_id author;
    ur_sequence := sequence;
    ur_issued_at := issued_at;
    ur_expires_at := expires_at;
    ur_previous_hash := previous_hash;
    ur_payload_hash := payload_hash;
    ur_payload := payload;
  |} in
  let signature := sign author (to_vec unsigned) in
  {|
    sr_network_id := network_id;
    sr_namespace := namespace;
    sr_record_type := ur_record_type unsigned;
    sr_schema_version := schema_version;
    sr_author_peer_id := ur_author_peer_id unsigned;
    sr_sequence := sequence;
    sr_issued_at := issued_at;
    sr_expires_at := expires_at;
    sr_previous_hash := previous_hash;
    sr_payload_hash := payload_hash;
    sr_payload := payload;
    sr_signature := signature;
  |}.

(* crates/records/src/lib.rs:75-85 SignedRecord::verify *)
Definition record_verify (r : SignedRecord) (key : PublicIdentityKey)
    : result RecordError () :=
  if decide (hash_bytes (sr_payload r) ≠ sr_payload_hash r)
  then Err PayloadHashMismatch
  else map_err (λ _, RecordInvalidSignature)
         (verify (sr_signature r) key (to_vec (unsigned_record r))).

(** Replacing the payload of a record, as an attacker would. *)
Definition with_payload (payload : bytes) (r : SignedRecord) : SignedRecord := {|
  sr_network_id := sr_network_id r;
  sr_namespace := sr_namespace r;
  sr_record_type := sr_record_type r;
  sr_schema_version := sr_schema_version r;
  sr_author_peer_id := sr_author_peer_id r;
  sr_sequence := sr_sequence r;
  sr_issued_at := sr_issued_at r;
  sr_expires_at := sr_expires_at r;
  sr_previous_hash := sr_previous_hash r;
  sr_payload_hash := sr_payload_hash r;
  sr_payload := payload;
  sr_signature := sr_signature r;
|}.

(** A freshly signed record verifies under its author's key; with its payload
    replaced by one of a different hash, it is refused under every key. *)
Lemma record_sign_verify `{!CurveLaws} net ns ty ver author seq iat exp prev payload :
  let r := record_sign net ns ty ver author seq iat exp prev payload in
  record_verify r (public_key author) = Ok () ∧
  ∀ payload' key, blake3 payload' ≠ blake3 payload →
    record_verify (with_payload payload' r) key = Err PayloadHashMismatch.
Proof.
  simpl. split.
  - unfold record_verify. simpl. rewrite decide_False by naive_solver.
    unfold unsigned_record. simpl. by rewrite verify_sign.
  - intros payload' key Hne. unfold record_verify. simpl. by rewrite decide_True.
Qed.
End records.
