(* ===== verification/Identity.v ===== *)
(** crates/identity: session credentials and the encrypted file keystore. *)
From stdpp Require Import base list strings gmap pretty option countable.
From Stdlib Require Import ZArith Lia Strings.Byte.
From S2P Require Import Prelude Text BTree F32 External Model Crypto.

(* crates/identity/src/lib.rs:16-26 IdentityError *)
Inductive IdentityError :=
| Io (err : string)
| Serialization (err : string)
| InvalidKeystore
| KeyDerivation.

(* crates/identity/src/lib.rs:16-26 IdentityError (Display) *)
Definition identity_error_text (e : IdentityError) : string :=
  match e with
  | Io err => "io error: " +:+ err
  | Serialization err => "serialization error: " +:+ err
  | InvalidKeystore => "invalid keystore passphrase or ciphertext"
  | KeyDerivation => "scrypt key derivation failed"
  end.

(* crates/identity/src/lib.rs:28-39 SessionCredential *)
Record SessionCredential := {
  sc_network_id : NetworkId;
  sc_peer_id : PeerId;
  sc_session_public_key : bytes;
  sc_issued_at : Z;
  sc_expires_at : Z;
  sc_protocol_versions : list string;
  sc_key_epoch : Z;
  sc_nonce : bytes;
  sc_identity_signature : SignatureBytes;
}.

(* crates/identity/src/lib.rs:89-99 SessionCredentialUnsigned *)
Record SessionCredentialUnsigned := {
  scu_network_id : NetworkId;
  scu_peer_id : PeerId;
  scu_session_public_key : bytes;
  scu_issued_at : Z;
  scu_expires_at : Z;
  scu_protocol_versions : list string;
  scu_key_epoch : Z;
  scu_nonce : bytes;
}.

(* crates/identity/src/lib.rs:185-193 EncryptedKeyFile *)
Record EncryptedKeyFile := {
  kf_version : Z;
  kf_kdf : string;
  kf_salt : bytes;
  kf_nonce : bytes;
  kf_ciphertext : string;
  kf_public_key_hash : string;
}.

#[export] Instance IdentityError_eq_dec : EqDecision IdentityError.
Proof. solve_decision. Defined.
#[export] Instance SessionCredential_eq_dec : EqDecision SessionCredential.
Proof. solve_decision. Defined.

(* crates/identity/src/lib.rs:101-114 SessionCredentialUnsigned::from *)
Definition unsigned_credential (v : SessionCredential) : SessionCredentialUnsigned := {|
  scu_network_id := sc_network_id v;
  scu_peer_id := sc_peer_id v;
  scu_session_public_key := sc_session_public_key v;
  scu_issued_at := sc_issued_at v;
  scu_expires_at := sc_expires_at v;
  scu_protocol_versions := sc_protocol_versions v;
  scu_key_epoch := sc_key_epoch v;
  scu_nonce := sc_nonce v;
|}.

(** The JSON of a credential (serialization of these types cannot fail) and of
    the key file, which is also read back. *)
Class KeyFileJson := {
  keyfile_to_json : EncryptedKeyFile → bytes;
  keyfile_from_json : bytes → result string EncryptedKeyFile;
}.
Class KeyFileJsonLaws `{KeyFileJson} :=
  keyfile_json_roundtrip f : keyfile_from_json (keyfile_to_json f) = Ok f.

Section identity.
Context `{Blake3, Varint, Curves, Sealing, JsonBytes SessionCredentialUnsigned, KeyFileJson}.

(** [issue] reads the clock and the operating system's generator: [now] and
    [nonce] are what they return. *)
(* crates/identity/src/lib.rs:42-79 SessionCredential::issue *)
Definition credential_issue (now : Z) (nonce : bytes)
    (network_id : NetworkId) (identity : IdentityKeypair) (session_public_key : bytes)
    (protocol_versions : list string) (ttl_secs key_epoch : Z) : SessionCredential :=
  let issued_at := now in
  let expires_at := u64_add issued_at ttl_secs in
  let unsigned := {|
    scu_network_id := network_id;
    scu_peer_id := peer_id identity;
    scu_session_public_key := session_public_key;
    scu_issued_at := issued_at;
    scu_expires_at := expires_at;
    scu_protocol_versions := protocol_versions;
    scu_key_epoch := key_epoch;
    scu_nonce := nonce;
  |} in
  let canonical := to_vec unsigned in
  {|
    sc_network_id := network_id;
    sc_peer_id := peer_id identity;
    sc_session_public_key := session_public_key;
    sc_issued_at := issued_at;
    sc_expires_at := expires_at;
    sc_protocol_versions := protocol_versions;
    sc_key_epoch := key_epoch;
    sc_nonce := nonce;
    sc_identity_signature := sign identity canonical;
  |}.

(* crates/identity/src/lib.rs:81-86 SessionCredential::verify *)
Definition credential_verify (self : SessionCredential) (key : PublicIdentityKey)
    : result IdentityError () :=
  let canonical := to_vec (unsigned_credential self) in
  map_err (λ _, InvalidKeystore) (verify (sc_identity_signature self) key canonical).

(** ** The keystore *)

(** The part of the file system the keystore touches: file contents by path.
    Reading a path that holds no file is the I/O error [missing]. *)
Definition files : Type := gmap string bytes.
Definition missing : IdentityError := Io "No such file or directory (os error 2)".

(* crates/identity/src/lib.rs:195-200 derive_file_key *)
Definition derive_file_key (passphrase salt : bytes) : result IdentityError bytes :=
  ok_or KeyDerivation (scrypt_key passphrase salt).

(* crates/identity/src/lib.rs:139-157 FileKeystore::load *)
Definition keystore_load (routing : string) (passphrase : string) (fs : files)
    : result IdentityError IdentityKeypair :=
  contents ← ok_or missing ((fs : gmap string bytes) !! routing);
  blob ← map_err Serialization (keyfile_from_json contents);
  key ← derive_file_key (as_bytes passphrase) (kf_salt blob);
  ciphertext ← ok_or InvalidKeystore (b64_decode (kf_ciphertext blob));
  plaintext ← ok_or InvalidKeystore (aead_decrypt key (kf_nonce blob) ciphertext);
  secret ← to_array 32 InvalidKeystore plaintext;
  Ok (from_secret_bytes secret).

(** [salt] and [nonce] are the bytes drawn from the generator, [fault] is what
    happens to the write. *)
(* crates/identity/src/lib.rs:159-182 FileKeystore::store *)
Definition keystore_store (fault : option (WriteFault bytes)) (salt nonce : bytes) (routing : string)
    (keypair : IdentityKeypair) (passphrase : string) (fs : files)
    : result IdentityError () * files :=
  match
    key ← derive_file_key (as_bytes passphrase) salt;
    let secret := secret_bytes keypair in
    ciphertext ← ok_or InvalidKeystore (aead_encrypt key nonce secret);
    Ok {|
      kf_version := 1;
      kf_kdf := "scrypt";
      kf_salt := salt;
      kf_nonce := nonce;
      kf_ciphertext := b64_encode ciphertext;
      kf_public_key_hash := hex_string (hash_bytes (pk_bytes (public_key keypair)));
    |}
  with
  | Ok blob =>
      let '(written, fs) := fs_write fault routing (keyfile_to_json blob) (fs : gmap string bytes) in
      (map_err Io written, fs)
  | Err e => (Err e, fs)
  end.

Section lemmas.
Context `{!CurveLaws, !SealingLaws, !KeyFileJsonLaws}.

Lemma credential_issue_verify now nonce net k spk versions ttl epoch :
  credential_verify (credential_issue now nonce net k spk versions ttl epoch)
    (public_key k) = Ok ().
Proof. unfold credential_verify, unsigned_credential. simpl. by rewrite verify_sign. Qed.

(** Storing a key: it can be loaded, or nothing has changed, or the write broke
    off. *)
Lemma keystore_store_effect fault salt nonce routing k passphrase (fs fs' : files) r :
  length (signing_key k) = 32 →
  keystore_store fault salt nonce routing k passphrase fs = (r, fs') →
  (r = Ok () → keystore_load routing passphrase fs' = Ok k) ∧
  (r ≠ Ok () → fs' = fs ∨ ∃ written err, fault = Some (BrokenOff written err) ∧
     fs' = <[routing := written]> (fs : gmap string bytes)) ∧
  (∀ path, path ≠ routing → (fs' : gmap string bytes) !! path = (fs : gmap string bytes) !! path).
Proof.
  intros Hlen Hstore. revert Hstore. unfold keystore_store, derive_file_key.
  destruct (scrypt_key (as_bytes passphrase) salt) as [key|] eqn:Ek; simpl;
    [|intros [= <- <-]; split_and!; [done|by left|done]].
  destruct (aead_encrypt key nonce (secret_bytes k)) as [c|] eqn:Ec; simpl;
    [|intros [= <- <-]; split_and!; [done|by left|done]].
  destruct fault as [[err|written err]|]; cbn [fs_write]; intros [= <- <-].
  { split_and!; [done|by left|done]. }
  { split_and!; [done|right; by exists written, err|intros; by rewrite lookup_insert_ne]. }
  split_and!; [intros _|done|intros; by rewrite lookup_insert_ne].
  unfold keystore_load, derive_file_key.
  rewrite lookup_insert_eq. simpl. rewrite keyfile_json_roundtrip. simpl.
  rewrite Ek. simpl. rewrite b64_roundtrip. simpl.
  rewrite (aead_roundtrip _ _ _ _ Ec). simpl.
  unfold to_array, secret_bytes. rewrite decide_True by done. by destruct k.
Qed.
(** A key stored under a passphrase is loaded back unchanged with the
    same passphrase, at its own path; a store that fails leaves the file
    system as it was, unless its write broke off, and other files are never
    touched. *)
Lemma keystore_roundtrip fault salt nonce routing k passphrase (fs fs' : files) r
    (Hlen : length (signing_key k) = 32)
    (Hstore : keystore_store fault salt nonce routing k passphrase fs = (r, fs')) :
  (r = Ok () → keystore_load routing passphrase fs' = Ok k) ∧
  (r ≠ Ok () → fs' = fs ∨ ∃ written err, fault = Some (BrokenOff written err) ∧
     fs' = <[routing := written]> (fs : gmap string bytes)) ∧
  (∀ path, path ≠ routing → (fs' : gmap string bytes) !! path = (fs : gmap string bytes) !! path).
Proof. by eapply keystore_store_effect. Qed.
End lemmas.
End identity.

Section witnesses.
Import External.Demo.

Definition keyfile_tuple (f : EncryptedKeyFile) :=
  (kf_version f, kf_kdf f, kf_salt f, kf_nonce f, kf_ciphertext f, kf_public_key_hash f).

#[local] Instance demo_credential_json : JsonBytes SessionCredentialUnsigned := scu_nonce.
#[local] Instance demo_keyfile_json : KeyFileJson := {|
  keyfile_to_json := λ f, pack (keyfile_tuple f);
  keyfile_from_json := λ l,
    match unpack l with
    | Some (v, k, s, n, c, h) => Ok {|
        kf_version := v; kf_kdf := k; kf_salt := s; kf_nonce := n;
        kf_ciphertext := c; kf_public_key_hash := h |}
    | None => Err "expected value"
    end;
|}.
#[local] Instance demo_keyfile_json_laws : KeyFileJsonLaws.
Proof.
  intros f. cbn [keyfile_from_json keyfile_to_json demo_keyfile_json].
  rewrite unpack_pack. by destruct f.
Qed.

Lemma keystore_roundtrip_witness :
  let k := from_secret_bytes (replicate 32 x07) in
  let out := keystore_store None (replicate 16 x01) (replicate 12 x02) "node.json" k "secret" ∅ in
  out.1 = Ok () ∧ keystore_load "node.json" "secret" out.2 = Ok k.
Proof.
  intros k out. split; [reflexivity|].
  apply (keystore_roundtrip None (replicate 16 x01) (replicate 12 x02) "node.json" k "secret"
           ∅ out.2 out.1 eq_refl); [apply surjective_pairing|reflexivity].
Defined.
End witnesses.
