(* ===== verification/Membership.v ===== *)
(** crates/membership: the signed authority artifacts (enrollment tokens,
    membership certificates, capability grants, revocation records), how they
    are issued and how they are verified. *)
From stdpp Require Import base list strings gmap pretty option countable.
From Stdlib Require Import ZArith Lia Strings.Byte.
From S2P Require Import Prelude Text BTree F32 External Model Crypto.

(* crates/membership/src/lib.rs:8-20 MembershipError *)
Inductive MembershipError :=
| InvalidSignature
| ExpiredArtifact
| NotYetValid
| SubjectMismatch
| ArtifactIdMismatch.

(* crates/membership/src/lib.rs:22-27 BootstrapHint *)
Record BootstrapHint := {
  hint_peer_id : option PeerId;
  hint_addresses : list string;
  hint_metadata : gmap string string;
}.

(* crates/membership/src/lib.rs:29-42 EnrollmentToken *)
Record EnrollmentToken := {
  et_token_id : bytes;
  et_network_id : NetworkId;
  et_issuer_peer_id : PeerId;
  et_issued_at : Z;
  et_expires_at : Z;
  et_realm : string;
  et_subject_alias : option string;
  et_requested_roles : list string;
  et_bootstrap_hints : list BootstrapHint;
  et_nonce : bytes;
  et_signature : SignatureBytes;
}.

(* crates/membership/src/lib.rs:111-120 MembershipCertificate *)
Record MembershipCertificate := {
  mc_network_id : NetworkId;
  mc_subject_peer_id : PeerId;
  mc_issuer_peer_id : PeerId;
  mc_issued_at : Z;
  mc_expires_at : Z;
  mc_roles : list string;
  mc_signature : SignatureBytes;
}.

(* crates/membership/src/lib.rs:174-179 ResourceLimits *)
Record ResourceLimits := {
  rl_bandwidth_bps : option Z;
  rl_concurrent_streams : option Z;
  rl_max_object_bytes : option Z;
}.

(* crates/membership/src/lib.rs:181-189 ResourceLimits::default *)
Definition ResourceLimits_default : ResourceLimits :=
  {| rl_bandwidth_bps := None; rl_concurrent_streams := None; rl_max_object_bytes := None |}.

(* crates/membership/src/lib.rs:191-204 CapabilityGrant *)
Record CapabilityGrant := {
  cg_network_id : NetworkId;
  cg_subject_peer_id : PeerId;
  cg_issuer_peer_id : PeerId;
  cg_capabilities : list string;
  cg_protocol_scopes : list ProtocolId;
  cg_resource_limits : ResourceLimits;
  cg_constraints : list string;
  cg_not_before : Z;
  cg_expires_at : Z;
  cg_sequence : Z;
  cg_signature : SignatureBytes;
}.

(* crates/membership/src/lib.rs:273-279 RevocationReason *)
Inductive RevocationReason := Administrative | KeyCompromise | Superseded | Unspecified.

(* crates/membership/src/lib.rs:281-297 RevocationTarget *)
Inductive RevocationTarget :=
| TargetEnrollmentToken (token_id : bytes)
| TargetMembershipCertificate (subject_peer_id : PeerId) (issued_at : Z)
| TargetCapabilityGrant (subject_peer_id : PeerId) (sequence : Z)
| TargetPeer (peer_id : PeerId).

(* crates/membership/src/lib.rs:299-310 RevocationRecord *)
Record RevocationRecord := {
  rr_network_id : NetworkId;
  rr_issuer_peer_id : PeerId;
  rr_target : RevocationTarget;
  rr_reason : RevocationReason;
  rr_issued_at : Z;
  rr_effective_at : Z;
  rr_sequence : Z;
  rr_note : option string;
  rr_signature : SignatureBytes;
}.

#[export] Instance MembershipError_eq_dec : EqDecision MembershipError.
Proof. solve_decision. Defined.
#[export] Instance BootstrapHint_eq_dec : EqDecision BootstrapHint.
Proof. solve_decision. Defined.
#[export] Instance EnrollmentToken_eq_dec : EqDecision EnrollmentToken.
Proof. solve_decision. Defined.
#[export] Instance MembershipCertificate_eq_dec : EqDecision MembershipCertificate.
Proof. solve_decision. Defined.
#[export] Instance ResourceLimits_eq_dec : EqDecision ResourceLimits.
Proof. solve_decision. Defined.
#[export] Instance CapabilityGrant_eq_dec : EqDecision CapabilityGrant.
Proof. solve_decision. Defined.
#[export] Instance RevocationReason_eq_dec : EqDecision RevocationReason.
Proof. solve_decision. Defined.
#[export] Instance RevocationTarget_eq_dec : EqDecision RevocationTarget.
Proof. solve_decision. Defined.
#[export] Instance RevocationRecord_eq_dec : EqDecision RevocationRecord.
Proof. solve_decision. Defined.

(** ** The signed parts *)

(* crates/membership/src/lib.rs:369-380 UnsignedEnrollmentToken *)
Record UnsignedEnrollmentToken := {
  uet_network_id : NetworkId;
  uet_issuer_peer_id : PeerId;
  uet_issued_at : Z;
  uet_expires_at : Z;
  uet_realm : string;
  uet_subject_alias : option string;
  uet_requested_roles : list string;
  uet_bootstrap_hints : list BootstrapHint;
  uet_nonce : bytes;
}.

(* crates/membership/src/lib.rs:398-406 UnsignedMembershipCertificate *)
Record UnsignedMembershipCertificate := {
  umc_network_id : NetworkId;
  umc_subject_peer_id : PeerId;
  umc_issuer_peer_id : PeerId;
  umc_issued_at : Z;
  umc_expires_at : Z;
  umc_roles : list string;
}.

(* crates/membership/src/lib.rs:421-433 UnsignedCapabilityGrant *)
Record UnsignedCapabilityGrant := {
  ucg_network_id : NetworkId;
  ucg_subject_peer_id : PeerId;
  ucg_issuer_peer_id : PeerId;
  ucg_capabilities : list string;
  ucg_protocol_scopes : list ProtocolId;
  ucg_resource_limits : ResourceLimits;
  ucg_constraints : list string;
  ucg_not_before : Z;
  ucg_expires_at : Z;
  ucg_sequence : Z;
}.

(* crates/membership/src/lib.rs:452-462 UnsignedRevocationRecord *)
Record UnsignedRevocationRecord := {
  urr_network_id : NetworkId;
  urr_issuer_peer_id : PeerId;
  urr_target : RevocationTarget;
  urr_reason : RevocationReason;
  urr_issued_at : Z;
  urr_effective_at : Z;
  urr_sequence : Z;
  urr_note : option string;
}.

(* crates/membership/src/lib.rs:382-396 UnsignedEnrollmentToken::from *)
Definition unsigned_token (v : EnrollmentToken) : UnsignedEnrollmentToken := {|
  uet_network_id := et_network_id v;
  uet_issuer_peer_id := et_issuer_peer_id v;
  uet_issued_at := et_issued_at v;
  uet_expires_at := et_expires_at v;
  uet_realm := et_realm v;
  uet_subject_alias := et_subject_alias v;
  uet_requested_roles := et_requested_roles v;
  uet_bootstrap_hints := et_bootstrap_hints v;
  uet_nonce := et_nonce v;
|}.

(* crates/membership/src/lib.rs:408-419 UnsignedMembershipCertificate::from *)
Definition unsigned_certificate (v : MembershipCertificate) : UnsignedMembershipCertificate := {|
  umc_network_id := mc_network_id v;
  umc_subject_peer_id := mc_subject_peer_id v;
  umc_issuer_peer_id := mc_issuer_peer_id v;
  umc_issued_at := mc_issued_at v;
  umc_expires_at := mc_expires_at v;
  umc_roles := mc_roles v;
|}.

(* crates/membership/src/lib.rs:435-450 UnsignedCapabilityGrant::from *)
Definition unsigned_grant (v : CapabilityGrant) : UnsignedCapabilityGrant := {|
  ucg_network_id := cg_network_id v;
  ucg_subject_peer_id := cg_subject_peer_id v;
  ucg_issuer_peer_id := cg_issuer_peer_id v;
  ucg_capabilities := cg_capabilities v;
  ucg_protocol_scopes := cg_protocol_scopes v;
  ucg_resource_limits := cg_resource_limits v;
  ucg_constraints := cg_constraints v;
  ucg_not_before := cg_not_before v;
  ucg_expires_at := cg_expires_at v;
  ucg_sequence := cg_sequence v;
|}.

(* crates/membership/src/lib.rs:464-477 UnsignedRevocationRecord::from *)
Definition unsigned_revocation (v : RevocationRecord) : UnsignedRevocationRecord := {|
  urr_network_id := rr_network_id v;
  urr_issuer_peer_id := rr_issuer_peer_id v;
  urr_target := rr_target v;
  urr_reason := rr_reason v;
  urr_issued_at := rr_issued_at v;
  urr_effective_at := rr_effective_at v;
  urr_sequence := rr_sequence v;
  urr_note := rr_note v;
|}.

(** The canonical JSON of each signed part. *)
Class ArtifactJson := {
  token_json :: JsonBytes UnsignedEnrollmentToken;
  certificate_json :: JsonBytes UnsignedMembershipCertificate;
  grant_json :: JsonBytes UnsignedCapabilityGrant;
  revocation_json :: JsonBytes UnsignedRevocationRecord;
}.

Section artifacts.
Context `{Blake3, Varint, Curves, ArtifactJson}.
Implicit Types (issuer : IdentityKeypair) (issuer_key : PublicIdentityKey).

(* crates/membership/src/lib.rs:479-481 canonical_json *)
Definition canonical_json {A} `{JsonBytes A} (value : A) : bytes := to_vec value.

(* crates/membership/src/lib.rs:45-84 EnrollmentToken::issue *)
Definition token_issue issuer (network_id : NetworkId) (issued_at expires_at : Z)
    (realm : string) (subject_alias : option string) (requested_roles : list string)
    (bootstrap_hints : list BootstrapHint) (nonce : bytes) : EnrollmentToken :=
  let unsigned := {|
    uet_network_id := network_id;
    uet_issuer_peer_id := peer_id issuer;
    uet_issued_at := issued_at;
    uet_expires_at := expires_at;
    uet_realm := realm;
    uet_subject_alias := subject_alias;
    uet_requested_roles := requested_roles;
    uet_bootstrap_hints := bootstrap_hints;
    uet_nonce := nonce;
  |} in
  let canonical := canonical_json unsigned in
  let token_id := hash_bytes canonical in
  let signature := sign issuer canonical in
  {|
    et_token_id := token_id;
    et_network_id := network_id;
    et_issuer_peer_id := uet_issuer_peer_id unsigned;
    et_issued_at := issued_at;
    et_expires_at := expires_at;
    et_realm := uet_realm unsigned;
    et_subject_alias := uet_subject_alias unsigned;
    et_requested_roles := uet_requested_roles unsigned;
    et_bootstrap_hints := uet_bootstrap_hints unsigned;
    et_nonce := nonce;
    et_signature := signature;
  |}.

(* crates/membership/src/lib.rs:86-108 EnrollmentToken::verify *)
Definition token_verify (self : EnrollmentToken) issuer_key (expected_network : NetworkId)
    (now_epoch_secs : Z) : result MembershipError () :=
  if decide (et_network_id self ≠ expected_network) then Err SubjectMismatch
  else if (et_expires_at self <? now_epoch_secs)%Z then Err ExpiredArtifact
  else
    let unsigned := unsigned_token self in
    let canonical := canonical_json unsigned in
    if decide (hash_bytes canonical ≠ et_token_id self) then Err ArtifactIdMismatch
    else map_err (λ _, InvalidSignature) (verify (et_signature self) issuer_key canonical).

(* crates/membership/src/lib.rs:123-151 MembershipCertificate::issue *)
Definition certificate_issue issuer (network_id : NetworkId) (subject_peer_id : PeerId)
    (issued_at expires_at : Z) (roles : list string) : MembershipCertificate :=
  let unsigned := {|
    umc_network_id := network_id;
    umc_subject_peer_id := subject_peer_id;
    umc_issuer_peer_id := peer_id issuer;
    umc_issued_at := issued_at;
    umc_expires_at := expires_at;
    umc_roles := roles;
  |} in
  let canonical := canonical_json unsigned in
  let signature := sign issuer canonical in
  {|
    mc_network_id := network_id;
    mc_subject_peer_id := umc_subject_peer_id unsigned;
    mc_issuer_peer_id := umc_issuer_peer_id unsigned;
    mc_issued_at := issued_at;
    mc_expires_at := expires_at;
    mc_roles := umc_roles unsigned;
    mc_signature := signature;
  |}.

(* crates/membership/src/lib.rs:153-171 MembershipCertificate::verify *)
Definition certificate_verify (self : MembershipCertificate) issuer_key
    (expected_network : NetworkId) (expected_subject : PeerId) (now_epoch_secs : Z)
    : result MembershipError () :=
  if decide (mc_network_id self ≠ expected_network ∨ mc_subject_peer_id self ≠ expected_subject)
  then Err SubjectMismatch
  else if (mc_expires_at self <? now_epoch_secs)%Z then Err ExpiredArtifact
  else
    let canonical := canonical_json (unsigned_certificate self) in
    map_err (λ _, InvalidSignature) (verify (mc_signature self) issuer_key canonical).

(* crates/membership/src/lib.rs:207-247 CapabilityGrant::issue *)
Definition grant_issue issuer (network_id : NetworkId) (subject_peer_id : PeerId)
    (capabilities : list string) (protocol_scopes : list ProtocolId)
    (resource_limits : ResourceLimits) (constraints : list string)
    (not_before expires_at sequence : Z) : CapabilityGrant :=
  let unsigned := {|
    ucg_network_id := network_id;
    ucg_subject_peer_id := subject_peer_id;
    ucg_issuer_peer_id := peer_id issuer;
    ucg_capabilities := capabilities;
    ucg_protocol_scopes := protocol_scopes;
    ucg_resource_limits := resource_limits;
    ucg_constraints := constraints;
    ucg_not_before := not_before;
    ucg_expires_at := expires_at;
    ucg_sequence := sequence;
  |} in
  let canonical := canonical_json unsigned in
  let signature := sign issuer canonical in
  {|
    cg_network_id := network_id;
    cg_subject_peer_id := ucg_subject_peer_id unsigned;
    cg_issuer_peer_id := ucg_issuer_peer_id unsigned;
    cg_capabilities := ucg_capabilities unsigned;
    cg_protocol_scopes := ucg_protocol_scopes unsigned;
    cg_resource_limits := ucg_resource_limits unsigned;
    cg_constraints := ucg_constraints unsigned;
    cg_not_before := not_before;
    cg_expires_at := expires_at;
    cg_sequence := sequence;
    cg_signature := signature;
  |}.

(* crates/membership/src/lib.rs:249-270 CapabilityGrant::verify *)
Definition grant_verify (self : CapabilityGrant) issuer_key (expected_network : NetworkId)
    (expected_subject : PeerId) (now_epoch_secs : Z) : result MembershipError () :=
  if decide (cg_network_id self ≠ expected_network ∨ cg_subject_peer_id self ≠ expected_subject)
  then Err SubjectMismatch
  else if (now_epoch_secs <? cg_not_before self)%Z then Err NotYetValid
  else if (cg_expires_at self <? now_epoch_secs)%Z then Err ExpiredArtifact
  else
    let canonical := canonical_json (unsigned_grant self) in
    map_err (λ _, InvalidSignature) (verify (cg_signature self) issuer_key canonical).

(* crates/membership/src/lib.rs:313-347 RevocationRecord::issue *)
Definition revocation_issue issuer (network_id : NetworkId) (target : RevocationTarget)
    (reason : RevocationReason) (issued_at effective_at sequence : Z)
    (note : option string) : RevocationRecord :=
  let unsigned := {|
    urr_network_id := network_id;
    urr_issuer_peer_id := peer_id issuer;
    urr_target := target;
    urr_reason := reason;
    urr_issued_at := issued_at;
    urr_effective_at := effective_at;
    urr_sequence := sequence;
    urr_note := note;
  |} in
  let canonical := canonical_json unsigned in
  let signature := sign issuer canonical in
  {|
    rr_network_id := network_id;
    rr_issuer_peer_id := urr_issuer_peer_id unsigned;
    rr_target := urr_target unsigned;
    rr_reason := urr_reason unsigned;
    rr_issued_at := issued_at;
    rr_effective_at := effective_at;
    rr_sequence := sequence;
    rr_note := urr_note unsigned;
    rr_signature := signature;
  |}.

(* crates/membership/src/lib.rs:349-366 RevocationRecord::verify *)
Definition revocation_verify (self : RevocationRecord) issuer_key
    (expected_network : NetworkId) (now_epoch_secs : Z) : result MembershipError () :=
  if decide (rr_network_id self ≠ expected_network) then Err SubjectMismatch
  else if (now_epoch_secs <? rr_effective_at self)%Z then Err NotYetValid
  else
    let canonical := canonical_json (unsigned_revocation self) in
    map_err (λ _, InvalidSignature) (verify (rr_signature self) issuer_key canonical).
End artifacts.

(** A token whose hints are replaced after it was signed. *)
Definition with_hints (hints : list BootstrapHint) (t : EnrollmentToken) : EnrollmentToken := {|
  et_token_id := et_token_id t;
  et_network_id := et_network_id t;
  et_issuer_peer_id := et_issuer_peer_id t;
  et_issued_at := et_issued_at t;
  et_expires_at := et_expires_at t;
  et_realm := et_realm t;
  et_subject_alias := et_subject_alias t;
  et_requested_roles := et_requested_roles t;
  et_bootstrap_hints := hints;
  et_nonce := et_nonce t;
  et_signature := et_signature t;
|}.

Section artifact_lemmas.
Context `{Blake3, Varint, Curves, ArtifactJson, !CurveLaws}.
Ltac issued := unfold unsigned_token, unsigned_certificate, unsigned_grant,
  unsigned_revocation, canonical_json, hash_bytes; simpl;
  rewrite ?verify_sign; simpl; repeat case_decide; try done; tauto.

Lemma token_issued_verify issuer net iat exp realm alias roles hints nonce net' now :
  token_verify (token_issue issuer net iat exp realm alias roles hints nonce)
    (public_key issuer) net' now =
  if decide (net ≠ net') then Err SubjectMismatch
  else if (exp <? now)%Z then Err ExpiredArtifact else Ok ().
Proof. unfold token_verify. issued. Qed.

Lemma certificate_issued_verify issuer net subj iat exp roles net' subj' now :
  certificate_verify (certificate_issue issuer net subj iat exp roles)
    (public_key issuer) net' subj' now =
  if decide (net ≠ net' ∨ subj ≠ subj') then Err SubjectMismatch
  else if (exp <? now)%Z then Err ExpiredArtifact else Ok ().
Proof. unfold certificate_verify. issued. Qed.

Lemma grant_issued_verify issuer net subj caps scopes limits cons nbf exp seq net' subj' now :
  grant_verify (grant_issue issuer net subj caps scopes limits cons nbf exp seq)
    (public_key issuer) net' subj' now =
  if decide (net ≠ net' ∨ subj ≠ subj') then Err SubjectMismatch
  else if (now <? nbf)%Z then Err NotYetValid
  else if (exp <? now)%Z then Err ExpiredArtifact else Ok ().
Proof. unfold grant_verify. issued. Qed.

Lemma revocation_issued_verify issuer net target reason iat eff seq note net' now :
  revocation_verify (revocation_issue issuer net target reason iat eff seq note)
    (public_key issuer) net' now =
  if decide (net ≠ net') then Err SubjectMismatch
  else if (now <? eff)%Z then Err NotYetValid else Ok ().
Proof. unfold revocation_verify. issued. Qed.

(** What an authority issues verifies under its own key exactly when
    network, subject and time window fit, and otherwise reports the first
    failing check, for all four kinds of artifact. *)
Lemma issued_artifacts_verify (issuer : IdentityKeypair) (net net' : NetworkId)
    (subj subj' : PeerId) (now : Z) :
  (∀ iat exp realm alias roles hints nonce,
    token_verify (token_issue issuer net iat exp realm alias roles hints nonce)
      (public_key issuer) net' now =
    if decide (net ≠ net') then Err SubjectMismatch
    else if (exp <? now)%Z then Err ExpiredArtifact else Ok ()) ∧
  (∀ iat exp roles,
    certificate_verify (certificate_issue issuer net subj iat exp roles)
      (public_key issuer) net' subj' now =
    if decide (net ≠ net' ∨ subj ≠ subj') then Err SubjectMismatch
    else if (exp <? now)%Z then Err ExpiredArtifact else Ok ()) ∧
  (∀ caps scopes limits cons nbf exp seq,
    grant_verify (grant_issue issuer net subj caps scopes limits cons nbf exp seq)
      (public_key issuer) net' subj' now =
    if decide (net ≠ net' ∨ subj ≠ subj') then Err SubjectMismatch
    else if (now <? nbf)%Z then Err NotYetValid
    else if (exp <? now)%Z then Err ExpiredArtifact else Ok ()) ∧
  (∀ target reason iat eff seq note,
    revocation_verify (revocation_issue issuer net target reason iat eff seq note)
      (public_key issuer) net' now =
    if decide (net ≠ net') then Err SubjectMismatch
    else if (now <? eff)%Z then Err NotYetValid else Ok ()).
Proof.
  split_and!; intros.
  - apply token_issued_verify.
  - apply certificate_issued_verify.
  - apply grant_issued_verify.
  - apply revocation_issued_verify.
Qed.

(** The bootstrap hints of a token are covered by its identifier: once they
    are replaced so that the canonical JSON hashes differently, no key
    verifies the token any more. *)
Lemma token_hints_tampered issuer net iat exp realm alias roles hints nonce hints' key now :
  let t := token_issue issuer net iat exp realm alias roles hints nonce in
  blake3 (to_vec (unsigned_token (with_hints hints' t))) ≠ blake3 (to_vec (unsigned_token t)) →
  (now ≤ exp)%Z →
  token_verify (with_hints hints' t) key net now = Err ArtifactIdMismatch.
Proof.
  intros t Hne Hexp. unfold token_verify. simpl.
  rewrite decide_False by naive_solver.
  destruct (Z.ltb_spec exp now); [lia|]. by rewrite decide_True.
Qed.
End artifact_lemmas.

Section witnesses.
Import External.Demo.
#[local] Instance demo_artifact_json : ArtifactJson := {|
  token_json := λ t, as_bytes (uet_realm t);
  certificate_json := λ c, concat (as_bytes <$> umc_roles c);
  grant_json := λ g, concat (as_bytes <$> ucg_capabilities g);
  revocation_json := λ r, network_bytes (urr_network_id r);
|}.

Lemma issued_artifacts_verify_witness :
  let k := from_secret_bytes [x01] in
  let n := NetworkId_derive (as_bytes "net") in
  certificate_verify (certificate_issue k n (peer_id k) 100 300 ["member"])
    (public_key k) n (peer_id k) 250 = Ok ().
Proof.
  intros k n.
  rewrite (proj1 (proj2 (issued_artifacts_verify k n n (peer_id k) (peer_id k) 250))).
  reflexivity.
Defined.
End witnesses.
