(* ===== verification/PeerStore.v ===== *)
(** crates/peerstore: the peer, status and record maps of a node. *)
From stdpp Require Import base list strings gmap pretty option countable sorting.
From Stdlib Require Import ZArith Lia Strings.Byte.
From S2P Require Import Prelude Text BTree F32 External Model Crypto Records.

(* crates/peerstore/src/lib.rs:7-12 PeerSnapshot *)
Record PeerSnapshot := {
  snap_peer : PeerId;
  snap_protocols : list string;
  snap_addresses : list string;
}.

(* crates/peerstore/src/lib.rs:14-21 PeerSource *)
Inductive PeerSource := SourceBootstrap | SourceRelayMap | SourceDiscovery | SourceManual | SourceObserved.

(* crates/peerstore/src/lib.rs:23-29 PeerReachability *)
Inductive PeerReachability := Unknown | Direct | Relayed | Unreachable.

(* crates/peerstore/src/lib.rs:31-36 PeerStatus *)
Record PeerStatus := {
  st_source : PeerSource;
  st_reachability : PeerReachability;
  st_last_seen_unix_secs : option Z;
}.

(* crates/peerstore/src/lib.rs:38-46 PeerStatus::default *)
Definition PeerStatus_default : PeerStatus :=
  {| st_source := SourceObserved; st_reachability := Unknown; st_last_seen_unix_secs := None |}.

(* crates/peerstore/src/lib.rs:48-53 PeerInspection *)
Record PeerInspection := {
  insp_snapshot : PeerSnapshot;
  insp_status : PeerStatus;
  insp_record_count : Z;
}.

(* crates/peerstore/src/lib.rs:55-60 PeerStore *)
Record PeerStore := {
  store_peers : gmap PeerId PeerSnapshot;
  store_statuses : gmap PeerId PeerStatus;
  store_records : gmap PeerId (list SignedRecord);
}.

#[export] Instance PeerSnapshot_eq_dec : EqDecision PeerSnapshot.
Proof. solve_decision. Defined.
#[export] Instance PeerSource_eq_dec : EqDecision PeerSource.
Proof. solve_decision. Defined.
#[export] Instance PeerReachability_eq_dec : EqDecision PeerReachability.
Proof. solve_decision. Defined.
#[export] Instance PeerStatus_eq_dec : EqDecision PeerStatus.
Proof. solve_decision. Defined.
#[export] Instance PeerInspection_eq_dec : EqDecision PeerInspection.
Proof. solve_decision. Defined.

(** [PeerStore::default()], derived. *)
(* crates/peerstore/src/lib.rs:55-60 PeerStore::default *)
Definition PeerStore_default : PeerStore :=
  {| store_peers := ∅; store_statuses := ∅; store_records := ∅ |}.

(* crates/peerstore/src/lib.rs:63-67 PeerStore::upsert_peer *)
Definition upsert_peer (snapshot : PeerSnapshot) (self : PeerStore) : PeerStore :=
  let peer := snap_peer snapshot in
  {| store_peers := <[peer := snapshot]> (store_peers self);
     store_statuses :=
       match store_statuses self !! peer with
       | Some _ => store_statuses self
       | None => <[peer := PeerStatus_default]> (store_statuses self)
       end;
     store_records := store_records self |}.

(* crates/peerstore/src/lib.rs:69-73 PeerStore::upsert_peer_with_status *)
Definition upsert_peer_with_status (snapshot : PeerSnapshot) (status : PeerStatus)
    (self : PeerStore) : PeerStore :=
  let peer := snap_peer snapshot in
  {| store_peers := <[peer := snapshot]> (store_peers self);
     store_statuses := <[peer := status]> (store_statuses self);
     store_records := store_records self |}.

(* crates/peerstore/src/lib.rs:75-77 PeerStore::append_record *)
Definition append_record (peer : PeerId) (record : SignedRecord) (self : PeerStore) : PeerStore :=
  {| store_peers := store_peers self;
     store_statuses := store_statuses self;
     store_records :=
       <[peer := default [] (store_records self !! peer) ++ [record]]> (store_records self) |}.

(* crates/peerstore/src/lib.rs:79-81 PeerStore::peer *)
Definition store_peer (self : PeerStore) (peer : PeerId) : option PeerSnapshot :=
  store_peers self !! peer.

(* crates/peerstore/src/lib.rs:83-85 PeerStore::peer_status *)
Definition peer_status (self : PeerStore) (peer : PeerId) : option PeerStatus :=
  store_statuses self !! peer.

(* crates/peerstore/src/lib.rs:87-89 PeerStore::record_count *)
Definition record_count (self : PeerStore) (peer : PeerId) : Z :=
  match store_records self !! peer with
  | Some l => Z.of_nat (length l)
  | None => 0
  end.

(* crates/peerstore/src/lib.rs:91-97 PeerStore::inspection *)
Definition inspection (self : PeerStore) (peer : PeerId) : option PeerInspection :=
  snapshot ← store_peers self !! peer;
  Some {|
    insp_snapshot := snapshot;
    insp_status := default PeerStatus_default (store_statuses self !! peer);
    insp_record_count := record_count self peer;
  |}.

(* crates/peerstore/src/lib.rs:99-104 PeerStore::peers *)
Definition peers (self : PeerStore) : list PeerInspection :=
  omap (inspection self) (bt_keys (store_peers self)).

(** ** Well-formedness *)

(** Every peer is stored under its own identifier and has a status. *)
Definition store_wf (s : PeerStore) : Prop :=
  (∀ p snap, store_peers s !! p = Some snap → snap_peer snap = p) ∧
  dom (store_peers s) = dom (store_statuses s).

Lemma store_wf_default : store_wf PeerStore_default.
Proof. split; [intros ?? [=] | done]. Qed.

Lemma upsert_peer_with_status_wf snap st s : store_wf s → store_wf (upsert_peer_with_status snap st s).
Proof.
  intros [H1 H2]. split; simpl.
  - intros p snap'. rewrite lookup_insert. case_decide; naive_solver.
  - by rewrite !dom_insert_L, H2.
Qed.

Lemma upsert_peer_wf snap s : store_wf s → store_wf (upsert_peer snap s).
Proof.
  intros [H1 H2]. split; simpl.
  - intros p snap'. rewrite lookup_insert. case_decide; naive_solver.
  - destruct (store_statuses s !! snap_peer snap) eqn:E; rewrite !dom_insert_L, H2; [|done].
    apply elem_of_dom_2 in E. set_solver.
Qed.

Lemma append_record_wf p r s : store_wf s → store_wf (append_record p r s).
Proof. done. Qed.

#[export] Hint Resolve store_wf_default upsert_peer_with_status_wf upsert_peer_wf
  append_record_wf : quip.

Lemma inspection_Some s p i :
  inspection s p = Some i ↔
  ∃ snap, store_peers s !! p = Some snap ∧
    i = {| insp_snapshot := snap;
           insp_status := default PeerStatus_default (store_statuses s !! p);
           insp_record_count := record_count s p |}.
Proof. unfold inspection. destruct (store_peers s !! p); simpl; naive_solver. Qed.

Lemma elem_of_peers s i :
  i ∈ peers s ↔ ∃ p, inspection s p = Some i.
Proof.
  unfold peers. rewrite list_elem_of_omap. split.
  - intros (p & _ & Hp). by exists p.
  - intros (p & Hp). exists p. split; [|done].
    apply inspection_Some in Hp as (snap & Hp & _). by apply elem_of_bt_keys.
Qed.

(** In a well-formed store [peers] goes through the keys in order. *)
Lemma peers_keys s : store_wf s → (snap_peer ∘ insp_snapshot) <$> peers s = bt_keys (store_peers s).
Proof.
  intros [Hwf _]. unfold peers.
  assert (∀ k, k ∈ bt_keys (store_peers s) → is_Some (store_peers s !! k)) as Hin
    by (intros k; apply elem_of_bt_keys).
  induction (bt_keys (store_peers s)) as [|k l IH]; [done|].
  destruct (Hin k) as [snap Hk]; [set_solver|].
  assert (inspection s k = Some {| insp_snapshot := snap;
      insp_status := default PeerStatus_default (store_statuses s !! k);
      insp_record_count := record_count s k |}) as Hi by (apply inspection_Some; eauto).
  cbn [omap list_omap]. rewrite Hi, fmap_cons. simpl.
  f_equal; [by apply Hwf|]. apply IH. intros; apply Hin; set_solver.
Qed.

(** What a store built from a list of upserts, oldest first, reports. *)
Definition upserts (l : list (PeerSnapshot * PeerStatus)) (s : PeerStore) : PeerStore :=
  fold_left (λ s e, upsert_peer_with_status e.1 e.2 s) l s.

Lemma upserts_wf l s : store_wf s → store_wf (upserts l s).
Proof.
  revert s. induction l as [|e l IH]; intros s Hs; simpl; [done|].
  apply IH. auto with quip.
Qed.

Lemma upserts_records l s : store_records (upserts l s) = store_records s.
Proof. revert s. induction l as [|e l IH]; intros s; simpl; [done|]. by rewrite IH. Qed.

Lemma upserts_snoc l e s : upserts (l ++ [e]) s = upsert_peer_with_status e.1 e.2 (upserts l s).
Proof. unfold upserts. by rewrite fold_left_app. Qed.

(** The last entry for a peer. *)
Definition last_entry (p : PeerId) (l : list (PeerSnapshot * PeerStatus)) :=
  find_first (λ e, bool_decide (snap_peer e.1 = p)) (reverse l).

Lemma upserts_lookup l p s :
  store_peers (upserts l s) !! p =
    match last_entry p l with Some e => Some e.1 | None => store_peers s !! p end ∧
  store_statuses (upserts l s) !! p =
    match last_entry p l with Some e => Some e.2 | None => store_statuses s !! p end.
Proof.
  induction l as [|e l [IH1 IH2]] using rev_ind; [done|].
  rewrite upserts_snoc. unfold last_entry. rewrite reverse_snoc. simpl.
  rewrite !lookup_insert. case_bool_decide; case_decide; try done; simplify_eq.
Qed.

(** A peer store filled by upserts lists every peer exactly once, in
    increasing order of peer identifier, with the snapshot and the status of
    its last upsert and no records. *)
Lemma peers_after_upserts (l : list (PeerSnapshot * PeerStatus)) :
  let s := upserts l PeerStore_default in
  StronglySorted key_lt ((snap_peer ∘ insp_snapshot) <$> peers s) ∧
  ∀ i, i ∈ peers s ↔
    ∃ e, last_entry (snap_peer e.1) l = Some e ∧
      i = {| insp_snapshot := e.1; insp_status := e.2; insp_record_count := 0 |}.
Proof.
  intros s. assert (store_wf s) as Hwf by (apply upserts_wf; auto with quip).
  split; [rewrite peers_keys by done; apply bt_keys_sorted|].
  intros i. rewrite elem_of_peers. setoid_rewrite inspection_Some.
  assert (∀ p, record_count s p = 0%Z) as Hrec.
  { intros p. unfold record_count, s. by rewrite upserts_records. }
  assert (∀ p, default PeerStatus_default (store_statuses s !! p) =
    match last_entry p l with Some e => e.2 | None => PeerStatus_default end) as Hst.
  { intros p. unfold s. rewrite (proj2 (upserts_lookup l p _)). by destruct (last_entry p l). }
  assert (∀ p, store_peers s !! p = fst <$> last_entry p l) as Hp.
  { intros p. unfold s. rewrite (proj1 (upserts_lookup l p _)). by destruct (last_entry p l). }
  split.
  - intros (p & snap & Hs & ->). pose proof (proj1 Hwf _ _ Hs) as Hsnap.
    rewrite Hp in Hs. apply fmap_Some in Hs as (e & He & ->).
    exists e. rewrite Hst, Hrec. subst p. by rewrite He.
  - intros (e & He & ->). exists (snap_peer e.1), e.1.
    rewrite Hp, Hst, Hrec, He. done.
Qed.
