(* ===== verification/Discovery.v ===== *)
(** crates/discovery: bootstrap hints and how they enter the peer store. *)
From stdpp Require Import base list strings gmap pretty option countable sorting.
From Stdlib Require Import ZArith Lia Strings.Byte.
From S2P Require Import Prelude Text BTree F32 External Model Crypto Records PeerStore.

(* crates/discovery/src/lib.rs:7-12 BootstrapHint *)
Record BootstrapHint := {
  bh_peer : PeerId;
  bh_addresses : list string;
  bh_protocols : list string;
}.

(* crates/discovery/src/lib.rs:14-19 BootstrapIngestReport *)
Record BootstrapIngestReport := {
  imported : Z;
  updated : Z;
  skipped : Z;
}.

(* crates/discovery/src/lib.rs:21-24 DiscoveryService *)
Record DiscoveryService := { bootstrap : list BootstrapHint }.

(* crates/discovery/src/lib.rs:27-29 DiscoveryService::with_bootstrap *)
Definition with_bootstrap (l : list BootstrapHint) : DiscoveryService := {| bootstrap := l |}.

(* crates/discovery/src/lib.rs:31-33 DiscoveryService::bootstrap_candidates *)
Definition bootstrap_candidates (self : DiscoveryService) : list BootstrapHint := bootstrap self.

Definition hint_snapshot (h : BootstrapHint) : PeerSnapshot := {|
  snap_peer := bh_peer h;
  snap_protocols := bh_protocols h;
  snap_addresses := bh_addresses h;
|}.

Definition hint_status (seen_at : Z) : PeerStatus := {|
  st_source := SourceBootstrap;
  st_reachability := Unknown;
  st_last_seen_unix_secs := Some seen_at;
|}.

(** One round of the loop. *)
(* crates/discovery/src/lib.rs:37-64 DiscoveryService::ingest_bootstrap (loop body) *)
Definition ingest_hint (seen_at : Z) (acc : BootstrapIngestReport * PeerStore)
    (hint : BootstrapHint) : BootstrapIngestReport * PeerStore :=
  let '(report, store) := acc in
  let snapshot := hint_snapshot hint in
  let report :=
    match store_peer store (bh_peer hint) with
    | Some existing =>
        if decide (existing = snapshot)
        then {| imported := imported report; updated := updated report;
                skipped := skipped report + 1 |}
        else {| imported := imported report; updated := updated report + 1;
                skipped := skipped report |}
    | None => {| imported := imported report + 1; updated := updated report;
                 skipped := skipped report |}
    end in
  (report, upsert_peer_with_status snapshot (hint_status seen_at) store).

(* crates/discovery/src/lib.rs:35-67 DiscoveryService::ingest_bootstrap *)
Definition ingest_bootstrap (self : DiscoveryService) (store : PeerStore) (seen_at : Z)
    : BootstrapIngestReport * PeerStore :=
  fold_left (ingest_hint seen_at) (bootstrap self)
    ({| imported := 0; updated := 0; skipped := 0 |}, store).

(** [a.iter().chain(b).collect::<BTreeSet<_>>().into_iter().collect()]. *)
Definition merge_sorted (a b : list string) : list string :=
  bs_elements (list_to_set (a ++ b) : gset string).

(* crates/discovery/src/lib.rs:69-100 DiscoveryService::merge_peer_snapshot *)
Definition merge_peer_snapshot (self : DiscoveryService) (snapshot : PeerSnapshot) : PeerSnapshot :=
  match find_first (λ hint, bool_decide (bh_peer hint = snap_peer snapshot)) (bootstrap self) with
  | Some existing => {|
      snap_peer := snap_peer snapshot;
      snap_protocols := merge_sorted (snap_protocols snapshot) (bh_protocols existing);
      snap_addresses := merge_sorted (snap_addresses snapshot) (bh_addresses existing);
    |}
  | None => snapshot
  end.

(** ** Lemmas *)

Definition hint_entries (seen_at : Z) (l : list BootstrapHint) : list (PeerSnapshot * PeerStatus) :=
  (λ h, (hint_snapshot h, hint_status seen_at)) <$> l.

Lemma ingest_store seen_at l r s :
  (fold_left (ingest_hint seen_at) l (r, s)).2 = upserts (hint_entries seen_at l) s.
Proof.
  revert r s. induction l as [|h l IH]; intros r s; [done|]. cbn [fold_left].
  by rewrite (surjective_pairing (ingest_hint _ _ _)), IH.
Qed.

Definition report_total (r : BootstrapIngestReport) : Z := imported r + updated r + skipped r.

Lemma ingest_total seen_at l r s :
  report_total (fold_left (ingest_hint seen_at) l (r, s)).1 =
  (report_total r + Z.of_nat (length l))%Z.
Proof.
  revert r s. induction l as [|h l IH]; intros r s; [simpl; lia|]. cbn [fold_left].
  rewrite (surjective_pairing (ingest_hint _ _ _)), IH. unfold ingest_hint, report_total. simpl.
  destruct (store_peer s (bh_peer h)); [case_decide|]; simpl; lia.
Qed.

(** Once every hint is stored as it is, ingesting skips all of them. *)
Lemma ingest_all_known seen_at l r s :
  NoDup (bh_peer <$> l) →
  (∀ h, h ∈ l → store_peers s !! bh_peer h = Some (hint_snapshot h)) →
  (fold_left (ingest_hint seen_at) l (r, s)).1 =
  {| imported := imported r; updated := updated r; skipped := skipped r + Z.of_nat (length l) |}.
Proof.
  revert r s. induction l as [|h l IH]; intros r s Hnd Hs.
  { destruct r. simpl. by rewrite Z.add_0_r. }
  rewrite fmap_cons in Hnd. apply NoDup_cons in Hnd as [Hn Hnd].
  cbn [fold_left]. unfold ingest_hint at 2, store_peer.
  rewrite (Hs h) by set_solver. rewrite decide_True by done. rewrite IH; [|done|].
  - simpl. f_equal. lia.
  - intros h' Hh'. simpl. rewrite lookup_insert_ne.
    + apply Hs. set_solver.
    + intros Heq. apply Hn. rewrite Heq. by apply list_elem_of_fmap_2.
Qed.

Lemma last_entry_hints seen_at l h :
  NoDup (bh_peer <$> l) → h ∈ l →
  last_entry (bh_peer h) (hint_entries seen_at l) = Some (hint_snapshot h, hint_status seen_at).
Proof.
  induction l as [|g l IH] using rev_ind; [set_solver|].
  rewrite fmap_app. intros (Hnd & Hdisj & _)%NoDup_app Hin.
  unfold last_entry, hint_entries. rewrite fmap_app, reverse_app. simpl.
  case_bool_decide as E.
  - apply elem_of_app in Hin as [Hin|Hin].
    + exfalso. apply (Hdisj (bh_peer h)); [by apply list_elem_of_fmap_2|]. set_solver.
    + apply list_elem_of_singleton in Hin. by subst.
  - apply elem_of_app in Hin as [Hin|Hin]; [by apply IH|].
    apply list_elem_of_singleton in Hin. by subst.
Qed.

(** Ingesting the bootstrap hints accounts for every hint exactly once as
    imported, updated or skipped, and is idempotent: when the hints name
    distinct peers, a second ingestion (at any later time) reports all of them
    as skipped and leaves every stored snapshot as it was. *)
Lemma ingest_bootstrap_idempotent (self : DiscoveryService) (store : PeerStore) (t1 t2 : Z)
    (Hnd : NoDup (bh_peer <$> bootstrap self)) :
  let '(r1, s1) := ingest_bootstrap self store t1 in
  let '(r2, s2) := ingest_bootstrap self s1 t2 in
  report_total r1 = Z.of_nat (length (bootstrap self)) ∧
  r2 = {| imported := 0; updated := 0; skipped := Z.of_nat (length (bootstrap self)) |} ∧
  (∀ p, store_peers s2 !! p = store_peers s1 !! p).
Proof.
  unfold ingest_bootstrap. destruct self as [l]; simpl in *.
  destruct (fold_left _ _ (_, store)) as [r1 s1] eqn:E1.
  pose proof (f_equal snd E1) as Hs1. rewrite ingest_store in Hs1. simpl in Hs1. subst s1.
  destruct (fold_left _ _ (_, upserts _ _)) as [r2 s2] eqn:E2.
  pose proof (f_equal snd E2) as Hs2. rewrite ingest_store in Hs2. simpl in Hs2. subst s2.
  split_and!.
  - pose proof (f_equal fst E1) as Hr. simpl in Hr. rewrite <-Hr, ingest_total.
    unfold report_total. simpl. lia.
  - pose proof (f_equal fst E2) as Hr. simpl in Hr. rewrite <-Hr, ingest_all_known; [done|done|].
    intros h Hh. rewrite (proj1 (upserts_lookup _ _ _)).
    by rewrite last_entry_hints.
  - intros p. rewrite !(proj1 (upserts_lookup _ _ _)).
    assert (∀ t, fst <$> last_entry p (hint_entries t l) =
      hint_snapshot <$> find_first (λ h, bool_decide (bh_peer h = p)) (reverse l)) as Hlast.
    { intros t. unfold last_entry, hint_entries. rewrite <-fmap_reverse.
      induction (reverse l) as [|h k IH]; [done|]. simpl. by case_bool_decide. }
    pose proof (Hlast t1) as H1. rewrite <-(Hlast t2) in H1.
    destruct (last_entry p (hint_entries t2 l)), (last_entry p (hint_entries t1 l));
      simpl in *; congruence.
Qed.

Lemma ingest_bootstrap_idempotent_witness :
  let peer b := mk_PeerId [b] in
  let h b := {| bh_peer := peer b; bh_addresses := ["quic://198.51.100.1:1"];
                bh_protocols := ["/quip/control/1"] |} in
  let self := with_bootstrap [h x02; h x01] in
  let '(r1, s1) := ingest_bootstrap self PeerStore_default 100 in
  let '(r2, s2) := ingest_bootstrap self s1 200 in
  report_total r1 = 2%Z ∧ skipped r2 = 2%Z.
Proof.
  intros peer h self.
  pose proof (ingest_bootstrap_idempotent self PeerStore_default 100 200
    ltac:(apply (bool_decide_unpack _); vm_compute; exact I)) as H.
  destruct (ingest_bootstrap self PeerStore_default 100) as [r1 s1].
  destruct (ingest_bootstrap self s1 200) as [r2 s2].
  destruct H as (H1 & -> & _). split; [exact H1|reflexivity].
Defined.
