(* ===== verification/Netcheck.v ===== *)
(** crates/netcheck: the reachability report and its renderings. *)
From stdpp Require Import base list strings gmap pretty option.
From Stdlib Require Import ZArith Lia Strings.Ascii.
From S2P Require Import Prelude Text.

(* crates/netcheck/src/lib.rs:3-12 NatType *)
Inductive NatType :=
| NatUnknown | OpenInternet | FullCone | RestrictedCone | PortRestrictedCone | Symmetric | UdpBlocked.

(* crates/netcheck/src/lib.rs:14-19 ProbeStatus *)
Inductive ProbeStatus := ProbePending | ProbePassed | ProbeFailed.

(* crates/netcheck/src/lib.rs:21-27 ProbeObservation *)
Record ProbeObservation := {
  po_vantage : string;
  po_status : ProbeStatus;
  po_latency_ms : option Z;
  po_detail : string;
}.

(* crates/netcheck/src/lib.rs:29-38 NetcheckReport *)
Record NetcheckReport := {
  nat_type : NatType;
  udp_reachable : bool;
  ipv6_reachable : bool;
  hairpin_supported : bool;
  public_udp_addr : option string;
  port_mapped : bool;
  probe_observations : list ProbeObservation;
}.

#[export] Instance NatType_eq_dec : EqDecision NatType.
Proof. solve_decision. Defined.
#[export] Instance ProbeStatus_eq_dec : EqDecision ProbeStatus.
Proof. solve_decision. Defined.
#[export] Instance ProbeObservation_eq_dec : EqDecision ProbeObservation.
Proof. solve_decision. Defined.
#[export] Instance NetcheckReport_eq_dec : EqDecision NetcheckReport.
Proof. solve_decision. Defined.

(* crates/netcheck/src/lib.rs:3-12 NatType (Debug) *)
Definition NatType_debug (n : NatType) : string :=
  match n with
  | NatUnknown => "Unknown" | OpenInternet => "OpenInternet" | FullCone => "FullCone"
  | RestrictedCone => "RestrictedCone" | PortRestrictedCone => "PortRestrictedCone"
  | Symmetric => "Symmetric" | UdpBlocked => "UdpBlocked"
  end.

(* crates/netcheck/src/lib.rs:41-43 NetcheckReport::relay_required *)
Definition relay_required (self : NetcheckReport) : bool :=
  negb (udp_reachable self) ||
  match nat_type self with Symmetric | UdpBlocked => true | _ => false end.

(* crates/netcheck/src/lib.rs:45-85 NetcheckReport::summary *)
Definition summary (self : NetcheckReport) : string :=
  let parts :=
    ["nat=" +:+ NatType_debug (nat_type self);
     "udp=" +:+ (if udp_reachable self then "reachable" else "blocked");
     "ipv6=" +:+ (if ipv6_reachable self then "reachable" else "unavailable");
     "hairpin=" +:+ (if hairpin_supported self then "supported" else "unsupported")] in
  let parts :=
    match public_udp_addr self with
    | Some addr => parts ++ ["public_addr=" +:+ addr]
    | None => parts
    end in
  let parts := if port_mapped self then parts ++ ["portmap=active"] else parts in
  let parts := if relay_required self then parts ++ ["relay=fallback-required"] else parts in
  join ", " parts.

(* crates/netcheck/src/lib.rs:87-104 NetcheckReport::warnings *)
Definition warnings (self : NetcheckReport) : list string :=
  (if negb (udp_reachable self)
   then ["UDP connectivity is blocked; direct QUIC paths will fail."] else []) ++
  (if match nat_type self with Symmetric => true | _ => false end
   then ["Symmetric NAT detected; relay capacity should be kept warm."] else []) ++
  (if negb (ipv6_reachable self)
   then ["IPv6 pathing is unavailable; dual-stack upgrades are disabled."] else []) ++
  (if negb (hairpin_supported self)
   then ["Hairpinning is unavailable; same-site reflexive testing may degrade."] else []).

Lemma join_snoc_contains sep l x : contains x (join sep (l ++ [x])) = true.
Proof.
  unfold join. induction l as [|y l IH]; [apply contains_self|].
  change ((y :: l) ++ [x]) with (y :: (l ++ [x])).
  destruct (l ++ [x]) as [|z k] eqn:E; [by destruct l|].
  change (contains x (y +:+ (sep +:+ String.concat sep (z :: k))) = true).
  rewrite <-E. apply contains_app_r, contains_app_r. by rewrite E.
Qed.

(** Whenever a relay is required the summary says so, and a required relay
    always comes with a warning except for a reachable node whose NAT is
    recorded as blocking UDP. *)
Lemma relay_required_reported r :
  relay_required r = true →
  contains "relay=fallback-required" (summary r) = true ∧
  (warnings r ≠ [] ∨ (nat_type r = UdpBlocked ∧ udp_reachable r = true)).
Proof.
  intros Hr. split; [unfold summary; rewrite Hr; apply join_snoc_contains|].
  unfold relay_required in Hr. unfold warnings.
  destruct (udp_reachable r); [|by left]. destruct (nat_type r); simpl in *; naive_solver.
Qed.
