(* ===== verification/Scheduler.v ===== *)
(** crates/scheduler: queue policies per traffic class. *)
From stdpp Require Import base list strings.
From Stdlib Require Import ZArith Lia.
From S2P Require Import Prelude Text Model.

(* crates/scheduler/src/lib.rs:4-9 QueuePolicy *)
Record QueuePolicy := {
  qp_class : TrafficClass;
  qp_max_inflight_messages : Z;
  qp_drop_stale : bool;
}.

#[export] Instance QueuePolicy_eq_dec : EqDecision QueuePolicy.
Proof. solve_decision. Defined.

(* crates/scheduler/src/lib.rs:11-34 default_queue_policies *)
Definition default_queue_policies : list QueuePolicy :=
  [{| qp_class := Control; qp_max_inflight_messages := 1024; qp_drop_stale := false |};
   {| qp_class := Interactive; qp_max_inflight_messages := 4096; qp_drop_stale := true |};
   {| qp_class := Bulk; qp_max_inflight_messages := 16384; qp_drop_stale := false |};
   {| qp_class := Background; qp_max_inflight_messages := 2048; qp_drop_stale := false |}].

(* crates/scheduler/src/lib.rs:36-41 policy_for *)
Definition policy_for (class : TrafficClass) : outcome QueuePolicy :=
  match find_first (λ policy, bool_decide (qp_class policy = class)) default_queue_policies with
  | Some policy => Returns policy
  | None => Panics
  end.

(** The [expect] never fires, and the policy is the one of the class asked for. *)
Lemma policy_for_total class : ∃ p, policy_for class = Returns p ∧ qp_class p = class.
Proof. destruct class; eexists; split; reflexivity. Qed.
