(* ===== verification/Protocol.v ===== *)
(** crates/protocol: the protocol registry and version negotiation. *)
From stdpp Require Import base list strings gmap pretty option countable sorting.
From Stdlib Require Import ZArith Lia.
From S2P Require Import Prelude Text BTree Model.

(* crates/protocol/src/lib.rs:7-13 ProtocolError *)
Inductive ProtocolError :=
| Unregistered (id : string)
| NoCompatibleVersion (id : string).

(** Versions are [u16]; as set elements they are kept in [N]. *)
(* crates/protocol/src/lib.rs:15-21 ProtocolDescriptor *)
Record ProtocolDescriptor := {
  pd_id : ProtocolId;
  pd_compatible_versions : gset N;
  pd_required_features : gset string;
  pd_optional_features : gset string;
}.

(* crates/protocol/src/lib.rs:23-28 NegotiatedProtocol *)
Record NegotiatedProtocol := {
  np_id : ProtocolId;
  np_version : N;
  np_enabled_features : gset string;
}.

(* crates/protocol/src/lib.rs:30-33 ProtocolRegistry *)
Record ProtocolRegistry := { protocols : gmap string ProtocolDescriptor }.

(* crates/protocol/src/lib.rs:36-39 ProtocolRegistry::register *)
Definition register (descriptor : ProtocolDescriptor) (self : ProtocolRegistry) : ProtocolRegistry :=
  {| protocols := <[protocol_text (pd_id descriptor) := descriptor]> (protocols self) |}.

(** [Iterator::max] on the sorted elements. *)
Definition max_version (X : gset N) : option N :=
  match bs_elements X with
  | [] => None
  | v :: l => Some (fold_left N.max l v)
  end.

(* crates/protocol/src/lib.rs:46-71 ProtocolRegistry::negotiate (loop body) *)
Definition negotiate_offer (self : ProtocolRegistry) (offer : ProtocolDescriptor)
    : result ProtocolError NegotiatedProtocol :=
  local ← ok_or (Unregistered (protocol_text (pd_id offer)))
            (protocols self !! protocol_text (pd_id offer));
  match max_version (pd_compatible_versions local ∩ pd_compatible_versions offer) with
  | None => Err (NoCompatibleVersion (protocol_text (pd_id offer)))
  | Some version => Ok {|
      np_id := pd_id offer;
      np_version := version;
      np_enabled_features := pd_optional_features local ∩ pd_optional_features offer;
    |}
  end.

(* crates/protocol/src/lib.rs:41-73 ProtocolRegistry::negotiate *)
Fixpoint negotiate (self : ProtocolRegistry) (peer_offers : list ProtocolDescriptor)
    : result ProtocolError (list NegotiatedProtocol) :=
  match peer_offers with
  | [] => Ok []
  | offer :: peer_offers =>
      n ← negotiate_offer self offer;
      l ← negotiate self peer_offers;
      Ok (n :: l)
  end.

(** ** Lemmas *)

Lemma fold_max_spec l v :
  let m := fold_left N.max l v in
  m ∈ v :: l ∧ ∀ x, x ∈ v :: l → (x ≤ m)%N.
Proof.
  simpl. revert v. induction l as [|y l IH]; intros v; simpl.
  { split; [set_solver|]. intros x ->%list_elem_of_singleton. lia. }
  destruct (IH (N.max v y)) as [H1 H2]. split.
  - destruct (N.max_spec v y) as [[_ E]|[_ E]]; rewrite E in *; set_solver.
  - intros x Hx. pose proof (H2 (N.max v y) ltac:(set_solver)).
    rewrite !elem_of_cons in Hx. destruct Hx as [->|[->|Hx]]; [lia|lia|].
    apply H2. set_solver.
Qed.

Lemma max_version_Some X v :
  max_version X = Some v ↔ v ∈ X ∧ ∀ x, x ∈ X → (x ≤ v)%N.
Proof.
  unfold max_version. pose proof (λ x, elem_of_bs_elements X x) as Hel.
  destruct (bs_elements X) as [|w l].
  - split; [done|]. intros [Hv _]. apply Hel in Hv. set_solver.
  - destruct (fold_max_spec l w) as [H1 H2]. split.
    + intros [= <-]. split; [by apply Hel|]. intros x Hx. by apply H2, Hel.
    + intros [Hv Hmax]. f_equal. apply N.le_antisymm; [by apply Hmax, Hel|by apply H2, Hel].
Qed.

Lemma max_version_None X : max_version X = None ↔ X = ∅.
Proof.
  unfold max_version. pose proof (λ x, elem_of_bs_elements X x) as Hel.
  destruct (bs_elements X) as [|w l]; split; try done.
  - intros _. apply set_eq. intros x. rewrite <-Hel. set_solver.
  - intros ->. pose proof (proj1 (Hel w) ltac:(set_solver)). set_solver.
Qed.

(** What one offer is agreed as. *)
Definition agreed (self : ProtocolRegistry) (offer : ProtocolDescriptor) (n : NegotiatedProtocol) : Prop :=
  ∃ local, protocols self !! protocol_text (pd_id offer) = Some local ∧
    np_id n = pd_id offer ∧
    np_version n ∈ pd_compatible_versions local ∩ pd_compatible_versions offer ∧
    (∀ v, v ∈ pd_compatible_versions local → v ∈ pd_compatible_versions offer →
       (v ≤ np_version n)%N) ∧
    np_enabled_features n = pd_optional_features local ∩ pd_optional_features offer.

Lemma negotiate_offer_Ok self offer n : negotiate_offer self offer = Ok n ↔ agreed self offer n.
Proof.
  unfold negotiate_offer, agreed. rewrite result_bind_Ok. setoid_rewrite ok_or_Ok.
  f_equiv. intros local. f_equiv.
  destruct (max_version _) as [v|] eqn:E.
  - apply max_version_Some in E as [Hv Hmax]. split.
    + intros [= <-]. simpl. split_and!; [done|done|set_solver|done].
    + intros (Hid & Hin & Hle & Hf). f_equal. destruct n as [i w f]. simpl in *. subst. f_equal.
      apply N.le_antisymm; [apply Hle; set_solver|apply Hmax; set_solver].
  - apply max_version_None in E. split; [done|]. intros (_ & Hin & _). set_solver.
Qed.

Lemma negotiate_Ok self offers l :
  negotiate self offers = Ok l ↔ Forall2 (agreed self) offers l.
Proof.
  revert l. induction offers as [|o offers IH]; intros l; simpl.
  { split; [intros [= <-]; constructor | by intros ->%Forall2_nil_inv_l]. }
  rewrite result_bind_Ok. split.
  - intros (n & Hn & (k & Hk & [= <-])%result_bind_Ok). constructor.
    + by apply negotiate_offer_Ok.
    + by apply IH.
  - intros Hl. inversion Hl as [|? n ? k Ho Hk]; subst. exists n.
    split; [by apply negotiate_offer_Ok|]. rewrite (proj2 (IH k) Hk). done.
Qed.

Lemma negotiate_offer_Err self offer e :
  negotiate_offer self offer = Err e ↔
  (protocols self !! protocol_text (pd_id offer) = None ∧
   e = Unregistered (protocol_text (pd_id offer))) ∨
  (∃ local, protocols self !! protocol_text (pd_id offer) = Some local ∧
   pd_compatible_versions local ∩ pd_compatible_versions offer = ∅ ∧
   e = NoCompatibleVersion (protocol_text (pd_id offer))).
Proof.
  unfold negotiate_offer. destruct (protocols self !! _) as [local|]; simpl; [|naive_solver].
  destruct (max_version _) as [v|] eqn:E.
  - apply max_version_Some in E as [Hv _]. split; [done|].
    intros [[? _]|(l & [= ->] & H & _)]; [done|]. set_solver.
  - apply max_version_None in E. naive_solver.
Qed.

(** Negotiation succeeds exactly when every offer is registered and shares
    a version, and then yields one entry per offer, in order, at the greatest
    common version with the common optional features; otherwise it reports the
    first offer that fails, and why. *)
Lemma negotiate_spec (self : ProtocolRegistry) (offers : list ProtocolDescriptor) :
  (∀ l, negotiate self offers = Ok l ↔ Forall2 (agreed self) offers l) ∧
  (∀ e, negotiate self offers = Err e ↔
    ∃ before offer after, offers = before ++ offer :: after ∧
      (∀ o, o ∈ before → ∃ n, agreed self o n) ∧ negotiate_offer self offer = Err e).
Proof.
  split; [apply negotiate_Ok|]. intros e.
  induction offers as [|o offers IH]; simpl.
  { split; [done|]. intros (? & ? & ? & Hnil & _). by destruct (app_cons_not_nil _ _ _ Hnil). }
  destruct (negotiate_offer self o) as [n|e'] eqn:E; simpl.
  - transitivity (negotiate self offers = Err e); [destruct (negotiate self offers); simpl; split; congruence|].
    rewrite IH. apply negotiate_offer_Ok in E. split.
    + intros (b & o' & a & -> & Hb & Ho). exists (o :: b), o', a. split_and!; [done| |done].
      intros o0 [->|]%elem_of_cons; eauto.
    + intros (b & o' & a & Heq & Hb & Ho). destruct b as [|o0 b]; simplify_eq/=.
      * apply negotiate_offer_Ok in E. congruence.
      * exists b, o', a. split_and!; [done| |done]. intros. apply Hb. set_solver.
  - split.
    + intros H. exists [], o, offers. split_and!; [done|set_solver|congruence].
    + intros (b & o' & a & Heq & Hb & Ho). destruct b as [|o0 b]; simplify_eq/=; [congruence|].
      destruct (Hb o0) as [n Hn]; [set_solver|]. apply negotiate_offer_Ok in Hn. congruence.
Qed.

(** The features an offer or the local descriptor requires play no part: any
    two descriptors that differ only there negotiate alike. *)
Definition with_required (r : gset string) (d : ProtocolDescriptor) : ProtocolDescriptor := {|
  pd_id := pd_id d;
  pd_compatible_versions := pd_compatible_versions d;
  pd_required_features := r;
  pd_optional_features := pd_optional_features d;
|}.

Lemma negotiate_ignores_required self offers r :
  negotiate self (with_required r <$> offers) = negotiate self offers.
Proof.
  induction offers as [|o offers IH]; [done|]. rewrite fmap_cons. cbn [negotiate]. by rewrite IH.
Qed.
