(* ===== verification/Policy.v ===== *)
(** crates/policy: first-match policy rules. *)
From stdpp Require Import base list strings gmap pretty option countable.
From Stdlib Require Import ZArith Lia.
From S2P Require Import Prelude Text BTree F32 External Model Crypto Membership.

(* crates/policy/src/lib.rs:5-9 Effect *)
Inductive Effect := Allow | Deny.

(* crates/policy/src/lib.rs:11-18 PolicyRule *)
Record PolicyRule := {
  rule_effect : Effect;
  rule_network_id : option NetworkId;
  rule_protocol : option ProtocolId;
  rule_source_peer : option PeerId;
  rule_required_capability : option string;
}.

(* crates/policy/src/lib.rs:20-24 Decision *)
Record Decision := { allowed : bool; reason : string }.

(* crates/policy/src/lib.rs:26-29 PolicyEngine *)
Record PolicyEngine := { rules : list PolicyRule }.

(* crates/policy/src/lib.rs:32-34 PolicyEngine::with_rules *)
Definition with_rules (l : list PolicyRule) : PolicyEngine := {| rules := l |}.

Definition Effect_debug (e : Effect) : string :=
  match e with Allow => "Allow" | Deny => "Deny" end.

(** [o.as_ref().is_some_and(|x| x != y)]. *)
Definition is_some_other {A} `{EqDecision A} (o : option A) (y : A) : bool :=
  match o with Some x => bool_decide (x ≠ y) | None => false end.

(* crates/policy/src/lib.rs:58-64 PolicyEngine::evaluate (has_capability) *)
Definition has_capability (capability : string) (protocol : ProtocolId)
    (grants : list CapabilityGrant) : bool :=
  any (λ grant,
    any (λ existing, bool_decide (existing = capability)) (cg_capabilities grant) &&
    any (λ scope, bool_decide (scope = protocol)) (cg_protocol_scopes grant)) grants.

Section evaluate.
Context (network_id : NetworkId) (source_peer : PeerId) (protocol : ProtocolId)
  (grants : list CapabilityGrant).

(* crates/policy/src/lib.rs:43-79 PolicyEngine::evaluate (loop) *)
Fixpoint evaluate_rules (rules : list PolicyRule) : Decision :=
  match rules with
  | [] => {| allowed := false;
             reason := "no matching policy rule for " +:+ protocol_text protocol |}
  | rule :: rules =>
      if is_some_other (rule_network_id rule) network_id then evaluate_rules rules
      else if is_some_other (rule_source_peer rule) source_peer then evaluate_rules rules
      else if is_some_other (rule_protocol rule) protocol then evaluate_rules rules
      else if match rule_required_capability rule with
              | Some capability => negb (has_capability capability protocol grants)
              | None => false
              end then evaluate_rules rules
      else {| allowed := match rule_effect rule with Allow => true | Deny => false end;
              reason := Effect_debug (rule_effect rule) +:+ " rule matched for " +:+
                        protocol_text protocol |}
  end.
End evaluate.

(* crates/policy/src/lib.rs:36-80 PolicyEngine::evaluate *)
Definition evaluate (self : PolicyEngine) (network_id : NetworkId) (source_peer : PeerId)
    (protocol : ProtocolId) (grants : list CapabilityGrant) : Decision :=
  evaluate_rules network_id source_peer protocol grants (rules self).

(** ** Specification: the first rule that applies decides, none denies. *)

Definition applies (net : NetworkId) (src : PeerId) (p : ProtocolId)
    (grants : list CapabilityGrant) (r : PolicyRule) : Prop :=
  (∀ n, rule_network_id r = Some n → n = net) ∧
  (∀ s, rule_source_peer r = Some s → s = src) ∧
  (∀ q, rule_protocol r = Some q → q = p) ∧
  (∀ c, rule_required_capability r = Some c →
     ∃ g, g ∈ grants ∧ c ∈ cg_capabilities g ∧ p ∈ cg_protocol_scopes g).

Lemma is_some_other_false {A} `{EqDecision A} (o : option A) y :
  is_some_other o y = false ↔ ∀ x, o = Some x → x = y.
Proof.
  destruct o as [x|]; simpl; [|naive_solver].
  rewrite bool_decide_eq_false. destruct (decide (x = y)); naive_solver.
Qed.

Lemma has_capability_true c p grants :
  has_capability c p grants = true ↔
  ∃ g, g ∈ grants ∧ c ∈ cg_capabilities g ∧ p ∈ cg_protocol_scopes g.
Proof.
  unfold has_capability. rewrite any_true. f_equiv. intros g.
  rewrite andb_true_iff, !any_true. setoid_rewrite bool_decide_eq_true. naive_solver.
Qed.

Definition applies_b net src p grants (r : PolicyRule) : bool :=
  negb (is_some_other (rule_network_id r) net) &&
  negb (is_some_other (rule_source_peer r) src) &&
  negb (is_some_other (rule_protocol r) p) &&
  match rule_required_capability r with Some c => has_capability c p grants | None => true end.

Lemma applies_b_true net src p grants r :
  applies_b net src p grants r = true ↔ applies net src p grants r.
Proof.
  unfold applies_b, applies.
  rewrite !andb_true_iff, !negb_true_iff, !is_some_other_false.
  setoid_rewrite <-has_capability_true.
  destruct (rule_required_capability r); naive_solver.
Qed.

Lemma evaluate_rules_find net src p grants l :
  evaluate_rules net src p grants l =
  match find_first (applies_b net src p grants) l with
  | Some r => {| allowed := match rule_effect r with Allow => true | Deny => false end;
                 reason := Effect_debug (rule_effect r) +:+ " rule matched for " +:+
                           protocol_text p |}
  | None => {| allowed := false; reason := "no matching policy rule for " +:+ protocol_text p |}
  end.
Proof.
  induction l as [|r l IH]; [done|]. cbn [evaluate_rules find_first]. rewrite IH. unfold applies_b.
  destruct (is_some_other (rule_network_id r) net), (is_some_other (rule_source_peer r) src),
    (is_some_other (rule_protocol r) p), (rule_required_capability r) as [c|]; simpl; try done.
  by destruct (has_capability c p grants).
Qed.

(** A request is allowed exactly when the first rule that applies to it is
    an [Allow] rule; in particular an engine in which no rule applies denies. *)
Lemma evaluate_first_match (self : PolicyEngine) net src p grants :
  allowed (evaluate self net src p grants) = true ↔
  ∃ before r after, rules self = before ++ r :: after ∧
    rule_effect r = Allow ∧ applies net src p grants r ∧
    ∀ r', r' ∈ before → ¬ applies net src p grants r'.
Proof.
  unfold evaluate. rewrite evaluate_rules_find.
  induction (rules self) as [|r l IH]; simpl.
  { split; [done|]. intros (? & ? & ? & Hnil & _). by destruct (app_cons_not_nil _ _ _ Hnil). }
  destruct (applies_b net src p grants r) eqn:E.
  - apply applies_b_true in E. simpl. split.
    + intros Ha. exists [], r, l. split_and!; [done|by destruct (rule_effect r)|done|set_solver].
    + intros (b & r' & a & Heq & He & Hr & Hb). destruct b as [|r0 b]; simplify_eq/=.
      * by rewrite He.
      * exfalso. apply (Hb r0); [set_solver|done].
  - rewrite IH. apply not_true_iff_false in E. rewrite applies_b_true in E. split.
    + intros (b & r' & a & -> & He & Hr & Hb). exists (r :: b), r', a.
      split_and!; [done|done|done|]. intros r0 [->|]%elem_of_cons; auto.
    + intros (b & r' & a & Heq & He & Hr & Hb). destruct b as [|r0 b]; simplify_eq/=; [done|].
      exists b, r', a. split_and!; [done|done|done|]. intros. apply Hb. set_solver.
Qed.
