(* ===== verification/Routing.v ===== *)
(** crates/routing: path candidates, their scores and the selection. *)
From stdpp Require Import base list strings gmap pretty option countable.
From Stdlib Require Import ZArith Lia Strings.Byte SpecFloat.
From S2P Require Import Prelude Text BTree F32 External Model.

(* crates/routing/src/lib.rs:4-12 PathScoreBreakdown *)
Record PathScoreBreakdown := {
  total : Z;
  latency_cost : Z;
  jitter_cost : Z;
  loss_cost : Z;
  throughput_cost : Z;
  relay_cost : Z;
}.

(* crates/routing/src/lib.rs:14-21 PathExplanation *)
Record PathExplanation := {
  ex_class : TrafficClass;
  ex_score : PathScoreBreakdown;
  ex_summary : string;
  ex_strengths : list string;
  ex_tradeoffs : list string;
}.

(* crates/routing/src/lib.rs:115-120 PathSource *)
Inductive PathSource := Observed | Bootstrap | AuthorityRelay.

(* crates/routing/src/lib.rs:101-113 PathCandidate *)
Record PathCandidate := {
  pc_peer : PeerId;
  pc_path_kind : PathKind;
  pc_relay_peer : option PeerId;
  pc_source : PathSource;
  pc_traffic_classes : list TrafficClass;
  pc_rtt_ms : Z;
  pc_jitter_ms : Z;
  pc_loss_pct : f32;
  pc_throughput_mbps : Z;
  pc_relay_penalty : Z;
}.

(* crates/routing/src/lib.rs:23-28 PathDecision *)
Record PathDecision := {
  dec_selected : PathCandidate;
  dec_class : TrafficClass;
  dec_explanation : PathExplanation;
}.

#[export] Instance PathSource_eq_dec : EqDecision PathSource.
Proof. solve_decision. Defined.
#[export] Instance PathScoreBreakdown_eq_dec : EqDecision PathScoreBreakdown.
Proof. solve_decision. Defined.
#[export] Instance PathCandidate_eq_dec : EqDecision PathCandidate.
Proof. solve_decision. Defined.

Definition PathSource_debug (s : PathSource) : string :=
  match s with
  | Observed => "Observed" | Bootstrap => "Bootstrap" | AuthorityRelay => "AuthorityRelay"
  end.

(* crates/routing/src/lib.rs:123-125 PathCandidate::supports_class *)
Definition supports_class (self : PathCandidate) (class : TrafficClass) : bool :=
  any (λ c, bool_decide (c = class)) (pc_traffic_classes self).

(* crates/routing/src/lib.rs:131-161 PathCandidate::score_breakdown *)
Definition score_breakdown (self : PathCandidate) (class : TrafficClass) : PathScoreBreakdown :=
  match class with
  | Control | Interactive => {|
      total := u32_add (u32_add (u32_add (pc_rtt_ms self) (u32_mul (pc_jitter_ms self) 2))
                          (pc_relay_penalty self))
                 (f32_as_u32 (f32_mul (pc_loss_pct self) (f32_of_Z 10)));
      latency_cost := pc_rtt_ms self;
      jitter_cost := u32_mul (pc_jitter_ms self) 2;
      loss_cost := f32_as_u32 (f32_mul (pc_loss_pct self) (f32_of_Z 10));
      throughput_cost := 0;
      relay_cost := pc_relay_penalty self;
    |}
  | Bulk => {|
      total := u32_add (pc_relay_penalty self) (sat_sub 250 (pc_throughput_mbps self / 4));
      latency_cost := 0;
      jitter_cost := 0;
      loss_cost := f32_as_u32 (f32_mul (pc_loss_pct self) (f32_of_Z 20));
      throughput_cost := sat_sub 250 (pc_throughput_mbps self / 4);
      relay_cost := pc_relay_penalty self;
    |}
  | Background => {|
      total := u32_add (u32_add (pc_relay_penalty self) (pc_rtt_ms self / 2))
                 (f32_as_u32 (f32_mul (pc_loss_pct self) (f32_of_Z 8)));
      latency_cost := pc_rtt_ms self / 2;
      jitter_cost := 0;
      loss_cost := f32_as_u32 (f32_mul (pc_loss_pct self) (f32_of_Z 8));
      throughput_cost := 0;
      relay_cost := pc_relay_penalty self;
    |}
  end.

(* crates/routing/src/lib.rs:127-129 PathCandidate::score *)
Definition score (self : PathCandidate) (class : TrafficClass) : Z :=
  total (score_breakdown self class).

Section explain.
Context `{Base32}.

(* crates/routing/src/lib.rs:163-208 PathCandidate::explain *)
Definition explain (self : PathCandidate) (class : TrafficClass) : PathExplanation :=
  let score := score_breakdown self class in
  let strengths :=
    (if (pc_rtt_ms self <=? 25)%Z
     then ["low RTT at " +:+ pretty (pc_rtt_ms self) +:+ " ms"] else []) ++
    (if (500 <=? pc_throughput_mbps self)%Z
     then ["high throughput at " +:+ pretty (pc_throughput_mbps self) +:+ " Mbps"] else []) ++
    (if (pc_relay_penalty self =? 0)%Z then ["direct routing avoids relay tax"] else []) ++
    (if decide (pc_path_kind self = Relay) then
       match pc_relay_peer self with
       | Some relay_peer => ["reachable through relay " +:+ PeerId_to_text relay_peer]
       | None => []
       end
     else []) in
  let tradeoffs :=
    (if decide (pc_path_kind self = Relay)
     then ["relay routing adds intermediate hop cost"] else []) ++
    (if f32_ge (pc_loss_pct self) (f32_of_Z 1)
     then ["loss is elevated at " +:+ f32_fixed1 (pc_loss_pct self) +:+ "%"] else []) ++
    (if (10 <=? pc_jitter_ms self)%Z
     then ["jitter is elevated at " +:+ pretty (pc_jitter_ms self) +:+ " ms"] else []) in
  {|
    ex_class := class;
    ex_score := score;
    ex_summary :=
      PathKind_debug (pc_path_kind self) +:+ " routing for " +:+ PeerId_to_text (pc_peer self) +:+
      " via " +:+ match pc_relay_peer self with
                  | Some p => PeerId_to_text p | None => "direct" end +:+
      " from " +:+ PathSource_debug (pc_source self) +:+ " scores " +:+ pretty (total score) +:+
      " for " +:+ TrafficClass_debug class +:+ " traffic";
    ex_strengths := strengths;
    ex_tradeoffs := tradeoffs;
  |}.

(* crates/routing/src/lib.rs:211-223 select_best_path *)
Definition select_best_path (candidates : list PathCandidate) (class : TrafficClass)
    : option PathDecision :=
  selected ← min_by_key (λ candidate, score candidate class)
               (retain (λ candidate, supports_class candidate class) candidates);
  let explanation := explain selected class in
  Some {| dec_selected := selected; dec_class := class; dec_explanation := explanation |}.
End explain.

(** ** Lemmas *)

(** The fields that are [u32] in the source. *)
Definition candidate_wf (c : PathCandidate) : Prop :=
  in_u32 (pc_rtt_ms c) ∧ in_u32 (pc_jitter_ms c) ∧ in_u32 (pc_throughput_mbps c) ∧
  in_u32 (pc_relay_penalty c).

Lemma retain_middle {A} (p : A → bool) l b x a :
  retain p l = b ++ x :: a →
  ∃ b' a', l = b' ++ x :: a' ∧ retain p b' = b ∧ retain p a' = a ∧ p x = true.
Proof.
  revert b. induction l as [|y l IH]; intros b; simpl.
  { intros Hnil. by destruct (app_cons_not_nil _ _ _ Hnil). }
  destruct (p y) eqn:E; intros Heq.
  - destruct b as [|z b]; simplify_eq/=.
    + by exists [], l.
    + destruct (IH b) as (b' & a' & -> & <- & <- & Hx); [done|].
      exists (z :: b'), a'. simpl. by rewrite E.
  - destruct (IH b) as (b' & a' & -> & <- & <- & Hx); [done|].
    exists (y :: b'), a'. simpl. by rewrite E.
Qed.

Section select.
Context `{Base32}.

(** [select_best_path] fails exactly when no candidate supports the
    class; otherwise it returns the first candidate of least score among
    those that do, with that candidate's own explanation. *)
Lemma select_best_path_spec (candidates : list PathCandidate) (class : TrafficClass) :
  match select_best_path candidates class with
  | None => ∀ c, c ∈ candidates → supports_class c class = false
  | Some d =>
      dec_class d = class ∧ dec_explanation d = explain (dec_selected d) class ∧
      supports_class (dec_selected d) class = true ∧
      ∃ before after, candidates = before ++ dec_selected d :: after ∧
        (∀ c, c ∈ before → supports_class c class = true →
           (score (dec_selected d) class < score c class)%Z) ∧
        (∀ c, c ∈ after → supports_class c class = true →
           (score (dec_selected d) class ≤ score c class)%Z)
  end.
Proof.
  unfold select_best_path.
  destruct (min_by_key _ _) as [x|] eqn:E; simpl.
  - split; [done|]. split; [done|].
    apply min_by_key_Some in E as (b & a & Hret & Hb & Ha).
    apply retain_middle in Hret as (b' & a' & -> & <- & <- & Hx).
    split; [done|]. exists b', a'. split_and!; [done| |];
      intros c Hc Hs; [apply Hb|apply Ha]; by apply elem_of_retain.
  - apply min_by_key_None in E. intros c Hc.
    destruct (supports_class c class) eqn:Hs; [|done].
    assert (c ∈ retain (λ c, supports_class c class) candidates) as Hin
      by (by apply elem_of_retain).
    rewrite E in Hin. set_solver.
Qed.
End select.

Lemma u32_wrap_add_l a b : u32_wrap (u32_wrap a + b) = u32_wrap (a + b).
Proof. unfold u32_wrap. by rewrite Z.add_mod_idemp_l. Qed.

(** C40.  The score of a path is the sum, modulo 2^32, of the costs reported in
    its breakdown, except for bulk traffic, whose total leaves the loss cost
    out; and the sum never wraps when the costs add up to less than 2^32. *)
Theorem score_is_sum_of_costs (c : PathCandidate) (class : TrafficClass) (Hwf : candidate_wf c) :
  let b := score_breakdown c class in
  let counted := (latency_cost b + jitter_cost b + throughput_cost b + relay_cost b +
                  match class with Bulk => 0 | _ => loss_cost b end)%Z in
  in_u32 (score c class) ∧
  score c class = u32_wrap counted ∧
  ((counted < 2 ^ 32)%Z → score c class = counted).
Proof.
  intros b counted.
  assert (score c class = u32_wrap counted) as Heq.
  { unfold score, counted, b.
    destruct class; cbn; unfold u32_add;
      repeat (rewrite u32_wrap_add_l, <-?Z.add_assoc); f_equal; lia. }
  rewrite Heq. split_and!; [apply u32_wrap_range|done|].
  intros Hlt. apply u32_wrap_id. unfold in_u32, u32_max.
  destruct Hwf as (H1 & H2 & H3 & H4). unfold in_u32 in *. split; [|lia].
  pose proof (f32_as_u32_range (f32_mul (pc_loss_pct c) (f32_of_Z 10))) as [L10 _].
  pose proof (f32_as_u32_range (f32_mul (pc_loss_pct c) (f32_of_Z 8))) as [L8 _].
  pose proof (u32_wrap_range (pc_jitter_ms c * 2)) as [J _].
  clear Heq Hlt. unfold counted, b. destruct class;
    cbn [score_breakdown latency_cost jitter_cost throughput_cost relay_cost loss_cost];
    unfold u32_mul, sat_sub; pose proof (Z.div_pos (pc_rtt_ms c) 2); lia.
Qed.

Section witnesses.
Import External.Demo.

Definition demo_candidate (label : string) (penalty : Z) : PathCandidate := {|
  pc_peer := PeerId_from_public_key Ed25519 (as_bytes label);
  pc_path_kind := DirectUdp; pc_relay_peer := None; pc_source := Observed;
  pc_traffic_classes := [Interactive; Bulk];
  pc_rtt_ms := 35; pc_jitter_ms := 4; pc_loss_pct := f32_ratio 1 5;
  pc_throughput_mbps := 300; pc_relay_penalty := penalty |}.

Lemma score_is_sum_of_costs_witness :
  candidate_wf (demo_candidate "direct" 0) ∧
  score (demo_candidate "direct" 0) Interactive = 45%Z.
Proof.
  assert (candidate_wf (demo_candidate "direct" 0)) as Hwf
    by (repeat split; unfold u32_max; simpl; lia).
  split; [exact Hwf|].
  destruct (score_is_sum_of_costs (demo_candidate "direct" 0) Interactive Hwf) as (_ & _ & H).
  apply H. vm_compute. reflexivity.
Defined.

(** A relay penalty close to 2^32 wraps the total, so that the path with the
    larger costs is the one selected. *)
Example wrapped_score_wins :
  dec_selected <$> select_best_path
    [demo_candidate "a" 0; demo_candidate "b" (2 ^ 32 - 40)] Interactive =
  Some (demo_candidate "b" (2 ^ 32 - 40)).
Proof. vm_compute. reflexivity. Qed.
End witnesses.
