(* ===== verification/RelayWire.v ===== *)
(** crates/relaywire: the frames and maps relays exchange. *)
From stdpp Require Import base list strings gmap pretty option countable.
From Stdlib Require Import ZArith Lia Strings.Byte.
From S2P Require Import Prelude Text BTree F32 External Model Crypto Identity.

(* crates/relaywire/src/lib.rs:6-16 RelayRejectCode *)
Inductive RelayRejectCode :=
| RejUnauthorized
| RejUnsupportedTrafficClass
| RejCapacityExceeded
| RejSessionExists
| RejInvalidIdentityProof
| RejDestinationUnauthorized
| RejDestinationProtocolRejected
| RejInvalidRequest.

(* crates/relaywire/src/lib.rs:18-28 RelayOpenRequest *)
Record RelayOpenRequest := {
  or_attempt_id : bytes;
  or_network_id : NetworkId;
  or_source : PeerId;
  or_source_public_key : PublicIdentityKey;
  or_source_credential : SessionCredential;
  or_destination : PeerId;
  or_protocol : option ProtocolId;
  or_traffic_class : TrafficClass;
}.

(* crates/relaywire/src/lib.rs:30-38 RelaySessionAccepted *)
Record RelaySessionAccepted := {
  sa_attempt_id : bytes;
  sa_session_id : bytes;
  sa_source : PeerId;
  sa_destination : PeerId;
  sa_protocol : option ProtocolId;
  sa_traffic_class : TrafficClass;
}.

(* crates/relaywire/src/lib.rs:40-49 RelaySessionRejected *)
Record RelaySessionRejected := {
  sr_attempt_id : bytes;
  sr_code : RelayRejectCode;
  sr_source : PeerId;
  sr_destination : PeerId;
  sr_protocol : option ProtocolId;
  sr_traffic_class : TrafficClass;
  sr_reason : string;
}.

(* crates/relaywire/src/lib.rs:51-69 RelayFrame *)
Inductive RelayFrame :=
| FOpenSession (request : RelayOpenRequest)
| FSessionAccepted (accepted : RelaySessionAccepted)
| FSessionRejected (rejected : RelaySessionRejected)
| FData (session_id payload : bytes)
| FHealth (session_id : bytes) (queue_depth load_percent : Z)
| FClose (session_id : bytes) (reason : string).

(* crates/relaywire/src/lib.rs:71-82 RelayAnnouncement *)
Record RelayAnnouncement := {
  ra_peer_id : PeerId;
  ra_region : string;
  ra_advertised_endpoints : list string;
  ra_control_endpoint : string;
  ra_max_bandwidth_bps : Z;
  ra_supports_quic_datagrams : bool;
  ra_supports_path_migration : bool;
  ra_traffic_classes : list string;
}.

(* crates/relaywire/src/lib.rs:84-89 RelayMap *)
Record RelayMap := {
  rm_version : Z;
  rm_generated_at : Z;
  rm_relays : list RelayAnnouncement;
}.

#[export] Instance RelayRejectCode_eq_dec : EqDecision RelayRejectCode.
Proof. solve_decision. Defined.
#[export] Instance RelaySessionAccepted_eq_dec : EqDecision RelaySessionAccepted.
Proof. solve_decision. Defined.
#[export] Instance RelaySessionRejected_eq_dec : EqDecision RelaySessionRejected.
Proof. solve_decision. Defined.
#[export] Instance RelayAnnouncement_eq_dec : EqDecision RelayAnnouncement.
Proof. solve_decision. Defined.
#[export] Instance RelayMap_eq_dec : EqDecision RelayMap.
Proof. solve_decision. Defined.
