(* ===== verification/Relay.v ===== *)
(** crates/relay: the relay session runtime, admission of sessions, the
    process-wide registry of relays and the HTTP control surface. *)
From stdpp Require Import base list strings gmap pretty option countable.
From Stdlib Require Import ZArith Lia Strings.Byte.
From S2P Require Import Prelude Text BTree F32 External Model Crypto Identity RelayWire.

(* crates/relay/src/lib.rs:18-23 RelayQuota *)
Record RelayQuota := {
  q_peer : PeerId;
  q_max_bandwidth_bps : Z;
  q_max_concurrent_sessions : Z;
}.

(* crates/relay/src/lib.rs:25-29 RelayDestination *)
Record RelayDestination := {
  rd_peer : PeerId;
  rd_protocols : list ProtocolId;
}.

(* crates/relay/src/lib.rs:31-36 RelayNode *)
Record RelayNode := {
  announcement : RelayAnnouncement;
  quotas : list RelayQuota;
  destinations : list RelayDestination;
}.

(* crates/relay/src/lib.rs:38-62 RelayError *)
Inductive RelayError :=
| Unauthorized
| InvalidIdentityProof (reason : string)
| DestinationUnauthorized (peer : PeerId)
| DestinationProtocolRejected (peer : PeerId)
| Unavailable (peer : PeerId)
| UnsupportedTrafficClass (class : TrafficClass)
| CapacityExceeded (peer : PeerId)
| SessionExists
| SessionNotFound
| ControlTransport (reason : string)
| ControlDecode (reason : string).

(* crates/relay/src/lib.rs:64-69 RelaySessionStatus *)
Inductive RelaySessionStatus := Pending | Open | Closed.

(* crates/relay/src/lib.rs:71-79 RelaySession *)
Record RelaySession := {
  rs_session_id : bytes;
  rs_source : PeerId;
  rs_destination : PeerId;
  rs_protocol : option ProtocolId;
  rs_traffic_class : TrafficClass;
  rs_status : RelaySessionStatus;
}.

#[export] Instance RelayError_eq_dec : EqDecision RelayError.
Proof. solve_decision. Defined.
#[export] Instance RelaySessionStatus_eq_dec : EqDecision RelaySessionStatus.
Proof. solve_decision. Defined.
#[export] Instance RelaySession_eq_dec : EqDecision RelaySession.
Proof. solve_decision. Defined.

(* crates/relay/src/lib.rs:81-84 RelayRuntime *)
Definition RelayRuntime : Type := gmap bytes RelaySession.

(* crates/relay/src/lib.rs:154-158 RelayService *)
Record RelayService := { node : RelayNode; runtime : RelayRuntime }.

Definition is_open (session : RelaySession) : bool :=
  bool_decide (rs_status session = Open).

(* crates/relay/src/lib.rs:87-89 RelayRuntime::session *)
Definition runtime_session (self : RelayRuntime) (session_id : bytes) : option RelaySession :=
  (self : gmap bytes RelaySession) !! session_id.

(* crates/relay/src/lib.rs:91-96 RelayRuntime::session_count *)
Definition runtime_session_count (self : RelayRuntime) : Z := count_values is_open self.

(* crates/relay/src/lib.rs:583-585 pending_session_id *)
Definition pending_session_id (attempt_id : bytes) : bytes := attempt_id.

Definition with_status (status : RelaySessionStatus) (s : RelaySession) : RelaySession := {|
  rs_session_id := rs_session_id s; rs_source := rs_source s;
  rs_destination := rs_destination s; rs_protocol := rs_protocol s;
  rs_traffic_class := rs_traffic_class s; rs_status := status |}.

(** The record an [OpenSession] frame and a [SessionAccepted] frame store. *)
Definition pending_session (request : RelayOpenRequest) : RelaySession := {|
  rs_session_id := pending_session_id (or_attempt_id request);
  rs_source := or_source request;
  rs_destination := or_destination request;
  rs_protocol := or_protocol request;
  rs_traffic_class := or_traffic_class request;
  rs_status := Pending |}.

Definition accepted_session (accepted : RelaySessionAccepted) : RelaySession := {|
  rs_session_id := sa_session_id accepted;
  rs_source := sa_source accepted;
  rs_destination := sa_destination accepted;
  rs_protocol := sa_protocol accepted;
  rs_traffic_class := sa_traffic_class accepted;
  rs_status := Open |}.

(* crates/relay/src/lib.rs:98-151 RelayRuntime::apply_frame *)
Definition apply_frame (self : RelayRuntime) (frame : RelayFrame)
    : result RelayError () * RelayRuntime :=
  let sessions : gmap bytes RelaySession := self in
  match frame with
  | FOpenSession request =>
      (Ok (), <[pending_session_id (or_attempt_id request) := pending_session request]> sessions)
  | FSessionAccepted accepted =>
      (Ok (), <[sa_session_id accepted := accepted_session accepted]> sessions)
  | FSessionRejected rejected =>
      (Err Unauthorized, delete (pending_session_id (sr_attempt_id rejected)) sessions)
  | FData session_id _ | FHealth session_id _ _ =>
      match sessions !! session_id with
      | Some session =>
          if is_open session then (Ok (), sessions) else (Err Unauthorized, sessions)
      | None => (Err Unauthorized, sessions)
      end
  | FClose session_id _ =>
      (Ok (), alter (with_status Closed) session_id sessions)
  end.

(* crates/relay/src/lib.rs:161-166 RelayService::new *)
Definition RelayService_new (n : RelayNode) : RelayService := {| node := n; runtime := ∅ |}.

(* crates/relay/src/lib.rs:501-509 supports_traffic_class *)
Definition supports_traffic_class (values : list string) (class : TrafficClass) : bool :=
  any (λ value, match class with
    | Control => String.eqb value "NetworkControl"
    | Interactive => String.eqb value "InteractiveRpc"
    | Bulk => String.eqb value "BulkTransfer"
    | Background => String.eqb value "Background"
    end) values.

(* crates/relay/src/lib.rs:556-575 authorize_destination *)
Definition authorize_destination (destinations : list RelayDestination) (destination : PeerId)
    (protocol : option ProtocolId) : result RelayError () :=
  entry ← ok_or (DestinationUnauthorized destination)
            (find_first (λ candidate, bool_decide (rd_peer candidate = destination)) destinations);
  match protocol with
  | Some protocol =>
      if negb (any (λ candidate, bool_decide (candidate = protocol)) (rd_protocols entry))
      then Err (DestinationProtocolRejected destination) else Ok ()
  | None => Ok ()
  end.

(* crates/relay/src/lib.rs:594-596 identity_error_message *)
Definition identity_error_message (error : IdentityError) : string :=
  "source identity proof verification failed: " +:+ identity_error_text error.

(* crates/relay/src/lib.rs:628-644 map_rejected_to_error *)
Definition map_rejected_to_error (rejected : RelaySessionRejected) : RelayError :=
  match sr_code rejected with
  | RejSessionExists => SessionExists
  | RejCapacityExceeded => CapacityExceeded (sr_source rejected)
  | RejUnsupportedTrafficClass => UnsupportedTrafficClass (sr_traffic_class rejected)
  | RejInvalidIdentityProof => InvalidIdentityProof (sr_reason rejected)
  | RejDestinationProtocolRejected => DestinationProtocolRejected (sr_destination rejected)
  | RejDestinationUnauthorized => DestinationUnauthorized (sr_destination rejected)
  | RejInvalidRequest | RejUnauthorized => Unauthorized
  end.

Section relay.
Context `{Blake3, Varint, Base32, Curves, JsonBytes SessionCredentialUnsigned}.

(* crates/relay/src/lib.rs:38-62 RelayError (Display) *)
Definition relay_error_text (e : RelayError) : string :=
  match e with
  | Unauthorized => "peer is not authorized to use this relay"
  | InvalidIdentityProof r => "source identity proof is invalid: " +:+ r
  | DestinationUnauthorized p =>
      "relay destination " +:+ PeerId_to_text p +:+ " is not authorized"
  | DestinationProtocolRejected p =>
      "relay destination " +:+ PeerId_to_text p +:+ " does not support requested protocol"
  | Unavailable p => "relay " +:+ PeerId_to_text p +:+ " is unavailable"
  | UnsupportedTrafficClass c =>
      "relay path does not support traffic class " +:+ TrafficClass_debug c
  | CapacityExceeded p =>
      "relay is at session capacity for peer " +:+ PeerId_to_text p
  | SessionExists => "relay session already exists"
  | SessionNotFound => "relay session was not found"
  | ControlTransport r => "relay control transport failed: " +:+ r
  | ControlDecode r => "relay control payload decode failed: " +:+ r
  end.

(* crates/relay/src/lib.rs:517-527 verify_source_key_binding *)
Definition verify_source_key_binding (public_key : PublicIdentityKey) (source : PeerId)
    : result RelayError () :=
  if decide (key_peer_id public_key ≠ source)
  then Err (InvalidIdentityProof
              "source identity proof peer id does not match claimed source")
  else Ok ().

(** [now] is what [now_epoch_secs] reads. *)
(* crates/relay/src/lib.rs:529-554 verify_session_credential *)
Definition verify_session_credential (now : Z) (request : RelayOpenRequest)
    : result string () :=
  let credential := or_source_credential request in
  _ ← map_err identity_error_message
        (credential_verify credential (or_source_public_key request));
  if decide (sc_peer_id credential ≠ or_source request)
  then Err "source identity proof peer id does not match credential"
  else if decide (sc_network_id credential ≠ or_network_id request)
  then Err "source identity proof network does not match relay network"
  else if (sc_expires_at credential <? now)%Z
  then Err "source identity proof is expired"
  else match or_protocol request with
  | Some protocol =>
      if negb (any (λ value, String.eqb value (protocol_text protocol))
                 (sc_protocol_versions credential))
      then Err "source identity proof does not authorize requested protocol"
      else Ok ()
  | None => Ok ()
  end.

(* crates/relay/src/lib.rs:511-515 verify_open_request *)
Definition verify_open_request (now : Z) (request : RelayOpenRequest) : result RelayError () :=
  _ ← verify_source_key_binding (or_source_public_key request) (or_source request);
  _ ← map_err InvalidIdentityProof (verify_session_credential now request);
  Ok ().

Definition rejection (request : RelayOpenRequest) (code : RelayRejectCode) (reason : string)
    : RelaySessionRejected := {|
  sr_attempt_id := or_attempt_id request;
  sr_code := code;
  sr_source := or_source request;
  sr_destination := or_destination request;
  sr_protocol := or_protocol request;
  sr_traffic_class := or_traffic_class request;
  sr_reason := reason |}.

Definition open_for (source : PeerId) (session : RelaySession) : bool :=
  bool_decide (rs_source session = source) && is_open session.

(** The quota entry that rejects the request, if one does. *)
(* crates/relay/src/lib.rs:217-242 RelayService::open_session (quota) *)
Definition exceeded_quota (self : RelayService) (source : PeerId) : option RelayQuota :=
  match find_first (λ quota, bool_decide (q_peer quota = source)) (quotas (node self)) with
  | Some quota =>
      let active_for_source := u32_wrap (count_values (open_for source) (runtime self)) in
      if (q_max_concurrent_sessions quota <=? active_for_source)%Z then Some quota else None
  | None => None
  end.

(** [random] is the identifier drawn by [random_session_id].  Both
    [apply_frame] calls return [Ok], so their [expect]s cannot fail. *)
(* crates/relay/src/lib.rs:168-272 RelayService::open_session *)
Definition open_session (now : Z) (random : bytes) (self : RelayService)
    (request : RelayOpenRequest)
    : result RelaySessionRejected RelaySessionAccepted * RelayService :=
  match verify_open_request now request with
  | Err error =>
      (Err (rejection request RejInvalidIdentityProof (relay_error_text error)), self)
  | Ok _ =>
  if negb (supports_traffic_class (ra_traffic_classes (announcement (node self)))
             (or_traffic_class request))
  then (Err (rejection request RejUnsupportedTrafficClass
               ("relay does not support " +:+ TrafficClass_debug (or_traffic_class request)
                +:+ " traffic")), self)
  else
  match authorize_destination (destinations (node self)) (or_destination request)
          (or_protocol request) with
  | Err error =>
      (Err (rejection request
              match error with
              | DestinationProtocolRejected _ => RejDestinationProtocolRejected
              | _ => RejDestinationUnauthorized
              end (relay_error_text error)), self)
  | Ok _ =>
  match exceeded_quota self (or_source request) with
  | Some quota =>
      (Err (rejection request RejCapacityExceeded
              ("source " +:+ PeerId_to_text (q_peer quota) +:+ " is over relay session quota")),
       self)
  | None =>
  let session_id := random in
  if decide (is_Some ((runtime self : gmap bytes RelaySession) !! session_id))
  then (Err (rejection request RejSessionExists "relay session already exists"), self)
  else
  let '(_, runtime1) := apply_frame (runtime self) (FOpenSession request) in
  let accepted := {|
    sa_attempt_id := or_attempt_id request;
    sa_session_id := session_id;
    sa_source := or_source request;
    sa_destination := or_destination request;
    sa_protocol := or_protocol request;
    sa_traffic_class := or_traffic_class request |} in
  let '(_, runtime2) := apply_frame runtime1 (FSessionAccepted accepted) in
  (Ok accepted, {| node := node self; runtime := runtime2 |})
  end end end.

(* crates/relay/src/lib.rs:274-284 RelayService::close_session *)
Definition close_session (self : RelayService) (session_id : bytes) (reason : string)
    : result RelayError () * RelayService :=
  match runtime_session (runtime self) session_id with
  | None => (Err SessionNotFound, self)
  | Some _ =>
      let '(r, runtime') := apply_frame (runtime self) (FClose session_id reason) in
      (r, {| node := node self; runtime := runtime' |})
  end.

(* crates/relay/src/lib.rs:286-288 RelayService::session_count *)
Definition session_count (self : RelayService) : Z := runtime_session_count (runtime self).

(* crates/relay/src/lib.rs:290-292 RelayService::session *)
Definition session (self : RelayService) (session_id : bytes) : option RelaySession :=
  runtime_session (runtime self) session_id.
End relay.

(** ** The process-wide registry *)

(* crates/relay/src/lib.rs:295-295 RELAY_REGISTRY *)
Definition Registry : Type := gmap PeerId RelayService.

(* crates/relay/src/lib.rs:444-449 register_relay *)
Definition register_relay (service : RelayService) (registry : Registry) : Registry :=
  <[ra_peer_id (announcement (node service)) := service]> (registry : gmap PeerId RelayService).

(* crates/relay/src/lib.rs:451-456 clear_registry *)
Definition clear_registry (registry : Registry) : Registry := ∅.

(* crates/relay/src/lib.rs:469-475 registered_session_count *)
Definition registered_session_count (registry : Registry) (relay_peer : PeerId) : option Z :=
  session_count <$> (registry : gmap PeerId RelayService) !! relay_peer.

(* crates/relay/src/lib.rs:477-483 registered_session *)
Definition registered_session (registry : Registry) (relay_peer : PeerId) (session_id : bytes)
    : option RelaySession :=
  service ← (registry : gmap PeerId RelayService) !! relay_peer;
  session service session_id.

(* crates/relay/src/lib.rs:485-495 close_registered_session *)
Definition close_registered_session (registry : Registry) (relay_peer : PeerId)
    (session_id : bytes) (reason : string) : result RelayError () * Registry :=
  match (registry : gmap PeerId RelayService) !! relay_peer with
  | None => (Err (Unavailable relay_peer), registry)
  | Some service =>
      let '(r, service') := close_session service session_id reason in
      (r, <[relay_peer := service']> (registry : gmap PeerId RelayService))
  end.

(* crates/relay/src/lib.rs:598-605 single_registered_relay_peer *)
Definition single_registered_relay_peer (registry : Registry) : option PeerId :=
  if (bt_len registry =? 1)%Z then head (bt_keys registry) else None.

(** The interface through which a transport drives relays, over whatever
    state [R] the relays are in. *)
(* crates/relay/src/lib.rs:297-316 RelayControl *)
Class RelayControl (R : Type) := {
  rc_open_session : string → RelayOpenRequest → R → result RelayError RelaySessionAccepted * R;
  rc_close_session : string → bytes → string → R → result RelayError () * R;
  rc_session : string → bytes → R → result RelayError (option RelaySession);
}.

(** What a client may rely on: an accepted session is open at that endpoint and
    joins the requested peers; a successful close closes a session that was
    there and touches no other. *)
Class RelayControlLaws (R : Type) `{RelayControl R} := {
  rc_open_law endpoint request r a r' :
    rc_open_session endpoint request r = (Ok a, r') →
    ∃ x, rc_session endpoint (sa_session_id a) r' = Ok (Some x) ∧ rs_status x = Open ∧
      rs_source x = or_source request ∧ rs_destination x = or_destination request;
  rc_close_law endpoint id reason r r' :
    rc_close_session endpoint id reason r = (Ok (), r') →
    ∃ x, rc_session endpoint id r = Ok (Some x) ∧
      rc_session endpoint id r' = Ok (Some (with_status Closed x));
  rc_close_frame endpoint id reason r r' endpoint' id' :
    rc_close_session endpoint id reason r = (Ok (), r') → id' ≠ id →
    rc_session endpoint' id' r' = rc_session endpoint' id' r;
}.

Section registry.
Context `{Blake3, Varint, Base32, Curves, JsonBytes SessionCredentialUnsigned}.

(* crates/relay/src/lib.rs:458-467 open_registered_session *)
Definition open_registered_session (now : Z) (random : bytes) (registry : Registry)
    (relay_peer : PeerId) (request : RelayOpenRequest)
    : result RelayError RelaySessionAccepted * Registry :=
  match (registry : gmap PeerId RelayService) !! relay_peer with
  | None => (Err (Unavailable relay_peer), registry)
  | Some service =>
      let '(r, service') := open_session now random service request in
      (map_err map_rejected_to_error r,
       <[relay_peer := service']> (registry : gmap PeerId RelayService))
  end.

(* crates/relay/src/lib.rs:607-618 resolve_inproc_relay_peer *)
Definition resolve_inproc_relay_peer (registry : Registry) (endpoint : string)
    : result RelayError PeerId :=
  parsed ← match strip_prefix "inproc://" endpoint with
           | Some value =>
               peer ← map_err (λ error,
                        ControlTransport ("invalid inproc relay peer: " +:+ type_error_text error))
                      (PeerId_from_str value);
               Ok (Some peer)
           | None => Ok None
           end;
  ok_or (ControlTransport "missing inproc relay peer")
    (match parsed with
     | Some peer => Some peer
     | None => single_registered_relay_peer registry
     end).

(** [open_session] of the in-process control repeats the resolution inline. *)
(* crates/relay/src/lib.rs:406-422 InProcessRelayControl::open_session *)
Definition inproc_open_session (now : Z) (random : bytes) (registry : Registry)
    (endpoint : string) (request : RelayOpenRequest)
    : result RelayError RelaySessionAccepted * Registry :=
  match resolve_inproc_relay_peer registry endpoint with
  | Ok relay_peer => open_registered_session now random registry relay_peer request
  | Err error => (Err error, registry)
  end.

(* crates/relay/src/lib.rs:424-432 InProcessRelayControl::close_session *)
Definition inproc_close_session (registry : Registry) (endpoint : string)
    (session_id : bytes) (reason : string) : result RelayError () * Registry :=
  match resolve_inproc_relay_peer registry endpoint with
  | Ok relay_peer => close_registered_session registry relay_peer session_id reason
  | Err error => (Err error, registry)
  end.

(* crates/relay/src/lib.rs:434-441 InProcessRelayControl::session *)
Definition inproc_session (registry : Registry) (endpoint : string) (session_id : bytes)
    : result RelayError (option RelaySession) :=
  relay_peer ← resolve_inproc_relay_peer registry endpoint;
  Ok (registered_session registry relay_peer session_id).

(** The in-process control over the registry; the second component counts the
    clock and generator readings its opens have made. *)
(* crates/relay/src/lib.rs:402-442 InProcessRelayControl *)
Definition inproc_relay_control (clock : nat → Z) (rng : nat → bytes)
    : RelayControl (Registry * nat) := {|
  rc_open_session endpoint request w :=
    let '(registry, n) := w in
    let '(r, registry') := inproc_open_session (clock n) (rng n) registry endpoint request in
    (r, (registry', S n));
  rc_close_session endpoint session_id reason w :=
    let '(registry, n) := w in
    let '(r, registry') := inproc_close_session registry endpoint session_id reason in
    (r, (registry', n));
  rc_session endpoint session_id w := inproc_session w.1 endpoint session_id;
|}.
End registry.

(** ** The HTTP control surface *)

(** The loop of [parse_session_id], from [index], over [fuel] remaining slots. *)
Fixpoint parse_session_bytes (value : string) (index fuel : nat) : outcome (option bytes) :=
  match fuel with
  | 0 => Returns (Some [])
  | S fuel =>
      let offset := index * 2 in
      match str_slice value offset (offset + 2) with
      | Panics => Panics
      | Returns digits =>
          match u8_from_hex digits with
          | None => Returns None
          | Some slot =>
              match parse_session_bytes value (S index) fuel with
              | Returns (Some rest) => Returns (Some (slot :: rest))
              | r => r
              end
          end
      end
  end.

(* crates/relay/src/lib.rs:744-754 parse_session_id *)
Definition parse_session_id (value : string) : outcome (option bytes) :=
  if decide (str_len value ≠ 32%Z) then Returns None
  else parse_session_bytes value 0 16.

(* crates/relay/src/lib.rs:739-742 parse_session_path *)
Definition parse_session_path (path : string) : outcome (option bytes) :=
  match strip_prefix "/sessions/" path with
  | None => Returns None
  | Some session => parse_session_id session
  end.

(* crates/relay/src/lib.rs:756-762 hex_session_id *)
Definition hex_session_id (session_id : bytes) : string := hex_string session_id.

(** The JSON forms of the messages on the control surface: serialization of
    these types cannot fail, and a body that does not parse gives an error text.
    [parse_close] returns the [reason] of a [CloseSessionRequest]. *)
Class RelayJson := {
  accepted_json : RelaySessionAccepted → string;
  rejected_json : RelaySessionRejected → string;
  session_json : RelaySession → string;
  parse_open : bytes → result string RelayOpenRequest;
  parse_close : bytes → result string string;
}.

Section control.
Context `{Blake3, Varint, Base32, Curves, JsonBytes SessionCredentialUnsigned}.
Context `{JsonText, RelayJson}.

Definition error_json (error : string) : string := json_text (JObj [("error", JStr error)]).
Definition not_found_json (session_id : bytes) : string :=
  error_json ("relay session " +:+ hex_session_id session_id +:+ " was not found").
Definition invalid_path_json (path : string) : string :=
  error_json ("invalid relay session path " +:+ path).

Definition invalid_request (error : string) : RelaySessionRejected := {|
  sr_attempt_id := replicate 16 x00;
  sr_code := RejInvalidRequest;
  sr_source := PeerId_from_public_key Ed25519 (as_bytes "invalid");
  sr_destination := PeerId_from_public_key Ed25519 (as_bytes "invalid");
  sr_protocol := None;
  sr_traffic_class := Control;
  sr_reason := "invalid relay request: " +:+ error |}.

(* crates/relay/src/lib.rs:646-732 control_response *)
Definition control_response (now : Z) (random : bytes) (service : RelayService)
    (method path : string) (body : bytes) : outcome ((Z * string) * RelayService) :=
  if String.eqb method "POST" && String.eqb path "/sessions" then
    match parse_open body with
    | Ok request =>
        match open_session now random service request with
        | (Ok accepted, service') => Returns ((200%Z, accepted_json accepted), service')
        | (Err rejected, service') => Returns ((403%Z, rejected_json rejected), service')
        end
    | Err error => Returns ((400%Z, rejected_json (invalid_request error)), service)
    end
  else if String.eqb method "GET" && String.eqb path "/healthz" then
    Returns ((200%Z, json_text (JObj [("ok", JBool true);
                                      ("sessions", JNum (session_count service))])), service)
  else if String.eqb method "GET" && starts_with "/sessions/" path then
    match parse_session_path path with
    | Panics => Panics
    | Returns (Some session_id) =>
        match session service session_id with
        | Some session => Returns ((200%Z, session_json session), service)
        | None => Returns ((404%Z, not_found_json session_id), service)
        end
    | Returns None => Returns ((400%Z, invalid_path_json path), service)
    end
  else if String.eqb method "DELETE" && starts_with "/sessions/" path then
    match parse_session_path path with
    | Panics => Panics
    | Returns (Some session_id) =>
        match parse_close body with
        | Err error => Returns ((400%Z, error_json ("invalid close request: " +:+ error)), service)
        | Ok reason =>
            match close_session service session_id reason with
            | (Ok _, service') => Returns ((204%Z, ""), service')
            | (Err SessionNotFound, service') =>
                Returns ((404%Z, not_found_json session_id), service')
            | (Err error, service') =>
                Returns ((409%Z, error_json (relay_error_text error)), service')
            end
        end
    | Returns None => Returns ((400%Z, invalid_path_json path), service)
    end
  else
    Returns ((404%Z, error_json ("no relay control route for " +:+ method +:+ " " +:+ path)),
             service).
End control.

(* crates/relay/src/lib.rs:765-771 RelayNode::relay_map *)
Definition relay_map (version generated_at : Z) (relays : list RelayNode) : RelayMap := {|
  rm_version := version;
  rm_generated_at := generated_at;
  rm_relays := announcement <$> relays |}.

(** ** Lemmas *)

Lemma hex_digits_parse (p l : bytes) :
  parse_session_bytes (hex_string (p ++ l)) (length p) (length l) = Returns (Some l).
Proof.
  revert p. induction l as [|b l IH]; intros p; [done|]. cbn [parse_session_bytes length].
  replace (length p * 2) with (String.length (hex_string p)) by (rewrite length_hex_string; lia).
  rewrite hex_string_app. cbn [hex_string].
  change 2 with (String.length (hex_byte b)).
  rewrite str_slice_middle, u8_from_hex_byte.
  - specialize (IH (p ++ [b])). rewrite <-app_assoc, length_app, Nat.add_1_r in IH.
    cbn [app] in IH. rewrite hex_string_app in IH. cbn [hex_string] in IH. by rewrite IH.
  - rewrite <-(is_ascii_hex_string (p ++ b :: l)). by rewrite hex_string_app.
Qed.

Lemma parse_session_id_hex (id : bytes) :
  length id = 16 → parse_session_id (hex_session_id id) = Returns (Some id).
Proof.
  intros Hid. unfold parse_session_id, hex_session_id, str_len.
  rewrite length_hex_string, Hid. rewrite decide_False by (simpl; lia).
  rewrite <-Hid. apply (hex_digits_parse []).
Qed.

(** Only a text with a character of several bytes panics. *)
Lemma str_slice_ascii s a b :
  is_ascii s = true → a ≤ b ≤ String.length s → ∃ t, str_slice s a b = Returns t.
Proof.
  intros Hs Hab. unfold str_slice. rewrite !is_ascii_boundary by (done || lia).
  rewrite (proj2 (Nat.leb_le _ _)) by lia. by eexists.
Qed.

Lemma parse_session_bytes_ascii s index fuel :
  is_ascii s = true → (index + fuel) * 2 ≤ String.length s →
  parse_session_bytes s index fuel ≠ Panics.
Proof.
  intros Hs. revert index. induction fuel as [|fuel IH]; intros index Hlen; [done|].
  cbn [parse_session_bytes].
  destruct (str_slice_ascii s (index * 2) (index * 2 + 2) Hs) as [t ->]; [lia|].
  destruct (u8_from_hex t); [|done].
  specialize (IH (S index) ltac:(lia)). by destruct (parse_session_bytes s (S index) fuel) as [[]|].
Qed.

Lemma authorize_destination_Ok ds d p :
  authorize_destination ds d p = Ok () ↔
  ∃ entry, find_first (λ c, bool_decide (rd_peer c = d)) ds = Some entry ∧
    ∀ proto, p = Some proto → proto ∈ rd_protocols entry.
Proof.
  unfold authorize_destination. rewrite result_bind_Ok. setoid_rewrite ok_or_Ok.
  split; intros (entry & Hf & Hp); exists entry; (split; [done|]).
  - intros proto ->. destruct (any _ (rd_protocols entry)) eqn:E; simplify_eq/=.
    apply any_true in E as (x & Hx & ->%bool_decide_eq_true). done.
  - destruct p as [proto|]; [|done].
    rewrite (proj2 (any_true _ _)); [done|].
    exists proto. split; [by apply Hp|by apply bool_decide_eq_true].
Qed.

Section admission.
Context `{Blake3, Varint, Base32, Curves, JsonBytes SessionCredentialUnsigned}.

(** What the relay promises to check before it opens a session. *)
Record admissible (now : Z) (self : RelayService) (request : RelayOpenRequest) : Prop := {
  adm_key : key_peer_id (or_source_public_key request) = or_source request;
  adm_signature :
    credential_verify (or_source_credential request) (or_source_public_key request) = Ok ();
  adm_holder : sc_peer_id (or_source_credential request) = or_source request;
  adm_network : sc_network_id (or_source_credential request) = or_network_id request;
  adm_fresh : (now ≤ sc_expires_at (or_source_credential request))%Z;
  adm_protocol p : or_protocol request = Some p →
    protocol_text p ∈ sc_protocol_versions (or_source_credential request);
  adm_class : supports_traffic_class (ra_traffic_classes (announcement (node self)))
                (or_traffic_class request) = true;
  adm_destination : authorize_destination (destinations (node self)) (or_destination request)
                      (or_protocol request) = Ok ();
  adm_quota : exceeded_quota self (or_source request) = None;
}.

Lemma verify_open_request_Ok now request u :
  verify_open_request now request = Ok u ↔
  key_peer_id (or_source_public_key request) = or_source request ∧
  credential_verify (or_source_credential request) (or_source_public_key request) = Ok () ∧
  sc_peer_id (or_source_credential request) = or_source request ∧
  sc_network_id (or_source_credential request) = or_network_id request ∧
  (now ≤ sc_expires_at (or_source_credential request))%Z ∧
  (∀ p, or_protocol request = Some p →
     protocol_text p ∈ sc_protocol_versions (or_source_credential request)).
Proof.
  destruct u. unfold verify_open_request, verify_source_key_binding, verify_session_credential.
  destruct (decide (key_peer_id _ ≠ _)) as [|Hk%dec_stable]; simpl; [naive_solver|].
  destruct (credential_verify _ _) as [[]|] eqn:E1; simpl; [|naive_solver].
  destruct (decide (sc_peer_id _ ≠ _)) as [|Hp%dec_stable]; simpl; [naive_solver|].
  destruct (decide (sc_network_id _ ≠ _)) as [|Hn%dec_stable]; simpl; [naive_solver|].
  destruct (Z.ltb_spec (sc_expires_at (or_source_credential request)) now); simpl.
  { split; [done|]. intros (_ & _ & _ & _ & ? & _). lia. }
  destruct (or_protocol request) as [p|]; simpl; [|naive_solver].
  destruct (any _ _) eqn:E2; simpl.
  - apply any_true in E2 as (v & Hv & ->%String.eqb_eq). naive_solver.
  - split; [done|]. intros (_ & _ & _ & _ & _ & Hv).
    rewrite any_false in E2. specialize (E2 (protocol_text p) (Hv _ eq_refl)).
    by rewrite String.eqb_refl in E2.
Qed.

(** The session and the runtime of a successful open. *)
Definition granted (request : RelayOpenRequest) (id : bytes) : RelaySession := {|
  rs_session_id := id; rs_source := or_source request;
  rs_destination := or_destination request; rs_protocol := or_protocol request;
  rs_traffic_class := or_traffic_class request; rs_status := Open |}.
Definition opened (m : RelayRuntime) (request : RelayOpenRequest) (id : bytes) : RelayRuntime :=
  <[id := granted request id]>
    (<[or_attempt_id request := pending_session request]> (m : gmap bytes RelaySession)).

Lemma open_session_cases now random self request :
  match open_session now random self request with
  | (Ok a, self') =>
      admissible now self request ∧ session self random = None ∧
      accepted_session a = granted request random ∧
      sa_attempt_id a = or_attempt_id request ∧
      self' = {| node := node self; runtime := opened (runtime self) request random |}
  | (Err r, self') =>
      ¬ (admissible now self request ∧ session self random = None) ∧ self' = self ∧
      sr_attempt_id r = or_attempt_id request ∧ sr_source r = or_source request
  end.
Proof.
  unfold open_session.
  destruct (verify_open_request now request) as [u|e] eqn:E1.
  2: { split_and!; [|done..]. intros [[] _].
       assert (verify_open_request now request = Ok ()) by by apply verify_open_request_Ok.
       congruence. }
  apply verify_open_request_Ok in E1 as (? & ? & ? & ? & ? & ?).
  destruct (supports_traffic_class _ _) eqn:E2; simpl.
  2: { split_and!; [|done..]. intros [[] _]. congruence. }
  destruct (authorize_destination _ _ _) as [[]|e] eqn:E3.
  2: { split_and!; [|done..]. intros [[] _]. congruence. }
  destruct (exceeded_quota _ _) as [q|] eqn:E4.
  { split_and!; [|done..]. intros [[] _]. congruence. }
  case_decide as Hid.
  { split_and!; [|done..]. intros [_ Hn]. unfold session, runtime_session in Hn.
    destruct Hid. congruence. }
  split_and!; [by split|by apply eq_None_not_Some|done..].
Qed.
End admission.

(** ** The admission contract and the relay's invariant *)

Section admission_theorems.
Context `{Blake3, Varint, Base32, Curves, JsonBytes SessionCredentialUnsigned}.

(** C1.  [open_session] accepts exactly the admissible requests (key bound
    to the claimed source, credential signed, held by the source, for this
    network, unexpired and listing the protocol, class and destination
    served, quota free) whose drawn identifier is not in use; an accepted
    request leaves the session open under that identifier, and a rejected one
    leaves the relay as it was and echoes the attempt. *)
Theorem open_session_contract now random self request :
  let out := open_session now random self request in
  ((∃ a, out.1 = Ok a) ↔ admissible now self request ∧ session self random = None) ∧
  (∀ a, out.1 = Ok a →
     sa_session_id a = random ∧ sa_attempt_id a = or_attempt_id request ∧
     session out.2 random = Some (granted request random) ∧
     ∀ id, id ≠ random → id ≠ or_attempt_id request → session out.2 id = session self id) ∧
  (∀ r, out.1 = Err r → out.2 = self ∧ sr_attempt_id r = or_attempt_id request).
Proof.
  intros out. pose proof (open_session_cases now random self request) as Hc.
  unfold out. destruct (open_session now random self request) as [[a|r] self']; simpl.
  - destruct Hc as (Ha & Hs & Hacc & Hid & ->). split_and!; [naive_solver| |done].
    intros a' [= <-]. split_and!; [by apply (f_equal rs_session_id) in Hacc|done| |];
      unfold session, runtime_session, opened; simpl.
    + apply lookup_insert_eq.
    + intros id ??. by rewrite !lookup_insert_ne.
  - destruct Hc as (Hn & -> & ? & ?). split_and!; [|done|naive_solver].
    split; [by intros [? ?]|]. tauto.
Qed.

(** One operation on a relay: any request with any clock reading and any
    drawn identifier, or any close. *)
Inductive relay_step : RelayService → RelayService → Prop :=
| step_open now random self request :
    relay_step self (open_session now random self request).2
| step_close self id reason :
    relay_step self (close_session self id reason).2.

Inductive relay_reachable (n : RelayNode) : RelayService → Prop :=
| reach_new : relay_reachable n (RelayService_new n)
| reach_step s s' : relay_reachable n s → relay_step s s' → relay_reachable n s'.

(** Quotas are [u32]. *)
Definition node_wf (n : RelayNode) : Prop :=
  ∀ q, q ∈ quotas n → in_u32 (q_max_concurrent_sessions q).

Definition within_quotas (s : RelayService) : Prop :=
  ∀ p q, find_first (λ q, bool_decide (q_peer q = p)) (quotas (node s)) = Some q →
    (count_values (open_for p) (runtime s) ≤ q_max_concurrent_sessions q)%Z.

Definition served (n : RelayNode) (x : RelaySession) : Prop :=
  supports_traffic_class (ra_traffic_classes (announcement n)) (rs_traffic_class x) = true ∧
  authorize_destination (destinations n) (rs_destination x) (rs_protocol x) = Ok ().

Record relay_inv (n : RelayNode) (s : RelayService) : Prop := {
  inv_node : node s = n;
  inv_key id x : session s id = Some x → rs_session_id x = id;
  inv_served id x : session s id = Some x → served n x;
  inv_quota : within_quotas s;
}.

Lemma count_closed_le (m : RelayRuntime) id (f : RelaySession → bool) :
  (∀ x, f (with_status Closed x) = false) →
  (count_values f (alter (with_status Closed) id (m : gmap bytes RelaySession)) ≤
   count_values f m)%Z.
Proof.
  intros Hf. destruct ((m : gmap bytes RelaySession) !! id) as [x|] eqn:E.
  - replace (alter (with_status Closed) id (m : gmap bytes RelaySession))
      with (<[id := with_status Closed x]> (m : gmap bytes RelaySession)).
    + pose proof (count_values_insert_le f m id (with_status Closed x)) as Hle.
      rewrite Hf in Hle. lia.
    + apply map_eq. intros j. destruct (decide (j = id)) as [->|].
      * by rewrite lookup_insert_eq, lookup_alter_eq, E.
      * by rewrite lookup_insert_ne, lookup_alter_ne.
  - replace (alter (with_status Closed) id (m : gmap bytes RelaySession)) with m; [done|].
    apply map_eq. intros j. destruct (decide (j = id)) as [->|].
    + by rewrite lookup_alter_eq, E.
    + by rewrite lookup_alter_ne.
Qed.

Lemma quota_room (s : RelayService) p q :
  node_wf (node s) → within_quotas s → exceeded_quota s p = None →
  find_first (λ q, bool_decide (q_peer q = p)) (quotas (node s)) = Some q →
  (count_values (open_for p) (runtime s) < q_max_concurrent_sessions q)%Z.
Proof.
  intros Hwf Hq Hex Hf. unfold exceeded_quota in Hex. rewrite Hf in Hex.
  pose proof (Hq _ _ Hf) as Hle.
  apply find_first_Some in Hf as [Hin _]. specialize (Hwf _ Hin).
  rewrite u32_wrap_id in Hex.
  - destruct (Z.leb_spec (q_max_concurrent_sessions q)
      (count_values (open_for p) (runtime s))); [done|lia].
  - unfold in_u32, count_values in *.
    pose proof (count_nonneg (open_for p) (bt_values (runtime s))). lia.
Qed.

Lemma relay_inv_step n s s' :
  node_wf n → relay_inv n s → relay_step s s' → relay_inv n s'.
Proof.
  intros Hwf [Hn Hk Hs Hq] Hstep. inversion Hstep; subst; clear Hstep.
  - pose proof (open_session_cases now random s request) as Hc.
    destruct (open_session now random s request) as [[a|r] s'];
      [|destruct Hc as (_ & -> & _); by split].
    destruct Hc as (Ha & Hfree & _ & _ & ->).
    unfold session, runtime_session in *. simpl.
    assert (∀ id x, (opened (runtime s) request random : gmap bytes RelaySession) !! id = Some x →
      rs_session_id x = id ∧ served (node s) x) as Hall.
    { intros id x. unfold opened.
      rewrite !lookup_insert_Some. intros [[<- <-]|[_ [[<- <-]|[_ Hx]]]].
      - split; [done|]. split; apply Ha.
      - split; [done|]. split; apply Ha.
      - split; [by apply Hk|by eapply Hs]. }
    split; simpl; [done|intros id x Hx; apply (Hall id x Hx)..|].
    intros p q Hf. simpl in *. unfold opened.
    pose proof (count_values_insert_le (open_for p)
      (<[or_attempt_id request := pending_session request]> (runtime s : gmap bytes RelaySession))
      random (granted request random)) as Hle1.
    pose proof (count_values_insert_le (open_for p) (runtime s) (or_attempt_id request)
      (pending_session request)) as Hle2.
    assert (open_for p (pending_session request) = false) as Hp
      by (unfold open_for; by rewrite andb_false_r).
    rewrite Hp in Hle2. destruct (open_for p (granted request random)) eqn:Hg.
    + unfold open_for in Hg. apply andb_true_iff in Hg as [Hg%bool_decide_eq_true _].
      simpl in Hg. pose proof (quota_room s p q Hwf Hq) as Hroom.
      rewrite <-Hg in Hroom at 1. specialize (Hroom (adm_quota _ _ _ Ha) Hf). lia.
    + specialize (Hq _ _ Hf). lia.
  - unfold close_session. destruct (runtime_session _ _) as [x|] eqn:Hx; simpl; [|by split].
    split; simpl; [done| | |].
    + intros j y. unfold session, runtime_session. simpl. rewrite lookup_alter_Some.
      intros [(-> & z & Hz & ->)|[_ Hy]]; [by apply (Hk _ z)|by apply Hk].
    + intros j y. unfold session, runtime_session. simpl. rewrite lookup_alter_Some.
      intros [(-> & z & Hz & ->)|[_ Hy]]; [by apply (Hs j z)|by eapply Hs].
    + intros p q Hf. simpl in *. etrans; [apply count_closed_le|by apply Hq].
      intros y. unfold open_for. by rewrite andb_false_r.
Qed.

Lemma relay_reachable_held n s : node_wf n → relay_reachable n s → relay_inv n s.
Proof.
  intros Hwf. induction 1 as [|s s' _ IH Hstep]; [|by eapply relay_inv_step].
  split; [done|done|done|]. intros p q Hf.
  change (count_values (open_for p) (∅ : gmap bytes RelaySession) ≤
    q_max_concurrent_sessions q)%Z. rewrite count_values_empty.
  apply find_first_Some in Hf as [Hin _]. by apply Hwf.
Qed.

(** C5.  Whatever requests and closes a relay serves, every session it holds
    is filed under its own identifier and goes to a destination, protocol and
    class the relay serves, and no source has more open sessions than its
    quota. *)
Theorem relay_reachable_inv n s (Hwf : node_wf n) (Hr : relay_reachable n s) :
  (∀ id x, session s id = Some x → rs_session_id x = id ∧ served n x) ∧
  (∀ p q, find_first (λ q, bool_decide (q_peer q = p)) (quotas n) = Some q →
     (count_values (open_for p) (runtime s) ≤ q_max_concurrent_sessions q)%Z).
Proof.
  destruct (relay_reachable_held n s Hwf Hr) as [Hn Hk Hs Hq].
  split; [naive_solver|]. intros p q Hf. apply Hq. by rewrite Hn.
Qed.
End admission_theorems.

Section control_theorems.
Context `{Blake3, Varint, Base32, Curves, JsonBytes SessionCredentialUnsigned}.
Context `{JsonText, RelayJson}.

(** An attempt identifier that names a live session demotes it. *)
Lemma attempt_demotes_session now random self request x :
  admissible now self request → session self random = None →
  session self (or_attempt_id request) = Some x → is_open x = true →
  session (open_session now random self request).2 (or_attempt_id request) =
    Some (pending_session request).
Proof.
  intros Ha Hs Hx _. pose proof (open_session_cases now random self request) as Hc.
  destruct (open_session now random self request) as [[a|r] self']; [|naive_solver].
  destruct Hc as (_ & _ & _ & _ & ->). unfold session, runtime_session, opened. simpl.
  rewrite lookup_insert_ne, lookup_insert_eq; [done|]. intros ->. congruence.
Qed.

Definition session_path (id : bytes) : string := "/sessions/" +:+ hex_session_id id.

Lemma parse_session_path_hex (id : bytes) :
  length id = 16 → parse_session_path (session_path id) = Returns (Some id).
Proof.
  intros. unfold parse_session_path, session_path. rewrite strip_prefix_app.
  by apply parse_session_id_hex.
Qed.

Lemma session_path_starts id : starts_with "/sessions/" (session_path id) = true.
Proof. apply starts_with_app. Qed.
Lemma session_path_health id : String.eqb (session_path id) "/healthz" = false.
Proof. reflexivity. Qed.

Lemma control_get now random self id body :
  length id = 16 →
  control_response now random self "GET" (session_path id) body =
  Returns (match session self id with
           | Some x => (200%Z, session_json x)
           | None => (404%Z, not_found_json id)
           end, self).
Proof.
  intros Hid. unfold control_response.
  rewrite session_path_health, session_path_starts, parse_session_path_hex by done.
  simpl. by destruct (session self id).
Qed.

Lemma control_delete now random self id body reason :
  length id = 16 → parse_close body = Ok reason →
  control_response now random self "DELETE" (session_path id) body =
  Returns (match session self id with
           | Some x => ((204%Z, ""), {| node := node self;
               runtime := alter (with_status Closed) id (runtime self : gmap bytes RelaySession) |})
           | None => ((404%Z, not_found_json id), self)
           end).
Proof.
  intros Hid Hb. unfold control_response.
  rewrite session_path_starts, parse_session_path_hex, Hb by done. simpl.
  unfold close_session, session. by destruct (runtime_session _ id).
Qed.

(** A session opened through the control surface is served under the
    hexadecimal path of its identifier, a [DELETE] of that path closes it
    with 204, and the closed session stays readable. *)
Lemma control_session_lifecycle now now' now'' random r' r'' self request body body' close reason
    (Hopen : parse_open body = Ok request) (Hclose : parse_close close = Ok reason)
    (Ha : admissible now self request) (Hfree : session self random = None)
    (Hlen : length random = 16) :
  ∃ accepted s1 s2,
    control_response now random self "POST" "/sessions" body =
      Returns ((200%Z, accepted_json accepted), s1) ∧
    sa_session_id accepted = random ∧
    control_response now' r' s1 "GET" (session_path random) body' =
      Returns ((200%Z, session_json (granted request random)), s1) ∧
    control_response now' r' s1 "DELETE" (session_path random) close = Returns ((204%Z, ""), s2) ∧
    control_response now'' r'' s2 "GET" (session_path random) body' =
      Returns ((200%Z, session_json (with_status Closed (granted request random))), s2).
Proof.
  pose proof (open_session_cases now random self request) as Hc.
  destruct (open_session now random self request) as [[a|r] s1] eqn:Eo; [|naive_solver].
  destruct Hc as (_ & _ & Hacc & _ & Hs1).
  assert (session s1 random = Some (granted request random)) as Hg.
  { subst s1. unfold session, runtime_session, opened. simpl. apply lookup_insert_eq. }
  set (s2 := {| node := node s1;
    runtime := alter (with_status Closed) random (runtime s1 : gmap bytes RelaySession) |}).
  assert (session s2 random = Some (with_status Closed (granted request random))) as Hg2.
  { unfold session, runtime_session, s2 in *. simpl. by rewrite lookup_alter_eq, Hg. }
  exists a, s1, s2. rewrite !control_get, Hg, Hg2, (control_delete _ _ _ _ _ reason), Hg by done.
  split_and!; try done; [|by apply (f_equal rs_session_id) in Hacc].
  unfold control_response. simpl. by rewrite Hopen, Eo.
Qed.
End control_theorems.

(** ** The in-process control keeps the interface's laws *)

Section inproc_laws.
Context `{Blake3, Varint, Base32, Curves, JsonBytes SessionCredentialUnsigned}.

Lemma resolve_insert (registry : Registry) p s s' endpoint :
  (registry : gmap PeerId RelayService) !! p = Some s →
  resolve_inproc_relay_peer (<[p := s']> (registry : gmap PeerId RelayService)) endpoint =
  resolve_inproc_relay_peer registry endpoint.
Proof.
  intros Hp. unfold resolve_inproc_relay_peer, single_registered_relay_peer, bt_len.
  rewrite (bt_keys_ext _ registry).
  - by rewrite map_size_insert_Some by eauto.
  - intros k. destruct (decide (k = p)) as [->|].
    + rewrite lookup_insert_eq. naive_solver.
    + by rewrite lookup_insert_ne.
Qed.

Lemma inproc_session_insert (registry : Registry) p s s' endpoint id :
  (registry : gmap PeerId RelayService) !! p = Some s →
  (resolve_inproc_relay_peer registry endpoint = Ok p → session s' id = session s id) →
  inproc_session (<[p := s']> (registry : gmap PeerId RelayService)) endpoint id =
  inproc_session registry endpoint id.
Proof.
  intros Hp Hs. unfold inproc_session. rewrite (resolve_insert _ _ s) by done.
  destruct (resolve_inproc_relay_peer registry endpoint) as [q|]; simpl; [|done].
  unfold registered_session. destruct (decide (q = p)) as [->|].
  - rewrite lookup_insert_eq, Hp. simpl. by rewrite Hs.
  - by rewrite lookup_insert_ne.
Qed.

Lemma close_session_other self id reason id' :
  id' ≠ id → session (close_session self id reason).2 id' = session self id'.
Proof.
  intros. unfold close_session. destruct (runtime_session _ id); simpl; [|done].
  unfold session, runtime_session. simpl. by rewrite lookup_alter_ne.
Qed.

#[export] Instance inproc_relay_control_laws clock rng :
  @RelayControlLaws (Registry * nat) (inproc_relay_control clock rng).
Proof.
  split.
  - intros endpoint request [registry n] a r'. simpl. unfold inproc_open_session.
    destruct (resolve_inproc_relay_peer registry endpoint) as [p|] eqn:Er; [|done].
    unfold open_registered_session.
    destruct (_ !! p) as [s|] eqn:Es; [|done].
    pose proof (open_session_cases (clock n) (rng n) s request) as Hc.
    destruct (open_session (clock n) (rng n) s request) as [[b|b] s']; [|done].
    simpl. intros [= -> <-]. destruct Hc as (_ & _ & Hacc & _ & ->).
    exists (granted request (rng n)).
    assert (sa_session_id a = rng n) as -> by by apply (f_equal rs_session_id) in Hacc.
    split; [|done]. unfold inproc_session. simpl.
    rewrite (resolve_insert _ _ s), Er by done. simpl. unfold registered_session.
    rewrite lookup_insert_eq. simpl. unfold session, runtime_session, opened. simpl.
    by rewrite lookup_insert_eq.
  - intros endpoint id reason [registry n] r'. simpl. unfold inproc_close_session.
    destruct (resolve_inproc_relay_peer registry endpoint) as [p|] eqn:Er; [|done].
    unfold close_registered_session. destruct (_ !! p) as [s|] eqn:Es; [|done].
    unfold close_session.
    destruct (runtime_session (runtime s) id) as [x|] eqn:Ex; [|done].
    simpl. intros [= <-]. exists x. unfold inproc_session. simpl.
    rewrite (resolve_insert _ _ s), Er by done. simpl. unfold registered_session.
    rewrite lookup_insert_eq, Es. simpl. unfold session, runtime_session in *. simpl.
    by rewrite lookup_alter_eq, Ex.
  - intros endpoint id reason [registry n] r' endpoint' id'. simpl.
    unfold inproc_close_session.
    destruct (resolve_inproc_relay_peer registry endpoint) as [p|] eqn:Er; [|done].
    unfold close_registered_session. destruct (_ !! p) as [s|] eqn:Es; [|done].
    pose proof (close_session_other s id reason id') as Hoth.
    destruct (close_session s id reason) as [o s']. simpl in *. intros [= -> <-] Hne.
    apply inproc_session_insert with s; [done|]. intros _. by apply Hoth.
Qed.
End inproc_laws.

(** A path of 32 bytes whose slots fall inside a character makes
    [parse_session_id] panic, and a sign is accepted as a digit. *)
Example parse_session_path_panics :
  parse_session_path "/sessions/aéééééééééééééééc" = Panics.
Proof. reflexivity. Qed.

Example parse_session_id_sign :
  parse_session_id "+f000000000000000000000000000000" =
  parse_session_id "0f000000000000000000000000000000".
Proof. reflexivity. Qed.

Section witnesses.
Import External.Demo.

#[local] Instance demo_credential_json : JsonBytes SessionCredentialUnsigned := scu_nonce.
#[local] Instance demo_json_text : JsonText := λ _, "{}".

Definition demo_source : IdentityKeypair := from_secret_bytes (replicate 32 x07).
Definition demo_target : PeerId := PeerId_from_public_key Ed25519 (as_bytes "target").
Definition demo_network : NetworkId := NetworkId_derive (as_bytes "lab").
Definition demo_request : RelayOpenRequest := {|
  or_attempt_id := replicate 16 x01;
  or_network_id := demo_network;
  or_source := peer_id demo_source;
  or_source_public_key := public_key demo_source;
  or_source_credential :=
    credential_issue 100 (replicate 32 x09) demo_network demo_source (replicate 32 x05)
      ["/app/1"] 60 0;
  or_destination := demo_target;
  or_protocol := Some (mk_ProtocolId "/app/1");
  or_traffic_class := Interactive |}.
Definition demo_node : RelayNode := {|
  announcement := {|
    ra_peer_id := PeerId_from_public_key Ed25519 (as_bytes "relay");
    ra_region := "eu"; ra_advertised_endpoints := []; ra_control_endpoint := "";
    ra_max_bandwidth_bps := 1000; ra_supports_quic_datagrams := false;
    ra_supports_path_migration := false; ra_traffic_classes := ["InteractiveRpc"] |};
  quotas := [{| q_peer := peer_id demo_source; q_max_bandwidth_bps := 0;
                q_max_concurrent_sessions := 1 |}];
  destinations := [{| rd_peer := demo_target; rd_protocols := [mk_ProtocolId "/app/1"] |}] |}.
Definition demo_id : bytes := replicate 16 x02.
Definition demo_relay : RelayService := RelayService_new demo_node.
Definition demo_opened : RelayService := (open_session 120 demo_id demo_relay demo_request).2.

#[local] Instance demo_relay_json : RelayJson := {|
  accepted_json := λ _, "accepted"; rejected_json := λ _, "rejected";
  session_json := λ s, if is_open s then "open" else "closed";
  parse_open := λ _, Ok demo_request; parse_close := λ _, Ok "done" |}.

Lemma demo_admissible : admissible 120 demo_relay demo_request.
Proof.
  split; try reflexivity; [vm_compute; discriminate|].
  intros p [= <-]. cbn. set_solver.
Qed.

Lemma demo_node_wf : node_wf demo_node.
Proof. intros q ->%list_elem_of_singleton. split; vm_compute; discriminate. Qed.

Lemma relay_reachable_inv_witness :
  session demo_opened demo_id = Some (granted demo_request demo_id) ∧
  (count_values (open_for (peer_id demo_source)) (runtime demo_opened) ≤ 1)%Z.
Proof.
  split; [vm_compute; reflexivity|].
  apply (relay_reachable_inv demo_node demo_opened demo_node_wf
           (reach_step _ _ _ (reach_new demo_node) (step_open 120 demo_id _ demo_request)))
    with (p := peer_id demo_source) (q := {| q_peer := peer_id demo_source;
      q_max_bandwidth_bps := 0; q_max_concurrent_sessions := 1 |}).
  vm_compute. reflexivity.
Defined.

(** A second request of the same source is over the quota. *)
Example demo_over_quota :
  sr_code <$> match (open_session 120 (replicate 16 x03) demo_opened demo_request).1 with
              | Err r => Some r | Ok _ => None end = Some RejCapacityExceeded.
Proof. vm_compute. reflexivity. Qed.

Lemma control_session_lifecycle_witness :
  ∃ accepted s1 s2,
    control_response 120 demo_id demo_relay "POST" "/sessions" [] =
      Returns ((200%Z, accepted_json accepted), s1) ∧
    sa_session_id accepted = demo_id ∧
    control_response 121 [] s1 "GET" (session_path demo_id) [] =
      Returns ((200%Z, session_json (granted demo_request demo_id)), s1) ∧
    control_response 121 [] s1 "DELETE" (session_path demo_id) [] = Returns ((204%Z, ""), s2) ∧
    control_response 122 [] s2 "GET" (session_path demo_id) [] =
      Returns ((200%Z, session_json (with_status Closed (granted demo_request demo_id))), s2).
Proof.
  apply (control_session_lifecycle 120 121 122 demo_id [] [] demo_relay demo_request [] [] []
           "done"); try reflexivity. exact demo_admissible.
Defined.
End witnesses.
