(* ===== verification/Transport.v ===== *)
(** crates/transport: route plans, session snapshots and the other data the
    transport interface exchanges. *)
From stdpp Require Import base list strings gmap pretty option countable.
From Stdlib Require Import ZArith Lia Strings.Byte.
From S2P Require Import Prelude Text BTree F32 External Model.

(* crates/transport/src/lib.rs:9-25 TransportError *)
Inductive TransportError :=
| Unreachable
| NoRoute (peer : PeerId)
| ProtocolRejected
| PolicyDenied (reason : string)
| InvalidRoute (reason : string)
| RelayRejected (reason : string)
| NotImplemented.

(* crates/transport/src/lib.rs:27-32 RouteSource *)
Inductive RouteSource := RouteObserved | RouteBootstrap | RouteAuthorityRelay.

(* crates/transport/src/lib.rs:34-42 RelayPlan *)
Record RelayPlan := {
  rp_relay_peer : PeerId;
  rp_relay_endpoints : list string;
  rp_relay_control_endpoint : string;
  rp_destination_endpoints : list string;
  rp_supports_datagrams : bool;
  rp_supports_path_migration : bool;
}.

(* crates/transport/src/lib.rs:44-54 RoutePlan *)
Record RoutePlan := {
  rt_local_peer : PeerId;
  rt_peer : PeerId;
  rt_protocol : option ProtocolId;
  rt_class : TrafficClass;
  rt_path_kind : PathKind;
  rt_source : RouteSource;
  rt_remote_endpoints : list string;
  rt_relay : option RelayPlan;
}.

(* crates/transport/src/lib.rs:56-60 BindSpec *)
Record BindSpec := { bind_protocol : ProtocolId; bind_advertise : bool }.

(* crates/transport/src/lib.rs:93-105 RuntimeSessionState *)
Inductive RuntimeSessionState :=
| StPending | StConnecting | StActive | StDegraded | StMigrating | StReconciling
| StClosing | StClosed | StFailed.

(* crates/transport/src/lib.rs:107-116 SessionClosureReason *)
Inductive SessionClosureReason :=
| OperatorRequested | LocalRuntimeFailure | RemoteFailure | PolicyRejected
| PathExhaustion | DaemonShutdown.

(* crates/transport/src/lib.rs:70-91 SessionSnapshot *)
Record SessionSnapshot := {
  ss_session_id : bytes;
  ss_transport_session_id : bytes;
  ss_relay_attempt_id : option bytes;
  ss_peer : PeerId;
  ss_protocol : option ProtocolId;
  ss_class : TrafficClass;
  ss_path_kind : PathKind;
  ss_source : RouteSource;
  ss_remote_endpoint : string;
  ss_relay_peer : option PeerId;
  ss_relay_endpoint : option string;
  ss_relay_control_endpoint : option string;
  ss_datagrams_capable : bool;
  ss_migration_capable : bool;
  ss_state : RuntimeSessionState;
  ss_closure_reason : option SessionClosureReason;
  ss_state_reason : option string;
  ss_created_at_unix_secs : Z;
  ss_last_activity_unix_secs : Z;
}.

(* crates/transport/src/lib.rs:62-68 MessageReceipt *)
Record MessageReceipt := {
  mr_peer : PeerId;
  mr_protocol : ProtocolId;
  mr_accepted_bytes : Z;
  mr_route : SessionSnapshot;
}.

(* crates/transport/src/lib.rs:128-132 RuntimeEventSubject *)
Record RuntimeEventSubject := { sub_kind : string; sub_id : string }.

(* crates/transport/src/lib.rs:118-126 RuntimeEvent *)
Record RuntimeEvent := {
  ev_event_id : string;
  ev_event_type : string;
  ev_emitted_at : string;
  ev_truth_kind : string;
  ev_subject : RuntimeEventSubject;
  ev_details : Json;
}.

(* crates/transport/src/lib.rs:134-141 ReconnectSuppression *)
Record ReconnectSuppression := {
  sup_peer : PeerId;
  sup_protocol : option ProtocolId;
  sup_class : TrafficClass;
  sup_reason : string;
  sup_imposed_at_unix_secs : Z;
}.

(* crates/transport/src/lib.rs:143-149 RuntimeListenerState *)
Inductive RuntimeListenerState := ListenerActive | ListenerFailed | ListenerSuppressed.

(* crates/transport/src/lib.rs:151-161 RuntimeListenerSnapshot *)
Record RuntimeListenerSnapshot := {
  ls_listener_id : string;
  ls_transport : string;
  ls_bind_summary : string;
  ls_protocol : ProtocolId;
  ls_advertise : bool;
  ls_state : RuntimeListenerState;
  ls_state_reason : option string;
  ls_started_at_unix_secs : Z;
}.

(* crates/transport/src/lib.rs:163-170 RuntimeReconnectState *)
Inductive RuntimeReconnectState :=
| ReconnectIdle | ReconnectActive | ReconnectSuppressed | ReconnectFailed.

(* crates/transport/src/lib.rs:172-183 RuntimeTransportHealth *)
Record RuntimeTransportHealth := {
  th_active_sessions : Z;
  th_active_listeners : Z;
  th_reconnect_state : RuntimeReconnectState;
  th_reconnect_attempt_count : Z;
  th_reconnect_next_attempt_unix_secs : option Z;
  th_reconnect_suppression_count : Z;
  th_event_buffer_depth : Z;
  th_session_registry_healthy : bool;
  th_listener_registry_healthy : bool;
}.

(* crates/transport/src/lib.rs:185-190 RuntimeReconnectAttemptState *)
Inductive RuntimeReconnectAttemptState := AttemptBackingOff | AttemptFailed.

(* crates/transport/src/lib.rs:192-203 RuntimeReconnectAttempt *)
Record RuntimeReconnectAttempt := {
  at_peer : PeerId;
  at_protocol : option ProtocolId;
  at_class : TrafficClass;
  at_state : RuntimeReconnectAttemptState;
  at_reason : string;
  at_attempt_count : Z;
  at_last_attempt_unix_secs : Z;
  at_next_attempt_unix_secs : Z;
  at_max_attempts : Z;
}.

#[export] Instance TransportError_eq_dec : EqDecision TransportError.
Proof. solve_decision. Defined.
#[export] Instance RouteSource_eq_dec : EqDecision RouteSource.
Proof. solve_decision. Defined.
#[export] Instance RuntimeSessionState_eq_dec : EqDecision RuntimeSessionState.
Proof. solve_decision. Defined.
#[export] Instance SessionClosureReason_eq_dec : EqDecision SessionClosureReason.
Proof. solve_decision. Defined.
#[export] Instance SessionSnapshot_eq_dec : EqDecision SessionSnapshot.
Proof. solve_decision. Defined.
#[export] Instance RuntimeListenerState_eq_dec : EqDecision RuntimeListenerState.
Proof. solve_decision. Defined.
#[export] Instance RuntimeReconnectAttemptState_eq_dec : EqDecision RuntimeReconnectAttemptState.
Proof. solve_decision. Defined.

(** [{:?}] of a route source. *)
Definition RouteSource_debug (s : RouteSource) : string :=
  match s with
  | RouteObserved => "Observed" | RouteBootstrap => "Bootstrap"
  | RouteAuthorityRelay => "AuthorityRelay"
  end.

Section errors.
Context `{Base32}.

(* crates/transport/src/lib.rs:9-25 TransportError (Display) *)
Definition transport_error_text (e : TransportError) : string :=
  match e with
  | Unreachable => "peer is unreachable"
  | NoRoute p => "no route is available for peer " +:+ PeerId_to_text p
  | ProtocolRejected => "protocol is not authorized or supported"
  | PolicyDenied r => "policy denied transport request: " +:+ r
  | InvalidRoute r => "route plan is invalid: " +:+ r
  | RelayRejected r => "relay rejected session open: " +:+ r
  | NotImplemented => "transport implementation is not wired yet"
  end.
End errors.
