(* ===== verification/Calendar.v ===== *)
(** crates/quic, module [chrono_like]: the calendar date of a clock reading,
    and the proof that it is the proleptic Gregorian date. *)
From stdpp Require Import base list strings gmap pretty option.
From Stdlib Require Import ZArith Lia Strings.Ascii.
From S2P Require Import Prelude Text.

Local Open Scope Z_scope.

(* crates/quic/src/lib.rs:1197-1204 DateTime *)
Record DateTime := {
  dt_year : Z;
  dt_month : Z;
  dt_day : Z;
  dt_hour : Z;
  dt_minute : Z;
  dt_second : Z;
}.

(** [x as i64] of a [u64] and [x as i32] of an [i64]. *)
Definition as_i64 (z : Z) : Z := (z + 2 ^ 63) mod 2 ^ 64 - 2 ^ 63.
Definition as_i32 (z : Z) : Z := (z + 2 ^ 31) mod 2 ^ 32 - 2 ^ 31.

(* crates/quic/src/lib.rs:1222-1234 civil_from_days *)
Definition civil_from_days (days : Z) : Z * Z * Z :=
  let z := days + 719468 in
  let era := Z.quot (if 0 <=? z then z else z - 146096) 146097 in
  let doe := z - era * 146097 in
  let yoe := Z.quot (doe - Z.quot doe 1460 + Z.quot doe 36524 - Z.quot doe 146096) 365 in
  let y := yoe + era * 400 in
  let doy := doe - (365 * yoe + Z.quot yoe 4 - Z.quot yoe 100) in
  let mp := Z.quot (5 * doy + 2) 153 in
  let d := doy - Z.quot (153 * mp + 2) 5 + 1 in
  let m := mp + (if mp <? 10 then 3 else -9) in
  let year := y + (if m <=? 2 then 1 else 0) in
  (as_i32 year, u32_wrap m, u32_wrap d).

(* crates/quic/src/lib.rs:1207-1219 DateTime::from_unix *)
Definition from_unix (epoch_secs : Z) : DateTime :=
  let days := epoch_secs / 86400 in
  let seconds := epoch_secs mod 86400 in
  let '(year, month, day) := civil_from_days days in
  {| dt_year := year; dt_month := month; dt_day := day;
     dt_hour := u32_wrap (Z.quot seconds 3600);
     dt_minute := u32_wrap (Z.quot (Z.rem seconds 3600) 60);
     dt_second := u32_wrap (Z.rem seconds 60) |}.

(** [{:0w$}] of a number that is not negative. *)
Definition zero_padded (w : nat) (z : Z) : string :=
  let digits := pretty z in
  String.string_of_list_ascii (replicate (w - String.length digits)%nat "0"%char) +:+ digits.

(* crates/quic/src/lib.rs:1183-1194 iso8601_seconds *)
Definition iso8601_seconds (epoch_secs : Z) : string :=
  let datetime := from_unix (as_i64 epoch_secs) in
  zero_padded 4 (dt_year datetime) +:+ "-" +:+ zero_padded 2 (dt_month datetime) +:+ "-" +:+
  zero_padded 2 (dt_day datetime) +:+ "T" +:+ zero_padded 2 (dt_hour datetime) +:+ ":" +:+
  zero_padded 2 (dt_minute datetime) +:+ ":" +:+ zero_padded 2 (dt_second datetime).

(** ** The reference calendar *)

Definition leap (y : Z) : bool :=
  (y mod 4 =? 0) && (negb (y mod 100 =? 0) || (y mod 400 =? 0)).

Definition days_in_month (y m : Z) : Z :=
  if (m =? 4) || (m =? 6) || (m =? 9) || (m =? 11) then 30
  else if m =? 2 then (if leap y then 29 else 28) else 31.

(** The days of the years before [y], counted from year 1, and of the months
    of year [y] before [m]. *)
Definition days_before_year (y : Z) : Z :=
  let p := y - 1 in 365 * p + p / 4 - p / 100 + p / 400.

Fixpoint days_before_month (y : Z) (m : nat) : Z :=
  match m with
  | O => 0
  | S m => days_before_month y m + (if (m =? 0)%nat then 0 else days_in_month y (Z.of_nat m))
  end.

(** 1970-01-01 is day 719162 of year 1 (Rata Die 719163). *)
Definition epoch_day (y m d : Z) : Z :=
  days_before_year y + days_before_month y (Z.to_nat m) + (d - 1) - 719162.

Definition valid_date (y m d : Z) : Prop := 1 ≤ m ≤ 12 ∧ 1 ≤ d ≤ days_in_month y m.

Definition epoch_second (t : DateTime) : Z :=
  epoch_day (dt_year t) (dt_month t) (dt_day t) * 86400 +
  dt_hour t * 3600 + dt_minute t * 60 + dt_second t.

Definition valid_time (t : DateTime) : Prop :=
  valid_date (dt_year t) (dt_month t) (dt_day t) ∧
  0 ≤ dt_hour t < 24 ∧ 0 ≤ dt_minute t < 60 ∧ 0 ≤ dt_second t < 60.

Example iso_epoch : iso8601_seconds 0 = "1970-01-01T00:00:00".
Proof. vm_compute. reflexivity. Qed.
Example iso_leap_day : iso8601_seconds 1709210096 = "2024-02-29T12:34:56".
Proof. vm_compute. reflexivity. Qed.

(** The reference is a calendar: each year starts where the one before ends. *)
Lemma days_before_year_succ y :
  days_before_year (y + 1) = days_before_year y + (if leap y then 366 else 365).
Proof.
  unfold days_before_year, leap. 
  destruct (Z.eqb_spec (y mod 4) 0), (Z.eqb_spec (y mod 100) 0), (Z.eqb_spec (y mod 400) 0); simpl;
    Z.to_euclidean_division_equations; lia.
Qed.

(** ** [civil_from_days] computes the reference date *)

Lemma div_bounds a b : 0 < b → b * (a / b) ≤ a < b * (a / b) + b.
Proof. intros. pose proof (Z.div_mod a b). pose proof (Z.mod_pos_bound a b). lia. Qed.

(** The year of an era, counted from March, and its day. *)
Lemma year_of_era doe :
  0 ≤ doe < 146097 →
  let yoe := (doe - doe / 1460 + doe / 36524 - doe / 146096) / 365 in
  let doy := doe - (365 * yoe + yoe / 4 - yoe / 100) in
  0 ≤ yoe < 400 ∧ 0 ≤ doy ≤ 365 ∧
  (doy = 365 → (yoe + 1) mod 4 = 0 ∧ ((yoe + 1) mod 100 ≠ 0 ∨ yoe = 399)).
Proof.
  intros. subst yoe doy.
  destruct (decide (doe = 146096)) as [->|]; [vm_compute; intuition discriminate|].
  rewrite (Z.div_small doe 146096) by lia.
  pose proof (div_bounds doe 1460 eq_refl). pose proof (div_bounds doe 36524 eq_refl).
  set (a := doe / 1460) in *. set (b := doe / 36524) in *. clearbody a b.
  pose proof (div_bounds (doe - a + b - 0) 365 eq_refl).
  set (y := (doe - a + b - 0) / 365) in *. clearbody y.
  assert (0 ≤ y < 400) by lia. split; [done|].
  pose proof (div_bounds y 4 eq_refl). pose proof (div_bounds y 100 eq_refl).
  pose proof (Z.div_mod (y + 1) 4). pose proof (Z.mod_pos_bound (y + 1) 4).
  pose proof (Z.div_mod (y + 1) 100). pose proof (Z.mod_pos_bound (y + 1) 100).
  set (y4 := y / 4) in *. set (y100 := y / 100) in *.
  set (u := (y + 1) mod 4) in *. set (v := (y + 1) mod 100) in *.
  set (w := (y + 1) / 4) in *. set (x := (y + 1) / 100) in *. clearbody u v w x y4 y100.
  assert (b = 0 ∨ b = 1 ∨ b = 2 ∨ b = 3) as Hb by lia.
  assert (y100 = 0 ∨ y100 = 1 ∨ y100 = 2 ∨ y100 = 3) as Hy by lia.
  split; destruct Hb as [->|[->|[->| ->]]], Hy as [->|[->|[->| ->]]]; lia.
Qed.

(** A leap year has one more day before March. *)
Lemma days_before_march y :
  days_before_year y + (if leap y then 1 else 0) =
  365 * (y - 1) + y / 4 - y / 100 + y / 400.
Proof.
  unfold days_before_year, leap.
  destruct (Z.eqb_spec (y mod 4) 0), (Z.eqb_spec (y mod 100) 0), (Z.eqb_spec (y mod 400) 0); simpl;
    Z.to_euclidean_division_equations; lia.
Qed.

(** Evaluate the closed instances of [f] in the goal. *)
Ltac eval_closed f :=
  repeat match goal with
  | |- context [f ?a] => let v := eval vm_compute in (f a) in progress change (f a) with v
  end.

(** The calendar month of a March-based month and the year it falls in. *)
Definition civil_month (mp : Z) : Z := mp + (if mp <? 10 then 3 else -9).
Definition civil_year (y mp : Z) : Z := y + (if civil_month mp <=? 2 then 1 else 0).

Lemma month_of_year y doy :
  0 ≤ doy ≤ 365 → (doy = 365 → leap (y + 1) = true) →
  let mp := (5 * doy + 2) / 153 in
  let d := doy - (153 * mp + 2) / 5 + 1 in
  valid_date (civil_year y mp) (civil_month mp) d ∧
  epoch_day (civil_year y mp) (civil_month mp) d =
  365 * y + y / 4 - y / 100 + y / 400 + doy - 719468.
Proof.
  intros Hd Hl mp d.
  pose proof (div_bounds (5 * doy + 2) 153 eq_refl) as Hmp. fold mp in Hmp.
  assert (mp = 0 ∨ mp = 1 ∨ mp = 2 ∨ mp = 3 ∨ mp = 4 ∨ mp = 5 ∨ mp = 6 ∨ mp = 7 ∨ mp = 8 ∨
          mp = 9 ∨ mp = 10 ∨ mp = 11) as Hc by lia.
  unfold d. clearbody mp. clear d.
  pose proof (days_before_march y) as H0. pose proof (days_before_march (y + 1)) as H1.
  pose proof (days_before_year_succ y) as H2.
  assert (doy ≤ 364 + (if leap (y + 1) then 1 else 0)) as Hl'.
  { destruct (decide (doy = 365)) as [E|]; [rewrite (Hl E); lia|destruct (leap (y + 1)); lia]. }
  clear Hl.
  unfold valid_date, epoch_day, civil_year.
  destruct Hc as [->|[->|[->|[->|[->|[->|[->|[->|[->|[->|[->| ->]]]]]]]]]]];
    eval_closed civil_month;
    (match goal with |- context [Z.leb ?a 2] =>
       let v := eval vm_compute in (Z.leb a 2) in change (Z.leb a 2) with v end);
    (match goal with |- context [(?a + 2) / 5] =>
       let v := eval vm_compute in ((a + 2) / 5) in change ((a + 2) / 5) with v end);
    eval_closed Z.to_nat; cbn; unfold days_in_month; eval_closed Z.of_nat; cbn;
    rewrite ?Z.add_0_r; destruct (leap y), (leap (y + 1)); lia.
Qed.

Lemma as_i32_id z : - 2 ^ 31 ≤ z < 2 ^ 31 → as_i32 z = z.
Proof. intros. unfold as_i32. rewrite Z.mod_small by lia. lia. Qed.

Lemma u32_small z : 0 ≤ z < 366 → u32_wrap z = z.
Proof. intros. apply u32_wrap_id. unfold in_u32, u32_max. lia. Qed.

Lemma valid_date_bounds y m d : valid_date y m d → 1 ≤ m ≤ 12 ∧ 1 ≤ d ≤ 31.
Proof.
  unfold valid_date, days_in_month.
  destruct (_ || _); [lia|]. destruct (m =? 2); [destruct (leap y)|]; lia.
Qed.

Lemma civil_from_days_correct days :
  0 ≤ days < 2 ^ 39 →
  let '(y, m, d) := civil_from_days days in valid_date y m d ∧ epoch_day y m d = days.
Proof.
  intros Hdays. unfold civil_from_days.
  rewrite (proj2 (Z.leb_le _ _)) by lia. set (z := days + 719468).
  rewrite (Z.quot_div_nonneg z) by lia.
  pose proof (div_bounds z 146097 eq_refl) as Hz. set (era := z / 146097) in *.
  assert (0 ≤ era < 2 ^ 22) as Hera by lia.
  set (doe := z - era * 146097). assert (0 ≤ doe < 146097) as Hdoe by lia.
  pose proof (year_of_era doe Hdoe) as (Hy & Hdoy & Hleap).
  rewrite !(Z.quot_div_nonneg doe) by lia.
  set (n := doe - doe / 1460 + doe / 36524 - doe / 146096) in *.
  assert (0 ≤ n) by (subst n; Z.to_euclidean_division_equations; lia).
  rewrite (Z.quot_div_nonneg n) by lia. set (yoe := n / 365) in *.
  rewrite !(Z.quot_div_nonneg yoe) by lia.
  set (doy := doe - (365 * yoe + yoe / 4 - yoe / 100)) in *.
  rewrite (Z.quot_div_nonneg (5 * doy + 2)) by lia.
  assert (doy = 365 → leap (yoe + era * 400 + 1) = true) as Hl.
  { intros E. destruct (Hleap E) as [H4 H100]. clear -H4 H100. unfold leap.
    destruct (Z.eqb_spec ((yoe + era * 400 + 1) mod 4) 0),
      (Z.eqb_spec ((yoe + era * 400 + 1) mod 100) 0),
      (Z.eqb_spec ((yoe + era * 400 + 1) mod 400) 0); simpl; try done; exfalso;
      Z.to_euclidean_division_equations; lia. }
  pose proof (month_of_year (yoe + era * 400) doy Hdoy Hl) as [Hv He].
  set (mp := (5 * doy + 2) / 153) in *.
  assert (0 ≤ mp ≤ 11) as Hmp by (subst mp; Z.to_euclidean_division_equations; lia).
  rewrite (Z.quot_div_nonneg (153 * mp + 2)) by lia.
  fold (civil_month mp). fold (civil_year (yoe + era * 400) mp).
  assert (0 ≤ civil_year (yoe + era * 400) mp < 2 ^ 31) as Hcy
    by (unfold civil_year; destruct (civil_month mp <=? 2); lia).
  set (d := doy - (153 * mp + 2) / 5 + 1) in *.
  rewrite as_i32_id by lia.
  rewrite !u32_small by (pose proof (valid_date_bounds _ _ _ Hv); lia).
  split; [done|]. rewrite He. clear -Hy. subst doy doe z.
  Z.to_euclidean_division_equations; lia.
Qed.

(** C39.  The calendar fields of a clock reading are a valid Gregorian date and
    time of day, and denote exactly that number of seconds since 1970. *)
Theorem from_unix_correct (secs : Z) (Hs : 0 ≤ secs < 2 ^ 55) :
  valid_time (from_unix secs) ∧ epoch_second (from_unix secs) = secs.
Proof.
  unfold from_unix.
  pose proof (civil_from_days_correct (secs / 86400)) as Hc.
  destruct (civil_from_days (secs / 86400)) as [[y m] d].
  destruct Hc as [Hv He]; [Z.to_euclidean_division_equations; lia|].
  unfold valid_time, epoch_second. simpl. rewrite He.
  pose proof (Z.mod_pos_bound secs 86400 eq_refl).
  pose proof (Z.div_mod secs 86400).
  set (r := secs mod 86400) in *. set (q := secs / 86400) in *. clearbody r q.
  rewrite Z.quot_div_nonneg, !Z.rem_mod_nonneg, Z.quot_div_nonneg
    by (try apply Z.mod_pos_bound; lia).
  assert (∀ x, 0 ≤ x < 60 → u32_wrap x = x) as Hw by (intros; apply u32_small; lia).
  rewrite !Hw by (Z.to_euclidean_division_equations; lia).
  split; [split; [done|]|]; Z.to_euclidean_division_equations; lia.
Qed.

Lemma from_unix_correct_witness :
  0 ≤ 1709210096 < 2 ^ 55 ∧ epoch_second (from_unix 1709210096) = 1709210096.
Proof. split; [lia|]. apply from_unix_correct. lia. Defined.
