(* ===== verification/Quic.v ===== *)
(** crates/quic: the transport adapter, its session, listener, event and
    reconnect registries, and the operations of the transport interface.

    An operation is a state-passing function over a [World]: the adapter's
    registries, the relays its relay control drives, and how many times the
    clock and the generator have been read.  What an operation did before an
    [Err] stays done, as in the source. *)
From stdpp Require Import base list strings gmap pretty option countable.
From Stdlib Require Import ZArith Lia Strings.Byte.
From S2P Require Import Prelude Text BTree F32 External Model Crypto Identity RelayWire Relay Transport Calendar.

(* crates/quic/src/lib.rs:20-24 QuicConnectionHandle *)
Record QuicConnectionHandle := {
  ch_session : SessionSnapshot;
  ch_alpn_protocol : option string;
}.

(* crates/quic/src/lib.rs:26-30 QuicListenerHandle *)
Record QuicListenerHandle := { lh_protocol : string; lh_advertise : bool }.

(* crates/quic/src/lib.rs:32-36 RuntimeSessionRecord *)
Record RuntimeSessionRecord := {
  sr_snapshot : SessionSnapshot;
  sr_alpn_protocol : option string;
}.

(* crates/quic/src/lib.rs:38-41 RuntimeListenerRecord *)
Record RuntimeListenerRecord := { lr_snapshot : RuntimeListenerSnapshot }.

(* crates/quic/src/lib.rs:43-46 RuntimeReconnectRecord *)
Record RuntimeReconnectRecord := { rr_snapshot : RuntimeReconnectAttempt }.

(* crates/quic/src/lib.rs:48-48 MAX_TERMINAL_SESSIONS *)
Definition MAX_TERMINAL_SESSIONS : nat := 32.

(** The relay control itself is the [RelayControl] instance of the sections
    below; the locks around the registries are held for single steps only. *)
(* crates/quic/src/lib.rs:50-65 QuicTransportAdapter *)
Record QuicTransportAdapter := {
  implementation : string;
  supports_datagrams : bool;
  supports_path_migration : bool;
  runtime_instance_id : string;
  network_id : option NetworkId;
  local_identity : option IdentityKeypair;
  runtime_sessions : gmap bytes RuntimeSessionRecord;
  terminal_sessions : list RuntimeSessionRecord;
  runtime_listeners : gmap string RuntimeListenerRecord;
  runtime_events : list RuntimeEvent;
  reconnect_suppressions : list ReconnectSuppression;
  reconnect_attempts : list RuntimeReconnectRecord;
}.

(* crates/quic/src/lib.rs:67-85 QuicTransportAdapter::default *)
Definition adapter_default (instance_id : string) : QuicTransportAdapter := {|
  implementation := "adapter-placeholder";
  supports_datagrams := true;
  supports_path_migration := true;
  runtime_instance_id := instance_id;
  network_id := None;
  local_identity := None;
  runtime_sessions := ∅;
  terminal_sessions := [];
  runtime_listeners := ∅;
  runtime_events := [];
  reconnect_suppressions := [];
  reconnect_attempts := [];
|}.

(* crates/quic/src/lib.rs:88-94 QuicTransportAdapter::with_identity *)
Definition with_identity (instance_id : string) (net : NetworkId) (identity : IdentityKeypair)
    : QuicTransportAdapter :=
  let d := adapter_default instance_id in {|
  implementation := implementation d;
  supports_datagrams := supports_datagrams d;
  supports_path_migration := supports_path_migration d;
  runtime_instance_id := runtime_instance_id d;
  network_id := Some net;
  local_identity := Some identity;
  runtime_sessions := runtime_sessions d;
  terminal_sessions := terminal_sessions d;
  runtime_listeners := runtime_listeners d;
  runtime_events := runtime_events d;
  reconnect_suppressions := reconnect_suppressions d;
  reconnect_attempts := reconnect_attempts d;
|}.

(* crates/quic/src/lib.rs:922-929 random_runtime_instance_id *)
Definition random_runtime_instance_id (random : bytes) : string := hex_string random.

(** The adapter with new registries. *)
Definition with_registries (a : QuicTransportAdapter) s t l e sup att : QuicTransportAdapter := {|
  implementation := implementation a;
  supports_datagrams := supports_datagrams a;
  supports_path_migration := supports_path_migration a;
  runtime_instance_id := runtime_instance_id a;
  network_id := network_id a;
  local_identity := local_identity a;
  runtime_sessions := s;
  terminal_sessions := t;
  runtime_listeners := l;
  runtime_events := e;
  reconnect_suppressions := sup;
  reconnect_attempts := att;
|}.
Definition set_sessions s (a : QuicTransportAdapter) : QuicTransportAdapter :=
  with_registries a s (terminal_sessions a) (runtime_listeners a) (runtime_events a)
    (reconnect_suppressions a) (reconnect_attempts a).
Definition set_terminal t (a : QuicTransportAdapter) : QuicTransportAdapter :=
  with_registries a (runtime_sessions a) t (runtime_listeners a) (runtime_events a)
    (reconnect_suppressions a) (reconnect_attempts a).
Definition set_listeners l (a : QuicTransportAdapter) : QuicTransportAdapter :=
  with_registries a (runtime_sessions a) (terminal_sessions a) l (runtime_events a)
    (reconnect_suppressions a) (reconnect_attempts a).
Definition set_events e (a : QuicTransportAdapter) : QuicTransportAdapter :=
  with_registries a (runtime_sessions a) (terminal_sessions a) (runtime_listeners a) e
    (reconnect_suppressions a) (reconnect_attempts a).
Definition set_suppressions sup (a : QuicTransportAdapter) : QuicTransportAdapter :=
  with_registries a (runtime_sessions a) (terminal_sessions a) (runtime_listeners a) (runtime_events a) sup (reconnect_attempts a).
Definition set_attempts att (a : QuicTransportAdapter) : QuicTransportAdapter :=
  with_registries a (runtime_sessions a) (terminal_sessions a) (runtime_listeners a) (runtime_events a) (reconnect_suppressions a) att.

(** ** Effects *)

Record World (R : Type) := mk_World {
  adapter : QuicTransportAdapter;
  relays : R;
  ticks : nat;
  draws : nat;
}.
Arguments mk_World {R} _ _ _ _.
Arguments adapter {R} _.
Arguments relays {R} _.
Arguments ticks {R} _.
Arguments draws {R} _.

Definition M (R A : Type) : Type := World R → result TransportError A * World R.

#[export] Instance M_ret {R} : MRet (M R) := λ A a w, (Ok a, w).
#[export] Instance M_bind {R} : MBind (M R) := λ A B f m w,
  match m w with (Ok a, w') => f a w' | (Err e, w') => (Err e, w') end.

Definition throw {R A} (e : TransportError) : M R A := λ w, (Err e, w).
Definition lift {R A} (r : result TransportError A) : M R A := λ w, (r, w).
Definition reading {R A} (f : QuicTransportAdapter → A) : M R A := λ w, (Ok (f (adapter w)), w).
Definition updating {R} (f : QuicTransportAdapter → QuicTransportAdapter) : M R () :=
  λ w, (Ok (), mk_World (f (adapter w)) (relays w) (ticks w) (draws w)).

(** ** Labels *)

(* crates/quic/src/lib.rs:1093-1098 reconnect_attempt_state_label *)
Definition reconnect_attempt_state_label (state : RuntimeReconnectAttemptState) : string :=
  match state with AttemptBackingOff => "backing_off" | AttemptFailed => "failed" end.

(* crates/quic/src/lib.rs:1100-1106 runtime_event_type_for_state *)
Definition runtime_event_type_for_state (state : RuntimeSessionState) : string :=
  match state with
  | StClosing => "session.closing"
  | StFailed => "session.failed"
  | _ => "session.state_changed"
  end.

(* crates/quic/src/lib.rs:1108-1120 runtime_session_state_label *)
Definition runtime_session_state_label (state : RuntimeSessionState) : string :=
  match state with
  | StPending => "pending" | StConnecting => "connecting" | StActive => "active"
  | StDegraded => "degraded" | StMigrating => "migrating" | StReconciling => "reconciling"
  | StClosing => "closing" | StClosed => "closed" | StFailed => "failed"
  end.

(* crates/quic/src/lib.rs:1122-1131 session_closure_reason_label *)
Definition session_closure_reason_label (reason : SessionClosureReason) : string :=
  match reason with
  | OperatorRequested => "operator_requested"
  | LocalRuntimeFailure => "local_runtime_failure"
  | RemoteFailure => "remote_failure"
  | PolicyRejected => "policy_rejected"
  | PathExhaustion => "path_exhaustion"
  | DaemonShutdown => "daemon_shutdown"
  end.

(* crates/quic/src/lib.rs:1133-1138 path_class_label *)
Definition path_class_label (path_kind : PathKind) : string :=
  match path_kind with Relay => "relay" | _ => "direct" end.

(* crates/quic/src/lib.rs:1140-1147 class_label *)
Definition class_label (class : TrafficClass) : string :=
  match class with
  | Control => "control" | Interactive => "interactive"
  | Bulk => "bulk" | Background => "background"
  end.

(* crates/quic/src/lib.rs:1237-1250 RoutePlanExt::class_string *)
Definition class_string (route : RoutePlan) : string :=
  match rt_class route with
  | Control => "control" | Interactive => "interactive"
  | Bulk => "bulk" | Background => "background"
  end.

(* crates/quic/src/lib.rs:1167-1172 hex_session_id *)
Definition hex_session_id (session_id : bytes) : string := hex_string session_id.

(** JSON of an optional value. *)
Definition json_option {A} (f : A → Json) (o : option A) : Json :=
  match o with Some a => f a | None => JNull end.
Definition json_protocol (protocol : option ProtocolId) : Json :=
  json_option (λ p, JStr (protocol_text p)) protocol.

(** The entry a peer, protocol and class select. *)
Definition suppression_key (e : ReconnectSuppression) : PeerId * option ProtocolId * TrafficClass :=
  (sup_peer e, sup_protocol e, sup_class e).
Definition attempt_key (e : RuntimeReconnectRecord) : PeerId * option ProtocolId * TrafficClass :=
  (at_peer (rr_snapshot e), at_protocol (rr_snapshot e), at_class (rr_snapshot e)).
Definition suppression_matches (peer : PeerId) (protocol : option ProtocolId)
    (class : TrafficClass) (e : ReconnectSuppression) : bool :=
  bool_decide (suppression_key e = (peer, protocol, class)).
Definition attempt_matches (peer : PeerId) (protocol : option ProtocolId)
    (class : TrafficClass) (e : RuntimeReconnectRecord) : bool :=
  bool_decide (attempt_key e = (peer, protocol, class)).

(* crates/quic/src/lib.rs:1076-1091 find_reconnect_suppression *)
Definition find_reconnect_suppression (a : QuicTransportAdapter) (peer : PeerId)
    (protocol : option ProtocolId) (class : TrafficClass) : option ReconnectSuppression :=
  find_first (suppression_matches peer protocol class) (reconnect_suppressions a).

(** A snapshot with the fields a transition rewrites. *)
Definition snapshot_in_state (state : RuntimeSessionState)
    (closure_reason : option SessionClosureReason) (state_reason : option string)
    (last_activity : Z) (s : SessionSnapshot) : SessionSnapshot := {|
  ss_session_id := ss_session_id s;
  ss_transport_session_id := ss_transport_session_id s;
  ss_relay_attempt_id := ss_relay_attempt_id s;
  ss_peer := ss_peer s; ss_protocol := ss_protocol s; ss_class := ss_class s;
  ss_path_kind := ss_path_kind s; ss_source := ss_source s;
  ss_remote_endpoint := ss_remote_endpoint s; ss_relay_peer := ss_relay_peer s;
  ss_relay_endpoint := ss_relay_endpoint s;
  ss_relay_control_endpoint := ss_relay_control_endpoint s;
  ss_datagrams_capable := ss_datagrams_capable s;
  ss_migration_capable := ss_migration_capable s;
  ss_state := state; ss_closure_reason := closure_reason; ss_state_reason := state_reason;
  ss_created_at_unix_secs := ss_created_at_unix_secs s;
  ss_last_activity_unix_secs := last_activity |}.

Definition snapshot_renamed (session_id : bytes) (created_at last_activity : Z)
    (s : SessionSnapshot) : SessionSnapshot := {|
  ss_session_id := session_id;
  ss_transport_session_id := ss_transport_session_id s;
  ss_relay_attempt_id := ss_relay_attempt_id s;
  ss_peer := ss_peer s; ss_protocol := ss_protocol s; ss_class := ss_class s;
  ss_path_kind := ss_path_kind s; ss_source := ss_source s;
  ss_remote_endpoint := ss_remote_endpoint s; ss_relay_peer := ss_relay_peer s;
  ss_relay_endpoint := ss_relay_endpoint s;
  ss_relay_control_endpoint := ss_relay_control_endpoint s;
  ss_datagrams_capable := ss_datagrams_capable s;
  ss_migration_capable := ss_migration_capable s;
  ss_state := ss_state s; ss_closure_reason := ss_closure_reason s;
  ss_state_reason := ss_state_reason s;
  ss_created_at_unix_secs := created_at;
  ss_last_activity_unix_secs := last_activity |}.

Section clock.
Context `{Base32}.
Context {R : Type} (clock : nat → Z) (rng : nat → nat → bytes).
Notation M := (M R).

(** The [n]-th reading of the system clock, in nanoseconds since the epoch. *)
(* crates/quic/src/lib.rs:1156-1161 current_unix_nanos *)
Definition current_unix_nanos : M Z := λ w,
  (Ok (clock (ticks w)), mk_World (adapter w) (relays w) (S (ticks w)) (draws w)).

(* crates/quic/src/lib.rs:1149-1154 current_unix_secs *)
Definition current_unix_secs : M Z :=
  nanos ← current_unix_nanos; mret (nanos / 10 ^ 9)%Z.

(* crates/quic/src/lib.rs:1163-1165 current_rfc3339 *)
Definition current_rfc3339 : M string :=
  secs ← current_unix_secs; mret (iso8601_seconds secs +:+ "Z").

(** [n] bytes from the operating system's generator. *)
Definition fill_bytes (n : nat) : M bytes := λ w,
  (Ok (rng (draws w) n), mk_World (adapter w) (relays w) (ticks w) (S (draws w))).

(* crates/quic/src/lib.rs:901-905 random_attempt_id *)
Definition random_attempt_id : M bytes := fill_bytes 16.

(* crates/quic/src/lib.rs:1053-1074 emit_runtime_event *)
Definition emit_runtime_event (event_type : string) (subject : RuntimeEventSubject)
    (details : Json) : M () :=
  nanos ← current_unix_nanos;
  emitted_at ← current_rfc3339;
  updating (λ a, set_events (trim_front 256 (runtime_events a ++ [{|
    ev_event_id := "evt-" +:+ pretty nanos;
    ev_event_type := event_type;
    ev_emitted_at := emitted_at;
    ev_truth_kind := "runtime";
    ev_subject := subject;
    ev_details := details |}])) a).

(* crates/quic/src/lib.rs:1001-1010 remove_runtime_session *)
Definition remove_runtime_session (session_id : bytes) : M (option RuntimeSessionRecord) :=
  removed ← reading (λ a, runtime_sessions a !! session_id);
  _ ← updating (λ a, set_sessions (delete session_id (runtime_sessions a)) a);
  mret removed.

(* crates/quic/src/lib.rs:1012-1026 record_terminal_session *)
Definition record_terminal_session (record : RuntimeSessionRecord) : M () :=
  updating (λ a, set_terminal (trim_front MAX_TERMINAL_SESSIONS
    (retain (λ entry, negb (bool_decide (ss_session_id (sr_snapshot entry) =
                                         ss_session_id (sr_snapshot record))))
       (terminal_sessions a) ++ [record])) a).

(* crates/quic/src/lib.rs:1028-1038 upsert_runtime_listener *)
Definition upsert_runtime_listener (record : RuntimeListenerRecord) : M () :=
  updating (λ a, set_listeners
    (<[ls_listener_id (lr_snapshot record) := record]> (runtime_listeners a)) a).

(* crates/quic/src/lib.rs:184-192 active_sessions *)
Definition active_sessions : M (list SessionSnapshot) :=
  reading (λ a, sr_snapshot <$> bt_values (runtime_sessions a)).

(* crates/quic/src/lib.rs:194-204 session_snapshot *)
Definition session_snapshot (session_id : bytes) : M (option SessionSnapshot) :=
  reading (λ a, sr_snapshot <$> runtime_sessions a !! session_id).

(* crates/quic/src/lib.rs:206-217 terminal_session_snapshot *)
Definition terminal_session_snapshot (session_id : bytes) : M (option SessionSnapshot) :=
  reading (λ a, sr_snapshot <$>
    find_first (λ r, bool_decide (ss_session_id (sr_snapshot r) = session_id))
      (terminal_sessions a)).

(* crates/quic/src/lib.rs:219-232 recent_terminal_sessions *)
Definition recent_terminal_sessions (limit : nat) : M (list SessionSnapshot) :=
  reading (λ a, sr_snapshot <$> last_rev limit (terminal_sessions a)).

(* crates/quic/src/lib.rs:101-106 owns_session *)
Definition owns_session (session_id : bytes) : M bool :=
  reading (λ a, bool_decide (is_Some (runtime_sessions a !! session_id))).

(* crates/quic/src/lib.rs:234-271 update_session_state *)
Definition update_session_state (session_id : bytes) (state : RuntimeSessionState)
    (closure_reason : option SessionClosureReason) (state_reason : option string)
    : M (option SessionSnapshot) :=
  found ← reading (λ a, runtime_sessions a !! session_id);
  match found with
  | None => mret None
  | Some record =>
      let prior_state := ss_state (sr_snapshot record) in
      now ← current_unix_secs;
      let snapshot := snapshot_in_state state closure_reason state_reason now
                        (sr_snapshot record) in
      _ ← updating (λ a, set_sessions (<[session_id := {|
            sr_snapshot := snapshot; sr_alpn_protocol := sr_alpn_protocol record |}]>
            (runtime_sessions a)) a);
      _ ← emit_runtime_event (runtime_event_type_for_state state)
            {| sub_kind := "session"; sub_id := hex_session_id (ss_session_id snapshot) |}
            (JObj [("peer_id", JStr (PeerId_to_text (ss_peer snapshot)));
                   ("prior_state", JStr (runtime_session_state_label prior_state));
                   ("next_state", JStr (runtime_session_state_label (ss_state snapshot)));
                   ("closure_reason", json_option (λ r, JStr (session_closure_reason_label r))
                                        closure_reason);
                   ("reason", json_option JStr state_reason)]);
      mret (Some snapshot)
  end.

(* crates/quic/src/lib.rs:273-288 recent_events *)
Definition recent_events (limit : nat) : M (list RuntimeEvent) :=
  reading (λ a,
    let events := runtime_events a in
    let count := Nat.min (Nat.max limit 1) (length events) in
    reverse (last_rev count events)).

Definition peer_subject (peer : PeerId) : RuntimeEventSubject :=
  {| sub_kind := "peer"; sub_id := PeerId_to_text peer |}.

(* crates/quic/src/lib.rs:290-330 suppress_reconnect *)
Definition suppress_reconnect (peer : PeerId) (protocol : option ProtocolId)
    (class : TrafficClass) (reason : string) : M () :=
  found ← reading (λ a, any (suppression_matches peer protocol class) (reconnect_suppressions a));
  now ← current_unix_secs;
  _ ← updating (λ a, set_suppressions
        (if (found : bool)
         then update_first (suppression_matches peer protocol class)
                (λ existing, {|
                   sup_peer := sup_peer existing; sup_protocol := sup_protocol existing;
                   sup_class := sup_class existing;
                   sup_reason := reason; sup_imposed_at_unix_secs := now |})
                (reconnect_suppressions a)
         else reconnect_suppressions a ++ [{|
                sup_peer := peer; sup_protocol := protocol; sup_class := class;
                sup_reason := reason; sup_imposed_at_unix_secs := now |}]) a);
  emit_runtime_event "reconnect.suppressed" (peer_subject peer)
    (JObj [("protocol", json_protocol protocol); ("class", JStr (class_label class));
           ("reason", JStr reason)]).

(* crates/quic/src/lib.rs:332-369 clear_reconnect_suppression *)
Definition clear_reconnect_suppression (peer : PeerId) (protocol : option ProtocolId)
    (class : TrafficClass) : M () :=
  removed ← reading (λ a,
    find_first (suppression_matches peer protocol class) (reconnect_suppressions a));
  _ ← updating (λ a, set_suppressions
        (retain (λ e, negb (suppression_matches peer protocol class e))
           (reconnect_suppressions a)) a);
  match removed with
  | Some removed =>
      emit_runtime_event "reconnect.unsuppressed" (peer_subject peer)
        (JObj [("protocol", json_protocol protocol); ("class", JStr (class_label class));
               ("prior_reason", JStr (sup_reason removed));
               ("imposed_at_unix_secs", JNum (sup_imposed_at_unix_secs removed))])
  | None => mret ()
  end.

(* crates/quic/src/lib.rs:371-377 reconnect_suppressions *)
Definition list_reconnect_suppressions : M (list ReconnectSuppression) :=
  reading reconnect_suppressions.

(* crates/quic/src/lib.rs:379-387 active_listeners *)
Definition active_listeners : M (list RuntimeListenerSnapshot) :=
  reading (λ a, lr_snapshot <$> bt_values (runtime_listeners a)).

Definition listener_in_state (state : RuntimeListenerState) (reason : option string)
    (s : RuntimeListenerSnapshot) : RuntimeListenerSnapshot := {|
  ls_listener_id := ls_listener_id s; ls_transport := ls_transport s;
  ls_bind_summary := ls_bind_summary s; ls_protocol := ls_protocol s;
  ls_advertise := ls_advertise s; ls_state := state; ls_state_reason := reason;
  ls_started_at_unix_secs := ls_started_at_unix_secs s |}.

(* crates/quic/src/lib.rs:389-405 update_listener_state *)
Definition update_listener_state (listener_id : string) (state : RuntimeListenerState)
    (state_reason : option string) : M (option RuntimeListenerSnapshot) :=
  found ← reading (λ a, runtime_listeners a !! listener_id);
  match found with
  | None => mret None
  | Some record =>
      let snapshot := listener_in_state state state_reason (lr_snapshot record) in
      _ ← updating (λ a, set_listeners
            (<[listener_id := {| lr_snapshot := snapshot |}]> (runtime_listeners a)) a);
      mret (Some snapshot)
  end.

Definition backing_off (e : RuntimeReconnectRecord) : bool :=
  bool_decide (at_state (rr_snapshot e) = AttemptBackingOff).

(* crates/quic/src/lib.rs:407-466 transport_health *)
Definition transport_health : M RuntimeTransportHealth := reading (λ a,
  let reconnect_suppression_count := Z.of_nat (length (reconnect_suppressions a)) in
  let attempts := reconnect_attempts a in
  let reconnect_attempt_count := count backing_off attempts in {|
    th_active_sessions := bt_len (runtime_sessions a);
    th_active_listeners :=
      count_values (λ r, bool_decide (ls_state (lr_snapshot r) = ListenerActive))
        (runtime_listeners a);
    th_reconnect_state :=
      if (0 <? reconnect_suppression_count)%Z then ReconnectSuppressed
      else if (0 <? reconnect_attempt_count)%Z then ReconnectActive
      else if any (λ e, bool_decide (at_state (rr_snapshot e) = AttemptFailed)) attempts
      then ReconnectFailed
      else ReconnectIdle;
    th_reconnect_attempt_count := reconnect_attempt_count;
    th_reconnect_next_attempt_unix_secs :=
      min_by_key id (at_next_attempt_unix_secs ∘ rr_snapshot <$> retain backing_off attempts);
    th_reconnect_suppression_count := reconnect_suppression_count;
    th_event_buffer_depth := Z.of_nat (length (runtime_events a));
    th_session_registry_healthy := true;
    th_listener_registry_healthy := true |}).

(* crates/quic/src/lib.rs:468-476 reconnect_attempts *)
Definition list_reconnect_attempts : M (list RuntimeReconnectAttempt) :=
  reading (λ a, rr_snapshot <$> reconnect_attempts a).

(** The entry an existing attempt becomes, and a first attempt. *)
(* crates/quic/src/lib.rs:500-516 schedule_reconnect (existing entry) *)
Definition next_attempt (now : Z) (reason : string) (max_attempts base_backoff_secs
    max_backoff_secs : Z) (e : RuntimeReconnectAttempt) : RuntimeReconnectAttempt :=
  let attempt_count := u32_add (at_attempt_count e) 1 in
  let exp := Z.min (sat_sub attempt_count 1) 16 in
  let backoff := Z.min (u64_sat_mul base_backoff_secs (u64_wrap (Z.shiftl 1 exp)))
                   max_backoff_secs in {|
    at_peer := at_peer e; at_protocol := at_protocol e; at_class := at_class e;
    at_state := if (max_attempts <=? attempt_count)%Z then AttemptFailed else AttemptBackingOff;
    at_reason := reason;
    at_attempt_count := attempt_count;
    at_last_attempt_unix_secs := now;
    at_next_attempt_unix_secs := u64_sat_add now backoff;
    at_max_attempts := max_attempts |}.

(* crates/quic/src/lib.rs:518-534 schedule_reconnect (new entry) *)
Definition first_attempt (now : Z) (peer : PeerId) (protocol : option ProtocolId)
    (class : TrafficClass) (reason : string) (max_attempts base_backoff_secs
    max_backoff_secs : Z) : RuntimeReconnectAttempt := {|
  at_peer := peer; at_protocol := protocol; at_class := class;
  at_state := if (max_attempts <=? 1)%Z then AttemptFailed else AttemptBackingOff;
  at_reason := reason;
  at_attempt_count := 1;
  at_last_attempt_unix_secs := now;
  at_next_attempt_unix_secs := u64_sat_add now (Z.min base_backoff_secs max_backoff_secs);
  at_max_attempts := max_attempts |}.

(* crates/quic/src/lib.rs:478-580 schedule_reconnect *)
Definition schedule_reconnect (peer : PeerId) (protocol : option ProtocolId)
    (class : TrafficClass) (reason : string) (max_attempts base_backoff_secs
    max_backoff_secs : Z) : M RuntimeReconnectAttempt :=
  now ← current_unix_secs;
  found ← reading (λ a,
    find_first (attempt_matches peer protocol class) (reconnect_attempts a));
  snapshot ←
    match found with
    | Some existing =>
        let step := next_attempt now reason max_attempts base_backoff_secs max_backoff_secs in
        _ ← updating (λ a, set_attempts
              (update_first (attempt_matches peer protocol class)
                 (λ e, {| rr_snapshot := step (rr_snapshot e) |}) (reconnect_attempts a)) a);
        mret (step (rr_snapshot existing))
    | None =>
        let snapshot := first_attempt now peer protocol class reason max_attempts
                          base_backoff_secs max_backoff_secs in
        _ ← updating (λ a, set_attempts
              (reconnect_attempts a ++ [{| rr_snapshot := snapshot |}]) a);
        mret snapshot
    end;
  let backoff_secs := sat_sub (at_next_attempt_unix_secs snapshot)
                        (at_last_attempt_unix_secs snapshot) in
  _ ← emit_runtime_event
        (if decide (at_state snapshot = AttemptFailed)
         then "reconnect.failed" else "reconnect.retry_scheduled")
        (peer_subject peer)
        (JObj [("protocol", json_protocol protocol); ("class", JStr (class_label class));
               ("state", JStr (reconnect_attempt_state_label (at_state snapshot)));
               ("attempt_count", JNum (at_attempt_count snapshot));
               ("next_attempt_unix_secs", JNum (at_next_attempt_unix_secs snapshot));
               ("backoff_secs", JNum backoff_secs);
               ("max_attempts", JNum (at_max_attempts snapshot));
               ("reason", JStr (at_reason snapshot))]);
  _ ← (if decide (at_state snapshot = AttemptFailed)
       then emit_runtime_event "path.failed" (peer_subject peer)
              (JObj [("protocol", json_protocol protocol); ("class", JStr (class_label class));
                     ("cause", JStr "reconnect_exhausted");
                     ("attempt_count", JNum (at_attempt_count snapshot));
                     ("max_attempts", JNum (at_max_attempts snapshot));
                     ("reason", JStr (at_reason snapshot))])
       else mret ());
  mret snapshot.

(* crates/quic/src/lib.rs:582-635 clear_reconnect_attempt *)
Definition clear_reconnect_attempt (peer : PeerId) (protocol : option ProtocolId)
    (class : TrafficClass) (outcome_reason : option string) : M () :=
  removed ← reading (λ a,
    find_first (attempt_matches peer protocol class) (reconnect_attempts a));
  _ ← updating (λ a, set_attempts
        (retain (λ e, negb (attempt_matches peer protocol class e)) (reconnect_attempts a)) a);
  match removed with
  | Some record =>
      let event_type :=
        match outcome_reason with
        | Some reason =>
            if contains "succeeded" reason || contains "active" reason
            then "reconnect.succeeded" else "reconnect.cleared"
        | None => "reconnect.cleared"
        end in
      emit_runtime_event event_type (peer_subject peer)
        (JObj [("protocol", json_protocol protocol); ("class", JStr (class_label class));
               ("state", JStr (reconnect_attempt_state_label (at_state (rr_snapshot record))));
               ("attempt_count", JNum (at_attempt_count (rr_snapshot record)));
               ("reason", json_option JStr outcome_reason)])
  | None => mret ()
  end.

(* crates/quic/src/lib.rs:637-645 record_runtime_event *)
Definition record_runtime_event (event_type : string) (subject : RuntimeEventSubject)
    (details : Json) : M () := emit_runtime_event event_type subject details.
End clock.

Section transport.
Context `{Blake3, Varint, Base32, Curves, JsonBytes SessionCredentialUnsigned}.
Context {R : Type} `{RelayControl R} (clock : nat → Z) (rng : nat → nat → bytes).
Notation M := (M R).

(** The relay control's operations, with their errors as transport errors. *)
Definition relay_close (endpoint : string) (transport_session_id : bytes) : M () := λ w,
  let '(r, relays') :=
    rc_close_session endpoint transport_session_id "path migrated" (relays w) in
  (map_err (λ error, RelayRejected (relay_error_text error)) r,
   mk_World (adapter w) relays' (ticks w) (draws w)).

Definition open_relay_session (endpoint : string) (request : RelayOpenRequest)
    : M RelaySessionAccepted := λ w,
  let '(r, relays') := rc_open_session endpoint request (relays w) in
  (map_err (λ error, RelayRejected (relay_error_text error)) r,
   mk_World (adapter w) relays' (ticks w) (draws w)).

(* crates/quic/src/lib.rs:1040-1051 close_relay_transport_session *)
Definition close_relay_transport_session (control_endpoint : option string)
    (transport_session_id : bytes) : M () :=
  endpoint ← lift (ok_or (InvalidRoute "relay session is missing relay control endpoint")
                     control_endpoint);
  relay_close endpoint transport_session_id.

(* crates/quic/src/lib.rs:907-920 logical_session_id *)
Definition logical_session_id (runtime_instance_id : string) (route : RoutePlan) : bytes :=
  let digest := blake3 (as_bytes runtime_instance_id ++ peer_bytes (rt_local_peer route) ++
    peer_bytes (rt_peer route) ++ as_bytes (class_string route) ++
    match rt_protocol route with
    | Some protocol => as_bytes (protocol_text protocol)
    | None => []
    end) in
  take 16 digest.

(* crates/quic/src/lib.rs:1174-1181 runtime_listener_id *)
Definition runtime_listener_id (runtime_instance_id : string) (bind : BindSpec) : M string :=
  nanos ← current_unix_nanos clock;
  let digest := blake3 (as_bytes runtime_instance_id ++
    as_bytes (protocol_text (bind_protocol bind)) ++
    as_bytes (if bind_advertise bind then "1" else "0") ++ as_bytes (pretty nanos)) in
  mret ("lst-" +:+ String.substring 0 16 (hex_string digest)).

Definition is_relay (s : SessionSnapshot) : bool := bool_decide (ss_path_kind s = Relay).
Definition session_subject (id : bytes) : RuntimeEventSubject :=
  {| sub_kind := "session"; sub_id := hex_session_id id |}.

(** The relay session of [previous] is not the one [next] uses. *)
Definition leaves_relay (previous next : SessionSnapshot) : bool :=
  is_relay previous &&
  (negb (bool_decide (ss_transport_session_id previous = ss_transport_session_id next)) ||
   negb (bool_decide (ss_relay_control_endpoint previous = ss_relay_control_endpoint next)) ||
   negb (is_relay next)).

(* crates/quic/src/lib.rs:931-999 upsert_runtime_session *)
Definition upsert_runtime_session (record : RuntimeSessionRecord) : M () :=
  let snapshot := sr_snapshot record in
  let session_id := ss_session_id snapshot in
  previous ← reading (λ a, runtime_sessions a !! session_id);
  _ ← updating (λ a, set_sessions (<[session_id := record]> (runtime_sessions a)) a);
  match previous with
  | Some previous =>
      _ ← (if leaves_relay (sr_snapshot previous) snapshot
           then close_relay_transport_session
                  (ss_relay_control_endpoint (sr_snapshot previous))
                  (ss_transport_session_id (sr_snapshot previous))
           else mret ());
      emit_runtime_event clock "session.state_changed" (session_subject session_id)
        (JObj [("peer_id", JStr (PeerId_to_text (ss_peer snapshot)));
               ("prior_state",
                 JStr (runtime_session_state_label (ss_state (sr_snapshot previous))));
               ("next_state", JStr (runtime_session_state_label (ss_state snapshot)));
               ("path_class", JStr (path_class_label (ss_path_kind snapshot)))])
  | None =>
      _ ← emit_runtime_event clock "session.created" (session_subject session_id)
            (JObj [("peer_id", JStr (PeerId_to_text (ss_peer snapshot)));
                   ("next_state", JStr (runtime_session_state_label (ss_state snapshot)));
                   ("path_class", JStr (path_class_label (ss_path_kind snapshot)))]);
      emit_runtime_event clock "path.selected" (session_subject session_id)
        (JObj [("peer_id", JStr (PeerId_to_text (ss_peer snapshot)));
               ("path_class", JStr (path_class_label (ss_path_kind snapshot)));
               ("source", JStr (RouteSource_debug (ss_source snapshot)))])
  end.

Definition checked_identity (role : string) (route : RoutePlan) : M IdentityKeypair :=
  identity ← reading local_identity;
  identity ← lift (ok_or (InvalidRoute (role +:+ " route requires local identity")) identity);
  if decide (peer_id identity ≠ rt_local_peer route)
  then throw (InvalidRoute "local identity peer does not match route local peer")
  else mret identity.

(* crates/quic/src/lib.rs:777-817 direct_session_snapshot *)
Definition direct_session_snapshot (route : RoutePlan) : M SessionSnapshot :=
  _ ← checked_identity "direct" route;
  remote_endpoint ← lift (ok_or (NoRoute (rt_peer route)) (head (rt_remote_endpoints route)));
  now ← current_unix_secs clock;
  a ← reading id;
  let session_id := logical_session_id (runtime_instance_id a) route in
  mret {|
    ss_session_id := session_id;
    ss_transport_session_id := session_id;
    ss_relay_attempt_id := None;
    ss_peer := rt_peer route;
    ss_protocol := rt_protocol route;
    ss_class := rt_class route;
    ss_path_kind := rt_path_kind route;
    ss_source := rt_source route;
    ss_remote_endpoint := remote_endpoint;
    ss_relay_peer := None;
    ss_relay_endpoint := None;
    ss_relay_control_endpoint := None;
    ss_datagrams_capable := supports_datagrams a;
    ss_migration_capable := supports_path_migration a;
    ss_state := StActive;
    ss_closure_reason := None;
    ss_state_reason := None;
    ss_created_at_unix_secs := now;
    ss_last_activity_unix_secs := now |}.

(* crates/quic/src/lib.rs:819-899 relay_session_snapshot *)
Definition relay_session_snapshot (route : RoutePlan) (relay : RelayPlan) : M SessionSnapshot :=
  a ← reading id;
  net ← lift (ok_or (InvalidRoute "relay route requires network identity") (network_id a));
  identity ← checked_identity "relay" route;
  secret ← fill_bytes rng 32;
  let session_key := session_generate secret in
  issued_at ← current_unix_secs clock;
  nonce ← fill_bytes rng 16;
  let credential := credential_issue issued_at nonce net identity
    (public_key_bytes session_key)
    match rt_protocol route with
    | Some protocol => [protocol_text protocol]
    | None => ["/quip/relay/1"]
    end 300 1 in
  attempt_id ← random_attempt_id rng;
  relay_endpoint ← lift (ok_or (InvalidRoute "relay route has no relay endpoints")
                           (head (rp_relay_endpoints relay)));
  accepted ← open_relay_session (rp_relay_control_endpoint relay) {|
    or_attempt_id := attempt_id;
    or_network_id := net;
    or_source := rt_local_peer route;
    or_source_public_key := public_key identity;
    or_source_credential := credential;
    or_destination := rt_peer route;
    or_protocol := rt_protocol route;
    or_traffic_class := rt_class route |};
  let remote_endpoint :=
    match head (rp_destination_endpoints relay) with
    | Some e => e
    | None => match head (rt_remote_endpoints route) with
              | Some e => e
              | None => PeerId_to_text (rt_peer route)
              end
    end in
  now ← current_unix_secs clock;
  let session_id := logical_session_id (runtime_instance_id a) route in
  mret {|
    ss_session_id := session_id;
    ss_transport_session_id := sa_session_id accepted;
    ss_relay_attempt_id := Some (sa_attempt_id accepted);
    ss_peer := rt_peer route;
    ss_protocol := rt_protocol route;
    ss_class := rt_class route;
    ss_path_kind := rt_path_kind route;
    ss_source := rt_source route;
    ss_remote_endpoint := remote_endpoint;
    ss_relay_peer := Some (rp_relay_peer relay);
    ss_relay_endpoint := Some relay_endpoint;
    ss_relay_control_endpoint := Some (rp_relay_control_endpoint relay);
    ss_datagrams_capable := supports_datagrams a && rp_supports_datagrams relay;
    ss_migration_capable := supports_path_migration a && rp_supports_path_migration relay;
    ss_state := StActive;
    ss_closure_reason := None;
    ss_state_reason := None;
    ss_created_at_unix_secs := now;
    ss_last_activity_unix_secs := now |}.

(* crates/quic/src/lib.rs:767-775 session_snapshot_for_route *)
Definition session_snapshot_for_route (route : RoutePlan) : M SessionSnapshot :=
  match rt_relay route with
  | Some relay => relay_session_snapshot route relay
  | None => direct_session_snapshot route
  end.

(* crates/quic/src/lib.rs:118-151 QuicTransportAdapter::connect *)
Definition connect (route : RoutePlan) : M QuicConnectionHandle :=
  suppression ← reading (λ a,
    find_reconnect_suppression a (rt_peer route) (rt_protocol route) (rt_class route));
  match suppression with
  | Some suppression =>
      _ ← emit_runtime_event clock "reconnect.suppressed" (peer_subject (rt_peer route))
            (JObj [("protocol", json_protocol (rt_protocol route));
                   ("class", JStr (class_string route));
                   ("reason", JStr (sup_reason suppression))]);
      throw (PolicyDenied ("reconnect suppressed: " +:+ sup_reason suppression))
  | None =>
      session ← session_snapshot_for_route route;
      let alpn_protocol := protocol_text <$> rt_protocol route in
      _ ← upsert_runtime_session {| sr_snapshot := session; sr_alpn_protocol := alpn_protocol |};
      mret {| ch_session := session; ch_alpn_protocol := alpn_protocol |}
  end.

(* crates/quic/src/lib.rs:153-179 QuicTransportAdapter::listen *)
Definition listen (bind : BindSpec) : M QuicListenerHandle :=
  let handle := {| lh_protocol := protocol_text (bind_protocol bind);
                   lh_advertise := bind_advertise bind |} in
  instance ← reading runtime_instance_id;
  listener_id ← runtime_listener_id instance bind;
  started_at ← current_unix_secs clock;
  _ ← upsert_runtime_listener {| lr_snapshot := {|
        ls_listener_id := listener_id;
        ls_transport := "quic";
        ls_bind_summary := "protocol=" +:+ protocol_text (bind_protocol bind) +:+
          " advertise=" +:+ (if bind_advertise bind then "true" else "false") +:+
          " runtime_instance=" +:+ instance;
        ls_protocol := bind_protocol bind;
        ls_advertise := bind_advertise bind;
        ls_state := ListenerActive;
        ls_state_reason := None;
        ls_started_at_unix_secs := started_at |} |};
  mret handle.

(* crates/quic/src/lib.rs:647-703 QuicTransportAdapter::migrate *)
Definition migrate (session : SessionSnapshot) (route : RoutePlan) : M SessionSnapshot :=
  _ ← update_session_state clock (ss_session_id session) StMigrating None
        (Some "daemon requested path migration");
  existing ← session_snapshot (ss_session_id session);
  existing ← lift (ok_or (InvalidRoute "session is not active in runtime registry") existing);
  migrated ← session_snapshot_for_route route;
  now ← current_unix_secs clock;
  let migrated := snapshot_renamed (ss_session_id existing) (ss_created_at_unix_secs existing)
                    now migrated in
  _ ← (if leaves_relay existing migrated
       then close_relay_transport_session (ss_relay_control_endpoint existing)
              (ss_transport_session_id existing)
       else mret ());
  _ ← upsert_runtime_session {| sr_snapshot := migrated;
        sr_alpn_protocol := protocol_text <$> rt_protocol route |};
  _ ← emit_runtime_event clock "path.migration_completed"
        (session_subject (ss_session_id migrated))
        (JObj [("peer_id", JStr (PeerId_to_text (ss_peer migrated)));
               ("prior_path_class", JStr (path_class_label (ss_path_kind existing)));
               ("next_path_class", JStr (path_class_label (ss_path_kind migrated)))]);
  mret migrated.

Definition or_else {A} (a b : option A) : option A :=
  match a with Some x => Some x | None => b end.

(* crates/quic/src/lib.rs:705-758 QuicTransportAdapter::close_session *)
Definition close_session (session : SessionSnapshot) : M () :=
  existing ← session_snapshot (ss_session_id session);
  let closure_reason := or_else (existing ≫= ss_closure_reason) (ss_closure_reason session) in
  let state_reason := or_else (existing ≫= ss_state_reason) (ss_state_reason session) in
  _ ← update_session_state clock (ss_session_id session) StClosing closure_reason state_reason;
  removed ← remove_runtime_session (ss_session_id session);
  match removed with
  | None => mret ()
  | Some active =>
      let session := sr_snapshot active in
      _ ← (if is_relay session
           then close_relay_transport_session (ss_relay_control_endpoint session)
                  (ss_transport_session_id session)
           else mret ());
      now ← current_unix_secs clock;
      let terminal := snapshot_in_state StClosed (ss_closure_reason session)
                        (ss_state_reason session) now session in
      _ ← record_terminal_session {| sr_snapshot := terminal;
            sr_alpn_protocol := sr_alpn_protocol active |};
      emit_runtime_event clock "session.closed" (session_subject (ss_session_id session))
        (JObj [("peer_id", JStr (PeerId_to_text (ss_peer session)));
               ("prior_state", JStr (runtime_session_state_label StClosing));
               ("next_state", JStr (runtime_session_state_label StClosed));
               ("closure_reason", json_option (λ r, JStr (session_closure_reason_label r))
                                    (ss_closure_reason terminal));
               ("reason", json_option JStr (ss_state_reason terminal))])
  end.
End transport.
