(* ===== verification/QuicProps.v ===== *)
(** Properties of the transport adapter of crates/quic: its registry
    invariant, and what each session and reconnect operation promises. *)
From Stdlib Require Import ZArith Lia Strings.Byte.
From stdpp Require Import countable option base list strings gmap pretty.
From S2P Require Import Prelude Text BTree F32 External Model Crypto Identity RelayWire Relay Transport Calendar Quic.

(** ** A Hoare logic over the adapter

    [hoare P m Q E]: from an adapter in [P], [m] ends in [Q] when it returns
    and in [E] when it fails. *)
Section hoare.
Context {R : Type}.

Definition hoare {A} (P : QuicTransportAdapter → Prop) (m : M R A)
    (Q : A → QuicTransportAdapter → Prop) (E : QuicTransportAdapter → Prop) : Prop :=
  ∀ w, P (adapter w) →
  match m w with (Ok a, w') => Q a (adapter w') | (Err _, w') => E (adapter w') end.

Definition keeps {A} (I : QuicTransportAdapter → Prop) (m : M R A) : Prop :=
  hoare I m (λ _, I) I.

Lemma hoare_bind {A B} P (m : M R A) (f : A → M R B) S Q E :
  hoare P m S E → (∀ a, hoare (S a) (f a) Q E) → hoare P (m ≫= f) Q E.
Proof.
  intros Hm Hf w Hw. specialize (Hm w Hw). unfold mbind, M_bind.
  destruct (m w) as [[a|e] w']; [by apply Hf|done].
Qed.

Lemma hoare_ret {A} (a : A) (Q : A → QuicTransportAdapter → Prop) E :
  hoare (Q a) (mret a) Q E.
Proof. by intros w Hw. Qed.

Lemma hoare_pre {A} (P P' : QuicTransportAdapter → Prop) (m : M R A) Q E :
  (∀ a, P a → P' a) → hoare P' m Q E → hoare P m Q E.
Proof. intros HP Hm w Hw. by apply Hm, HP. Qed.

Lemma hoare_post {A} P (m : M R A) (Q Q' : A → QuicTransportAdapter → Prop) E :
  (∀ x a, Q' x a → Q x a) → hoare P m Q' E → hoare P m Q E.
Proof.
  intros HQ Hm w Hw. specialize (Hm w Hw). destruct (m w) as [[x|] w']; [by apply HQ|done].
Qed.

Lemma hoare_reading {A} (f : QuicTransportAdapter → A) P E :
  hoare P (reading f) (λ x a, P a ∧ x = f a) E.
Proof. by intros w Hw. Qed.

Lemma hoare_updating f (Q : QuicTransportAdapter → Prop) E :
  hoare (λ a, Q (f a)) (updating f) (λ _, Q) E.
Proof. by intros w Hw. Qed.

Lemma hoare_lift {A} (r : result TransportError A) P :
  hoare P (lift r) (λ x a, P a ∧ r = Ok x) P.
Proof. intros w Hw. unfold lift. by destruct r. Qed.

Lemma hoare_throw {A} e P : hoare P (throw e : M R A) (λ _ _, False) P.
Proof. by intros w Hw. Qed.
End hoare.

(** ** The invariant of the registries *)

Definition closed_record (r : RuntimeSessionRecord) : Prop := ss_state (sr_snapshot r) = StClosed.
Definition record_id (r : RuntimeSessionRecord) : bytes := ss_session_id (sr_snapshot r).

Record adapter_inv (a : QuicTransportAdapter) : Prop := {
  ai_sessions id r : runtime_sessions a !! id = Some r → record_id r = id;
  ai_listeners id r : runtime_listeners a !! id = Some r → ls_listener_id (lr_snapshot r) = id;
  ai_terminal_length : length (terminal_sessions a) ≤ MAX_TERMINAL_SESSIONS;
  ai_terminal_ids : NoDup (record_id <$> terminal_sessions a);
  ai_terminal_closed : Forall closed_record (terminal_sessions a);
  ai_events : length (runtime_events a) ≤ 256;
  ai_suppressions : NoDup (suppression_key <$> reconnect_suppressions a);
  ai_attempts : NoDup (attempt_key <$> reconnect_attempts a);
}.

(** Keys stay distinct when an entry is updated in place, appended because no
    entry has its key, or filtered. *)
Lemma NoDup_fmap_sublist {A B} (f : A → B) l k :
  k `sublist_of` l → NoDup (f <$> l) → NoDup (f <$> k).
Proof. intros Hs Hl. by apply (sublist_NoDup _ _ Hl), fmap_sublist. Qed.

Lemma NoDup_fmap_snoc {A B} (f : A → B) l x :
  NoDup (f <$> l) → (∀ y, y ∈ l → f y ≠ f x) → NoDup (f <$> l ++ [x]).
Proof.
  intros Hl Hx. rewrite fmap_app. apply NoDup_app. split_and!; [done| |apply NoDup_singleton].
  intros k (y & -> & Hy)%list_elem_of_fmap Hk%list_elem_of_singleton. by apply (Hx y).
Qed.

Lemma trim_front_sublist {A} n (l : list A) : trim_front n l `sublist_of` l.
Proof. rewrite trim_front_drop. apply sublist_drop. Qed.

Section preservation.
Context `{Blake3, Varint, Base32, Curves, JsonBytes SessionCredentialUnsigned}.
Context {R : Type} `{RelayControl R} (clock : nat → Z) (rng : nat → nat → bytes).
Implicit Types (a : QuicTransportAdapter) (P : QuicTransportAdapter → Prop).

(** What only reads the clock, the generator or the relays keeps any
    predicate of the adapter. *)
Lemma hoare_nanos P E : hoare P (current_unix_nanos (R:=R) clock) (λ _, P) E.
Proof. by intros w Hw. Qed.
Lemma hoare_secs P E : hoare P (current_unix_secs (R:=R) clock) (λ _, P) E.
Proof. by intros w Hw. Qed.
Lemma hoare_fill n P E : hoare P (fill_bytes (R:=R) rng n) (λ _, P) E.
Proof. by intros w Hw. Qed.
Lemma hoare_relay_open e q P : hoare P (open_relay_session (R:=R) e q) (λ _, P) P.
Proof.
  intros w Hw. unfold open_relay_session. destruct (rc_open_session _ _ _) as [r x]; simpl.
  by destruct (map_err _ r).
Qed.
Lemma hoare_relay_close e i P : hoare P (close_relay_transport_session (R:=R) e i) (λ _, P) P.
Proof.
  intros w Hw. unfold close_relay_transport_session, relay_close, mbind, M_bind, lift.
  destruct e as [e|]; simpl; [|done].
  destruct (rc_close_session _ _ _ _) as [r x]; simpl. by destruct (map_err _ r).
Qed.

(** A predicate that does not look at the event buffer, except for its bound. *)
Definition event_free P : Prop := ∀ a e, P a → length e ≤ 256 → P (set_events e a).

Lemma hoare_emit t s d P E : event_free P → hoare P (emit_runtime_event (R:=R) clock t s d) (λ _, P) E.
Proof.
  intros HP w Hw. simpl. apply HP; [done|]. rewrite length_trim_front. lia.
Qed.

Lemma adapter_inv_events : event_free adapter_inv.
Proof. intros a e [] He. split; try done. Qed.

Lemma adapter_inv_session a id r :
  adapter_inv a → record_id r = id →
  adapter_inv (set_sessions (<[id := r]> (runtime_sessions a)) a).
Proof.
  intros [] Hr. split; try done. intros j x. simpl.
  rewrite lookup_insert_Some. naive_solver.
Qed.

Lemma adapter_inv_remove a id :
  adapter_inv a → adapter_inv (set_sessions (delete id (runtime_sessions a)) a).
Proof.
  intros [Hs ? ? ? ? ? ? ?]. split; try done. intros j x. simpl.
  rewrite lookup_delete_Some. intros [_ Hx]. by apply Hs.
Qed.

Lemma adapter_inv_listener a r :
  adapter_inv a →
  adapter_inv (set_listeners (<[ls_listener_id (lr_snapshot r) := r]> (runtime_listeners a)) a).
Proof.
  intros []. split; try done. intros j x. simpl. rewrite lookup_insert_Some. naive_solver.
Qed.

Lemma adapter_inv_terminal a r :
  adapter_inv a → closed_record r →
  adapter_inv (set_terminal (trim_front MAX_TERMINAL_SESSIONS
    (retain (λ e, negb (bool_decide (record_id e = record_id r))) (terminal_sessions a)
     ++ [r])) a).
Proof.
  intros [Hs Hl Hlen Hid Hc He Hsup Hat] Hr. split; try done; simpl.
  - rewrite length_trim_front. lia.
  - eapply NoDup_fmap_sublist; [apply trim_front_sublist|]. apply NoDup_fmap_snoc.
    + eapply NoDup_fmap_sublist; [apply retain_sublist|done].
    + intros y [_ Hy]%elem_of_retain. by apply negb_true_iff, bool_decide_eq_false in Hy.
  - apply Forall_forall. intros x Hx%elem_of_trim_front.
    apply elem_of_app in Hx as [[Hx _]%elem_of_retain| ->%list_elem_of_singleton]; [|done].
    by eapply Forall_forall in Hc.
Qed.

Lemma adapter_inv_suppressions a l :
  adapter_inv a → NoDup (suppression_key <$> l) → adapter_inv (set_suppressions l a).
Proof. intros [] Hl. by split. Qed.

Lemma adapter_inv_attempts a l :
  adapter_inv a → NoDup (attempt_key <$> l) → adapter_inv (set_attempts l a).
Proof. intros [] Hl. by split. Qed.

(** ** Each operation keeps the invariant *)

Lemma keeps_bind {A B} P (m : M R A) (f : A → M R B) :
  keeps P m → (∀ x, keeps P (f x)) → keeps P (m ≫= f).
Proof. intros. by eapply hoare_bind. Qed.
Lemma keeps_ret {A} P (x : A) : keeps (R:=R) P (mret x).
Proof. apply (hoare_ret x (λ _, P)). Qed.
Lemma keeps_reading {A} P (f : QuicTransportAdapter → A) : keeps (R:=R) P (reading f).
Proof. by intros w Hw. Qed.
Lemma keeps_lift {A} P (r : result TransportError A) : keeps (R:=R) P (lift r).
Proof. intros w Hw. unfold lift. by destruct r. Qed.
Lemma keeps_throw {A} P e : keeps P (throw e : M R A).
Proof. by intros w Hw. Qed.
Lemma keeps_updating P f : (∀ a, P a → P (f a)) → keeps (R:=R) P (updating f).
Proof. intros Hf w Hw. by apply Hf. Qed.

Hint Resolve keeps_ret keeps_reading keeps_lift keeps_throw hoare_nanos hoare_secs hoare_fill
  hoare_relay_open hoare_relay_close adapter_inv_events : quic.
Hint Extern 1 (keeps _ _) => unfold keeps; simple apply hoare_secs : quic.
Hint Extern 1 (keeps _ _) => unfold keeps; simple apply hoare_nanos : quic.
Hint Extern 1 (keeps _ _) => unfold keeps; simple apply hoare_fill : quic.
Hint Extern 1 (keeps _ _) => unfold keeps; simple apply hoare_relay_open : quic.
Hint Extern 1 (keeps _ _) => unfold keeps; simple apply hoare_relay_close : quic.
Hint Extern 1 (keeps _ _) => unfold keeps; simple apply hoare_emit : quic.
Hint Extern 2 (keeps _ (_ ≫= _)) => simple apply keeps_bind; [|intros ?] : quic.
Hint Extern 3 (keeps _ (match ?x with _ => _ end)) => destruct x : quic.
Hint Extern 3 (keeps _ (if ?x then _ else _)) => destruct x : quic.

Lemma keeps_snapshot_for_route P route :
  keeps P (session_snapshot_for_route (R:=R) clock rng route).
Proof.
  unfold session_snapshot_for_route, relay_session_snapshot, direct_session_snapshot,
    checked_identity, random_attempt_id. eauto 40 with quic.
Qed.
Hint Resolve keeps_snapshot_for_route : quic.

Lemma keeps_upsert r : keeps adapter_inv (upsert_runtime_session (R:=R) clock r).
Proof.
  unfold upsert_runtime_session. apply keeps_bind; [apply keeps_reading|intros previous].
  apply keeps_bind; [|eauto 10 with quic].
  apply keeps_updating. intros a Ha. by apply adapter_inv_session.
Qed.

Lemma keeps_update_state id st cr sr :
  keeps adapter_inv (update_session_state (R:=R) clock id st cr sr).
Proof.
  unfold update_session_state. eapply hoare_bind; [apply hoare_reading|].
  intros [r|]; [|intros w [Hw _]; exact Hw].
  eapply hoare_bind; [apply hoare_secs|intros now].
  eapply hoare_bind.
  { eapply hoare_pre, (hoare_updating _ adapter_inv). simpl. intros a [Ha Hr].
    apply adapter_inv_session; [done|]. symmetry in Hr. by apply (ai_sessions _ Ha) in Hr. }
  intros ?. apply (keeps_bind adapter_inv); eauto with quic.
Qed.

Lemma keeps_remove id : keeps adapter_inv (remove_runtime_session (R:=R) id).
Proof.
  unfold remove_runtime_session. apply keeps_bind; [apply keeps_reading|intros r].
  apply keeps_bind; [|eauto with quic].
  apply keeps_updating. intros a Ha. by apply adapter_inv_remove.
Qed.

Lemma keeps_record_terminal r :
  closed_record r → keeps adapter_inv (record_terminal_session (R:=R) r).
Proof. intros Hr. apply keeps_updating. intros a Ha. by apply adapter_inv_terminal. Qed.

Lemma keeps_connect route : keeps adapter_inv (connect (R:=R) clock rng route).
Proof.
  unfold connect. apply keeps_bind; [apply keeps_reading|intros [s|]].
  - eauto with quic.
  - apply keeps_bind; [apply keeps_snapshot_for_route|intros x].
    apply keeps_bind; [apply keeps_upsert|eauto with quic].
Qed.

Lemma keeps_listen bind : keeps adapter_inv (listen (R:=R) clock bind).
Proof.
  unfold listen, runtime_listener_id, upsert_runtime_listener.
  apply keeps_bind; [apply keeps_reading|intros i].
  apply keeps_bind; [eauto with quic|intros lid].
  apply keeps_bind; [eauto with quic|intros t].
  apply keeps_bind; [|eauto with quic].
  apply keeps_updating. intros a Ha. by apply adapter_inv_listener.
Qed.

Lemma keeps_update_listener id st sr :
  keeps adapter_inv (update_listener_state (R:=R) id st sr).
Proof.
  unfold update_listener_state. eapply hoare_bind; [apply hoare_reading|].
  intros [r|]; [|intros w [Hw _]; exact Hw].
  eapply hoare_bind; [|intros; apply (keeps_ret adapter_inv)].
  eapply hoare_pre, (hoare_updating _ adapter_inv). simpl. intros a [Ha Hr].
  symmetry in Hr. apply (ai_listeners _ Ha) in Hr.
  pose proof (adapter_inv_listener a {| lr_snapshot := listener_in_state st sr (lr_snapshot r) |} Ha)
    as Hl. simpl in Hl. by rewrite Hr in Hl.
Qed.

Lemma keeps_migrate s route : keeps adapter_inv (migrate (R:=R) clock rng s route).
Proof.
  unfold migrate, session_snapshot.
  apply keeps_bind; [apply keeps_update_state|intros ?].
  apply keeps_bind; [apply keeps_reading|intros e].
  apply keeps_bind; [apply keeps_lift|intros ex].
  apply keeps_bind; [apply keeps_snapshot_for_route|intros m].
  apply keeps_bind; [eauto with quic|intros now].
  apply keeps_bind; [eauto with quic|intros ?].
  apply keeps_bind; [apply keeps_upsert|eauto with quic].
Qed.

Lemma keeps_close s : keeps adapter_inv (close_session (R:=R) clock s).
Proof.
  unfold close_session, session_snapshot.
  apply keeps_bind; [apply keeps_reading|intros e].
  apply keeps_bind; [apply keeps_update_state|intros ?].
  apply keeps_bind; [apply keeps_remove|intros [active|]]; [|eauto with quic].
  apply keeps_bind; [eauto with quic|intros ?].
  apply keeps_bind; [eauto with quic|intros now].
  apply keeps_bind; [by apply keeps_record_terminal|eauto with quic].
Qed.

Lemma keeps_suppress p pr c r : keeps adapter_inv (suppress_reconnect (R:=R) clock p pr c r).
Proof.
  unfold suppress_reconnect. eapply hoare_bind; [apply hoare_reading|intros found].
  eapply hoare_bind; [apply hoare_secs|intros now]. simpl.
  eapply hoare_bind; [|intros ?; apply (hoare_emit _ _ _ adapter_inv), adapter_inv_events].
  eapply hoare_pre, (hoare_updating _ adapter_inv). simpl. intros a [Ha ->].
  apply adapter_inv_suppressions; [done|]. pose proof (ai_suppressions _ Ha) as Hd.
  destruct (any _ _) eqn:Hany; [by rewrite fmap_update_first|].
  apply NoDup_fmap_snoc; [done|]. intros y Hy. rewrite any_false in Hany.
  by apply Hany, bool_decide_eq_false in Hy.
Qed.

Lemma keeps_clear_suppression p pr c :
  keeps adapter_inv (clear_reconnect_suppression (R:=R) clock p pr c).
Proof.
  unfold clear_reconnect_suppression. apply keeps_bind; [apply keeps_reading|intros r].
  apply keeps_bind; [|eauto with quic]. apply keeps_updating. intros a Ha.
  apply adapter_inv_suppressions; [done|].
  eapply NoDup_fmap_sublist; [apply retain_sublist|apply Ha].
Qed.

Lemma keeps_schedule p pr c r m b x :
  keeps adapter_inv (schedule_reconnect (R:=R) clock p pr c r m b x).
Proof.
  unfold schedule_reconnect. apply keeps_bind; [eauto with quic|intros now].
  eapply hoare_bind; [apply hoare_reading|intros found]. simpl.
  eapply (hoare_bind _ _ _ (λ _, adapter_inv)).
  - destruct found as [e|]; (eapply hoare_bind; [|intros ?; apply (keeps_ret adapter_inv)]);
      (eapply hoare_pre, (hoare_updating _ adapter_inv); simpl; intros a [Ha Hf];
       apply adapter_inv_attempts; [done|]).
    + rewrite fmap_update_first; [apply Ha|done].
    + apply NoDup_fmap_snoc; [apply Ha|]. intros y Hy.
      symmetry in Hf. rewrite find_first_None, any_false in Hf.
      by apply Hf, bool_decide_eq_false in Hy.
  - intros snapshot. apply (keeps_bind adapter_inv); [eauto with quic|intros ?].
    apply (keeps_bind adapter_inv); eauto with quic.
Qed.

Lemma keeps_clear_attempt p pr c o :
  keeps adapter_inv (clear_reconnect_attempt (R:=R) clock p pr c o).
Proof.
  unfold clear_reconnect_attempt. apply keeps_bind; [apply keeps_reading|intros r].
  apply keeps_bind; [|eauto with quic]. apply keeps_updating. intros a Ha.
  apply adapter_inv_attempts; [done|].
  eapply NoDup_fmap_sublist; [apply retain_sublist|apply Ha].
Qed.
End preservation.

(** ** Reachable transports *)

Section reachable.
Context `{Blake3, Varint, Base32, Curves, JsonBytes SessionCredentialUnsigned}.
Context {R : Type} `{RelayControl R} (clock : nat → Z) (rng : nat → nat → bytes).

(** One operation of the transport interface, with any arguments and whether
    it returns or fails; or any change of the relays by their other clients. *)
Inductive quic_step : World R → World R → Prop :=
| step_connect w route : quic_step w (connect clock rng route w).2
| step_listen w bind : quic_step w (listen clock bind w).2
| step_update_session w id st cr sr : quic_step w (update_session_state clock id st cr sr w).2
| step_suppress w p pr c r : quic_step w (suppress_reconnect clock p pr c r w).2
| step_unsuppress w p pr c : quic_step w (clear_reconnect_suppression clock p pr c w).2
| step_update_listener w id st sr : quic_step w (update_listener_state id st sr w).2
| step_schedule w p pr c r m b x : quic_step w (schedule_reconnect clock p pr c r m b x w).2
| step_clear_attempt w p pr c o : quic_step w (clear_reconnect_attempt clock p pr c o w).2
| step_record_event w t s d : quic_step w (record_runtime_event clock t s d w).2
| step_migrate w s route : quic_step w (migrate clock rng s route w).2
| step_close_session w s : quic_step w (close_session clock s w).2
| step_relays w r : quic_step w (mk_World (adapter w) r (ticks w) (draws w)).

Inductive quic_reachable : World R → Prop :=
| quic_start id r t d : quic_reachable (mk_World (adapter_default id) r t d)
| quic_start_identity id net key r t d :
    quic_reachable (mk_World (with_identity id net key) r t d)
| quic_next w w' : quic_reachable w → quic_step w w' → quic_reachable w'.

Lemma keeps_step {A} (m : M R A) w :
  keeps adapter_inv m → adapter_inv (adapter w) → adapter_inv (adapter (m w).2).
Proof. intros Hm Hw. specialize (Hm w Hw). by destruct (m w) as [[x|e] w']. Qed.

Lemma adapter_inv_step w w' :
  quic_step w w' → adapter_inv (adapter w) → adapter_inv (adapter w').
Proof.
  intros [] Ha; [apply keeps_step; [|done]..|done].
  - apply keeps_connect.
  - apply keeps_listen.
  - apply keeps_update_state.
  - apply keeps_suppress.
  - apply keeps_clear_suppression.
  - apply keeps_update_listener.
  - apply keeps_schedule.
  - apply keeps_clear_attempt.
  - apply hoare_emit, adapter_inv_events.
  - apply keeps_migrate.
  - apply keeps_close.
Qed.

(** C2.  In every reachable state of the transport, sessions and listeners
    are filed under their own identifiers; the terminal ledger holds at most
    32 sessions, all closed and no two alike; the event buffer holds at most
    256 events; and no peer, protocol and class has two suppressions or two
    reconnect attempts. *)
Theorem quic_reachable_inv w (Hr : quic_reachable w) : adapter_inv (adapter w).
Proof.
  induction Hr as [| |w w' _ IH Hs]; [| |by eapply adapter_inv_step].
  all: split; simpl; try constructor; try lia; intros; simplify_map_eq.
Qed.
End reachable.

(** ** What the operations promise *)

Section functional.
Context `{Blake3, Varint, Base32, Curves, JsonBytes SessionCredentialUnsigned}.
Context {R : Type} `{RelayControl R} (clock : nat → Z) (rng : nat → nat → bytes).

(** The event an [emit] at tick [t] appends, and its effect. *)
Definition event_at (t : nat) (event_type : string) (subject : RuntimeEventSubject)
    (details : Json) : RuntimeEvent := {|
  ev_event_id := "evt-" +:+ pretty (clock t);
  ev_event_type := event_type;
  ev_emitted_at := iso8601_seconds (clock (S t) / 10 ^ 9) +:+ "Z";
  ev_truth_kind := "runtime";
  ev_subject := subject;
  ev_details := details |}.

Definition with_event (e : RuntimeEvent) (a : QuicTransportAdapter) : QuicTransportAdapter :=
  set_events (trim_front 256 (runtime_events a ++ [e])) a.

Lemma emit_eq t s d (w : World R) :
  emit_runtime_event clock t s d w =
  (Ok (), mk_World (with_event (event_at (ticks w) t s d) (adapter w)) (relays w)
            (S (S (ticks w))) (draws w)).
Proof. reflexivity. Qed.

(** What [close_session] leaves in the terminal ledger for [r]. *)
Definition closed_copy (now : Z) (cr : option SessionClosureReason) (sr : option string)
    (r : RuntimeSessionRecord) : RuntimeSessionRecord := {|
  sr_snapshot := snapshot_in_state StClosed cr sr now (sr_snapshot r);
  sr_alpn_protocol := sr_alpn_protocol r |}.

Lemma M_bind_Ok {A B} (m : M R A) (f : A → M R B) w b w' :
  (m ≫= f) w = (Ok b, w') ↔ ∃ a w1, m w = (Ok a, w1) ∧ f a w1 = (Ok b, w').
Proof. unfold mbind, M_bind. destruct (m w) as [[a|e] w1]; naive_solver. Qed.

(** Closing a relay session changes nothing but the relays. *)
Lemma relay_close_effect e i (w : World R) :
  ∃ o r, close_relay_transport_session e i w = (o, mk_World (adapter w) r (ticks w) (draws w)).
Proof.
  unfold close_relay_transport_session, relay_close, mbind, M_bind, lift.
  destruct e as [e|]; simpl; [|by exists (Err (InvalidRoute
    "relay session is missing relay control endpoint")), (relays w); destruct w].
  destruct (rc_close_session _ _ _ _) as [o r]. by eexists _, r.
Qed.

Lemma find_first_snoc_other {A} (p : A → bool) l x :
  (∀ y, y ∈ l → p y = false) → p x = true → find_first p (l ++ [x]) = Some x.
Proof.
  intros Hl Hx. rewrite find_first_app.
  rewrite (proj2 (find_first_None p l)) by by apply any_false. simpl. by rewrite Hx.
Qed.

Lemma ledger_snoc (n : nat) (l : list RuntimeSessionRecord) c id :
  0 < n → record_id c = id →
  let t := trim_front n (retain (λ e, negb (bool_decide (record_id e = id))) l ++ [c]) in
  last t = Some c ∧ find_first (λ r, bool_decide (record_id r = id)) t = Some c.
Proof.
  intros Hn Hc t. unfold t. split; [by apply trim_front_snoc_last|].
  rewrite trim_front_drop, length_app, drop_app_le by (simpl; lia).
  apply find_first_snoc_other; [|by apply bool_decide_eq_true].
  intros y Hy. eapply elem_of_sublist in Hy; [|apply sublist_drop].
  apply elem_of_retain in Hy as [_ Hy]. by apply negb_true_iff in Hy.
Qed.

Lemma ledger_closed (w : World R) l c id :
  record_id c = id →
  terminal_sessions (adapter w) = trim_front MAX_TERMINAL_SESSIONS
    (retain (λ e, negb (bool_decide (ss_session_id (sr_snapshot e) = id))) l ++ [c]) →
  last (terminal_sessions (adapter w)) = Some c ∧
  terminal_session_snapshot id w = (Ok (Some (sr_snapshot c)), w).
Proof.
  intros Hc Hw.
  destruct (ledger_snoc MAX_TERMINAL_SESSIONS l c id) as [HA HB];
    [unfold MAX_TERMINAL_SESSIONS; lia|done|].
  unfold record_id in HA, HB. rewrite <-Hw in HA, HB. split; [done|].
  unfold terminal_session_snapshot, reading. by rewrite HB.
Qed.

(** The end of a close: the last event, then the three facts of the outcome. *)
Ltac closed_in_ledger w Hid :=
  rewrite emit_eq; let closed := fresh "closed" in
  match goal with |- runtime_sessions (adapter ?x) = _ ∧ _ => set (closed := x) end;
  split; [reflexivity|]; split; [done|]; eexists;
  apply (ledger_closed closed (terminal_sessions (adapter w))); [exact Hid|reflexivity].

(** C3.  Closing a registered session always takes it, and it alone, out of
    the registry.  When the close succeeds (always, unless a
    relay has to be told), the newest entry of the terminal ledger, and the
    one the identifier finds, is the session in state [Closed], with the
    closure and state reasons it had or else the caller's.  When it fails, the
    session went through a relay and no terminal entry is written. *)
Theorem close_session_outcome (w : World R) (s : SessionSnapshot) (r : RuntimeSessionRecord)
    (Hr : runtime_sessions (adapter w) !! ss_session_id s = Some r)
    (Hid : record_id r = ss_session_id s) :
  let '(out, w') := close_session clock s w in
  runtime_sessions (adapter w') = delete (ss_session_id s) (runtime_sessions (adapter w)) ∧
  (is_relay (sr_snapshot r) = false → out = Ok ()) ∧
  match out with
  | Ok _ => ∃ now,
      let c := closed_copy now
                 (or_else (ss_closure_reason (sr_snapshot r)) (ss_closure_reason s))
                 (or_else (ss_state_reason (sr_snapshot r)) (ss_state_reason s)) r in
      last (terminal_sessions (adapter w')) = Some c ∧
      terminal_session_snapshot (ss_session_id s) w' = (Ok (Some (sr_snapshot c)), w')
  | Err _ => is_relay (sr_snapshot r) = true ∧
      terminal_sessions (adapter w') = terminal_sessions (adapter w)
  end.
Proof.
  unfold close_session, session_snapshot, update_session_state, remove_runtime_session,
    record_terminal_session, reading, updating, current_unix_secs, current_unix_nanos.
  unfold mbind, M_bind, mret, M_ret. cbn -[emit_runtime_event]. rewrite !Hr.
  cbn -[emit_runtime_event]. rewrite emit_eq. cbn -[emit_runtime_event].
  rewrite lookup_insert_eq. cbn -[emit_runtime_event]. rewrite delete_insert_eq.
  set (cr := or_else _ _). set (srr := or_else _ _).
  unfold is_relay at 1. cbn [snapshot_in_state ss_path_kind].
  fold (is_relay (sr_snapshot r)). unfold record_id in Hid. rewrite !Hid.
  destruct (is_relay (sr_snapshot r)).
  - match goal with |- context [close_relay_transport_session ?e ?i ?w] =>
      destruct (relay_close_effect e i w) as ([[]|er] & rl & Heq); rewrite Heq end; [|done].
    closed_in_ledger w Hid.
  - closed_in_ledger w Hid.
Qed.

(** *** Connecting and migrating *)

Lemma direct_snapshot_eq route key ep (w : World R) :
  local_identity (adapter w) = Some key → peer_id key = rt_local_peer route →
  head (rt_remote_endpoints route) = Some ep →
  ∃ s, direct_session_snapshot clock route w =
      (Ok s, mk_World (adapter w) (relays w) (S (ticks w)) (draws w)) ∧
    ss_session_id s = logical_session_id (runtime_instance_id (adapter w)) route ∧
    ss_transport_session_id s = ss_session_id s ∧ ss_peer s = rt_peer route ∧
    ss_remote_endpoint s = ep ∧ ss_path_kind s = rt_path_kind route ∧ ss_state s = StActive.
Proof.
  intros Hkey Hpeer Hep. unfold direct_session_snapshot, checked_identity, reading, lift,
    current_unix_secs, current_unix_nanos, throw, mbind, M_bind, mret, M_ret.
  rewrite Hkey. cbn -[logical_session_id]. rewrite decide_False by (intros Hne; by apply Hne).
  rewrite Hep. cbn -[logical_session_id]. eexists. split; [reflexivity|]. done.
Qed.

(** An upsert files the record, whether or not it then fails at a relay. *)
Lemma upsert_effect r (w : World R) :
  let '(out, w') := upsert_runtime_session clock r w in
  runtime_sessions (adapter w') = <[record_id r := r]> (runtime_sessions (adapter w)) ∧
  ((∀ prev, runtime_sessions (adapter w) !! record_id r = Some prev →
      leaves_relay (sr_snapshot prev) (sr_snapshot r) = false) →
   out = Ok () ∧ relays w' = relays w).
Proof.
  unfold upsert_runtime_session, reading, updating, mbind, M_bind, mret, M_ret.
  cbn -[emit_runtime_event leaves_relay]. fold (record_id r).
  destruct (runtime_sessions (adapter w) !! record_id r) as [prev|];
    [|by rewrite !emit_eq].
  destruct (leaves_relay _ _) eqn:El; [|by rewrite emit_eq].
  match goal with |- context [close_relay_transport_session ?e ?i ?w] =>
    destruct (relay_close_effect e i w) as ([[]|er] & rl & Heq); rewrite Heq end;
    rewrite ?emit_eq; (split; [done|]); intros Hno; by rewrite (Hno prev eq_refl) in El.
Qed.

(** What closing the relay session of a snapshot answers and leaves at the
    relays. *)
Definition relay_closed (previous : SessionSnapshot) (rl : R) : result TransportError () * R :=
  match ss_relay_control_endpoint previous with
  | Some endpoint =>
      let '(r, rl) := rc_close_session endpoint (ss_transport_session_id previous) "path migrated" rl in
      (map_err (λ error, RelayRejected (relay_error_text error)) r, rl)
  | None => (Err (InvalidRoute "relay session is missing relay control endpoint"), rl)
  end.

(** The same for the relayed session that a session replaces, if any. *)
Definition relay_left (w : World R) (s : SessionSnapshot) : result TransportError () * R :=
  match runtime_sessions (adapter w) !! ss_session_id s with
  | Some r => if leaves_relay (sr_snapshot r) s then relay_closed (sr_snapshot r) (relays w)
              else (Ok (), relays w)
  | None => (Ok (), relays w)
  end.

Lemma upsert_answer r (w : World R) :
  let '(out, w') := upsert_runtime_session clock r w in (out, relays w') = relay_left w (sr_snapshot r).
Proof.
  unfold upsert_runtime_session, reading, updating, mbind, M_bind, mret, M_ret, relay_left, relay_closed.
  cbn -[emit_runtime_event leaves_relay].
  destruct (runtime_sessions (adapter w) !! _) as [prev|]; [|by rewrite !emit_eq].
  destruct (leaves_relay _ _); [|by rewrite emit_eq].
  unfold close_relay_transport_session, relay_close, mbind, M_bind, lift.
  destruct (ss_relay_control_endpoint _) as [e|]; cbn -[emit_runtime_event]; [|done].
  destruct (rc_close_session _ _ _ _) as [[[]|er] rl]; cbn -[emit_runtime_event]; [|done].
  by rewrite emit_eq.
Qed.

(** C38.  A direct route whose local peer is the adapter's identity, with an
    endpoint and not suppressed, registers an active session under the
    identifier derived from the instance, the peers, the class and the
    protocol.  The connect succeeds with that session, and involves no relay,
    when it replaces no relayed session; when it replaces one, the relay closes
    that one first, and a failure of this close is what the connect answers,
    though the session stays registered. *)
Theorem direct_connect_succeeds route key ep (w : World R)
    (Hdirect : rt_relay route = None)
    (Hkey : local_identity (adapter w) = Some key) (Hpeer : peer_id key = rt_local_peer route)
    (Hep : head (rt_remote_endpoints route) = Some ep)
    (Hsup : find_reconnect_suppression (adapter w) (rt_peer route) (rt_protocol route)
              (rt_class route) = None) :
  ∃ s w', let alpn := protocol_text <$> rt_protocol route in
    connect clock rng route w =
      (match (relay_left w s).1 with
       | Ok _ => Ok {| ch_session := s; ch_alpn_protocol := alpn |}
       | Err e => Err e end, w') ∧
    relays w' = (relay_left w s).2 ∧
    ss_session_id s = logical_session_id (runtime_instance_id (adapter w)) route ∧
    ss_state s = StActive ∧ ss_remote_endpoint s = ep ∧ ss_peer s = rt_peer route ∧
    runtime_sessions (adapter w') =
      <[ss_session_id s := {| sr_snapshot := s; sr_alpn_protocol := alpn |}]>
        (runtime_sessions (adapter w)) ∧
    ((∀ r, runtime_sessions (adapter w) !! ss_session_id s = Some r → is_relay (sr_snapshot r) = false) →
     relay_left w s = (Ok (), relays w)).
Proof.
  destruct (direct_snapshot_eq route key ep w Hkey Hpeer Hep)
    as (s & Hs & Hid & _ & Hsp & Hse & _ & Hst).
  unfold connect, session_snapshot_for_route. rewrite Hdirect.
  unfold mbind, M_bind, reading. rewrite Hsup, Hs.
  match goal with |- context [upsert_runtime_session clock ?r ?x] =>
    pose proof (upsert_effect r x) as Hu; pose proof (upsert_answer r x) as Ha;
    destruct (upsert_runtime_session clock r x) as [out w'] end.
  cbn [adapter relays] in Hu. unfold record_id in Hu. cbn [sr_snapshot] in Hu, Ha.
  destruct Hu as [Hreg _].
  change (relay_left (mk_World (adapter w) (relays w) (S (ticks w)) (draws w)) s)
    with (relay_left w s) in Ha.
  exists s, w'. rewrite <-Ha. split_and!; try done; [by destruct out as [[]|]|].
  intros Hprev. rewrite Ha. unfold relay_left. destruct (_ !! ss_session_id s) as [r|] eqn:Hr; [|done].
  unfold leaves_relay. by rewrite (Hprev r eq_refl).
Qed.

(** The snapshot for a route reads the adapter and does not change it. *)
Lemma snapshot_for_route_adapter route (w : World R) :
  adapter (session_snapshot_for_route clock rng route w).2 = adapter w.
Proof.
  pose proof (keeps_snapshot_for_route clock rng (λ a, a = adapter w) route w eq_refl) as Hk.
  by destruct (session_snapshot_for_route _ _ _ w) as [[s|e] w'].
Qed.

Lemma upsert_frame r (w : World R) :
  let '(out, w') := upsert_runtime_session clock r w in
  runtime_sessions (adapter w') !! record_id r = Some r ∧
  ∀ id, id ≠ record_id r →
    runtime_sessions (adapter w') !! id = runtime_sessions (adapter w) !! id.
Proof.
  pose proof (upsert_effect r w) as Hu.
  destruct (upsert_runtime_session clock r w) as [out w']. destruct Hu as [-> _].
  split; [apply lookup_insert_eq|]. intros id Hne. by rewrite lookup_insert_ne.
Qed.

(** The end of a migration: the upsert of the new snapshot and its event. *)
Ltac finish_upsert Ha Hid :=
  let Hu := fresh "Hu" in let w' := fresh "w'" in
  let Hm := fresh "Hm" in let Ho := fresh "Ho" in
  match goal with |- context [upsert_runtime_session clock ?r ?x] =>
    pose proof (upsert_frame r x) as Hu;
    destruct (upsert_runtime_session clock r x) as [[[]|er] w'] end;
  unfold record_id in Hid, Hu; cbn in Hu; rewrite Ha, Hid in Hu; cbn in Hu;
  destruct Hu as [Hm Ho]; rewrite ?emit_eq; cbn;
  (split; [intros id Hne; rewrite Ho by done; by rewrite lookup_insert_ne|]);
  first [split_and!; [exact Hid|reflexivity|rewrite ?Hid; exact Hm] | eexists; split; [exact Hm|reflexivity]].

(** C37.  Migrating a registered session never loses it and never touches
    another: on success the new snapshot keeps the identifier and the creation
    time and is the registered one; on failure the session is still
    registered under its identifier. *)
Theorem migrate_keeps_session route s r (w : World R)
    (Hr : runtime_sessions (adapter w) !! ss_session_id s = Some r)
    (Hid : record_id r = ss_session_id s) :
  let '(out, w') := migrate clock rng s route w in
  (∀ id, id ≠ ss_session_id s →
     runtime_sessions (adapter w') !! id = runtime_sessions (adapter w) !! id) ∧
  match out with
  | Ok m =>
      ss_session_id m = ss_session_id s ∧
      ss_created_at_unix_secs m = ss_created_at_unix_secs (sr_snapshot r) ∧
      runtime_sessions (adapter w') !! ss_session_id s =
        Some {| sr_snapshot := m; sr_alpn_protocol := protocol_text <$> rt_protocol route |}
  | Err _ => ∃ r', runtime_sessions (adapter w') !! ss_session_id s = Some r' ∧
      record_id r' = ss_session_id s
  end.
Proof.
  unfold migrate, session_snapshot, update_session_state, reading, updating,
    current_unix_secs, current_unix_nanos, lift, mbind, M_bind, mret, M_ret.
  rewrite Hr. cbn -[emit_runtime_event session_snapshot_for_route upsert_runtime_session].
  rewrite emit_eq. cbn -[emit_runtime_event session_snapshot_for_route upsert_runtime_session].
  rewrite lookup_insert_eq.
  cbn -[emit_runtime_event session_snapshot_for_route upsert_runtime_session leaves_relay].
  match goal with |- context [session_snapshot_for_route clock rng route ?x] =>
    pose proof (snapshot_for_route_adapter route x) as Ha;
    destruct (session_snapshot_for_route clock rng route x) as [[m|e] w1] end;
    cbn [snd] in Ha.
  2: { rewrite Ha. cbn. split; [intros; by rewrite lookup_insert_ne|].
       eexists. split; [apply lookup_insert_eq|exact Hid]. }
  cbn -[emit_runtime_event upsert_runtime_session leaves_relay close_relay_transport_session].
  destruct (leaves_relay _ _).
  - match goal with |- context [close_relay_transport_session ?e ?i ?w] =>
      destruct (relay_close_effect e i w) as ([[]|er] & rl & Heq); rewrite Heq end;
      [finish_upsert Ha Hid|].
    cbn. rewrite Ha. cbn. split; [intros; by rewrite lookup_insert_ne|].
    eexists. split; [apply lookup_insert_eq|exact Hid].
  - finish_upsert Ha Hid.
Qed.

(** What a relayed snapshot is made of, when it is made. *)
Lemma relay_snapshot_Ok route plan (w : World R) s w' :
  relay_session_snapshot clock rng route plan w = (Ok s, w') →
  adapter w' = adapter w ∧
  ss_session_id s = logical_session_id (runtime_instance_id (adapter w)) route ∧
  ss_path_kind s = rt_path_kind route ∧
  ss_relay_control_endpoint s = Some (rp_relay_control_endpoint plan) ∧
  ss_state s = StActive ∧
  ∃ request accepted,
    or_source request = rt_local_peer route ∧ or_destination request = rt_peer route ∧
    sa_session_id accepted = ss_transport_session_id s ∧
    rc_open_session (rp_relay_control_endpoint plan) request (relays w) =
      (Ok accepted, relays w').
Proof.
  unfold relay_session_snapshot, checked_identity, random_attempt_id, fill_bytes,
    current_unix_secs, current_unix_nanos, reading, lift, throw, mbind, M_bind, mret, M_ret.
  cbn -[rc_open_session credential_issue].
  destruct (ok_or _ (network_id (adapter w))) as [net|]; [|done].
  cbn -[rc_open_session credential_issue].
  destruct (ok_or _ (local_identity (adapter w))) as [key|]; [|done].
  cbn -[rc_open_session credential_issue].
  destruct (decide (peer_id key ≠ rt_local_peer route)); [done|].
  cbn -[rc_open_session credential_issue].
  destruct (ok_or _ (head (rp_relay_endpoints plan))) as [re|]; [|done].
  cbn -[rc_open_session credential_issue]. unfold open_relay_session.
  cbn -[rc_open_session credential_issue].
  destruct (rc_open_session _ _ _) as [[acc|er] r'] eqn:Eo; [|done].
  cbn -[credential_issue]. intros [= <- <-]. split_and!; try done.
  eexists _, acc. split_and!; [| | |exact Eo]; done.
Qed.

(** The suppression list after [suppress_reconnect]. *)
Definition suppressed (p : PeerId) pr c reason (now : Z) (sups : list ReconnectSuppression) :=
  if any (suppression_matches p pr c) sups
  then update_first (suppression_matches p pr c) (λ e, {|
         sup_peer := sup_peer e; sup_protocol := sup_protocol e; sup_class := sup_class e;
         sup_reason := reason; sup_imposed_at_unix_secs := now |}) sups
  else sups ++ [{| sup_peer := p; sup_protocol := pr; sup_class := c;
         sup_reason := reason; sup_imposed_at_unix_secs := now |}].

Lemma suppressed_find p pr c reason now sups :
  ∃ e, find_first (suppression_matches p pr c) (suppressed p pr c reason now sups) = Some e ∧
    sup_reason e = reason.
Proof.
  unfold suppressed. destruct (any _ sups) eqn:E.
  - destruct (find_first (suppression_matches p pr c) sups) as [e|] eqn:Ef.
    + eexists. split; [apply find_first_update_first; [|exact Ef]|done]. done.
    + apply find_first_None in Ef. congruence.
  - eexists. split; [apply find_first_snoc_other|done]; [by apply any_false|].
    by apply bool_decide_eq_true.
Qed.

Lemma suppressed_retain p pr c reason now sups :
  retain (λ e, negb (suppression_matches p pr c e)) (suppressed p pr c reason now sups) =
  retain (λ e, negb (suppression_matches p pr c e)) sups.
Proof.
  unfold suppressed. destruct (any _ sups) eqn:E; [by apply retain_update_first|].
  rewrite retain_app. simpl. unfold suppression_matches at 2.
  rewrite bool_decide_eq_true_2 by done. apply app_nil_r.
Qed.

Lemma suppress_effect p pr c reason (w : World R) :
  ∃ es t, (suppress_reconnect clock p pr c reason w).2 =
    mk_World (set_events es (set_suppressions (suppressed p pr c reason
      (clock (ticks w) / 10 ^ 9)%Z (reconnect_suppressions (adapter w))) (adapter w)))
      (relays w) t (draws w).
Proof. by eexists _, _. Qed.

Lemma clear_suppression_effect p pr c (w : World R) :
  reconnect_suppressions (adapter (clear_reconnect_suppression clock p pr c w).2) =
  retain (λ e, negb (suppression_matches p pr c e)) (reconnect_suppressions (adapter w)).
Proof.
  unfold clear_reconnect_suppression, reading, updating, mbind, M_bind.
  cbn -[emit_runtime_event retain suppression_matches].
  destruct (find_first _ _); [by rewrite emit_eq|done].
Qed.

(** A suppression blocks [connect] for its peer, protocol and class
    with its reason, without touching the sessions or the relays; clearing it
    removes it and no other suppression. *)
Lemma suppression_blocks_connect reason route (w : World R) :
  let p := rt_peer route in let pr := rt_protocol route in let c := rt_class route in
  let w1 := (suppress_reconnect clock p pr c reason w).2 in
  let '(out, w2) := connect clock rng route w1 in
  let w3 := (clear_reconnect_suppression clock p pr c w2).2 in
  out = Err (PolicyDenied ("reconnect suppressed: " +:+ reason)) ∧
  runtime_sessions (adapter w2) = runtime_sessions (adapter w) ∧ relays w2 = relays w ∧
  find_reconnect_suppression (adapter w3) p pr c = None ∧
  ∀ p' pr' c', (p', pr', c') ≠ (p, pr, c) →
    find_reconnect_suppression (adapter w3) p' pr' c' =
    find_reconnect_suppression (adapter w) p' pr' c'.
Proof.
  intros p pr c. destruct (suppress_effect p pr c reason w) as (es & t & ->).
  set (now := (clock (ticks w) / 10 ^ 9)%Z).
  destruct (suppressed_find p pr c reason now (reconnect_suppressions (adapter w)))
    as (e & He & Hre).
  unfold connect, reading, mbind, M_bind. cbv beta iota. unfold find_reconnect_suppression.
  cbn [adapter reconnect_suppressions set_events with_registries set_suppressions].
  fold p pr c. rewrite He, emit_eq, Hre. cbn [throw].
  do 3 (split; [done|]). rewrite clear_suppression_effect.
  cbn [adapter with_event reconnect_suppressions set_events with_registries set_suppressions].
  rewrite suppressed_retain. split; [apply find_first_retain_none|].
  intros p' pr' c' Hne. apply find_first_retain. intros y Hy%bool_decide_eq_true.
  apply negb_true_iff, bool_decide_eq_false. congruence.
Qed.

(** *** Reconnect attempts *)

(** The entry of the [n]-th of a series of attempts, [n] counted from 1. *)
Definition attempt_after (now : Z) p pr c reason (m b x : Z) (n : nat) : RuntimeReconnectAttempt := {|
  at_peer := p; at_protocol := pr; at_class := c;
  at_state := if (m <=? Z.of_nat n)%Z then AttemptFailed else AttemptBackingOff;
  at_reason := reason;
  at_attempt_count := Z.of_nat n;
  at_last_attempt_unix_secs := now;
  at_next_attempt_unix_secs :=
    u64_sat_add now (Z.min (u64_sat_mul b (2 ^ Z.min (Z.of_nat n - 1) 16)) x);
  at_max_attempts := m |}.

(** [n] calls of [schedule_reconnect] in a row. *)
Fixpoint schedules p pr c reason (m b x : Z) (n : nat) (w : World R) : World R :=
  match n with
  | O => w
  | S n => (schedule_reconnect clock p pr c reason m b x (schedules p pr c reason m b x n w)).2
  end.

Lemma first_attempt_after now p pr c reason m b x :
  in_u64 b → first_attempt now p pr c reason m b x = attempt_after now p pr c reason m b x 1.
Proof.
  intros Hb. unfold first_attempt, attempt_after.
  assert (u64_sat_mul b (2 ^ Z.min (Z.of_nat 1 - 1) 16) = b) as ->; [|done].
  change (2 ^ Z.min (Z.of_nat 1 - 1) 16)%Z with 1%Z. unfold u64_sat_mul, in_u64 in *. lia.
Qed.

Lemma next_attempt_after now now' p pr c reason m b x n :
  (Z.of_nat (S n) ≤ u32_max)%Z →
  next_attempt now' reason m b x (attempt_after now p pr c reason m b x n) =
  attempt_after now' p pr c reason m b x (S n).
Proof.
  intros Hn. unfold next_attempt, attempt_after. cbn [at_peer at_protocol at_class
    at_attempt_count]. unfold u32_add.
  assert (u32_wrap (Z.of_nat n + 1) = Z.of_nat (S n)) as ->
    by (rewrite u32_wrap_id; unfold in_u32; lia).
  assert (sat_sub (Z.of_nat (S n)) 1 = Z.of_nat (S n) - 1)%Z as -> by (unfold sat_sub; lia).
  set (k := Z.min (Z.of_nat (S n) - 1) 16).
  assert (u64_wrap (Z.shiftl 1 k) = 2 ^ k)%Z as ->; [|done].
  assert (0 ≤ k ≤ 16)%Z as Hk by lia. rewrite Z.shiftl_1_l.
  apply u64_wrap_id. unfold in_u64, u64_max.
  pose proof (Z.pow_nonneg 2 k). pose proof (Z.pow_le_mono_r 2 k 16). lia.
Qed.

Lemma schedule_effect p pr c reason m b x (w : World R) :
  let now := (clock (ticks w) / 10 ^ 9)%Z in
  let found := find_first (attempt_matches p pr c) (reconnect_attempts (adapter w)) in
  let e := match found with
           | Some e => next_attempt now reason m b x (rr_snapshot e)
           | None => first_attempt now p pr c reason m b x
           end in
  let '(out, w') := schedule_reconnect clock p pr c reason m b x w in
  out = Ok e ∧
  reconnect_attempts (adapter w') =
    match found with
    | Some _ => update_first (attempt_matches p pr c)
        (λ e, {| rr_snapshot := next_attempt now reason m b x (rr_snapshot e) |})
        (reconnect_attempts (adapter w))
    | None => reconnect_attempts (adapter w) ++ [{| rr_snapshot := e |}]
    end.
Proof.
  unfold schedule_reconnect, reading, updating, current_unix_secs, current_unix_nanos,
    mbind, M_bind, mret, M_ret.
  cbn -[emit_runtime_event attempt_matches next_attempt first_attempt].
  destruct (find_first _ _) as [e|];
    cbn -[emit_runtime_event attempt_matches next_attempt first_attempt];
    rewrite emit_eq; cbv beta iota;
    destruct (decide _); rewrite ?emit_eq; done.
Qed.

(** The [n]-th scheduled reconnect of a peer, protocol and class backs
    off [base * 2^(n-1)] seconds, the exponent capped at 16 and the delay at
    [max_backoff], from the clock reading of that call, and is marked failed
    from the [max_attempts]-th on; the registry holds exactly that entry. *)
Lemma reconnect_backoff p pr c reason (m b x : Z) (n : nat) (w : World R)
    (Hb : in_u64 b) (Hn : (Z.of_nat (S n) ≤ u32_max)%Z)
    (Hnew : find_first (attempt_matches p pr c) (reconnect_attempts (adapter w)) = None) :
  let wn := schedules p pr c reason m b x n w in
  let e := attempt_after (clock (ticks wn) / 10 ^ 9) p pr c reason m b x (S n) in
  (schedule_reconnect clock p pr c reason m b x wn).1 = Ok e ∧
  find_first (attempt_matches p pr c)
    (reconnect_attempts (adapter (schedules p pr c reason m b x (S n) w))) =
    Some {| rr_snapshot := e |}.
Proof.
  induction n as [|n IH]; intros wn e.
  - pose proof (schedule_effect p pr c reason m b x w) as He. unfold wn, e in *.
    cbn [schedules] in *. rewrite Hnew in He.
    destruct (schedule_reconnect _ _ _ _ _ _ _ _ w) as [out w']. destruct He as [-> He].
    rewrite first_attempt_after in He |- * by done. split; [done|]. cbn [snd]. rewrite He.
    apply find_first_snoc_other; [|by apply bool_decide_eq_true].
    by apply any_false, find_first_None.
  - destruct IH as [_ IH]; [lia|]. fold wn in IH.
    pose proof (schedule_effect p pr c reason m b x wn) as He. rewrite IH in He.
    cbn [schedules] in *. fold wn.
    destruct (schedule_reconnect _ _ _ _ _ _ _ _ wn) as [out w']. destruct He as [-> He].
    cbn [rr_snapshot] in *. rewrite next_attempt_after by done. split; [done|].
    cbn [snd]. rewrite He. unfold e. rewrite <-(next_attempt_after
      (clock (ticks (schedules p pr c reason m b x n w)) / 10 ^ 9)%Z) by done.
    assert (∀ r, attempt_matches p pr c r = true →
      attempt_matches p pr c {| rr_snapshot :=
        next_attempt (clock (ticks wn) / 10 ^ 9)%Z reason m b x (rr_snapshot r) |} = true)
      as Hkey by done.
    by rewrite (find_first_update_first _ _ _ _ Hkey IH).
Qed.

(** *** Observations *)

Lemma reverse_last_rev {A} n (l : list A) : reverse (last_rev n l) = drop (length l - n) l.
Proof.
  unfold last_rev. by rewrite take_reverse, reverse_involutive.
Qed.

(** [recent_events] returns the newest events in the order they were
    emitted, at least one when there is one and at most [limit] of them
    otherwise. *)
Lemma recent_events_newest limit (w : World R) :
  let l := runtime_events (adapter w) in
  recent_events limit w = (Ok (drop (length l - Nat.max limit 1) l), w).
Proof.
  intros l. unfold recent_events, reading. fold l. rewrite reverse_last_rev.
  do 3 f_equal. lia.
Qed.

Lemma min_by_key_id_le l m : min_by_key id l = Some m → m ∈ l ∧ ∀ y, y ∈ l → (m ≤ y)%Z.
Proof.
  intros (b & a & -> & Hb & Ha)%min_by_key_Some. split; [set_solver|].
  intros y Hy. apply elem_of_app in Hy as [Hy|Hy]; [specialize (Hb _ Hy); simpl in *; lia|].
  apply elem_of_cons in Hy as [->|Hy]; [lia|by apply Ha].
Qed.

(** [transport_health] reports a suppressed transport when anything is
    suppressed, an active one when some attempt is backing off, a failed one
    when attempts remain and all have failed, and an idle one when there is
    none; the next attempt it reports is the earliest of those backing off. *)
Lemma transport_health_state (w : World R) :
  let a := adapter w in
  let failed r := negb (backing_off r) in
  ∃ h, transport_health w = (Ok h, w) ∧
    th_reconnect_state h =
      match reconnect_suppressions a, retain backing_off (reconnect_attempts a),
            reconnect_attempts a with
      | _ :: _, _, _ => ReconnectSuppressed
      | [], _ :: _, _ => ReconnectActive
      | [], [], _ :: _ => ReconnectFailed
      | [], [], [] => ReconnectIdle
      end ∧
    match th_reconnect_next_attempt_unix_secs h with
    | Some t =>
        (∃ r, r ∈ reconnect_attempts a ∧ backing_off r = true ∧
           at_next_attempt_unix_secs (rr_snapshot r) = t) ∧
        ∀ r, r ∈ reconnect_attempts a → backing_off r = true →
          (t ≤ at_next_attempt_unix_secs (rr_snapshot r))%Z
    | None => ∀ r, r ∈ reconnect_attempts a → failed r = true
    end.
Proof.
  intros a failed. eexists. split; [reflexivity|]. fold a.
  cbn [th_reconnect_state th_reconnect_next_attempt_unix_secs]. split.
  - destruct (reconnect_suppressions a) as [|s l]; [|done]. unfold count.
    destruct (retain backing_off (reconnect_attempts a)) as [|r l] eqn:Er; [|done]. cbn.
    destruct (reconnect_attempts a) as [|r l]; [done|].
    rewrite (proj2 (any_true _ _)); [done|]. exists r. split; [left|].
    cbn in Er. unfold backing_off in Er. destruct (at_state (rr_snapshot r)); [done|].
    by apply bool_decide_eq_true.
  - destruct (min_by_key id _) as [t|] eqn:Em.
    + apply min_by_key_id_le in Em as [Hin Hle].
      apply list_elem_of_fmap in Hin as (r & -> & [Hr Hb]%elem_of_retain).
      split; [by exists r|]. intros r' Hr' Hb'. apply Hle.
      apply (list_elem_of_fmap_2 (at_next_attempt_unix_secs ∘ rr_snapshot)).
      by apply elem_of_retain.
    + apply min_by_key_None, fmap_nil_inv in Em. intros r Hr. unfold failed.
      destruct (backing_off r) eqn:Hb; [|done].
      assert (r ∈ retain backing_off (reconnect_attempts a)) as Hin by by apply elem_of_retain.
      rewrite Em in Hin. set_solver.
Qed.

(** A relayed session that is closed successfully is closed at its relay. *)
Lemma close_session_at_relay (w w' : World R) s r :
  runtime_sessions (adapter w) !! ss_session_id s = Some r →
  is_relay (sr_snapshot r) = true →
  close_session clock s w = (Ok (), w') →
  ∃ e, ss_relay_control_endpoint (sr_snapshot r) = Some e ∧
    rc_close_session e (ss_transport_session_id (sr_snapshot r)) "path migrated" (relays w) =
      (Ok (), relays w').
Proof.
  intros Hr Hrel.
  unfold close_session, session_snapshot, update_session_state, remove_runtime_session,
    record_terminal_session, reading, updating, current_unix_secs, current_unix_nanos.
  unfold mbind, M_bind, mret, M_ret. cbn -[emit_runtime_event]. rewrite !Hr.
  cbn -[emit_runtime_event]. rewrite emit_eq. cbn -[emit_runtime_event].
  rewrite lookup_insert_eq. cbn -[emit_runtime_event].
  unfold is_relay in *. cbn [snapshot_in_state ss_path_kind]. rewrite Hrel.
  unfold close_relay_transport_session, relay_close, lift, mbind, M_bind.
  cbn [snapshot_in_state ss_relay_control_endpoint ss_transport_session_id].
  destruct (ss_relay_control_endpoint (sr_snapshot r)) as [e|]; simpl; [|done].
  destruct (rc_close_session _ _ _ _) as [[[]|er] rl] eqn:Ec; simpl; [|done].
  intros [= <-]. exists e. by rewrite Ec.
Qed.

Context `{!RelayControlLaws R}.

(** C4.  A relayed session stands for an open session at its relay: after a
    first successful [connect] over a relay, the relay holds an open session
    between the two peers under the transport identifier; and a [close_session]
    of it that succeeds leaves that relay session closed. *)
Theorem relayed_session_lifecycle route plan (w w1 : World R) h
    (Hplan : rt_relay route = Some plan) (Hkind : rt_path_kind route = Relay)
    (Hfirst : runtime_sessions (adapter w) !!
                logical_session_id (runtime_instance_id (adapter w)) route = None)
    (Hconnect : connect clock rng route w = (Ok h, w1)) :
  let s := ch_session h in
  let at_relay w := rc_session (rp_relay_control_endpoint plan) (ss_transport_session_id s)
                      (relays w) in
  (∃ x, at_relay w1 = Ok (Some x) ∧ rs_status x = Open ∧
     rs_source x = rt_local_peer route ∧ rs_destination x = rt_peer route) ∧
  ∀ w2, close_session clock s w1 = (Ok (), w2) →
    ∃ x, at_relay w2 = Ok (Some (with_status Closed x)).
Proof.
  unfold connect in Hconnect. apply M_bind_Ok in Hconnect as (sup & wa & [= <- <-] & Hc).
  destruct (find_reconnect_suppression _ _ _ _) as [sup|].
  { apply M_bind_Ok in Hc as (? & ? & _ & Hc). done. }
  apply M_bind_Ok in Hc as (s & wb & Hs & Hc). unfold session_snapshot_for_route in Hs.
  rewrite Hplan in Hs.
  apply relay_snapshot_Ok in Hs as (Ha & Hid & Hk & He & _ & q & acc & Hsrc & Hdst & Htid & Ho).
  apply M_bind_Ok in Hc as ([] & wc & Hu & [= <- <-]). simpl.
  unfold upsert_runtime_session in Hu. cbn [sr_snapshot] in Hu.
  apply M_bind_Ok in Hu as (prev & wd & [= <- <-] & Hu). rewrite Ha, Hid, Hfirst in Hu.
  apply M_bind_Ok in Hu as ([] & we & [= <-] & Hu).
  apply M_bind_Ok in Hu as ([] & wf & Hu & Hv). rewrite emit_eq in Hu, Hv.
  injection Hu as <-. injection Hv as <-. cbn [relays adapter].
  split.
  - destruct (rc_open_law _ _ _ _ _ Ho) as (x & Hx & Hopen & Hxs & Hxd).
    exists x. rewrite <-Htid. by rewrite Hx, Hopen, Hxs, Hxd.
  - intros w2 Hclose.
    eapply (close_session_at_relay _ _ _ {| sr_snapshot := s |}) in Hclose
      as (e & Hce & Hclose).
    + cbn [sr_snapshot] in Hce, Hclose. rewrite He in Hce. injection Hce as <-.
      apply rc_close_law in Hclose as (x & _ & Hx). by exists x.
    + rewrite Hid. apply lookup_insert_eq.
    + unfold is_relay. cbn [sr_snapshot]. rewrite Hk, Hkind. done.
Qed.
End functional.

(** ** Concrete transports *)

Section witnesses.
Import External.Demo.

#[local] Instance demo_credential_json : JsonBytes SessionCredentialUnsigned := scu_nonce.
Definition demo_clock (n : nat) : Z := (120 * 10 ^ 9 + Z.of_nat n)%Z.
Definition demo_rng (n len : nat) : bytes := replicate len x04.
#[local] Instance demo_control : RelayControl (Registry * nat) :=
  inproc_relay_control (λ _, 120%Z) (λ _, demo_id).
#[local] Instance demo_control_laws : RelayControlLaws (Registry * nat) :=
  inproc_relay_control_laws _ _.

Definition demo_relay_peer : PeerId := ra_peer_id (announcement demo_node).
Definition demo_plan : RelayPlan := {|
  rp_relay_peer := demo_relay_peer; rp_relay_endpoints := ["quic://relay"];
  rp_relay_control_endpoint := "http://relay"; rp_destination_endpoints := [];
  rp_supports_datagrams := true; rp_supports_path_migration := true |}.
Definition demo_route (relay : option RelayPlan) : RoutePlan := {|
  rt_local_peer := peer_id demo_source; rt_peer := demo_target;
  rt_protocol := Some (mk_ProtocolId "/app/1"); rt_class := Interactive;
  rt_path_kind := if relay then Relay else DirectUdp; rt_source := RouteObserved;
  rt_remote_endpoints := ["quic://target"]; rt_relay := relay |}.
Definition demo_world : World (Registry * nat) :=
  mk_World (with_identity "node-1" demo_network demo_source)
    (register_relay demo_relay ∅, 0) 0 0.

Lemma quic_reachable_inv_witness :
  adapter_inv (adapter (connect demo_clock demo_rng (demo_route None) demo_world).2).
Proof.
  apply (quic_reachable_inv demo_clock demo_rng).
  eapply quic_next; [apply quic_start_identity|apply step_connect].
Defined.

Lemma relayed_session_lifecycle_witness :
  match connect demo_clock demo_rng (demo_route (Some demo_plan)) demo_world with
  | (Ok h, w1) => ∃ x,
      rc_session "http://relay" (ss_transport_session_id (ch_session h)) (relays w1) =
        Ok (Some x) ∧ rs_status x = Open
  | (Err _, _) => False
  end.
Proof.
  assert (is_ok (connect demo_clock demo_rng (demo_route (Some demo_plan)) demo_world).1 = true)
    as Hok by (vm_compute; reflexivity).
  assert (runtime_sessions (adapter demo_world) !! logical_session_id
    (runtime_instance_id (adapter demo_world)) (demo_route (Some demo_plan)) = None)
    as Hfirst by apply lookup_empty.
  destruct (connect demo_clock demo_rng (demo_route (Some demo_plan)) demo_world)
    as [[h|e] w1] eqn:E; [|discriminate Hok].
  destruct (relayed_session_lifecycle demo_clock demo_rng (demo_route (Some demo_plan)) demo_plan
              demo_world w1 h eq_refl eq_refl Hfirst E) as [(x & Hx & Ho & _) _].
  exists x. split; [exact Hx|exact Ho].
Defined.

Lemma direct_connect_succeeds_witness :
  ∃ h w', connect demo_clock demo_rng (demo_route None) demo_world = (Ok h, w') ∧
    ss_state (ch_session h) = StActive ∧ ss_remote_endpoint (ch_session h) = "quic://target".
Proof.
  destruct (direct_connect_succeeds demo_clock demo_rng (demo_route None) demo_source
              "quic://target" demo_world) as (s & w' & Hc & _ & _ & Hs & He & _ & _ & Hfree);
    [reflexivity..|].
  rewrite Hfree in Hc.
  - eexists _, w'. split; [exact Hc|]. split; [exact Hs|exact He].
  - intros r Hr. cbn in Hr. rewrite lookup_empty in Hr. discriminate Hr.
Defined.

(** A direct session, registered. *)
Definition demo_record : RuntimeSessionRecord := {|
  sr_snapshot := {|
    ss_session_id := demo_id; ss_transport_session_id := demo_id; ss_relay_attempt_id := None;
    ss_peer := demo_target; ss_protocol := None; ss_class := Bulk; ss_path_kind := DirectUdp;
    ss_source := RouteObserved; ss_remote_endpoint := "quic://target"; ss_relay_peer := None;
    ss_relay_endpoint := None; ss_relay_control_endpoint := None;
    ss_datagrams_capable := true; ss_migration_capable := true; ss_state := StActive;
    ss_closure_reason := None; ss_state_reason := None; ss_created_at_unix_secs := 7;
    ss_last_activity_unix_secs := 9 |};
  sr_alpn_protocol := None |}.
Definition demo_registered : World (Registry * nat) :=
  mk_World (set_sessions {[demo_id := demo_record]} (adapter demo_world)) (relays demo_world) 0 0.

Lemma close_session_outcome_witness :
  let '(out, w') := close_session demo_clock (sr_snapshot demo_record) demo_registered in
  out = Ok () ∧ runtime_sessions (adapter w') = delete demo_id {[demo_id := demo_record]}.
Proof.
  pose proof (close_session_outcome demo_clock demo_registered (sr_snapshot demo_record)
                demo_record (lookup_insert_eq _ _ _) eq_refl) as Hc.
  destruct (close_session demo_clock (sr_snapshot demo_record) demo_registered) as [out w'].
  destruct Hc as (Hd & Ho & _). split; [apply Ho; reflexivity|exact Hd].
Defined.

Lemma migrate_keeps_session_witness :
  let '(out, w') := migrate demo_clock demo_rng (sr_snapshot demo_record) (demo_route None)
                      demo_registered in
  match out with
  | Ok m => ss_session_id m = demo_id ∧ ss_created_at_unix_secs m = 7%Z
  | Err _ => False
  end.
Proof.
  assert (is_ok (migrate demo_clock demo_rng (sr_snapshot demo_record) (demo_route None)
              demo_registered).1 = true) as Hok by (vm_compute; reflexivity).
  pose proof (migrate_keeps_session demo_clock demo_rng (demo_route None) (sr_snapshot demo_record)
                demo_record demo_registered (lookup_insert_eq _ _ _) eq_refl) as Hm.
  destruct (migrate demo_clock demo_rng (sr_snapshot demo_record) (demo_route None)
              demo_registered) as [[m|e] w']; [|discriminate Hok].
  destruct Hm as (_ & Hid & Hc & _). split; [exact Hid|exact Hc].
Defined.

Lemma reconnect_backoff_witness :
  let e := attempt_after 120 demo_target None Bulk "timeout" 5 2 60 4 in
  (schedule_reconnect (λ _, 120 * 10 ^ 9)%Z demo_target None Bulk "timeout" 5 2 60
     (schedules (λ _, 120 * 10 ^ 9)%Z demo_target None Bulk "timeout" 5 2 60 3 demo_world)).1 = Ok e ∧
  at_next_attempt_unix_secs e = 136%Z ∧ at_state e = AttemptBackingOff.
Proof.
  split; [|split; reflexivity].
  apply (reconnect_backoff (λ _, 120 * 10 ^ 9)%Z demo_target None Bulk "timeout" 5 2 60 3 demo_world);
    [split; vm_compute; discriminate|vm_compute; discriminate|reflexivity].
Defined.
End witnesses.
