(* ===== verification/Control.v ===== *)
(** crates/control: the control-plane client's view of the authority, and the
    merge of an authority snapshot into the local one.  Fetching over HTTP is
    not modelled: a fetched snapshot enters through [sync_authority_snapshot]. *)
From stdpp Require Import countable option base list strings gmap pretty sorting.
From Stdlib Require Import ZArith Lia Strings.Byte Strings.Ascii.
From S2P Require Import Prelude Text BTree F32 External Model Crypto Membership.

(* crates/control/src/lib.rs:10-17 AuthorityEndpoints *)
Record AuthorityEndpoints := {
  ae_enrollment : string;
  ae_revocation : string;
  ae_relay_map : string;
  ae_bootstrap : string;
  ae_snapshot : string;
}.

(* crates/control/src/lib.rs:19-27 AuthorityArtifactSnapshot *)
Record AuthorityArtifactSnapshot := {
  as_network_id : NetworkId;
  as_enrollment_token : option EnrollmentToken;
  as_membership : option MembershipCertificate;
  as_capability_grants : list CapabilityGrant;
  as_revocations : list RevocationRecord;
  as_bootstrap_hints : list BootstrapHint;
}.

(* crates/control/src/lib.rs:29-45 ControlError *)
Inductive ControlError :=
| NetworkMismatch
| CtlSubjectMismatch
| MembershipRollback
| GrantConflict
| Transport (err : string)
| Decode (err : string)
| MissingSubject (subject : string).

(* crates/control/src/lib.rs:47-55 SnapshotDelta *)
Record SnapshotDelta := {
  membership_changed : bool;
  grants_added : Z;
  grants_removed : Z;
  revocations_added : Z;
  bootstrap_hints_added : Z;
  bootstrap_hints_removed : Z;
}.

(* crates/control/src/lib.rs:57-68 SnapshotDelta::empty *)
Definition SnapshotDelta_empty : SnapshotDelta := {|
  membership_changed := false;
  grants_added := 0;
  grants_removed := 0;
  revocations_added := 0;
  bootstrap_hints_added := 0;
  bootstrap_hints_removed := 0;
|}.

(* crates/control/src/lib.rs:70-74 ControlClient *)
Record ControlClient := { cc_network_id : NetworkId; cc_endpoints : AuthorityEndpoints }.

(* crates/control/src/lib.rs:77-89 ControlClient::from_origin *)
Definition from_origin (network_id : NetworkId) (origin : string) : ControlClient :=
  let base := trim_end_matches "/"%char origin in {|
    cc_network_id := network_id;
    cc_endpoints := {|
      ae_enrollment := base +:+ "/enroll";
      ae_revocation := base +:+ "/revoke";
      ae_relay_map := base +:+ "/relays";
      ae_bootstrap := base +:+ "/bootstrap";
      ae_snapshot := base +:+ "/snapshot" |} |}.

(* crates/control/src/lib.rs:91-99 ControlClient::sync_authority_snapshot *)
Definition sync_authority_snapshot (self : ControlClient) (snapshot : AuthorityArtifactSnapshot)
    : result ControlError AuthorityArtifactSnapshot :=
  if decide (as_network_id snapshot ≠ cc_network_id self) then Err NetworkMismatch
  else Ok snapshot.

(* crates/control/src/lib.rs:276-281 same_grant *)
Definition same_grant (left right : CapabilityGrant) : bool :=
  bool_decide (cg_network_id left = cg_network_id right) &&
  bool_decide (cg_issuer_peer_id left = cg_issuer_peer_id right) &&
  bool_decide (cg_subject_peer_id left = cg_subject_peer_id right) &&
  (cg_sequence left =? cg_sequence right)%Z.

(* crates/control/src/lib.rs:283-287 same_revocation *)
Definition same_revocation (left right : RevocationRecord) : bool :=
  (rr_sequence left =? rr_sequence right)%Z &&
  bool_decide (rr_issuer_peer_id left = rr_issuer_peer_id right) &&
  bool_decide (rr_target left = rr_target right).

(** [Vec::dedup]: one of each run of equal elements. *)
Fixpoint dedup {A} `{EqDecision A} (l : list A) : list A :=
  match l with
  | x :: (y :: _) as l' => if decide (x = y) then dedup l' else x :: dedup l'
  | _ => l
  end.

(* crates/control/src/lib.rs:326-334 normalize_addresses *)
Definition normalize_addresses (addresses : list string) : list string :=
  dedup (merge_sort key_le (trim <$> addresses)).

(* crates/control/src/lib.rs:289-294 same_hint *)
Definition same_hint (left right : BootstrapHint) : bool :=
  match hint_peer_id left, hint_peer_id right with
  | Some left_peer, Some right_peer => bool_decide (left_peer = right_peer)
  | _, _ => bool_decide (normalize_addresses (hint_addresses left) =
                         normalize_addresses (hint_addresses right))
  end.

(* crates/control/src/lib.rs:296-324 merge_membership *)
Definition merge_membership (current incoming : option MembershipCertificate)
    : result ControlError (option MembershipCertificate) :=
  match current, incoming with
  | None, incoming => Ok incoming
  | Some current, None => Ok (Some current)
  | Some current, Some incoming =>
      if decide (mc_subject_peer_id current ≠ mc_subject_peer_id incoming)
      then Err CtlSubjectMismatch
      else if (mc_issued_at incoming <? mc_issued_at current)%Z then Err MembershipRollback
      else if (mc_issued_at incoming =? mc_issued_at current)%Z && bool_decide (incoming ≠ current)
      then Err GrantConflict
      else Ok (Some
        (if (mc_issued_at current <? mc_issued_at incoming)%Z
            || (mc_expires_at current <=? mc_expires_at incoming)%Z
         then incoming else current))
  end.

(** The loop that appends the revocations not already held; the second
    component counts them. *)
(* crates/control/src/lib.rs:230-239 merge_snapshot (revocations) *)
Fixpoint merge_revocations (revocations incoming : list RevocationRecord)
    : list RevocationRecord * Z :=
  match incoming with
  | [] => (revocations, 0%Z)
  | revocation :: incoming =>
      if any (λ existing, same_revocation existing revocation) revocations
      then merge_revocations revocations incoming
      else let '(l, n) := merge_revocations (revocations ++ [revocation]) incoming in (l, n + 1)%Z
  end.

(** The grants whose identity the current snapshot uses for another grant. *)
(* crates/control/src/lib.rs:200-211 merge_snapshot (conflicts) *)
Definition grant_conflict (current : list CapabilityGrant) (grant : CapabilityGrant) : bool :=
  match find_first (λ existing, same_grant existing grant) current with
  | Some existing => bool_decide (existing ≠ grant)
  | None => false
  end.

Definition or_else {A} (a b : option A) : option A :=
  match a with Some x => Some x | None => b end.

(* crates/control/src/lib.rs:178-273 ControlClient::merge_snapshot *)
Definition merge_snapshot (self : ControlClient) (current : option AuthorityArtifactSnapshot)
    (incoming : AuthorityArtifactSnapshot)
    : result ControlError (AuthorityArtifactSnapshot * SnapshotDelta) :=
  incoming ← sync_authority_snapshot self incoming;
  match current with
  | None =>
      Ok (incoming, {|
        membership_changed := bool_decide (is_Some (as_membership incoming));
        grants_added := Z.of_nat (length (as_capability_grants incoming));
        grants_removed := 0;
        revocations_added := Z.of_nat (length (as_revocations incoming));
        bootstrap_hints_added := Z.of_nat (length (as_bootstrap_hints incoming));
        bootstrap_hints_removed := 0 |})
  | Some current =>
      membership ← merge_membership (as_membership current) (as_membership incoming);
      let current_grants := as_capability_grants current in
      let incoming_grants := as_capability_grants incoming in
      if any (grant_conflict current_grants) incoming_grants then Err GrantConflict
      else
      let '(revocations, added) :=
        merge_revocations (as_revocations current) (as_revocations incoming) in
      let current_hints := as_bootstrap_hints current in
      let incoming_hints := as_bootstrap_hints incoming in
      Ok ({| as_network_id := as_network_id incoming;
             as_enrollment_token :=
               or_else (as_enrollment_token incoming) (as_enrollment_token current);
             as_membership := membership;
             as_capability_grants := incoming_grants;
             as_revocations := revocations;
             as_bootstrap_hints := incoming_hints |},
          {| membership_changed := bool_decide (membership ≠ as_membership current);
             grants_added := count (λ grant,
               negb (any (λ existing, same_grant existing grant) current_grants)) incoming_grants;
             grants_removed := count (λ grant,
               negb (any (λ incoming, same_grant grant incoming) incoming_grants)) current_grants;
             revocations_added := added;
             bootstrap_hints_added := count (λ hint,
               negb (any (λ existing, same_hint existing hint) current_hints)) incoming_hints;
             bootstrap_hints_removed := count (λ hint,
               negb (any (λ incoming, same_hint hint incoming) incoming_hints)) current_hints |})
  end.

(* crates/control/src/lib.rs:336-341 endpoint_with_subject *)
Definition endpoint_with_subject (endpoint : string) (subject : option string) : string :=
  match subject with
  | Some subject => endpoint +:+ "?subject=" +:+ subject
  | None => endpoint
  end.

(* crates/control/src/lib.rs:343-348 endpoint_with_after_sequence *)
Definition endpoint_with_after_sequence (endpoint : string) (after_sequence : option Z) : string :=
  match after_sequence with
  | Some sequence => endpoint +:+ "?after_sequence=" +:+ pretty sequence
  | None => endpoint
  end.

(** ** Lemmas *)

Lemma same_grant_refl g : same_grant g g = true.
Proof. unfold same_grant. by rewrite !bool_decide_eq_true_2, Z.eqb_refl. Qed.

Lemma same_revocation_refl r : same_revocation r r = true.
Proof. unfold same_revocation. by rewrite !bool_decide_eq_true_2, Z.eqb_refl. Qed.

Lemma same_revocation_trans r s t :
  same_revocation r s = true → same_revocation r t = true → same_revocation s t = true.
Proof.
  unfold same_revocation. rewrite !andb_true_iff, !bool_decide_eq_true, !Z.eqb_eq.
  intuition congruence.
Qed.

Lemma same_hint_refl h : same_hint h h = true.
Proof. unfold same_hint. destruct (hint_peer_id h); by apply bool_decide_eq_true. Qed.

(** A revocation is held up to its identity. *)
Definition revoked (r : RevocationRecord) (l : list RevocationRecord) : Prop :=
  ∃ x, x ∈ l ∧ same_revocation x r = true.

Lemma merge_revocations_spec l incoming :
  let '(m, n) := merge_revocations l incoming in
  (∃ k, m = l ++ k ∧ k `sublist_of` incoming ∧ n = Z.of_nat (length k)) ∧
  (∀ r, r ∈ incoming → revoked r m).
Proof.
  revert l. induction incoming as [|r rs IH]; intros l; cbn [merge_revocations].
  { split; [exists []; by rewrite app_nil_r|]. set_solver. }
  destruct (any (λ e, same_revocation e r) l) eqn:Hany.
  - specialize (IH l). destruct (merge_revocations l rs) as [m n].
    destruct IH as [(k & -> & Hk & ->) Hin]. split.
    + exists k. split_and!; [done|by apply sublist_cons|done].
    + intros x [->|Hx]%elem_of_cons; [|by apply Hin].
      apply any_true in Hany as (y & Hy & Hs). exists y. split; [|done].
      apply elem_of_app. by left.
  - specialize (IH (l ++ [r])). destruct (merge_revocations (l ++ [r]) rs) as [m n].
    destruct IH as [(k & -> & Hk & ->) Hin]. rewrite <-app_assoc in *. simpl in *. split.
    + exists (r :: k). split_and!; [done|by apply sublist_skip|simpl; lia].
    + intros x [->|Hx]%elem_of_cons; [|by apply Hin].
      exists r. split; [set_solver|apply same_revocation_refl].
Qed.

Lemma merge_revocations_held l incoming :
  (∀ r, r ∈ incoming → revoked r l) → merge_revocations l incoming = (l, 0%Z).
Proof.
  intros Hin. induction incoming as [|r rs IH]; [done|]. cbn [merge_revocations].
  destruct (Hin r ltac:(left)) as (x & Hx & Hs).
  rewrite (proj2 (any_true _ _)) by eauto. apply IH. intros y Hy. apply Hin. by right.
Qed.

Lemma merge_membership_Ok current incoming m :
  merge_membership current incoming = Ok m ↔
  match current, incoming with
  | Some c, Some i =>
      m = Some i ∧ mc_subject_peer_id c = mc_subject_peer_id i ∧
      ((mc_issued_at c < mc_issued_at i)%Z ∨ c = i)
  | Some _, None => m = current
  | None, _ => m = incoming
  end.
Proof.
  unfold merge_membership. destruct current as [c|], incoming as [i|]; try naive_solver.
  case_decide as Hs; [naive_solver|].
  destruct (Z.ltb_spec (mc_issued_at i) (mc_issued_at c)) as [Hlt|Hge]; simpl.
  { split; [done|]. intros (_ & _ & [?| ->]); lia. }
  destruct (Z.eqb_spec (mc_issued_at i) (mc_issued_at c)) as [He|Hne]; simpl.
  - destruct (decide (i = c)) as [->|Hic].
    + rewrite bool_decide_eq_false_2 by tauto.
      replace (mc_expires_at c <=? mc_expires_at c)%Z with true by (symmetry; apply Z.leb_refl).
      rewrite orb_true_r. naive_solver.
    + rewrite bool_decide_eq_true_2 by done. split; [done|].
      intros (_ & _ & [?| ->]); [lia|done].
  - rewrite (proj2 (Z.ltb_lt _ _)) by lia. simpl. split; [|naive_solver].
    intros [= <-]. split_and!; [done..|left; lia].
Qed.

Lemma grant_conflict_false current g :
  grant_conflict current g = false ↔
  ∀ e, find_first (λ x, same_grant x g) current = Some e → e = g.
Proof.
  unfold grant_conflict. destruct (find_first _ _) as [e|].
  - rewrite bool_decide_eq_false. split; [|naive_solver].
    intros Hn e' [= <-]. by apply dec_stable.
  - naive_solver.
Qed.

(** Nothing is added to, or removed from, a list by itself. *)
Lemma count_self {A} (same : A → A → bool) (l : list A) :
  (∀ x, same x x = true) → count (λ x, negb (any (λ y, same y x) l)) l = 0%Z.
Proof.
  intros Hrefl. unfold count. rewrite retain_none; [done|].
  intros x Hx. apply negb_false_iff, any_true. eauto.
Qed.

Section merge.
Context (self : ControlClient).

(** What it takes for [merge_snapshot] to succeed over a current snapshot. *)
Record mergeable (current incoming : AuthorityArtifactSnapshot) : Prop := {
  mg_network : as_network_id incoming = cc_network_id self;
  mg_membership c i :
    as_membership current = Some c → as_membership incoming = Some i →
    mc_subject_peer_id c = mc_subject_peer_id i ∧
    ((mc_issued_at c < mc_issued_at i)%Z ∨ c = i);
  mg_grants g e : g ∈ as_capability_grants incoming →
    find_first (λ x, same_grant x g) (as_capability_grants current) = Some e → e = g;
}.

Lemma merge_snapshot_cases current incoming :
  match merge_snapshot self (Some current) incoming with
  | Ok (s, d) =>
      mergeable current incoming ∧
      as_network_id s = as_network_id incoming ∧
      as_enrollment_token s =
        or_else (as_enrollment_token incoming) (as_enrollment_token current) ∧
      as_membership s = or_else (as_membership incoming) (as_membership current) ∧
      as_capability_grants s = as_capability_grants incoming ∧
      as_bootstrap_hints s = as_bootstrap_hints incoming ∧
      merge_revocations (as_revocations current) (as_revocations incoming) =
        (as_revocations s, revocations_added d)
  | Err _ => ¬ mergeable current incoming
  end.
Proof.
  unfold merge_snapshot, sync_authority_snapshot.
  case_decide as Hn; simpl; [by intros []|].
  destruct (merge_membership _ _) as [m|e] eqn:Em; simpl.
  2: { intros [_ Hm _].
       assert (merge_membership (as_membership current) (as_membership incoming) =
         Ok (or_else (as_membership incoming) (as_membership current))) as Hok; [|congruence].
       apply merge_membership_Ok.
       destruct (as_membership current), (as_membership incoming); naive_solver. }
  apply merge_membership_Ok in Em.
  destruct (any _ _) eqn:Ha.
  { apply any_true in Ha as (g & Hg & Hc). intros [_ _ Hgr].
    rewrite (proj2 (grant_conflict_false _ _)) in Hc; [done|]. intros e. by apply Hgr. }
  rewrite any_false in Ha.
  destruct (merge_revocations _ _) as [l n]. simpl. split.
  - split; [done| |].
    + intros c i Hc Hi. rewrite Hc, Hi in Em. tauto.
    + intros g e Hg. by apply grant_conflict_false, Ha.
  - split_and!; try done.
    destruct (as_membership current), (as_membership incoming); naive_solver.
Qed.

(** C33.  Merging an authority snapshot into the local one succeeds exactly
    when it is for this network, does not roll the membership back or change
    its subject, and reuses no grant identity for another grant.  The result
    then has the incoming grants and hints, the incoming token and membership
    where there are any, and every revocation of both sides: the local ones in
    place, the new ones after them, [revocations_added] of them. *)
Theorem merge_snapshot_contract current incoming :
  (is_ok (merge_snapshot self (Some current) incoming) = true ↔ mergeable current incoming) ∧
  ∀ s d, merge_snapshot self (Some current) incoming = Ok (s, d) →
    as_capability_grants s = as_capability_grants incoming ∧
    as_bootstrap_hints s = as_bootstrap_hints incoming ∧
    as_enrollment_token s =
      or_else (as_enrollment_token incoming) (as_enrollment_token current) ∧
    as_membership s = or_else (as_membership incoming) (as_membership current) ∧
    (∃ k, as_revocations s = as_revocations current ++ k ∧
       k `sublist_of` as_revocations incoming ∧ revocations_added d = Z.of_nat (length k)) ∧
    ∀ r, r ∈ as_revocations incoming → revoked r (as_revocations s).
Proof.
  pose proof (merge_snapshot_cases current incoming) as Hc.
  destruct (merge_snapshot self (Some current) incoming) as [[s d]|e]; [|by split].
  destruct Hc as (Hm & _ & Ht & Hmem & Hg & Hh & Hr). split; [done|].
  intros s' d' [= <- <-].
  pose proof (merge_revocations_spec (as_revocations current) (as_revocations incoming)) as Hs.
  rewrite Hr in Hs. naive_solver.
Qed.

(** ** A series of synchronizations *)

(** The local snapshot after one more fetch; a failed merge changes nothing. *)
Definition sync_step (current : option AuthorityArtifactSnapshot)
    (incoming : AuthorityArtifactSnapshot) : option AuthorityArtifactSnapshot :=
  match merge_snapshot self current incoming with
  | Ok (s, _) => Some s
  | Err _ => current
  end.

(** The second snapshot has every revocation of the first, and a membership
    of the same subject at least as recent. *)
Definition no_rollback (old new : AuthorityArtifactSnapshot) : Prop :=
  (∃ k, as_revocations new = as_revocations old ++ k) ∧
  ∀ c, as_membership old = Some c → ∃ c', as_membership new = Some c' ∧
    mc_subject_peer_id c' = mc_subject_peer_id c ∧ (mc_issued_at c ≤ mc_issued_at c')%Z.

#[export] Instance no_rollback_preorder : PreOrder no_rollback.
Proof.
  split.
  - intros s. split; [exists []; by rewrite app_nil_r|]. intros c Hc. by exists c.
  - intros s1 s2 s3 [[k1 H1] M1] [[k2 H2] M2]. split.
    + exists (k1 ++ k2). by rewrite H2, H1, app_assoc.
    + intros c Hc. destruct (M1 _ Hc) as (c' & Hc' & Hs & Hi).
      destruct (M2 _ Hc') as (c'' & Hc'' & Hs' & Hi'). exists c''.
      split_and!; [done|congruence|lia].
Qed.

Lemma sync_step_no_rollback s incoming :
  ∃ s', sync_step (Some s) incoming = Some s' ∧ no_rollback s s'.
Proof.
  unfold sync_step. pose proof (merge_snapshot_cases s incoming) as Hc.
  destruct (merge_snapshot self (Some s) incoming) as [[s' d]|e]; [|by exists s].
  exists s'. split; [done|]. destruct Hc as ([_ Hmem _] & _ & _ & Hm & _ & _ & Hr).
  pose proof (merge_revocations_spec (as_revocations s) (as_revocations incoming)) as Hs.
  rewrite Hr in Hs. destruct Hs as [(k & Hk & _) _]. split; [by exists k|].
  intros c Hc. rewrite Hm, Hc. destruct (as_membership incoming) as [i|] eqn:Hi; simpl.
  - destruct (Hmem c i Hc eq_refl) as [Hsub [Hlt| ->]]; exists i; split_and!; try done; lia.
  - by exists c.
Qed.

(** C8.  Whatever snapshots the authority sends after the first one, and
    whichever of them are refused, no revocation the client has ever held is
    forgotten and its membership never goes back in time or changes subject. *)
Theorem sync_never_rolls_back s (incoming : list AuthorityArtifactSnapshot) :
  ∃ s', foldl sync_step (Some s) incoming = Some s' ∧ no_rollback s s'.
Proof.
  revert s. induction incoming as [|i rest IH]; intros s; [by exists s|].
  destruct (sync_step_no_rollback s i) as (s1 & Hs1 & Hr1). simpl. rewrite Hs1.
  destruct (IH s1) as (s2 & Hs2 & Hr2). exists s2. split; [done|by etrans].
Qed.

(** Merging the same snapshot a second time succeeds, changes nothing
    and reports an empty delta, provided its own grants are not in conflict. *)
Lemma merge_snapshot_idempotent current incoming s d
    (Hgrants : ∀ g g', g ∈ as_capability_grants incoming → g' ∈ as_capability_grants incoming →
       same_grant g g' = true → g = g')
    (Hmerge : merge_snapshot self current incoming = Ok (s, d)) :
  merge_snapshot self (Some s) incoming = Ok (s, SnapshotDelta_empty).
Proof.
  assert (as_network_id incoming = cc_network_id self ∧
    as_network_id s = as_network_id incoming ∧
    as_capability_grants s = as_capability_grants incoming ∧
    as_bootstrap_hints s = as_bootstrap_hints incoming ∧
    or_else (as_enrollment_token incoming) (as_enrollment_token s) = as_enrollment_token s ∧
    (as_membership incoming = None ∨ as_membership incoming = as_membership s) ∧
    ∀ r, r ∈ as_revocations incoming → revoked r (as_revocations s))
    as (Hnet & Hsn & Hg & Hh & Ht & Hm & Hr).
  { destruct current as [c|].
    - pose proof (merge_snapshot_cases c incoming) as Hc. rewrite Hmerge in Hc.
      destruct Hc as ([] & Hn & Ht & Hm & Hg & Hh & Hr).
      pose proof (merge_revocations_spec (as_revocations c) (as_revocations incoming)) as Hs.
      rewrite Hr in Hs. split_and!; try done; [| |by apply Hs].
      + rewrite Ht. by destruct (as_enrollment_token incoming).
      + rewrite Hm. destruct (as_membership incoming); auto.
    - unfold merge_snapshot, sync_authority_snapshot in Hmerge.
      case_decide; simplify_eq/=. split_and!; auto.
      + by destruct (as_enrollment_token s).
      + intros r Hr. exists r. split; [done|apply same_revocation_refl]. }
  unfold merge_snapshot, sync_authority_snapshot.
  rewrite decide_False by tauto. cbn [mbind result_bind].
  assert (merge_membership (as_membership s) (as_membership incoming) = Ok (as_membership s))
    as ->.
  { apply merge_membership_Ok. destruct Hm as [-> | ->]; by destruct (as_membership s); auto. }
  cbn [mbind result_bind]. rewrite Hg, Hh.
  assert (any (grant_conflict (as_capability_grants incoming)) (as_capability_grants incoming)
    = false) as ->.
  { apply any_false. intros g Hgin. apply grant_conflict_false. intros e He.
    apply find_first_Some in He as [Hein Hsame]. by apply Hgrants. }
  rewrite (merge_revocations_held _ _ Hr), Ht. unfold SnapshotDelta_empty.
  rewrite bool_decide_eq_false_2 by tauto.
  rewrite !count_self by (intros; apply same_grant_refl || apply same_hint_refl).
  do 2 f_equal. destruct s; simpl in *; congruence.
Qed.
End merge.

Section witnesses.
Definition demo_net : NetworkId := mk_NetworkId [].
Definition demo_peer (b : byte) : PeerId := mk_PeerId [b].
Definition demo_grant (sequence expires : Z) : CapabilityGrant := {|
  cg_network_id := demo_net; cg_subject_peer_id := demo_peer x01;
  cg_issuer_peer_id := demo_peer x02; cg_capabilities := ["connect"];
  cg_protocol_scopes := []; cg_resource_limits := ResourceLimits_default;
  cg_constraints := []; cg_not_before := 0; cg_expires_at := expires;
  cg_sequence := sequence; cg_signature := mk_SignatureBytes [] |}.
Definition demo_revocation (sequence : Z) : RevocationRecord := {|
  rr_network_id := demo_net; rr_issuer_peer_id := demo_peer x02;
  rr_target := TargetPeer (demo_peer x03); rr_reason := Administrative; rr_issued_at := 1;
  rr_effective_at := 1; rr_sequence := sequence; rr_note := None;
  rr_signature := mk_SignatureBytes [] |}.
Definition demo_snapshot (grants : list CapabilityGrant) (revocations : list RevocationRecord)
    : AuthorityArtifactSnapshot := {|
  as_network_id := demo_net; as_enrollment_token := None; as_membership := None;
  as_capability_grants := grants; as_revocations := revocations; as_bootstrap_hints := [] |}.
Definition demo_client : ControlClient := from_origin demo_net "http://authority/".

Lemma merge_snapshot_idempotent_witness :
  let current := demo_snapshot [demo_grant 1 10] [demo_revocation 1] in
  let incoming := demo_snapshot [demo_grant 1 10; demo_grant 2 20] [demo_revocation 2] in
  let merged := demo_snapshot [demo_grant 1 10; demo_grant 2 20]
                  [demo_revocation 1; demo_revocation 2] in
  merge_snapshot demo_client (Some merged) incoming = Ok (merged, SnapshotDelta_empty).
Proof.
  intros current incoming merged.
  apply (merge_snapshot_idempotent demo_client (Some current) incoming merged
    {| membership_changed := false; grants_added := 1; grants_removed := 0;
       revocations_added := 1; bootstrap_hints_added := 0; bootstrap_hints_removed := 0 |}).
  - intros g g'. cbn [incoming demo_snapshot as_capability_grants].
    rewrite !elem_of_cons, !elem_of_nil.
    intros [-> | [-> | []]] [-> | [-> | []]] Hs; (reflexivity || discriminate Hs).
  - vm_compute. reflexivity.
Defined.

(** An incoming snapshot whose own grants conflict is accepted once, and
    refused the second time. *)
Example conflicting_snapshot_accepted_once :
  let incoming := demo_snapshot [demo_grant 1 10; demo_grant 1 20] [] in
  let first := merge_snapshot demo_client (Some (demo_snapshot [] [])) incoming in
  is_ok first = true ∧ merge_snapshot demo_client (Some incoming) incoming = Err GrantConflict.
Proof. vm_compute. split; reflexivity. Qed.
End witnesses.
