(* ===== verification/ControlFetch.v ===== *)
(** crates/control: the requests of the control client.  The HTTP library is an
    interface: a function from a URL to what a GET of it answers. *)
From stdpp Require Import countable option base list strings gmap pretty.
From Stdlib Require Import ZArith Lia Strings.Byte Strings.Ascii.
From S2P Require Import Prelude Text BTree F32 External Model Crypto Membership RelayWire Control.

(** [ureq::get(url).call()]: a response whose body is decoded by [into_json],
    an error status, or a failure to get a response; the errors with their
    display texts. *)
Inductive HttpReply (Body : Type) :=
| HttpOk (body : Body)
| HttpStatus (code : Z) (text : string)
| HttpFailed (text : string).
Arguments HttpOk {Body} body.
Arguments HttpStatus {Body} code text.
Arguments HttpFailed {Body} text.

Class ControlJson (Body : Type) := {
  json_snapshot : Body → result string AuthorityArtifactSnapshot;
  json_hints : Body → result string (list BootstrapHint);
  json_revocations : Body → result string (list RevocationRecord);
  json_relay_map : Body → result string RelayMap;
}.

(* crates/control/src/lib.rs:109-114 ControlClient::list_bootstrap_hints *)
Definition list_bootstrap_hints (snapshot : AuthorityArtifactSnapshot) : list BootstrapHint :=
  as_bootstrap_hints snapshot.

Section fetch.
Context {Body : Type} `{ControlJson Body} (web : string → HttpReply Body) (self : ControlClient).

(** [error.to_string()]. *)
Definition http_error_text (reply : HttpReply Body) : string :=
  match reply with HttpOk _ => "" | HttpStatus _ text | HttpFailed text => text end.

(* crates/control/src/lib.rs:350-357 map_transport_error *)
Definition map_transport_error (error : HttpReply Body) (subject : option string) : ControlError :=
  match error, subject with
  | HttpStatus 404 _, Some subject => MissingSubject subject
  | other, _ => Transport (http_error_text other)
  end.

(** [call().map_err(f)?.into_json().map_err(Decode)]. *)
Definition fetch {A} (url : string) (f : HttpReply Body → ControlError)
    (decode : Body → result string A) : result ControlError A :=
  match web url with
  | HttpOk body => map_err Decode (decode body)
  | error => Err (f error)
  end.

Definition transport_error (error : HttpReply Body) : ControlError :=
  Transport (http_error_text error).

(* crates/control/src/lib.rs:124-136 ControlClient::fetch_authority_snapshot_for *)
Definition fetch_authority_snapshot_for (subject : option string)
    : result ControlError AuthorityArtifactSnapshot :=
  let snapshot_url := endpoint_with_subject (ae_snapshot (cc_endpoints self)) subject in
  snapshot ← fetch snapshot_url (λ error, map_transport_error error subject) json_snapshot;
  sync_authority_snapshot self snapshot.

(* crates/control/src/lib.rs:120-122 ControlClient::fetch_authority_snapshot *)
Definition fetch_authority_snapshot : result ControlError AuthorityArtifactSnapshot :=
  fetch_authority_snapshot_for None.

(* crates/control/src/lib.rs:142-153 ControlClient::fetch_bootstrap_hints_for *)
Definition fetch_bootstrap_hints_for (subject : option string)
    : result ControlError (list BootstrapHint) :=
  let bootstrap_url := endpoint_with_subject (ae_bootstrap (cc_endpoints self)) subject in
  fetch bootstrap_url (λ error, map_transport_error error subject) json_hints.

(* crates/control/src/lib.rs:138-140 ControlClient::fetch_bootstrap_hints *)
Definition fetch_bootstrap_hints : result ControlError (list BootstrapHint) :=
  fetch_bootstrap_hints_for None.

(* crates/control/src/lib.rs:155-167 ControlClient::fetch_revocations *)
Definition fetch_revocations (after_sequence : option Z)
    : result ControlError (list RevocationRecord) :=
  let revocation_url :=
    endpoint_with_after_sequence (ae_revocation (cc_endpoints self)) after_sequence in
  fetch revocation_url transport_error json_revocations.

(* crates/control/src/lib.rs:169-176 ControlClient::fetch_relay_map *)
Definition fetch_relay_map : result ControlError RelayMap :=
  fetch (ae_relay_map (cc_endpoints self)) transport_error json_relay_map.
End fetch.
