(* ===== verification/Authority.v ===== *)
(** cmd/authority: the authority's state file, the commands that change it and
    the HTTP requests it answers.

    A state file is modelled by the state its JSON encodes: [Disk] maps paths to
    states.  A command returns the new disk and what it prints, or panics. *)
From stdpp Require Import countable option base list strings gmap pretty.
From Stdlib Require Import ZArith Lia Strings.Byte Strings.Ascii.
From S2P Require Import Prelude Text BTree F32 External Model Crypto Membership RelayWire Control.

(* cmd/authority/src/main.rs:678-683 AuthorityMember *)
Record AuthorityMember := {
  am_subject_seed : string;
  am_peer_id : string;
  am_membership : MembershipCertificate;
}.

(* cmd/authority/src/main.rs:659-676 AuthorityState *)
Record AuthorityState := {
  st_realm : string;
  st_authority_peer_id : string;
  st_active_subject_seed : option string;
  st_members : list AuthorityMember;
  st_capability_grants : list CapabilityGrant;
  st_revocations : list RevocationRecord;
  st_relay_map_version : Z;
  st_relays : list RelayAnnouncement;
  st_next_capability_sequence : Z;
  st_next_revocation_sequence : Z;
  st_bootstrap_generation : Z;
  st_bootstrap_hints : list BootstrapHint;
  st_snapshot : AuthorityArtifactSnapshot;
}.

(* cmd/authority/src/main.rs:685-694 IssuedArtifact *)
Inductive IssuedArtifact :=
| IssuedToken (value : EnrollmentToken)
| IssuedMembership (subject_seed : string) (active : bool) (value : MembershipCertificate)
| IssuedCapability (value : CapabilityGrant)
| IssuedRevocation (value : RevocationRecord).

(* cmd/authority/src/main.rs:213-223 FixtureArtifacts *)
Record FixtureArtifacts := {
  fa_network_id : NetworkId;
  fa_authority_peer_id : string;
  fa_subject_peer_id : string;
  fa_enrollment_token : EnrollmentToken;
  fa_membership : MembershipCertificate;
  fa_capability_grants : list CapabilityGrant;
  fa_revocations : list RevocationRecord;
  fa_bootstrap_hints : list BootstrapHint;
}.

(** What the server answers: a status and the value its body serializes. *)
Inductive AuthorityBody :=
| BodyHealth
| BodySnapshot (s : AuthorityArtifactSnapshot)
| BodyHints (l : list BootstrapHint)
| BodyRelays (m : RelayMap)
| BodyRevocations (l : list RevocationRecord)
| BodyMethodNotAllowed
| BodySubjectNotFound (subject : option string)
| BodyInvalidAfterSequence (value : string)
| BodyNotFound (path : string).

Definition Disk : Type := gmap string AuthorityState.

(** ** Changing one part of a state *)

Definition set_members_active (members : list AuthorityMember) (active : option string)
    (s : AuthorityState) : AuthorityState := {|
  st_realm := st_realm s; st_authority_peer_id := st_authority_peer_id s;
  st_active_subject_seed := active; st_members := members;
  st_capability_grants := st_capability_grants s; st_revocations := st_revocations s;
  st_relay_map_version := st_relay_map_version s; st_relays := st_relays s;
  st_next_capability_sequence := st_next_capability_sequence s;
  st_next_revocation_sequence := st_next_revocation_sequence s;
  st_bootstrap_generation := st_bootstrap_generation s;
  st_bootstrap_hints := st_bootstrap_hints s; st_snapshot := st_snapshot s |}.

Definition set_grants (grants : list CapabilityGrant) (next : Z) (s : AuthorityState)
    : AuthorityState := {|
  st_realm := st_realm s; st_authority_peer_id := st_authority_peer_id s;
  st_active_subject_seed := st_active_subject_seed s; st_members := st_members s;
  st_capability_grants := grants; st_revocations := st_revocations s;
  st_relay_map_version := st_relay_map_version s; st_relays := st_relays s;
  st_next_capability_sequence := next;
  st_next_revocation_sequence := st_next_revocation_sequence s;
  st_bootstrap_generation := st_bootstrap_generation s;
  st_bootstrap_hints := st_bootstrap_hints s; st_snapshot := st_snapshot s |}.

Definition set_revocations (revocations : list RevocationRecord) (next : Z) (s : AuthorityState)
    : AuthorityState := {|
  st_realm := st_realm s; st_authority_peer_id := st_authority_peer_id s;
  st_active_subject_seed := st_active_subject_seed s; st_members := st_members s;
  st_capability_grants := st_capability_grants s; st_revocations := revocations;
  st_relay_map_version := st_relay_map_version s; st_relays := st_relays s;
  st_next_capability_sequence := st_next_capability_sequence s;
  st_next_revocation_sequence := next;
  st_bootstrap_generation := st_bootstrap_generation s;
  st_bootstrap_hints := st_bootstrap_hints s; st_snapshot := st_snapshot s |}.

Definition set_relays (relays : list RelayAnnouncement) (version : Z) (s : AuthorityState)
    : AuthorityState := {|
  st_realm := st_realm s; st_authority_peer_id := st_authority_peer_id s;
  st_active_subject_seed := st_active_subject_seed s; st_members := st_members s;
  st_capability_grants := st_capability_grants s; st_revocations := st_revocations s;
  st_relay_map_version := version; st_relays := relays;
  st_next_capability_sequence := st_next_capability_sequence s;
  st_next_revocation_sequence := st_next_revocation_sequence s;
  st_bootstrap_generation := st_bootstrap_generation s;
  st_bootstrap_hints := st_bootstrap_hints s; st_snapshot := st_snapshot s |}.

Definition set_hints (hints : list BootstrapHint) (generation : Z) (s : AuthorityState)
    : AuthorityState := {|
  st_realm := st_realm s; st_authority_peer_id := st_authority_peer_id s;
  st_active_subject_seed := st_active_subject_seed s; st_members := st_members s;
  st_capability_grants := st_capability_grants s; st_revocations := st_revocations s;
  st_relay_map_version := st_relay_map_version s; st_relays := st_relays s;
  st_next_capability_sequence := st_next_capability_sequence s;
  st_next_revocation_sequence := st_next_revocation_sequence s;
  st_bootstrap_generation := generation;
  st_bootstrap_hints := hints; st_snapshot := st_snapshot s |}.

Definition set_snapshot (snapshot : AuthorityArtifactSnapshot) (s : AuthorityState)
    : AuthorityState := {|
  st_realm := st_realm s; st_authority_peer_id := st_authority_peer_id s;
  st_active_subject_seed := st_active_subject_seed s; st_members := st_members s;
  st_capability_grants := st_capability_grants s; st_revocations := st_revocations s;
  st_relay_map_version := st_relay_map_version s; st_relays := st_relays s;
  st_next_capability_sequence := st_next_capability_sequence s;
  st_next_revocation_sequence := st_next_revocation_sequence s;
  st_bootstrap_generation := st_bootstrap_generation s;
  st_bootstrap_hints := st_bootstrap_hints s; st_snapshot := snapshot |}.

Definition snapshot_with_token (token : option EnrollmentToken) (s : AuthorityArtifactSnapshot)
    : AuthorityArtifactSnapshot := {|
  as_network_id := as_network_id s; as_enrollment_token := token;
  as_membership := as_membership s; as_capability_grants := as_capability_grants s;
  as_revocations := as_revocations s; as_bootstrap_hints := as_bootstrap_hints s |}.

(* cmd/authority/src/main.rs:861-874 upsert_bootstrap_hint *)
Definition upsert_bootstrap_hint (hints : list BootstrapHint) (hint : BootstrapHint)
    : list BootstrapHint :=
  upsert_by (λ existing,
    match hint_peer_id existing, hint_peer_id hint with
    | Some left_peer, Some right_peer => bool_decide (left_peer = right_peer)
    | _, _ => bool_decide (hint_addresses existing = hint_addresses hint)
    end) hint hints.

(* cmd/authority/src/main.rs:876-885 upsert_relay *)
Definition upsert_relay (relays : list RelayAnnouncement) (relay : RelayAnnouncement)
    : list RelayAnnouncement :=
  upsert_by (λ existing, bool_decide (ra_peer_id existing = ra_peer_id relay)) relay relays.

(* cmd/authority/src/main.rs:887-896 upsert_member *)
Definition upsert_member (members : list AuthorityMember) (member : AuthorityMember)
    : list AuthorityMember :=
  upsert_by (λ existing, String.eqb (am_subject_seed existing) (am_subject_seed member))
    member members.

Definition find_member (seed : string) (members : list AuthorityMember) : option AuthorityMember :=
  find_first (λ member, String.eqb (am_subject_seed member) seed) members.

(** ** Snapshots *)

(* cmd/authority/src/main.rs:898-940 projected_snapshot *)
Definition projected_snapshot (state : AuthorityState) (subject : option string)
    : option AuthorityArtifactSnapshot :=
  selected_member ←
    match subject with
    | Some subject_seed => Some <$> find_member subject_seed (st_members state)
    | None => Some (seed ← st_active_subject_seed state; find_member seed (st_members state))
    end;
  let membership := am_membership <$> selected_member in
  let capability_grants :=
    match membership with
    | Some membership =>
        retain (λ grant, bool_decide (cg_subject_peer_id grant = mc_subject_peer_id membership))
          (st_capability_grants state)
    | None => []
    end in
  let enrollment_token :=
    with_hints (st_bootstrap_hints state) <$> as_enrollment_token (st_snapshot state) in
  Some {|
    as_network_id := as_network_id (st_snapshot state);
    as_enrollment_token := enrollment_token;
    as_membership := membership;
    as_capability_grants := capability_grants;
    as_revocations := st_revocations state;
    as_bootstrap_hints := st_bootstrap_hints state |}.

(* cmd/authority/src/main.rs:942-952 materialize_state *)
Definition materialize_state (state : AuthorityState) : AuthorityState :=
  set_snapshot
    match projected_snapshot state None with
    | Some snapshot => snapshot
    | None => {|
        as_network_id := as_network_id (st_snapshot state);
        as_enrollment_token := as_enrollment_token (st_snapshot state);
        as_membership := None;
        as_capability_grants := [];
        as_revocations := st_revocations state;
        as_bootstrap_hints := st_bootstrap_hints state |}
    end state.

(* cmd/authority/src/main.rs:634-648 filtered_revocations *)
Definition filtered_revocations (state : AuthorityState) (after_sequence : option Z)
    : list RevocationRecord :=
  retain (λ revocation,
    match after_sequence with
    | Some sequence => (sequence <? rr_sequence revocation)%Z
    | None => true
    end) (st_revocations state).

(** ** Requests *)

(* cmd/authority/src/main.rs:609-611 split_request_target *)
Definition split_request_target (url : string) : string * string :=
  match split_once "?"%char url with Some p => p | None => (url, "") end.

(* cmd/authority/src/main.rs:613-618 query_param *)
Definition query_param (query key : string) : option string :=
  head (omap (λ pair,
    let '(name, value) :=
      match split_once "="%char pair with Some p => p | None => (pair, "") end in
    if String.eqb name key && negb (String.eqb value "") then Some value else None)
    (split_char "&"%char query)).

(* cmd/authority/src/main.rs:630-632 parse_u64_param *)
Definition parse_u64_param (value : string) : result string Z := ok_or value (parse_u64 value).

(** [get] tells whether the method is [GET]; [now] is the clock reading of the
    relay map. *)
(* cmd/authority/src/main.rs:554-607 route_request *)
Definition route_request (now : Z) (state : AuthorityState) (get : bool) (url : string)
    : Z * AuthorityBody :=
  if negb get then (405%Z, BodyMethodNotAllowed) else
  let '(path, query) := split_request_target url in
  let subject := query_param query "subject" in
  let after_sequence :=
    match query_param query "after_sequence" with
    | Some value => match parse_u64_param value with Ok n => Ok (Some n) | Err e => Err e end
    | None => Ok None
    end in
  if String.eqb path "/healthz" then (200%Z, BodyHealth)
  else if String.eqb path "/snapshot" then
    match projected_snapshot state subject with
    | Some snapshot => (200%Z, BodySnapshot snapshot)
    | None => (404%Z, BodySubjectNotFound subject)
    end
  else if String.eqb path "/bootstrap" then
    match projected_snapshot state subject with
    | Some snapshot => (200%Z, BodyHints (as_bootstrap_hints snapshot))
    | None => (404%Z, BodySubjectNotFound subject)
    end
  else if String.eqb path "/relays" then
    (200%Z, BodyRelays {| rm_version := st_relay_map_version state; rm_generated_at := now;
                          rm_relays := st_relays state |})
  else if String.eqb path "/revoke" then
    match after_sequence with
    | Ok after_sequence => (200%Z, BodyRevocations (filtered_revocations state after_sequence))
    | Err value => (400%Z, BodyInvalidAfterSequence value)
    end
  else (404%Z, BodyNotFound url).

(** ** Command arguments *)

(* cmd/authority/src/main.rs:49-63 AddBootstrapArgs *)
Record AddBootstrapArgs := {
  ab_address : string;
  ab_peer_id : option string;
  ab_protocols : list string;
  ab_source : string;
  ab_priority : option Z;
}.

(* cmd/authority/src/main.rs:65-87 AddRelayArgs *)
Record AddRelayArgs := {
  ar_peer_id : option string;
  ar_peer_seed : option string;
  ar_region : string;
  ar_addresses : list string;
  ar_control_endpoint : string;
  ar_max_bandwidth_bps : Z;
  ar_supports_quic_datagrams : bool;
  ar_supports_path_migration : bool;
  ar_traffic_classes : list string;
}.

(** [AddMemberArgs] and [MembershipArgs] differ in where the path comes from. *)
(* cmd/authority/src/main.rs:89-107 AddMemberArgs *)
Record AddMemberArgs := {
  mb_network : string;
  mb_realm : string;
  mb_subject_seed : option string;
  mb_subject_peer_id : option string;
  mb_roles : list string;
  mb_ttl_secs : Z;
  mb_active : bool;
}.

(* cmd/authority/src/main.rs:137-151 EnrollmentTokenArgs *)
Record EnrollmentTokenArgs := {
  tk_network : string;
  tk_realm : string;
  tk_subject : option string;
  tk_roles : list string;
  tk_bootstrap_addresses : list string;
  tk_ttl_secs : Z;
}.

(* cmd/authority/src/main.rs:171-189 CapabilityArgs *)
Record CapabilityArgs := {
  cp_network : string;
  cp_realm : string;
  cp_subject_seed : option string;
  cp_subject_peer_id : option string;
  cp_capabilities : list string;
  cp_protocols : list string;
  cp_constraints : list string;
  cp_ttl_secs : Z;
}.

(* cmd/authority/src/main.rs:191-203 RevocationArgs *)
Record RevocationArgs := {
  rv_network : string;
  rv_realm : string;
  rv_peer_id : string;
  rv_reason : string;
  rv_note : option string;
}.

(* cmd/authority/src/main.rs:129-135 ArtifactCommand *)
Inductive ArtifactCommand :=
| CmdEnrollmentToken (args : EnrollmentTokenArgs)
| CmdMembership (args : AddMemberArgs)
| CmdCapability (args : CapabilityArgs)
| CmdRevocation (args : RevocationArgs).

(* cmd/authority/src/main.rs:961-968 parse_revocation_reason *)
Definition parse_revocation_reason (value : string) : RevocationReason :=
  if String.eqb value "key-compromise" then KeyCompromise
  else if String.eqb value "superseded" then Superseded
  else if String.eqb value "unspecified" then Unspecified
  else Administrative.

(* cmd/authority/src/main.rs:978-984 normalize_roles *)
Definition normalize_roles (roles : list string) : list string :=
  match roles with [] => ["member"] | _ => roles end.

(* cmd/authority/src/main.rs:986-992 normalize_capabilities *)
Definition normalize_capabilities (capabilities : list string) : list string :=
  match capabilities with [] => ["records.publish"] | _ => capabilities end.

(* cmd/authority/src/main.rs:994-1007 parse_protocols *)
Definition parse_protocols (protocols : list string) : outcome (list ProtocolId) :=
  mapM (λ protocol, expect_ok (ProtocolId_new protocol))
    match protocols with [] => ["/quip/records/1"] | _ => protocols end.

(* cmd/authority/src/main.rs:1009-1028 bootstrap_hints *)
Definition bootstrap_hints (addresses : list string) : list BootstrapHint :=
  imap (λ index address, {|
    hint_peer_id := None;
    hint_addresses := [address];
    hint_metadata := <["source" := "authority-cli"]> {["priority" := pretty index]} |})
    match addresses with [] => ["https://bootstrap.example.invalid:8443"] | _ => addresses end.

Section commands.
Context `{Blake3, Varint, Base32, Curves, ArtifactJson}.

(* cmd/authority/src/main.rs:970-972 network_id *)
Definition network_id (network : string) : NetworkId := NetworkId_derive (as_bytes network).

(* cmd/authority/src/main.rs:974-976 seeded_keypair *)
Definition seeded_keypair (label : string) : IdentityKeypair :=
  from_secret_bytes (hash_bytes (as_bytes label)).

(* cmd/authority/src/main.rs:1030-1035 fixture_nonce *)
Definition fixture_nonce (label : string) : bytes := take 16 (hash_bytes (as_bytes label)).

(* cmd/authority/src/main.rs:537-552 resolve_subject *)
Definition resolve_subject (subject_seed subject_peer_id : option string)
    : outcome (string * PeerId) :=
  match subject_peer_id with
  | Some text =>
      peer_id ← expect_ok (PeerId_from_str text);
      let label := match subject_seed with
                   | Some seed => seed
                   | None => "peer:" +:+ PeerId_to_text peer_id
                   end in
      Returns (label, peer_id)
  | None =>
      seed ← expect_some subject_seed;
      let subject := seeded_keypair ("subject:" +:+ seed) in
      Returns (seed, peer_id subject)
  end.

(* cmd/authority/src/main.rs:451-535 fixture_artifacts *)
Definition fixture_artifacts (network realm : string) : outcome FixtureArtifacts :=
  let authority := seeded_keypair ("authority:" +:+ realm) in
  let subject := seeded_keypair "subject:fixture-member" in
  let network_id := network_id network in
  let issued_at := 1700000000%Z in
  let enrollment_token := token_issue authority network_id issued_at (issued_at + 3600) realm
    (Some "fixture-member") ["member"]
    [ {| hint_peer_id := None;
         hint_addresses := ["https://bootstrap1.example.invalid:8443"];
         hint_metadata := <["source" := "authority-cli"]> {["priority" := "0"]} |};
      {| hint_peer_id := Some (peer_id authority);
         hint_addresses := ["quic://198.51.100.10:8443"];
         hint_metadata := <["source" := "authority-cli"]> (<["priority" := "1"]>
           {["protocols" := "/quip/control/1,/quip/records/1"]}) |} ]
    (fixture_nonce "fixture-enrollment") in
  let membership := certificate_issue authority network_id (peer_id subject) issued_at
    (issued_at + 86400) ["member"; "publisher"] in
  protocols ← parse_protocols ["/quip/records/1"];
  let capability_grant := grant_issue authority network_id (peer_id subject)
    ["records.publish"; "records.read"] protocols
    {| rl_bandwidth_bps := Some 25000000%Z; rl_concurrent_streams := Some 64%Z;
       rl_max_object_bytes := Some (8 * 1024 * 1024)%Z |}
    ["path_kind=relay"] issued_at (issued_at + 43200) 1 in
  let revocation_record := revocation_issue authority network_id
    (TargetPeer (peer_id authority)) Superseded (issued_at + 1800) (issued_at + 1800) 2
    (Some "bootstrap peer rotated out of service") in
  Returns {|
    fa_network_id := network_id;
    fa_authority_peer_id := PeerId_to_text (peer_id authority);
    fa_subject_peer_id := PeerId_to_text (peer_id subject);
    fa_enrollment_token := enrollment_token;
    fa_membership := membership;
    fa_capability_grants := [capability_grant];
    fa_revocations := [revocation_record];
    fa_bootstrap_hints := et_bootstrap_hints enrollment_token |}.

(* cmd/authority/src/main.rs:801-845 initial_state *)
Definition initial_state (network realm : string) (bootstrap_addresses : list string)
    : outcome AuthorityState :=
  let authority := seeded_keypair ("authority:" +:+ realm) in
  let network_id := network_id network in
  let issued_at := 1700000000%Z in
  token_bootstrap ←
    match bootstrap_addresses with
    | [] => fixture ← fixture_artifacts network realm; Returns (fa_bootstrap_hints fixture)
    | _ => Returns (bootstrap_hints bootstrap_addresses)
    end;
  let enrollment_token := token_issue authority network_id issued_at (issued_at + 3600)
    realm None ["member"] token_bootstrap (fixture_nonce "init-enrollment") in
  Returns (materialize_state {|
    st_realm := realm;
    st_authority_peer_id := PeerId_to_text (peer_id authority);
    st_active_subject_seed := None;
    st_members := [];
    st_capability_grants := [];
    st_revocations := [];
    st_relay_map_version := 0;
    st_relays := [];
    st_next_capability_sequence := 1;
    st_next_revocation_sequence := 1;
    st_bootstrap_generation := 1;
    st_bootstrap_hints := token_bootstrap;
    st_snapshot := {|
      as_network_id := network_id;
      as_enrollment_token := Some enrollment_token;
      as_membership := None;
      as_capability_grants := [];
      as_revocations := [];
      as_bootstrap_hints := [] |} |}).

(** An empty list in an old state file is read from its snapshot. *)
(* cmd/authority/src/main.rs:717-732 load_state *)
Definition load_state (disk : Disk) (state_path : string) : outcome AuthorityState :=
  state ← expect_some ((disk : gmap string AuthorityState) !! state_path);
  let state := match st_bootstrap_hints state with
    | [] => set_hints (as_bootstrap_hints (st_snapshot state)) (st_bootstrap_generation state) state
    | _ => state end in
  let state := match st_capability_grants state with
    | [] => set_grants (as_capability_grants (st_snapshot state))
              (st_next_capability_sequence state) state
    | _ => state end in
  let state := match st_revocations state with
    | [] => set_revocations (as_revocations (st_snapshot state))
              (st_next_revocation_sequence state) state
    | _ => state end in
  Returns (materialize_state state).

(* cmd/authority/src/main.rs:734-743 save_state *)
Definition save_state (state_path : string) (state : AuthorityState) (disk : Disk) : Disk :=
  <[state_path := state]> (disk : gmap string AuthorityState).

(* cmd/authority/src/main.rs:707-715 load_or_init_state *)
Definition load_or_init_state (disk : Disk) (state_path network realm : string)
    : outcome (AuthorityState * Disk) :=
  if decide (is_Some ((disk : gmap string AuthorityState) !! state_path)) then
    state ← load_state disk state_path; Returns (state, disk)
  else
    state ← initial_state network realm [];
    Returns (state, save_state state_path state disk).

(* cmd/authority/src/main.rs:847-852 next_capability_sequence *)
Definition next_capability_sequence (disk : Disk) (state_path : option string) : outcome Z :=
  match state_path with
  | Some path => state ← load_state disk path; Returns (st_next_capability_sequence state)
  | None => Returns 1%Z
  end.

(* cmd/authority/src/main.rs:854-859 next_revocation_sequence *)
Definition next_revocation_sequence (disk : Disk) (state_path : option string) : outcome Z :=
  match state_path with
  | Some path => state ← load_state disk path; Returns (st_next_revocation_sequence state)
  | None => Returns 1%Z
  end.

(** The state with one artifact recorded, before its snapshot is rebuilt. *)
(* cmd/authority/src/main.rs:751-795 persist_issued_artifact (match) *)
Definition record_artifact (artifact : IssuedArtifact) (state : AuthorityState) : AuthorityState :=
  match artifact with
  | IssuedToken value =>
      set_snapshot (snapshot_with_token (Some value) (st_snapshot state)) state
  | IssuedMembership subject_seed active value =>
      set_members_active
        (upsert_member (st_members state) {|
           am_subject_seed := subject_seed;
           am_peer_id := PeerId_to_text (mc_subject_peer_id value);
           am_membership := value |})
        (if active || bool_decide (st_active_subject_seed state = None)
         then Some subject_seed else st_active_subject_seed state) state
  | IssuedCapability value =>
      set_grants
        (upsert_by (λ existing, same_grant existing value) value (st_capability_grants state))
        (Z.max (st_next_capability_sequence state) (u64_add (cg_sequence value) 1)) state
  | IssuedRevocation value =>
      set_revocations
        (if any (λ existing, same_revocation existing value) (st_revocations state)
         then st_revocations state else st_revocations state ++ [value])
        (Z.max (st_next_revocation_sequence state) (u64_add (rr_sequence value) 1)) state
  end.

(* cmd/authority/src/main.rs:745-799 persist_issued_artifact *)
Definition persist_issued_artifact (disk : Disk) (state_path : string) (artifact : IssuedArtifact)
    : outcome Disk :=
  state ← expect_some ((disk : gmap string AuthorityState) !! state_path);
  Returns (save_state state_path (materialize_state (record_artifact artifact state)) disk).

(* cmd/authority/src/main.rs:240-244 init *)
Definition init (network realm : string) (bootstrap_addresses : list string) (state_path : string)
    (disk : Disk) : outcome (AuthorityState * Disk) :=
  state ← initial_state network realm bootstrap_addresses;
  Returns (state, save_state state_path state disk).

(* cmd/authority/src/main.rs:246-276 add_member *)
Definition add_member (now : Z) (state_path : string) (args : AddMemberArgs) (disk : Disk)
    : outcome (MembershipCertificate * Disk) :=
  let authority := seeded_keypair ("authority:" +:+ mb_realm args) in
  '(subject_label, subject_peer_id) ←
    resolve_subject (mb_subject_seed args) (mb_subject_peer_id args);
  let issued_at := now in
  let membership := certificate_issue authority (network_id (mb_network args)) subject_peer_id
    issued_at (u64_add issued_at (mb_ttl_secs args)) (normalize_roles (mb_roles args)) in
  state ← load_state disk state_path;
  let state := set_members_active
    (upsert_member (st_members state) {|
       am_subject_seed := subject_label;
       am_peer_id := PeerId_to_text subject_peer_id;
       am_membership := membership |})
    (if mb_active args || bool_decide (st_active_subject_seed state = None)
     then Some subject_label else st_active_subject_seed state) state in
  Returns (membership, save_state state_path (materialize_state state) disk).

(* cmd/authority/src/main.rs:278-299 add_bootstrap *)
Definition add_bootstrap (state_path : string) (args : AddBootstrapArgs) (disk : Disk)
    : outcome (list BootstrapHint * Disk) :=
  state ← load_state disk state_path;
  let metadata : gmap string string := {["source" := ab_source args]} in
  let metadata := match ab_priority args with
    | Some priority => <["priority" := pretty priority]> metadata | None => metadata end in
  let metadata := match ab_protocols args with
    | [] => metadata
    | protocols => <["protocols" := join "," protocols]> metadata end in
  peer_id ← match ab_peer_id args with
    | Some text => peer ← expect_ok (PeerId_from_str text); Returns (Some peer)
    | None => Returns None end;
  let hint := {|
    hint_peer_id := peer_id; hint_addresses := [ab_address args]; hint_metadata := metadata |} in
  let state := materialize_state (set_hints (upsert_bootstrap_hint (st_bootstrap_hints state) hint)
    (u64_add (st_bootstrap_generation state) 1) state) in
  Returns (st_bootstrap_hints state, save_state state_path state disk).

(* cmd/authority/src/main.rs:301-339 add_relay *)
Definition add_relay (state_path : string) (args : AddRelayArgs) (disk : Disk)
    : outcome (list RelayAnnouncement * Disk) :=
  state ← load_state disk state_path;
  peer_id ← match ar_peer_id args with
    | Some text => expect_ok (PeerId_from_str text)
    | None => seed ← expect_some (ar_peer_seed args); Returns (peer_id (seeded_keypair seed))
    end;
  let relay := {|
    ra_peer_id := peer_id;
    ra_region := ar_region args;
    ra_advertised_endpoints := ar_addresses args;
    ra_control_endpoint := ar_control_endpoint args;
    ra_max_bandwidth_bps := ar_max_bandwidth_bps args;
    ra_supports_quic_datagrams := ar_supports_quic_datagrams args;
    ra_supports_path_migration := ar_supports_path_migration args;
    ra_traffic_classes :=
      match ar_traffic_classes args with
      | [] => ["NetworkControl"; "InteractiveRpc"; "Background"]
      | classes => classes
      end |} in
  let state := materialize_state (set_relays (upsert_relay (st_relays state) relay)
    (u64_add (st_relay_map_version state) 1) state) in
  Returns (st_relays state, save_state state_path state disk).

(** The artifact an [issue] command makes. *)
(* cmd/authority/src/main.rs:360-442 issue (artifact) *)
Definition issue_artifact (now : Z) (state_path : option string) (command : ArtifactCommand)
    (disk : Disk) : outcome IssuedArtifact :=
  match command with
  | CmdEnrollmentToken args =>
      let authority := seeded_keypair ("authority:" +:+ tk_realm args) in
      Returns (IssuedToken (token_issue authority (network_id (tk_network args)) now
        (u64_add now (tk_ttl_secs args)) (tk_realm args) (tk_subject args)
        (normalize_roles (tk_roles args)) (bootstrap_hints (tk_bootstrap_addresses args))
        (fixture_nonce "enrollment-token")))
  | CmdMembership args =>
      let authority := seeded_keypair ("authority:" +:+ mb_realm args) in
      '(subject_label, subject_peer_id) ←
        resolve_subject (mb_subject_seed args) (mb_subject_peer_id args);
      Returns (IssuedMembership subject_label (mb_active args)
        (certificate_issue authority (network_id (mb_network args)) subject_peer_id now
          (u64_add now (mb_ttl_secs args)) (normalize_roles (mb_roles args))))
  | CmdCapability args =>
      let authority := seeded_keypair ("authority:" +:+ cp_realm args) in
      '(_, subject_peer_id) ← resolve_subject (cp_subject_seed args) (cp_subject_peer_id args);
      sequence ← next_capability_sequence disk state_path;
      protocols ← parse_protocols (cp_protocols args);
      Returns (IssuedCapability (grant_issue authority (network_id (cp_network args))
        subject_peer_id (normalize_capabilities (cp_capabilities args)) protocols
        {| rl_bandwidth_bps := Some 10000000%Z; rl_concurrent_streams := Some 32%Z;
           rl_max_object_bytes := Some (4 * 1024 * 1024)%Z |}
        (cp_constraints args) now (u64_add now (cp_ttl_secs args)) sequence))
  | CmdRevocation args =>
      let authority := seeded_keypair ("authority:" +:+ rv_realm args) in
      sequence ← next_revocation_sequence disk state_path;
      peer ← expect_ok (PeerId_from_str (rv_peer_id args));
      Returns (IssuedRevocation (revocation_issue authority (network_id (rv_network args))
        (TargetPeer peer) (parse_revocation_reason (rv_reason args)) now now sequence
        (rv_note args)))
  end.

(* cmd/authority/src/main.rs:358-449 issue *)
Definition issue (now : Z) (state_path : option string) (command : ArtifactCommand) (disk : Disk)
    : outcome (IssuedArtifact * Disk) :=
  artifact ← issue_artifact now state_path command disk;
  match state_path with
  | Some path =>
      disk' ← persist_issued_artifact disk path artifact; Returns (artifact, disk')
  | None => Returns (artifact, disk)
  end.

(** One round of the loop of [serve]: the state is loaded anew for each
    request. *)
(* cmd/authority/src/main.rs:349-355 serve (loop) *)
Definition serve_request (now : Z) (state_path network realm : string) (get : bool) (url : string)
    (disk : Disk) : outcome ((Z * AuthorityBody) * Disk) :=
  '(state, disk) ← load_or_init_state disk state_path network realm;
  Returns (route_request now state get url, disk).

Fixpoint serve_requests (state_path network realm : string) (requests : list (Z * bool * string))
    (disk : Disk) : outcome (list (Z * AuthorityBody) * Disk) :=
  match requests with
  | [] => Returns ([], disk)
  | (now, get, url) :: requests =>
      '(response, disk) ← serve_request now state_path network realm get url disk;
      '(responses, disk) ← serve_requests state_path network realm requests disk;
      Returns (response :: responses, disk)
  end.

(** The requests a server gets, each with the clock reading it is answered at,
    in order. *)
(* cmd/authority/src/main.rs:341-356 serve *)
Definition serve (state_path network realm : string) (requests : list (Z * bool * string))
    (disk : Disk) : outcome (list (Z * AuthorityBody) * Disk) :=
  '(_, disk) ← load_or_init_state disk state_path network realm;
  serve_requests state_path network realm requests disk.

(** [main] for one command line; the clock is read once by each command that
    reads it. *)
(* cmd/authority/src/main.rs:26-35 Command *)
Inductive Command :=
| CmdInit (network realm state_path : string) (bootstrap_addresses : list string)
| CmdAddMember (state_path : string) (args : AddMemberArgs)
| CmdAddBootstrap (state_path : string) (args : AddBootstrapArgs)
| CmdAddRelay (state_path : string) (args : AddRelayArgs)
| CmdServe (network realm state_path : string) (requests : list (Z * bool * string))
| CmdIssue (state_path : option string) (artifact : ArtifactCommand)
| CmdFixtures (network realm : string).

(** The disk a command leaves. *)
(* cmd/authority/src/main.rs:225-238 main *)
Definition run_command (now : Z) (command : Command) (disk : Disk) : outcome Disk :=
  match command with
  | CmdInit network realm path addresses =>
      '(_, disk) ← init network realm addresses path disk; Returns disk
  | CmdAddMember path args => '(_, disk) ← add_member now path args disk; Returns disk
  | CmdAddBootstrap path args => '(_, disk) ← add_bootstrap path args disk; Returns disk
  | CmdAddRelay path args => '(_, disk) ← add_relay path args disk; Returns disk
  | CmdServe network realm path requests =>
      '(_, disk) ← serve path network realm requests disk; Returns disk
  | CmdIssue path artifact => '(_, disk) ← issue now path artifact disk; Returns disk
  | CmdFixtures network realm => _ ← fixture_artifacts network realm; Returns disk
  end.

(** A series of commands, each with its clock reading.  A command writes the
    state file last, so one that panics leaves it as it was. *)
Definition run_commands (commands : list (Z * Command)) (disk : Disk) : Disk :=
  foldl (λ disk '(now, command),
    match run_command now command disk with Returns disk' => disk' | Panics => disk end)
    disk commands.
End commands.
