(* ===== verification/AuthorityProps.v ===== *)
(** The authority's commands as edits of its state: the invariant of every
    state file, what a command may change, and what a client that keeps
    fetching snapshots ends up with. *)
From stdpp Require Import countable option base list list_numbers strings gmap pretty.
From Stdlib Require Import ZArith Lia Strings.Byte Strings.Ascii.
From S2P Require Import Prelude Text BTree F32 External Model Crypto Membership RelayWire Control Authority.

Section states.
Context `{Blake3, Varint, Base32, Curves, ArtifactJson}.

(** ** Well-formed states *)

(** Records are numbered in the order they were made, from 1, and the counter
    is the next number. *)
Definition numbered {A} (sequence : A → Z) (next : Z) (l : list A) : Prop :=
  sequence <$> l = seqZ 1 (Z.of_nat (length l)) ∧ next = (1 + Z.of_nat (length l))%Z.

Record authority_core (s : AuthorityState) : Prop := {
  core_grants : numbered cg_sequence (st_next_capability_sequence s) (st_capability_grants s);
  core_revocations : numbered rr_sequence (st_next_revocation_sequence s) (st_revocations s);
  core_members : NoDup (am_subject_seed <$> st_members s);
  core_member_peers m : m ∈ st_members s →
    am_peer_id m = PeerId_to_text (mc_subject_peer_id (am_membership m));
  core_active :
    match st_active_subject_seed s with
    | Some seed => seed ∈ am_subject_seed <$> st_members s
    | None => st_members s = []
    end;
  core_relays : NoDup (ra_peer_id <$> st_relays s);
  core_hints : st_bootstrap_hints s ≠ [];
  core_token : is_Some (as_enrollment_token (st_snapshot s));
}.

(** A state on disk also holds the snapshot its other fields project to. *)
Record authority_wf (s : AuthorityState) : Prop := {
  wf_core :> authority_core s;
  wf_snapshot : projected_snapshot s None = Some (st_snapshot s);
}.

(** ** Edits: what a command does to the state, before the snapshot is rebuilt *)

Definition artifact_fresh (artifact : IssuedArtifact) (s : AuthorityState) : Prop :=
  match artifact with
  | IssuedCapability g =>
      cg_sequence g = st_next_capability_sequence s ∧
      u64_add (cg_sequence g) 1 = (cg_sequence g + 1)%Z
  | IssuedRevocation r =>
      rr_sequence r = st_next_revocation_sequence s ∧
      u64_add (rr_sequence r) 1 = (rr_sequence r + 1)%Z
  | _ => True
  end.

Inductive state_edit (s : AuthorityState) : AuthorityState → Prop :=
| edit_record artifact : artifact_fresh artifact s → state_edit s (record_artifact artifact s)
| edit_bootstrap hint generation :
    state_edit s (set_hints (upsert_bootstrap_hint (st_bootstrap_hints s) hint) generation s)
| edit_relay relay version :
    state_edit s (set_relays (upsert_relay (st_relays s) relay) version s).

(** ** Projection *)

Lemma find_member_elem seed members m :
  find_member seed members = Some m → m ∈ members ∧ am_subject_seed m = seed.
Proof. by intros [? ?%String.eqb_eq]%find_first_Some. Qed.

Lemma find_member_None seed members :
  find_member seed members = None ↔ seed ∉ am_subject_seed <$> members.
Proof.
  unfold find_member. rewrite find_first_None, any_false. split.
  - intros Hn (m & -> & Hm)%list_elem_of_fmap. specialize (Hn m Hm).
    by rewrite String.eqb_refl in Hn.
  - intros Hn m Hm. apply String.eqb_neq. intros <-. by apply Hn, list_elem_of_fmap_2.
Qed.

(** The snapshot made for a selected member. *)
Definition snapshot_for (s : AuthorityState) (m : option AuthorityMember)
    : AuthorityArtifactSnapshot := {|
  as_network_id := as_network_id (st_snapshot s);
  as_enrollment_token :=
    with_hints (st_bootstrap_hints s) <$> as_enrollment_token (st_snapshot s);
  as_membership := am_membership <$> m;
  as_capability_grants :=
    match m with
    | Some m => retain (λ grant, bool_decide
        (cg_subject_peer_id grant = mc_subject_peer_id (am_membership m)))
        (st_capability_grants s)
    | None => []
    end;
  as_revocations := st_revocations s;
  as_bootstrap_hints := st_bootstrap_hints s |}.

Lemma projected_snapshot_Some s seed :
  projected_snapshot s (Some seed) =
  (λ m, snapshot_for s (Some m)) <$> find_member seed (st_members s).
Proof. unfold projected_snapshot. by destruct (find_member seed (st_members s)). Qed.

Lemma projected_snapshot_None s :
  projected_snapshot s None =
  Some (snapshot_for s (seed ← st_active_subject_seed s; find_member seed (st_members s))).
Proof.
  unfold projected_snapshot, snapshot_for. simpl.
  destruct (st_active_subject_seed s) as [seed|]; simpl; [|done].
  by destruct (find_member seed (st_members s)).
Qed.

Lemma with_hints_twice h h' (t : option EnrollmentToken) :
  with_hints h <$> (with_hints h' <$> t) = with_hints h <$> t.
Proof. by destruct t. Qed.

Lemma materialize_wf s : authority_core s → authority_wf (materialize_state s).
Proof.
  intros []. unfold materialize_state. rewrite projected_snapshot_None.
  split; [split; simpl; rewrite ?fmap_is_Some; done|].
  rewrite projected_snapshot_None. unfold snapshot_for. simpl. by rewrite with_hints_twice.
Qed.

Lemma materialize_id s : authority_wf s → materialize_state s = s.
Proof. intros [_ Hs]. unfold materialize_state. rewrite Hs. by destruct s. Qed.

(** ** Edits keep the invariant *)

Lemma numbered_snoc {A} (sequence : A → Z) next l x :
  numbered sequence next l → sequence x = next →
  numbered sequence (Z.max next (next + 1)) (l ++ [x]).
Proof.
  intros [Hs ->] Hx. unfold numbered. rewrite fmap_app, Hs, length_app, Nat.add_comm. simpl.
  rewrite Hx. split; [|lia]. by rewrite seqZ_S.
Qed.

Lemma numbered_lt {A} (sequence : A → Z) next l x :
  numbered sequence next l → x ∈ l → (sequence x < next)%Z.
Proof.
  intros [Hs ->] Hx. assert (sequence x ∈ sequence <$> l) as Hin by by apply list_elem_of_fmap_2.
  rewrite Hs, elem_of_seqZ in Hin. lia.
Qed.

Lemma numbered_inj {A} (sequence : A → Z) next l x y :
  numbered sequence next l → x ∈ l → y ∈ l → sequence x = sequence y → x = y.
Proof.
  intros [Hs _] [i Hi]%list_elem_of_lookup [j Hj]%list_elem_of_lookup Heq.
  pose proof (NoDup_seqZ 1 (Z.of_nat (length l))) as Hnd. rewrite <-Hs in Hnd.
  assert (i = j) as <-; [|congruence].
  eapply (NoDup_lookup _ _ _ (sequence x) Hnd); rewrite list_lookup_fmap.
  - by rewrite Hi.
  - by rewrite Hj, Heq.
Qed.

Lemma record_capability g s :
  artifact_fresh (IssuedCapability g) s → authority_core s →
  record_artifact (IssuedCapability g) s =
  set_grants (st_capability_grants s ++ [g])
    (Z.max (st_next_capability_sequence s) (st_next_capability_sequence s + 1)) s.
Proof.
  intros [Hseq Hadd] Hs. simpl. rewrite Hadd, Hseq, upsert_by_fresh; [done|].
  intros e He. unfold same_grant. pose proof (numbered_lt _ _ _ _ (core_grants _ Hs) He).
  rewrite (proj2 (Z.eqb_neq _ _)) by lia. by rewrite !andb_false_r.
Qed.

Lemma record_revocation r s :
  artifact_fresh (IssuedRevocation r) s → authority_core s →
  record_artifact (IssuedRevocation r) s =
  set_revocations (st_revocations s ++ [r])
    (Z.max (st_next_revocation_sequence s) (st_next_revocation_sequence s + 1)) s.
Proof.
  intros [Hseq Hadd] Hs. simpl. rewrite Hadd, Hseq.
  rewrite (proj2 (any_false _ _)); [done|].
  intros e He. unfold same_revocation. pose proof (numbered_lt _ _ _ _ (core_revocations _ Hs) He).
  by rewrite (proj2 (Z.eqb_neq _ _)) by lia.
Qed.

Lemma record_membership_core seed active value s :
  authority_core s → authority_core (record_artifact (IssuedMembership seed active value) s).
Proof.
  intros []. split; simpl; try done.
  - unfold upsert_member. apply NoDup_upsert_by; [|done]. intros y. apply String.eqb_eq.
  - unfold upsert_member. intros m [Hm| ->]%elem_of_upsert_by; auto.
  - unfold upsert_member. rewrite (fmap_upsert_by am_subject_seed) by (intros; apply String.eqb_eq).
    simpl. destruct (any _ _) eqn:Ha.
    + apply any_true in Ha as (y & Hy & Heq%String.eqb_eq). simpl in Heq.
      destruct (active || _).
      * rewrite <-Heq. by apply list_elem_of_fmap_2.
      * destruct (st_active_subject_seed s); [done|].
        rewrite core_active0 in Hy. by apply elem_of_nil in Hy.
    + destruct (st_active_subject_seed s) as [a|].
      * rewrite bool_decide_eq_false_2, orb_false_r by done. destruct active; set_solver.
      * rewrite bool_decide_eq_true_2, orb_true_r by done. set_solver.
Qed.

Lemma state_edit_core s s' : authority_core s → state_edit s s' → authority_core s'.
Proof.
  intros Hs [artifact Hf|hint generation|relay version].
  - destruct artifact as [v|seed active v|g|r].
    + destruct Hs. by split.
    + by apply record_membership_core.
    + rewrite record_capability by done. destruct Hs, Hf. split; try done. by apply numbered_snoc.
    + rewrite record_revocation by done. destruct Hs, Hf. split; try done. by apply numbered_snoc.
  - destruct Hs. split; try done. simpl. unfold upsert_bootstrap_hint, upsert_by.
    destruct (any _ _); [|by destruct (st_bootstrap_hints s)].
    intros Hn%(f_equal length). rewrite length_update_first in Hn.
    by apply core_hints0, length_zero_iff_nil.
  - destruct Hs. split; try done. simpl. unfold upsert_relay.
    apply NoDup_upsert_by; [|done]. intros y. apply bool_decide_eq_true.
Qed.
(** ** Commands *)

Lemma load_state_wf (d : Disk) path s :
  (d : gmap string AuthorityState) !! path = Some s → authority_wf s →
  load_state d path = Returns s.
Proof.
  intros Hp Hs. unfold load_state. rewrite Hp. cbn [expect_some mbind outcome_bind].
  pose proof (wf_snapshot s Hs) as Hsnap. rewrite projected_snapshot_None in Hsnap.
  injection Hsnap as Hsnap.
  destruct (st_bootstrap_hints s) eqn:Hh; [by destruct (core_hints s Hs)|].
  assert (match st_capability_grants s with
    | [] => set_grants (as_capability_grants (st_snapshot s)) (st_next_capability_sequence s) s
    | _ => s end = s) as ->.
  { destruct (st_capability_grants s) eqn:Hg; [|done].
    rewrite <-Hsnap. unfold snapshot_for. simpl. rewrite Hg.
    destruct s; simpl in *; subst. by destruct (_ ≫= _). }
  assert (match st_revocations s with
    | [] => set_revocations (as_revocations (st_snapshot s)) (st_next_revocation_sequence s) s
    | _ => s end = s) as ->.
  { destruct (st_revocations s) eqn:Hr; [|done].
    rewrite <-Hsnap. unfold snapshot_for. simpl. rewrite Hr. destruct s; simpl in *; by subst. }
  by rewrite materialize_id.
Qed.

Lemma fixture_artifacts_Returns network realm :
  ∃ f, fixture_artifacts network realm = Returns f ∧ fa_bootstrap_hints f ≠ [].
Proof. eexists. split; [reflexivity|done]. Qed.

Lemma initial_state_wf network realm addresses :
  ∃ s, initial_state network realm addresses = Returns s ∧ authority_wf s ∧
    st_capability_grants s = [] ∧ st_revocations s = [] ∧
    as_network_id (st_snapshot s) = network_id network.
Proof.
  destruct (fixture_artifacts_Returns network realm) as (f & Hf & Hne).
  unfold initial_state.
  assert (∃ hints, match addresses with
    | [] => fixture ← fixture_artifacts network realm; Returns (fa_bootstrap_hints fixture)
    | _ => Returns (bootstrap_hints addresses) end = Returns hints ∧ hints ≠ []) as (hints & -> & Hh).
  { destruct addresses as [|a l]; [rewrite Hf; by eexists|]. by eexists. }
  eexists. split; [reflexivity|]. split; [|done].
  apply materialize_wf. split; simpl; try done.
  all: try apply NoDup_nil_2. intros m Hm. by apply elem_of_nil in Hm.
Qed.
(** The abstract machine: a command does nothing, starts a state where there
    was none (or where an [init] says so), or makes one edit. *)
Inductive disk_step (reset : option string) (d : Disk) : Disk → Prop :=
| step_same : disk_step reset d d
| step_fresh path network realm addresses s :
    (d : gmap string AuthorityState) !! path = None ∨ reset = Some path →
    initial_state network realm addresses = Returns s →
    disk_step reset d (save_state path s d)
| step_edit path s s' :
    (d : gmap string AuthorityState) !! path = Some s → state_edit s s' →
    disk_step reset d (save_state path (materialize_state s') d).

Definition reset_path (c : Command) : option string :=
  match c with CmdInit _ _ path _ => Some path | _ => None end.

(** A well-formed state with room in its counters; a disk of such states. *)
Definition state_room (n : Z) (s : AuthorityState) : Prop :=
  authority_wf s ∧ (Z.of_nat (length (st_capability_grants s)) ≤ n)%Z ∧
  (Z.of_nat (length (st_revocations s)) ≤ n)%Z.
Definition disk_inv (n : Z) (d : Disk) : Prop :=
  ∀ path s, (d : gmap string AuthorityState) !! path = Some s → state_room n s.

Ltac bind_inv :=
  repeat match goal with
  | H : (_ ≫= _) = Returns _ |- _ => apply outcome_bind_Returns in H as (? & ? & H)
  | H : Returns _ = Returns _ |- _ => injection H as H
  | H : (let '(_, _) := ?p in _) = Returns _ |- _ => destruct p
  | H : (_, _) = (_, _) |- _ => injection H as ?
  end; subst.

Section issue.
Context (n : Z) (d : Disk) (path : string) (s : AuthorityState) (Hn : (n + 1 < u64_max)%Z).
Context (Hp : (d : gmap string AuthorityState) !! path = Some s) (Hs : state_room n s).

(** The next number of a state still fits. *)
Lemma next_fits seq :
  seq = st_next_capability_sequence s ∨ seq = st_next_revocation_sequence s →
  u64_add seq 1 = (seq + 1)%Z.
Proof.
  intros Hseq. destruct Hs as (Hwf & Hg & Hr).
  destruct (core_grants s Hwf) as [_ Eg], (core_revocations s Hwf) as [_ Er].
  apply u64_wrap_id. unfold in_u64. lia.
Qed.

Lemma next_capability_inv seq :
  next_capability_sequence d (Some path) = Returns seq → seq = st_next_capability_sequence s.
Proof.
  intros Hq. unfold next_capability_sequence in Hq.
  rewrite (load_state_wf d path s) in Hq by (done || apply Hs). by injection Hq.
Qed.

Lemma next_revocation_inv seq :
  next_revocation_sequence d (Some path) = Returns seq → seq = st_next_revocation_sequence s.
Proof.
  intros Hq. unfold next_revocation_sequence in Hq.
  rewrite (load_state_wf d path s) in Hq by (done || apply Hs). by injection Hq.
Qed.

Lemma issue_artifact_fresh now command artifact :
  issue_artifact now (Some path) command d = Returns artifact → artifact_fresh artifact s.
Proof.
  intros Ha. destruct command; cbn [issue_artifact] in Ha; bind_inv; simpl; try done.
  - match goal with Hq : next_capability_sequence _ _ = _ |- _ =>
      apply next_capability_inv in Hq; subst end. split; [done|]. by apply next_fits; left.
  - match goal with Hq : next_revocation_sequence _ _ = _ |- _ =>
      apply next_revocation_inv in Hq; subst end. split; [done|]. by apply next_fits; right.
Qed.
End issue.

Section step.
Context (n : Z) (d : Disk) (Hd : disk_inv n d).

Lemma load_state_inv path s :
  load_state d path = Returns s →
  (d : gmap string AuthorityState) !! path = Some s ∧ authority_wf s.
Proof.
  intros Hl. destruct ((d : gmap string AuthorityState) !! path) as [s0|] eqn:Hp.
  - destruct (Hd _ _ Hp) as [Hs _]. rewrite (load_state_wf d path s0) in Hl by done.
    by injection Hl as ->.
  - unfold load_state in Hl. by rewrite Hp in Hl.
Qed.

Lemma load_or_init_Returns path network realm :
  ∃ s d', load_or_init_state d path network realm = Returns (s, d') ∧ authority_wf s ∧
    d' !! path = Some s ∧ disk_step None d d'.
Proof.
  unfold load_or_init_state. case_decide as Hp.
  - destruct Hp as [s Hp]. destruct (Hd _ _ Hp) as [Hs _].
    rewrite (load_state_wf d path s) by done. exists s, d. split_and!; try done. constructor.
  - destruct (initial_state_wf network realm []) as (s & Hi & Hs & _). rewrite Hi.
    exists s, (save_state path s d). split_and!; [done..|apply lookup_insert_eq|].
    eapply step_fresh; [|done]. left. by apply eq_None_not_Some.
Qed.
End step.

(** A server that found or made its state leaves the disk alone afterwards. *)
Lemma serve_requests_disk (d : Disk) path network realm requests s :
  d !! path = Some s → authority_wf s →
  serve_requests path network realm requests d =
  Returns ((λ '(now, get, url), route_request now s get url) <$> requests, d).
Proof.
  intros Hp Hs. induction requests as [|[[now get] url] requests IH]; [done|].
  cbn [serve_requests]. unfold serve_request, load_or_init_state.
  rewrite decide_True by done. rewrite (load_state_wf d path s) by done.
  cbn [mbind outcome_bind]. by rewrite IH.
Qed.

Lemma serve_Returns n (d : Disk) path network realm requests :
  disk_inv n d →
  ∃ s d', authority_wf s ∧ d' !! path = Some s ∧ disk_step None d d' ∧
    serve path network realm requests d =
    Returns ((λ '(now, get, url), route_request now s get url) <$> requests, d').
Proof.
  intros Hd. destruct (load_or_init_Returns n d Hd path network realm) as (s & d' & Hl & Hs & Hp & Hst).
  exists s, d'. split_and!; [done..|]. unfold serve. rewrite Hl. cbn [mbind outcome_bind].
  by apply serve_requests_disk.
Qed.

(** Every command is one step of the abstract machine. *)
Lemma command_refines n d now c d' :
  (n + 1 < u64_max)%Z → disk_inv n d →
  run_command now c d = Returns d' → disk_step (reset_path c) d d'.
Proof.
  intros Hn Hd Hr. destruct c as [network realm path addresses|path args|path args|path args
    |network realm path requests|path artifact|network realm];
    cbn [run_command reset_path] in *.
  - unfold init in Hr. bind_inv. eapply step_fresh; eauto.
  - unfold add_member in Hr. bind_inv.
    match goal with Hl : load_state _ _ = Returns ?s |- _ =>
      apply (load_state_inv n) in Hl as [Hl _]; [|done] end.
    match goal with |- context [certificate_issue ?a ?b ?c ?i ?e ?r] =>
      eapply (step_edit _ _ _ _ (record_artifact
        (IssuedMembership _ (mb_active args) (certificate_issue a b c i e r)) _)) end; [done|].
    by apply edit_record.
  - unfold add_bootstrap in Hr. bind_inv.
    match goal with Hl : load_state _ _ = Returns ?s |- _ =>
      apply (load_state_inv n) in Hl as [Hl _]; [|done] end.
    eapply step_edit; [done|]. apply edit_bootstrap.
  - unfold add_relay in Hr. bind_inv.
    match goal with Hl : load_state _ _ = Returns ?s |- _ =>
      apply (load_state_inv n) in Hl as [Hl _]; [|done] end.
    eapply step_edit; [done|]. apply edit_relay.
  - destruct (serve_Returns n d path network realm requests Hd) as (s & d1 & _ & _ & Hst & Hs).
    rewrite Hs in Hr. by bind_inv.
  - unfold issue in Hr. destruct path as [path|]; bind_inv; [|constructor].
    unfold persist_issued_artifact in *. bind_inv.
    match goal with Hl : expect_some _ = Returns ?s |- _ =>
      destruct ((d : gmap string AuthorityState) !! path) eqn:Hp; [injection Hl as <-|done] end.
    eapply step_edit; [done|]. apply edit_record.
    eapply (issue_artifact_fresh n); [done..|by apply (Hd path)|done].
  - bind_inv. constructor.
Qed.

(** ** What commands keep *)

(** The second state has every record of the first, in place, and every
    member. *)
Record authority_extends (s s' : AuthorityState) : Prop := {
  ext_network : as_network_id (st_snapshot s') = as_network_id (st_snapshot s);
  ext_grants : st_capability_grants s `prefix_of` st_capability_grants s';
  ext_revocations : st_revocations s `prefix_of` st_revocations s';
  ext_members : (am_subject_seed <$> st_members s) ⊆ (am_subject_seed <$> st_members s');
}.

#[export] Instance authority_extends_preorder : PreOrder authority_extends.
Proof.
  split.
  - intros s. by split.
  - intros s1 s2 s3 [] []. split; [congruence|by etrans..].
Qed.

Lemma state_edit_extends s s' :
  authority_core s → state_edit s s' →
  authority_extends s (materialize_state s') ∧
  length (st_capability_grants s') ≤ length (st_capability_grants s) + 1 ∧
  length (st_revocations s') ≤ length (st_revocations s) + 1.
Proof.
  intros Hs He. unfold materialize_state. rewrite projected_snapshot_None.
  destruct He as [artifact Hf|hint generation|relay version].
  - destruct artifact as [v|seed active v|g|r].
    + split_and!; [by split|simpl; lia..].
    + split_and!; [|simpl; lia..]. split; try done. simpl. unfold upsert_member.
      rewrite (fmap_upsert_by am_subject_seed) by (intros; apply String.eqb_eq).
      destruct (any _ _); set_solver.
    + rewrite record_capability by done.
      split_and!; [|simpl; rewrite ?length_app; simpl; lia|simpl; rewrite ?length_app; simpl; lia].
      split; try done. simpl. by apply prefix_app_r.
    + rewrite record_revocation by done.
      split_and!; [|simpl; rewrite ?length_app; simpl; lia|simpl; rewrite ?length_app; simpl; lia].
      split; try done. simpl. by apply prefix_app_r.
  - split_and!; [by split|simpl; lia..].
  - split_and!; [by split|simpl; lia..].
Qed.

Lemma disk_step_inv n reset d d' :
  (0 ≤ n)%Z → disk_inv n d → disk_step reset d d' → disk_inv (n + 1) d'.
Proof.
  intros Hn Hd Hst path s Hp.
  destruct Hst as [|p network realm addresses s0 _ Hi|p s0 s1 Hp0 He].
  - destruct (Hd _ _ Hp) as (? & ? & ?). split_and!; [done|lia..].
  - unfold save_state in Hp. destruct (decide (p = path)) as [->|Hne].
    + rewrite lookup_insert_eq in Hp. injection Hp as <-.
      destruct (initial_state_wf network realm addresses) as (s & Hi' & Hs & Hg & Hr & _).
      rewrite Hi in Hi'. injection Hi' as <-. unfold state_room. rewrite Hg, Hr. split_and!; [done|simpl; lia..].
    + rewrite lookup_insert_ne in Hp by done. destruct (Hd _ _ Hp) as (? & ? & ?).
      split_and!; [done|lia..].
  - unfold save_state in Hp. destruct (decide (p = path)) as [->|Hne].
    + rewrite lookup_insert_eq in Hp. injection Hp as <-.
      destruct (Hd _ _ Hp0) as (Hs & ? & ?).
      pose proof (state_edit_extends s0 s1 Hs He) as (_ & ? & ?).
      split_and!; [|simpl; lia..].
      apply materialize_wf, (state_edit_core s0); [apply Hs|done].
    + rewrite lookup_insert_ne in Hp by done. destruct (Hd _ _ Hp) as (? & ? & ?).
      split_and!; [done|lia..].
Qed.

Lemma disk_step_extends n reset d d' path s :
  disk_inv n d → disk_step reset d d' → reset ≠ Some path →
  (d : gmap string AuthorityState) !! path = Some s →
  ∃ s', (d' : gmap string AuthorityState) !! path = Some s' ∧ authority_extends s s'.
Proof.
  intros Hd [|p network realm addresses s0 Hfresh Hi|p s0 s1 Hp0 He] Hreset Hp.
  - by exists s.
  - unfold save_state. rewrite lookup_insert_ne; [by exists s|].
    intros ->. destruct Hfresh; congruence.
  - unfold save_state. destruct (decide (p = path)) as [->|Hne].
    + rewrite lookup_insert_eq. eexists. split; [done|]. simplify_eq.
      apply state_edit_extends; [by apply (Hd path)|done].
    + rewrite lookup_insert_ne by done. by exists s.
Qed.

Lemma run_commands_inv n commands d :
  (0 ≤ n)%Z → disk_inv n d → (n + Z.of_nat (length commands) < u64_max)%Z →
  disk_inv (n + Z.of_nat (length commands)) (run_commands commands d).
Proof.
  revert n d. induction commands as [|[now c] commands IH]; intros n d Hn Hd Hlen.
  { by rewrite Z.add_0_r. }
  simpl in *. replace (n + Z.of_nat (S (length commands)))%Z
    with ((n + 1) + Z.of_nat (length commands))%Z by lia.
  apply IH; [lia| |lia].
  destruct (run_command now c d) as [d'|] eqn:Hr.
  - apply (disk_step_inv n (reset_path c) d); [done..|]. apply (command_refines n _ now); [lia|done..].
  - intros path s Hp. destruct (Hd _ _ Hp) as (? & ? & ?). split_and!; [done|lia..].
Qed.

Lemma run_commands_extends n commands d path s :
  (0 ≤ n)%Z → disk_inv n d → (n + Z.of_nat (length commands) < u64_max)%Z →
  (∀ now c, (now, c) ∈ commands → reset_path c ≠ Some path) →
  (d : gmap string AuthorityState) !! path = Some s →
  ∃ s', (run_commands commands d : gmap string AuthorityState) !! path = Some s' ∧
    authority_extends s s'.
Proof.
  revert n d s. induction commands as [|[now c] commands IH]; intros n d s Hn Hd Hlen Hreset Hp.
  { by exists s. }
  simpl in *.
  assert (∀ now c, (now, c) ∈ commands → reset_path c ≠ Some path) as Hrest.
  { intros now' c' Hin. apply (Hreset now'). by right. }
  destruct (run_command now c d) as [d'|] eqn:Hr.
  - apply (command_refines n) in Hr; [|lia|done].
    destruct (disk_step_extends n _ _ _ path s Hd Hr) as (s1 & Hp1 & He1); [|done|].
    { apply (Hreset now). left. }
    destruct (IH (n + 1)%Z d' s1) as (s2 & Hp2 & He2); [lia|by eapply disk_step_inv|lia|done..|].
    exists s2. split; [done|by etrans].
  - apply (IH n); [done..|lia|done|done].
Qed.

Lemma disk_inv_empty : disk_inv 0 (∅ : Disk).
Proof.
  intros path s Hp. change ((∅ : gmap string AuthorityState) !! path = Some s) in Hp.
  by rewrite lookup_empty in Hp.
Qed.

(** C34.  Whatever commands an authority runs, fewer than 2^64 - 1 of them,
    every state file it leaves is well formed: grants and revocations carry the
    numbers 1, 2, 3, ... in the order they were made and the counters name the
    next ones, members and relays are unique, the active member exists, and the
    stored snapshot is the projection of the state. *)
Theorem authority_reachable_wf commands path s
    (Hlen : (Z.of_nat (length commands) < u64_max)%Z)
    (Hp : (run_commands commands ∅ : gmap string AuthorityState) !! path = Some s) :
  authority_wf s.
Proof. by apply (run_commands_inv 0 commands ∅ ltac:(lia) disk_inv_empty Hlen _ _ Hp). Qed.

(** C36.  No command but an [init] of the same file loses anything: every
    grant and revocation stays where it was and every member stays known. *)
Theorem authority_keeps_records before after path s
    (Hlen : (Z.of_nat (length (before ++ after)) < u64_max)%Z)
    (Hreset : ∀ now c, (now, c) ∈ after → reset_path c ≠ Some path)
    (Hp : (run_commands before ∅ : gmap string AuthorityState) !! path = Some s) :
  ∃ s', (run_commands (before ++ after) ∅ : gmap string AuthorityState) !! path = Some s' ∧
    authority_extends s s'.
Proof.
  rewrite length_app in Hlen. unfold run_commands. rewrite foldl_app.
  apply (run_commands_extends (0 + Z.of_nat (length before))); [lia| |lia|done|done].
  apply run_commands_inv; [lia|apply disk_inv_empty|lia].
Qed.

(** An artifact issued into a state file is recorded there: a token
    becomes the token of the snapshot, under the hints of the state; a
    membership becomes the one of its subject and touches no other; a grant or
    revocation is added at the end, under a number no other record has. *)
Lemma issue_contract now path command artifact n d s
    (Hn : (n + 1 < u64_max)%Z) (Hp : (d : gmap string AuthorityState) !! path = Some s)
    (Hs : state_room n s)
    (Hissue : issue_artifact now (Some path) command d = Returns artifact) :
  ∃ s', issue now (Some path) command d = Returns (artifact, save_state path s' d) ∧
    authority_wf s' ∧ authority_extends s s' ∧
    match artifact with
    | IssuedToken v =>
        as_enrollment_token (st_snapshot s') = Some (with_hints (st_bootstrap_hints s) v)
    | IssuedMembership seed active v =>
        (am_membership <$> find_member seed (st_members s') = Some v) ∧
        (∀ seed', seed' ≠ seed →
           find_member seed' (st_members s') = find_member seed' (st_members s)) ∧
        (active = true → st_active_subject_seed s' = Some seed)
    | IssuedCapability g =>
        st_capability_grants s' = st_capability_grants s ++ [g] ∧
        ∀ e, e ∈ st_capability_grants s → (cg_sequence e < cg_sequence g)%Z
    | IssuedRevocation r =>
        st_revocations s' = st_revocations s ++ [r] ∧
        ∀ e, e ∈ st_revocations s → (rr_sequence e < rr_sequence r)%Z
    end.
Proof.
  pose proof (issue_artifact_fresh n d path s Hn Hp Hs now command artifact Hissue) as Hf.
  destruct Hs as [Hwf _]. pose proof (edit_record s artifact Hf) as He.
  exists (materialize_state (record_artifact artifact s)). split_and!.
  - unfold issue. rewrite Hissue. cbn [mbind outcome_bind].
    unfold persist_issued_artifact. by rewrite Hp.
  - apply materialize_wf, (state_edit_core s); [apply Hwf|done].
  - apply state_edit_extends; [apply Hwf|done].
  - destruct artifact as [v|seed active v|g|r].
    + unfold materialize_state. by rewrite projected_snapshot_None.
    + split_and!; simpl.
      * unfold find_member, upsert_member. erewrite find_first_upsert; [done|..]; intros;
          apply String.eqb_eq; simpl in *; done || by apply String.eqb_eq.
      * intros seed' Hne. unfold find_member, upsert_member. apply find_first_upsert_ne.
        { by apply String.eqb_neq. }
        intros y Hy%String.eqb_eq. apply String.eqb_neq. simpl in Hy. congruence.
      * by intros ->.
    + rewrite record_capability by (done || apply Hwf). split; [done|]. intros e Hin.
      destruct Hf as [-> _]. by eapply numbered_lt, Hin; apply Hwf.
    + rewrite record_revocation by (done || apply Hwf). split; [done|]. intros e Hin.
      destruct Hf as [-> _]. by eapply numbered_lt, Hin; apply Hwf.
Qed.

(** A snapshot for one subject gives away nothing of the others: it
    holds that member's certificate and exactly the grants to its peer, with
    every revocation and hint; an unknown subject gets none. *)
Lemma projection_isolated s seed :
  match projected_snapshot s (Some seed) with
  | None => seed ∉ am_subject_seed <$> st_members s
  | Some snapshot => ∃ m, m ∈ st_members s ∧ am_subject_seed m = seed ∧
      as_membership snapshot = Some (am_membership m) ∧
      (∀ g, g ∈ as_capability_grants snapshot ↔ g ∈ st_capability_grants s ∧
         cg_subject_peer_id g = mc_subject_peer_id (am_membership m)) ∧
      as_revocations snapshot = st_revocations s ∧
      as_bootstrap_hints snapshot = st_bootstrap_hints s
  end.
Proof.
  rewrite projected_snapshot_Some. destruct (find_member seed (st_members s)) as [m|] eqn:Hm; simpl.
  - apply find_member_elem in Hm as [Hin <-]. exists m. split_and!; try done.
    intros g. by rewrite elem_of_retain, bool_decide_eq_true.
  - by apply find_member_None.
Qed.

(** ** Clients *)

Lemma merge_revocations_skip l k1 k2 :
  (∀ r, r ∈ k1 → r ∈ l) → merge_revocations l (k1 ++ k2) = merge_revocations l k2.
Proof.
  intros Hk. induction k1 as [|r k1 IH]; [done|]. cbn [app merge_revocations].
  rewrite (proj2 (any_true _ _)).
  - apply IH. intros x Hx. apply Hk. by right.
  - exists r. split; [apply Hk; left|apply same_revocation_refl].
Qed.

Lemma merge_revocations_fresh l k :
  NoDup (rr_sequence <$> l ++ k) → merge_revocations l k = (l ++ k, Z.of_nat (length k)).
Proof.
  revert l. induction k as [|r k IH]; intros l Hnd; cbn [merge_revocations].
  { by rewrite app_nil_r. }
  assert (any (λ e, same_revocation e r) l = false) as ->.
  { apply any_false. intros e He. unfold same_revocation.
    rewrite (proj2 (Z.eqb_neq _ _)); [done|]. intros Heq.
    rewrite fmap_app in Hnd. apply NoDup_app in Hnd as (_ & Hdis & _).
    apply (Hdis (rr_sequence e)); [by apply list_elem_of_fmap_2|]. rewrite Heq, fmap_cons. left. }
  rewrite IH by (by rewrite <-app_assoc). rewrite <-app_assoc. simpl. f_equal. lia.
Qed.

Lemma numbered_NoDup {A} (sequence : A → Z) next l :
  numbered sequence next l → NoDup (sequence <$> l).
Proof. intros [-> _]. apply NoDup_seqZ. Qed.

Lemma merge_served_revocations s s' :
  authority_wf s' → authority_extends s s' →
  merge_revocations (st_revocations s) (st_revocations s') =
  (st_revocations s',
   (Z.of_nat (length (st_revocations s')) - Z.of_nat (length (st_revocations s)))%Z).
Proof.
  intros Hs' [_ _ [k Hk] _]. rewrite Hk, merge_revocations_skip by done.
  rewrite merge_revocations_fresh; [|rewrite <-Hk; by eapply numbered_NoDup, Hs'].
  f_equal. rewrite length_app. lia.
Qed.

Lemma served_grants_agree s s' m m' g e :
  authority_wf s' → authority_extends s s' →
  g ∈ as_capability_grants (snapshot_for s' m') →
  e ∈ as_capability_grants (snapshot_for s m) → same_grant e g = true → e = g.
Proof.
  intros Hs' [_ [k Hk] _ _] Hg He Hsame. unfold same_grant in Hsame.
  rewrite !andb_true_iff, Z.eqb_eq in Hsame.
  assert (∀ s m x, x ∈ as_capability_grants (snapshot_for s m) → x ∈ st_capability_grants s)
    as Hin.
  { intros s0 [m0|] x; simpl; [by rewrite elem_of_retain; intros []|by intros ?%elem_of_nil]. }
  eapply numbered_inj; [apply Hs'| | |apply Hsame].
  - rewrite Hk. apply elem_of_app. left. by eapply Hin.
  - by eapply Hin.
Qed.

(** C35.  A client that holds an earlier snapshot of a member and fetches a
    later one ends up with exactly what the authority serves, and is told how
    many revocations are new, unless the member's certificate was replaced
    within the same second or for another peer. *)
Theorem fetched_snapshot_converges before after path s s' seed old new client
    (Hlen : (Z.of_nat (length (before ++ after)) < u64_max)%Z)
    (Hreset : ∀ now c, (now, c) ∈ after → reset_path c ≠ Some path)
    (Hp : (run_commands before ∅ : gmap string AuthorityState) !! path = Some s)
    (Hp' : (run_commands (before ++ after) ∅ : gmap string AuthorityState) !! path = Some s')
    (Hold : projected_snapshot s (Some seed) = Some old)
    (Hnew : projected_snapshot s' (Some seed) = Some new)
    (Hnet : cc_network_id client = as_network_id old)
    (Hmem : ∀ m m', as_membership old = Some m → as_membership new = Some m' →
       mc_subject_peer_id m = mc_subject_peer_id m' ∧
       ((mc_issued_at m < mc_issued_at m')%Z ∨ m = m')) :
  ∃ delta, merge_snapshot client (Some old) new = Ok (new, delta) ∧
    revocations_added delta =
      (Z.of_nat (length (st_revocations s')) - Z.of_nat (length (st_revocations s)))%Z.
Proof.
  assert (disk_inv (0 + Z.of_nat (length before)) (run_commands before ∅)) as Hd.
  { apply run_commands_inv; [lia|apply disk_inv_empty|rewrite length_app in Hlen; lia]. }
  assert (authority_extends s s') as He.
  { destruct (run_commands_extends (0 + Z.of_nat (length before)) after (run_commands before ∅)
      path s) as (s1 & Hp1 & He); [lia|done|rewrite length_app in Hlen; lia|done..|].
    unfold run_commands in Hp1, Hp'. rewrite foldl_app, Hp1 in Hp'. by injection Hp' as <-. }
  assert (authority_wf s') as Hs'.
  { by apply (run_commands_inv 0 (before ++ after) ∅ ltac:(lia) disk_inv_empty Hlen path). }
  rewrite projected_snapshot_Some in Hold, Hnew.
  apply fmap_Some in Hold as (m & _ & ->), Hnew as (m' & _ & ->).
  assert (mergeable client (snapshot_for s (Some m)) (snapshot_for s' (Some m'))) as Hmg.
  { split; [rewrite Hnet; apply He|done|]. intros g e Hg [Hin Hsame]%find_first_Some.
    by eapply (served_grants_agree s s'). }
  pose proof (merge_snapshot_cases client (snapshot_for s (Some m)) (snapshot_for s' (Some m'))) as Hc.
  destruct (merge_snapshot _ _ _) as [[r delta]|e]; [|done].
  destruct Hc as (_ & Hn & Ht & Hme & Hg & Hh & Hr). exists delta.
  simpl in Hr. rewrite merge_served_revocations in Hr by done. injection Hr as Hr Hadd.
  split; [|done]. do 2 f_equal. destruct (core_token s' Hs') as [t Htok].
  destruct r; simpl in *. rewrite Htok in Ht. unfold snapshot_for. simpl. rewrite Htok.
  simpl. by subst.
Qed.

Lemma numbered_retain {A} (sequence : A → Z) l m n :
  sequence <$> l = seqZ m (Z.of_nat (length l)) →
  retain (λ x, (n <? sequence x)%Z) l = drop (Z.to_nat (n + 1 - m)) l.
Proof.
  revert m. induction l as [|x l IH]; intros m Hl; [by rewrite drop_nil|].
  rewrite fmap_cons in Hl. simpl length in Hl. rewrite seqZ_cons in Hl by lia.
  injection Hl as Hx Hl. replace (Z.pred (Z.of_nat (S (length l)))) with (Z.of_nat (length l)) in Hl
    by lia. specialize (IH _ Hl). cbn [retain]. rewrite Hx.
  destruct (Z.ltb_spec n m).
  - rewrite IH. replace (Z.to_nat (n + 1 - m)) with 0 by lia.
    by replace (Z.to_nat (n + 1 - Z.succ m)) with 0 by lia.
  - rewrite IH. by replace (Z.to_nat (n + 1 - m)) with (S (Z.to_nat (n + 1 - Z.succ m))) by lia.
Qed.

(** A query of one pair. *)
Lemma query_param_pair query name value key :
  string_forallb (λ a, negb (Ascii.eqb a "&"%char)) query = true →
  split_once "="%char query = Some (name, value) →
  query_param query key =
  if String.eqb name key && negb (String.eqb value "") then Some value else None.
Proof.
  intros Hamp Heq. unfold query_param. rewrite split_char_none by done. cbn [omap list_omap].
  rewrite Heq. by destruct (_ && _).
Qed.

Lemma digits_no_ampersand z :
  (0 ≤ z)%Z → string_forallb (λ a, negb (Ascii.eqb a "&"%char)) (pretty z) = true.
Proof.
  intros Hz. eapply string_forallb_impl, pretty_digits, Hz.
  intros a. by destruct a as [[] [] [] [] [] [] [] []].
Qed.

Lemma revocations_served now s n :
  authority_wf s → in_u64 n →
  route_request now s true (endpoint_with_after_sequence "/revoke" (Some n)) =
    (200%Z, BodyRevocations (drop (Z.to_nat n) (st_revocations s))).
Proof.
  intros Hs Hn. unfold route_request, endpoint_with_after_sequence, split_request_target.
  cbn [negb].
  change (split_once "?"%char ("/revoke" +:+ "?after_sequence=" +:+ pretty n))
    with (Some ("/revoke", "after_sequence=" +:+ pretty n)). cbv iota beta.
  rewrite !(query_param_pair ("after_sequence=" +:+ pretty n) "after_sequence" (pretty n))
    by (done || by rewrite string_forallb_app, digits_no_ampersand by apply Hn).
  rewrite (proj2 (String.eqb_neq (pretty n) "")) by by apply pretty_nonempty, Hn.
  cbn. unfold parse_u64_param. rewrite parse_u64_pretty by done. cbn.
  unfold filtered_revocations. rewrite (numbered_retain rr_sequence _ 1) by apply Hs.
  by replace (n + 1 - 1)%Z with n by lia.
Qed.

Lemma subject_served now s subject :
  subject ≠ "" ∧ string_forallb (λ a, negb (Ascii.eqb a "&"%char)) subject = true →
  route_request now s true (endpoint_with_subject "/snapshot" (Some subject)) =
    match projected_snapshot s (Some subject) with
    | Some snapshot => (200%Z, BodySnapshot snapshot)
    | None => (404%Z, BodySubjectNotFound (Some subject))
    end.
Proof.
  intros [Hne Hamp]. unfold route_request, endpoint_with_subject, split_request_target.
  cbn [negb].
  change (split_once "?"%char ("/snapshot" +:+ "?subject=" +:+ subject))
    with (Some ("/snapshot", "subject=" +:+ subject)). cbv iota beta.
  rewrite !(query_param_pair ("subject=" +:+ subject) "subject" subject)
    by (done || by rewrite string_forallb_app, Hamp).
  rewrite (proj2 (String.eqb_neq subject "")) by done. done.
Qed.

(** The server understands the requests the control client makes: asked
    for the revocations after the n-th it answers all but the first n, and
    asked for the snapshot of a subject whose name holds no ampersand it
    answers that projection. *)
Lemma requests_served now s n subject (Hs : authority_wf s) (Hn : in_u64 n)
    (Hsub : subject ≠ "" ∧ string_forallb (λ a, negb (Ascii.eqb a "&"%char)) subject = true) :
  route_request now s true (endpoint_with_after_sequence "/revoke" (Some n)) =
    (200%Z, BodyRevocations (drop (Z.to_nat n) (st_revocations s))) ∧
  route_request now s true (endpoint_with_subject "/snapshot" (Some subject)) =
    match projected_snapshot s (Some subject) with
    | Some snapshot => (200%Z, BodySnapshot snapshot)
    | None => (404%Z, BodySubjectNotFound (Some subject))
    end.
Proof. auto using revocations_served, subject_served. Qed.

(** ** The token a snapshot carries *)

Lemma with_hints_id t : with_hints (et_bootstrap_hints t) t = t.
Proof. by destruct t. Qed.

Lemma with_hints_with_hints h h' t : with_hints h (with_hints h' t) = with_hints h t.
Proof. by destruct t. Qed.

Lemma initial_state_token network realm addresses s :
  initial_state network realm addresses = Returns s →
  as_network_id (st_snapshot s) = network_id network ∧
  as_enrollment_token (st_snapshot s) = Some (token_issue
    (seeded_keypair ("authority:" +:+ realm)) (network_id network) 1700000000 1700003600
    realm None ["member"] (st_bootstrap_hints s) (fixture_nonce "init-enrollment")).
Proof.
  unfold initial_state. intros Hi. bind_inv. unfold materialize_state.
  rewrite projected_snapshot_None. split; [done|].
  reflexivity.
Qed.

Lemma projected_token s subject snapshot :
  projected_snapshot s subject = Some snapshot →
  as_enrollment_token snapshot =
  with_hints (st_bootstrap_hints s) <$> as_enrollment_token (st_snapshot s).
Proof.
  destruct subject as [seed|].
  - rewrite projected_snapshot_Some. by intros (m & _ & ->)%fmap_Some.
  - rewrite projected_snapshot_None. by intros [= <-].
Qed.

Lemma materialized_token s :
  as_enrollment_token (st_snapshot (materialize_state s)) =
  with_hints (st_bootstrap_hints s) <$> as_enrollment_token (st_snapshot s).
Proof. unfold materialize_state. by rewrite projected_snapshot_None. Qed.

(** The token of a fresh state verifies; but once a command has changed
    the hints of the state, every snapshot the server makes carries that token
    with the new hints in place of the signed ones, and no key verifies it. *)
Lemma projected_token_invalid `{!CurveLaws} network realm addresses path args s0 d0 hints d1 s1
    subject snapshot key now (Hnow : (now ≤ 1700003600)%Z)
    (Hinit : init network realm addresses path ∅ = Returns (s0, d0))
    (Hadd : add_bootstrap path args d0 = Returns (hints, d1))
    (Hs1 : (d1 : gmap string AuthorityState) !! path = Some s1)
    (Hhash : ∀ t, as_enrollment_token (st_snapshot s0) = Some t →
       blake3 (to_vec (unsigned_token (with_hints hints t))) ≠ blake3 (to_vec (unsigned_token t)))
    (Hsnap : projected_snapshot s1 subject = Some snapshot) :
  (∃ t, as_enrollment_token (st_snapshot s0) = Some t ∧
     token_verify t (public_key (seeded_keypair ("authority:" +:+ realm)))
       (network_id network) now = Ok ()) ∧
  ∃ t, as_enrollment_token snapshot = Some t ∧
     token_verify t key (network_id network) now = Err ArtifactIdMismatch.
Proof.
  unfold init in Hinit. bind_inv.
  match goal with Hi : initial_state _ _ _ = _ |- _ =>
    pose proof (initial_state_token _ _ _ _ Hi) as [Hnet Htok];
    destruct (initial_state_wf network realm addresses) as (s & Hi' & Hs & _);
    rewrite Hi in Hi'; injection Hi' as <- end.
  unfold add_bootstrap in Hadd.
  rewrite (load_state_wf _ path s0) in Hadd by (done || apply lookup_insert_eq). bind_inv.
  unfold save_state in Hs1. rewrite lookup_insert_eq in Hs1. injection Hs1 as <-. split.
  - eexists. split; [exact Htok|]. rewrite token_issued_verify.
    rewrite decide_False by tauto. by destruct (Z.ltb_spec 1700003600 now); [lia|].
  - specialize (Hhash _ Htok). rewrite (projected_token _ _ _ Hsnap), materialized_token.
    cbn [st_snapshot set_hints]. rewrite Htok. cbn [fmap option_fmap option_map].
    rewrite with_hints_with_hints. eexists. split; [reflexivity|]. by apply token_hints_tampered.
Qed.
End states.

Section witnesses.
Import External.Demo.
#[local] Instance demo_authority_json : ArtifactJson := {|
  token_json := λ t, concat (as_bytes <$> concat (hint_addresses <$> uet_bootstrap_hints t));
  certificate_json := λ c, concat (as_bytes <$> umc_roles c);
  grant_json := λ g, concat (as_bytes <$> ucg_capabilities g);
  revocation_json := λ r, network_bytes (urr_network_id r);
|}.

Definition demo_member : AddMemberArgs := {|
  mb_network := "net"; mb_realm := "realm"; mb_subject_seed := Some "alice";
  mb_subject_peer_id := None; mb_roles := []; mb_ttl_secs := 3600; mb_active := true |}.
Definition demo_capability : ArtifactCommand := CmdCapability {|
  cp_network := "net"; cp_realm := "realm"; cp_subject_seed := Some "alice";
  cp_subject_peer_id := None; cp_capabilities := []; cp_protocols := []; cp_constraints := [];
  cp_ttl_secs := 3600 |}.
Definition demo_revoke : ArtifactCommand := CmdRevocation {|
  rv_network := "net"; rv_realm := "realm";
  rv_peer_id := PeerId_to_text (peer_id (seeded_keypair "subject:bob"));
  rv_reason := "superseded"; rv_note := None |}.
Definition demo_before : list (Z * Command) :=
  [(100%Z, CmdInit "net" "realm" "state.json" ["quic://a"]);
   (110%Z, CmdAddMember "state.json" demo_member)].
Definition demo_after : list (Z * Command) :=
  [(120%Z, CmdIssue (Some "state.json") demo_capability);
   (130%Z, CmdIssue (Some "state.json") demo_revoke)].
Definition demo_state (commands : list (Z * Command)) : option AuthorityState :=
  (run_commands commands ∅ : gmap string AuthorityState) !! "state.json".
Definition demo_snapshot_of (commands : list (Z * Command)) : option AuthorityArtifactSnapshot :=
  s ← demo_state commands; projected_snapshot s (Some "alice").

Lemma demo_state_exists commands :
  bool_decide (is_Some (demo_state commands)) = true → ∃ s, demo_state commands = Some s.
Proof. by intros [s Hs]%bool_decide_eq_true; exists s. Qed.

Lemma demo_state_room commands s :
  (Z.of_nat (length commands) < u64_max)%Z → demo_state commands = Some s →
  state_room (Z.of_nat (length commands)) s.
Proof.
  intros Hlen Hs. exact (run_commands_inv 0 commands ∅ ltac:(lia) disk_inv_empty Hlen _ _ Hs).
Qed.

Lemma authority_reachable_wf_witness :
  ∃ s, demo_state (demo_before ++ demo_after) = Some s ∧ authority_wf s ∧
    length (st_revocations s) = 1.
Proof.
  destruct (demo_state_exists (demo_before ++ demo_after)) as [s Hs]; [by vm_compute|].
  exists s. split; [exact Hs|]. split.
  - apply (authority_reachable_wf (demo_before ++ demo_after) "state.json"); [done|exact Hs].
  - assert (length ∘ st_revocations <$> demo_state (demo_before ++ demo_after) = Some 1) as Hl
      by (vm_compute; reflexivity).
    rewrite Hs in Hl. by injection Hl.
Defined.

Lemma demo_after_no_reset now c : (now, c) ∈ demo_after → reset_path c ≠ Some "state.json".
Proof. unfold demo_after. rewrite !elem_of_cons, elem_of_nil. naive_solver. Qed.

Lemma authority_keeps_records_witness :
  ∃ s s', demo_state demo_before = Some s ∧ demo_state (demo_before ++ demo_after) = Some s' ∧
    authority_extends s s'.
Proof.
  destruct (demo_state_exists demo_before) as [s Hs]; [by vm_compute|].
  destruct (authority_keeps_records demo_before demo_after "state.json" s) as (s' & Hs' & He);
    [done|exact demo_after_no_reset|exact Hs|].
  exists s, s'. split; [exact Hs|]. split; [exact Hs'|exact He].
Defined.

Lemma issue_contract_witness :
  ∃ d s g s', (d : gmap string AuthorityState) !! "state.json" = Some s ∧
    issue 120 (Some "state.json") demo_capability d =
      Returns (IssuedCapability g, save_state "state.json" s' d) ∧
    st_capability_grants s' = st_capability_grants s ++ [g].
Proof.
  destruct (demo_state_exists demo_before) as [s Hs]; [by vm_compute|].
  destruct (issue_artifact 120 (Some "state.json") demo_capability (run_commands demo_before ∅))
    as [[v|seed active v|g|r]|] eqn:Ha.
  3: { destruct (issue_contract 120 "state.json" demo_capability (IssuedCapability g) 2
         (run_commands demo_before ∅) s) as (s' & Hi & _ & _ & Hg & _);
         [reflexivity|exact Hs|exact (demo_state_room demo_before s eq_refl Hs)|exact Ha|].
       exists (run_commands demo_before ∅), s, g, s'. split; [exact Hs|]. split; [exact Hi|exact Hg]. }
  all: exfalso; assert (match issue_artifact 120 (Some "state.json") demo_capability
    (run_commands demo_before ∅) with Returns (IssuedCapability _) => true | _ => false end = true)
    as Hk by (vm_compute; reflexivity); rewrite Ha in Hk; discriminate Hk.
Defined.

Lemma fetched_snapshot_converges_witness :
  ∃ old new delta, demo_snapshot_of demo_before = Some old ∧
    demo_snapshot_of (demo_before ++ demo_after) = Some new ∧
    merge_snapshot (from_origin (as_network_id old) "http://authority") (Some old) new =
      Ok (new, delta).
Proof.
  assert (as_membership <$> demo_snapshot_of demo_before =
    as_membership <$> demo_snapshot_of (demo_before ++ demo_after)) as Hmem
    by (vm_compute; reflexivity).
  assert (bool_decide (is_Some (demo_snapshot_of demo_before)) = true) as Hsome
    by (vm_compute; reflexivity).
  apply bool_decide_eq_true in Hsome as [old Hold]. rewrite Hold in Hmem.
  destruct (demo_snapshot_of (demo_before ++ demo_after)) as [new|] eqn:Hnew; [|discriminate Hmem].
  injection Hmem as Hmem.
  exists old, new. pose proof Hold as Hold'. pose proof Hnew as Hnew'.
  unfold demo_snapshot_of in Hold', Hnew'.
  apply bind_Some in Hold' as (s & Hs & Hold'), Hnew' as (s' & Hs' & Hnew').
  destruct (fetched_snapshot_converges demo_before demo_after "state.json" s s' "alice" old new
    (from_origin (as_network_id old) "http://authority")) as (delta & Hd & _).
  - done.
  - exact demo_after_no_reset.
  - exact Hs.
  - exact Hs'.
  - exact Hold'.
  - exact Hnew'.
  - done.
  - intros m m' Hm Hm'. rewrite Hmem, Hm' in Hm. injection Hm as ->. by split; [|right].
  - exists delta. split; [exact Hold|]. split; [reflexivity|exact Hd].
Defined.

Lemma requests_served_witness :
  ∃ s, demo_state (demo_before ++ demo_after) = Some s ∧
    route_request 0 s true (endpoint_with_after_sequence "/revoke" (Some 1%Z)) =
      (200%Z, BodyRevocations (drop (Z.to_nat 1) (st_revocations s))).
Proof.
  assert (in_u64 1) as Hn by (vm_compute; split; discriminate).
  assert ("alice" ≠ "" ∧ string_forallb (λ a, negb (Ascii.eqb a "&"%char)) "alice" = true)
    as Hsub by (split; [discriminate|reflexivity]).
  destruct (demo_state_exists (demo_before ++ demo_after)) as [s Hs]; [by vm_compute|].
  exists s. split; [exact Hs|].
  destruct (demo_state_room (demo_before ++ demo_after) s eq_refl Hs) as [Hwf _].
  destruct (requests_served 0 s 1 "alice" Hwf Hn Hsub) as [Hr _]. exact Hr.
Defined.

Definition demo_bootstrap : AddBootstrapArgs := {|
  ab_address := "quic://b"; ab_peer_id := None; ab_protocols := []; ab_source := "test";
  ab_priority := None |}.

(** Every step of the scenario succeeds, and the hashes differ. *)
Definition demo_tampering : bool :=
  match init "net" "realm" ["quic://a"] "state.json" ∅ with
  | Returns (s0, d0) =>
      match add_bootstrap "state.json" demo_bootstrap d0 with
      | Returns (hints, d1) =>
          match (d1 : gmap string AuthorityState) !! "state.json" with
          | Some s1 =>
              match as_enrollment_token (st_snapshot s0) with
              | Some t =>
                  match projected_snapshot s1 None with
                  | Some snapshot => bool_decide (blake3 (to_vec (unsigned_token (with_hints hints t)))
                      ≠ blake3 (to_vec (unsigned_token t)))
                  | None => false
                  end
              | None => false
              end
          | None => false
          end
      | Panics => false
      end
  | Panics => false
  end.

Lemma projected_token_invalid_witness :
  ∃ t, token_verify t (public_key (seeded_keypair "authority:realm")) (network_id "net") 100 =
    Err ArtifactIdMismatch.
Proof.
  assert (demo_tampering = true) as Hc by (vm_compute; reflexivity). unfold demo_tampering in Hc.
  destruct (init "net" "realm" ["quic://a"] "state.json" ∅) as [[s0 d0]|] eqn:Hinit; [|discriminate Hc].
  destruct (add_bootstrap "state.json" demo_bootstrap d0) as [[hints d1]|] eqn:Hadd; [|discriminate Hc].
  destruct ((d1 : gmap string AuthorityState) !! "state.json") as [s1|] eqn:Hs1; [|discriminate Hc].
  destruct (as_enrollment_token (st_snapshot s0)) as [t0|] eqn:Ht0; [|discriminate Hc].
  destruct (projected_snapshot s1 None) as [snapshot|] eqn:Hsnap; [|discriminate Hc].
  apply bool_decide_eq_true in Hc.
  destruct (projected_token_invalid "net" "realm" ["quic://a"] "state.json" demo_bootstrap s0 d0
    hints d1 s1 None snapshot (public_key (seeded_keypair "authority:realm")) 100)
    as (_ & t & _ & Ht).
  - discriminate.
  - exact Hinit.
  - exact Hadd.
  - exact Hs1.
  - intros t Ht. rewrite Ht0 in Ht. injection Ht as <-. exact Hc.
  - exact Hsnap.
  - exists t. exact Ht.
Defined.
End witnesses.
