(* ===== verification/Fabric.v ===== *)
(** crates/fabric: the daemon's state, the authority artifacts, relay maps and
    revocations that enter it, the policy it answers with, and the route plans
    it makes. *)
From stdpp Require Import countable option base list strings gmap pretty.
From Stdlib Require Import ZArith Lia Strings.Byte Strings.Ascii.
From S2P Require Import Prelude Text BTree F32 External Model Crypto Records Netcheck Scheduler PeerStore Policy Routing RelayWire Transport Membership Control.

(* crates/fabric/src/lib.rs:37-37 DAEMON_STATE_SCHEMA_VERSION *)
Definition DAEMON_STATE_SCHEMA_VERSION : Z := 2.
(* crates/fabric/src/lib.rs:38-38 MIN_MIGRATABLE_DAEMON_STATE_SCHEMA_VERSION *)
Definition MIN_MIGRATABLE_DAEMON_STATE_SCHEMA_VERSION : Z := 1.

(* crates/fabric/src/lib.rs:41-47 DaemonRole *)
Inductive DaemonRole := RoleBootstrap | RoleRelay | RoleObserver | RoleEdge.

(* crates/fabric/src/lib.rs:66-104 DaemonStateError *)
Inductive DaemonStateError :=
| DsIo (err : string)
| DsSerialization (err : string)
| DsPeerNotFound (peer : string)
| DsNetworkMismatch
| DsMissingMembership
| DsControl (err : ControlError)
| DsNoRoute (peer : PeerId)
| DsPolicyDenied (reason : string)
| DsTransport (err : TransportError)
| DsSessionNotFound (id : string)
| DsInvalidSession (reason : string)
| DsMissingSchemaVersion
| DsMigrationRequired (found target : Z)
| DsUnsupportedSchemaVersion (found expected : Z)
| DsUnsupportedDurableField (field : string)
| DsInvalidBackupBundle
| DsBackupKeyDerivation.

(* crates/fabric/src/lib.rs:202-208 BootstrapEndpoint *)
Record BootstrapEndpoint := {
  be_peer : option PeerId;
  be_addresses : list string;
  be_protocols : list string;
  be_metadata : gmap string string;
}.

(* crates/fabric/src/lib.rs:210-214 DeniedPeer *)
Record DeniedPeer := { dp_peer : PeerId; dp_reason : string }.

(* crates/fabric/src/lib.rs:216-235 DaemonState *)
Record DaemonState := {
  ds_schema_version : Z;
  ds_network : string;
  ds_local_peer_id : PeerId;
  ds_roles : list DaemonRole;
  ds_membership : MembershipCertificate;
  ds_capability_grants : list CapabilityGrant;
  ds_revocations : list RevocationRecord;
  ds_denied_peers : list DeniedPeer;
  ds_bootstrap : list BootstrapEndpoint;
  ds_relay_map : option RelayMap;
  ds_peers : list PeerInspection;
  ds_netcheck : NetcheckReport;
  ds_queue_policies : list QueuePolicy;
  ds_active_sessions : list SessionSnapshot;
  ds_path_candidates : list PathCandidate;
}.

(** The losses of its candidates are numbers: JSON has no others. *)
Definition finite_losses (s : DaemonState) : Prop :=
  Forall (λ c, f32_finite (pc_loss_pct c) = true) (ds_path_candidates s).

(* crates/fabric/src/lib.rs:237-246 StateSyncReport *)
Record StateSyncReport := {
  sy_membership_changed : bool;
  sy_grants_added : Z;
  sy_grants_removed : Z;
  sy_revocations_added : Z;
  sy_bootstrap_hints_added : Z;
  sy_bootstrap_hints_removed : Z;
  sy_relay_announcements_added : Z;
}.

(* crates/fabric/src/lib.rs:248-256 NetcheckReprobeReport *)
Record NetcheckReprobeReport := {
  rp_reason : string;
  rp_udp_reachable : bool;
  rp_ipv6_reachable : bool;
  rp_relay_required : bool;
  rp_probe_observations : Z;
  rp_path_candidates : Z;
}.

#[export] Instance DaemonRole_eq_dec : EqDecision DaemonRole.
Proof. solve_decision. Defined.
#[export] Instance BootstrapEndpoint_eq_dec : EqDecision BootstrapEndpoint.
Proof. solve_decision. Defined.
#[export] Instance DeniedPeer_eq_dec : EqDecision DeniedPeer.
Proof. solve_decision. Defined.

(** [{:?}] of a revocation reason. *)
Definition RevocationReason_debug (r : RevocationReason) : string :=
  match r with
  | Administrative => "Administrative" | KeyCompromise => "KeyCompromise"
  | Superseded => "Superseded" | Unspecified => "Unspecified"
  end.

(** ** Changing some fields of a state *)

Definition with_sessions (sessions : list SessionSnapshot) (s : DaemonState) : DaemonState := {|
  ds_schema_version := ds_schema_version s; ds_network := ds_network s;
  ds_local_peer_id := ds_local_peer_id s; ds_roles := ds_roles s;
  ds_membership := ds_membership s; ds_capability_grants := ds_capability_grants s;
  ds_revocations := ds_revocations s; ds_denied_peers := ds_denied_peers s;
  ds_bootstrap := ds_bootstrap s; ds_relay_map := ds_relay_map s; ds_peers := ds_peers s;
  ds_netcheck := ds_netcheck s; ds_queue_policies := ds_queue_policies s;
  ds_active_sessions := sessions; ds_path_candidates := ds_path_candidates s |}.

Definition with_candidates (candidates : list PathCandidate) (s : DaemonState) : DaemonState := {|
  ds_schema_version := ds_schema_version s; ds_network := ds_network s;
  ds_local_peer_id := ds_local_peer_id s; ds_roles := ds_roles s;
  ds_membership := ds_membership s; ds_capability_grants := ds_capability_grants s;
  ds_revocations := ds_revocations s; ds_denied_peers := ds_denied_peers s;
  ds_bootstrap := ds_bootstrap s; ds_relay_map := ds_relay_map s; ds_peers := ds_peers s;
  ds_netcheck := ds_netcheck s; ds_queue_policies := ds_queue_policies s;
  ds_active_sessions := ds_active_sessions s; ds_path_candidates := candidates |}.

Definition with_roles (roles : list DaemonRole) (s : DaemonState) : DaemonState := {|
  ds_schema_version := ds_schema_version s; ds_network := ds_network s;
  ds_local_peer_id := ds_local_peer_id s; ds_roles := roles;
  ds_membership := ds_membership s; ds_capability_grants := ds_capability_grants s;
  ds_revocations := ds_revocations s; ds_denied_peers := ds_denied_peers s;
  ds_bootstrap := ds_bootstrap s; ds_relay_map := ds_relay_map s; ds_peers := ds_peers s;
  ds_netcheck := ds_netcheck s; ds_queue_policies := ds_queue_policies s;
  ds_active_sessions := ds_active_sessions s; ds_path_candidates := ds_path_candidates s |}.

Definition with_netcheck (netcheck : NetcheckReport) (s : DaemonState) : DaemonState := {|
  ds_schema_version := ds_schema_version s; ds_network := ds_network s;
  ds_local_peer_id := ds_local_peer_id s; ds_roles := ds_roles s;
  ds_membership := ds_membership s; ds_capability_grants := ds_capability_grants s;
  ds_revocations := ds_revocations s; ds_denied_peers := ds_denied_peers s;
  ds_bootstrap := ds_bootstrap s; ds_relay_map := ds_relay_map s; ds_peers := ds_peers s;
  ds_netcheck := netcheck; ds_queue_policies := ds_queue_policies s;
  ds_active_sessions := ds_active_sessions s; ds_path_candidates := ds_path_candidates s |}.

Definition with_relay_map (relay_map : option RelayMap) (peers : list PeerInspection)
    (s : DaemonState) : DaemonState := {|
  ds_schema_version := ds_schema_version s; ds_network := ds_network s;
  ds_local_peer_id := ds_local_peer_id s; ds_roles := ds_roles s;
  ds_membership := ds_membership s; ds_capability_grants := ds_capability_grants s;
  ds_revocations := ds_revocations s; ds_denied_peers := ds_denied_peers s;
  ds_bootstrap := ds_bootstrap s; ds_relay_map := relay_map; ds_peers := peers;
  ds_netcheck := ds_netcheck s; ds_queue_policies := ds_queue_policies s;
  ds_active_sessions := ds_active_sessions s; ds_path_candidates := ds_path_candidates s |}.

Definition with_revocations (revocations : list RevocationRecord) (denied : list DeniedPeer)
    (s : DaemonState) : DaemonState := {|
  ds_schema_version := ds_schema_version s; ds_network := ds_network s;
  ds_local_peer_id := ds_local_peer_id s; ds_roles := ds_roles s;
  ds_membership := ds_membership s; ds_capability_grants := ds_capability_grants s;
  ds_revocations := revocations; ds_denied_peers := denied;
  ds_bootstrap := ds_bootstrap s; ds_relay_map := ds_relay_map s; ds_peers := ds_peers s;
  ds_netcheck := ds_netcheck s; ds_queue_policies := ds_queue_policies s;
  ds_active_sessions := ds_active_sessions s; ds_path_candidates := ds_path_candidates s |}.

(** ** Addresses and path estimates *)

(* crates/fabric/src/lib.rs:3421-3423 is_direct_quic_address *)
Definition is_direct_quic_address (address : string) : bool :=
  starts_with "quic://" address || starts_with "udp://" address.

(* crates/fabric/src/lib.rs:3425-3427 is_ipv6_address *)
Definition is_ipv6_address (address : string) : bool :=
  contains "://[" address || (2 <? count_char ":"%char address)%nat.

(* crates/fabric/src/lib.rs:3409-3419 endpoint_matches_path_kind *)
Definition endpoint_matches_path_kind (address : string) (path_kind : PathKind) : bool :=
  match path_kind with
  | DirectIpv6 => is_direct_quic_address address && is_ipv6_address address
  | DirectUdp => is_direct_quic_address address && negb (is_ipv6_address address)
  | Relay => is_direct_quic_address address
  | Loopback => contains "127.0.0.1" address || contains "://[::1]" address
  | Lan => contains "192.168." address || contains "10." address || contains "172.16." address
  end.

(* crates/fabric/src/lib.rs:3396-3407 route_endpoints *)
Definition route_endpoints (addresses : list string) (path_kind : PathKind) : list string :=
  let filtered := retain (λ address, endpoint_matches_path_kind address path_kind) addresses in
  match filtered with [] => addresses | _ => filtered end.

(* crates/fabric/src/lib.rs:3388-3394 route_source *)
Definition route_source (source : PathSource) : RouteSource :=
  match source with
  | Observed => RouteObserved | Bootstrap => RouteBootstrap
  | AuthorityRelay => RouteAuthorityRelay
  end.

(* crates/fabric/src/lib.rs:3364-3374 endpoint_path_kind *)
Definition endpoint_path_kind (endpoint : BootstrapEndpoint) : PathKind :=
  if any is_ipv6_address (be_addresses endpoint) then DirectIpv6 else DirectUdp.

(* crates/fabric/src/lib.rs:3376-3386 relay_path_kind *)
Definition relay_path_kind (relay : RelayAnnouncement) : PathKind :=
  if any is_ipv6_address (ra_advertised_endpoints relay) then DirectIpv6 else DirectUdp.

(* crates/fabric/src/lib.rs:3429-3436 best_probe_latency_ms *)
Definition best_probe_latency_ms (netcheck : NetcheckReport) : option Z :=
  min_by_key id (omap po_latency_ms
    (retain (λ observation, bool_decide (po_status observation = ProbePassed))
      (probe_observations netcheck))).

(* crates/fabric/src/lib.rs:3438-3440 direct_bootstrap_rtt_ms *)
Definition direct_bootstrap_rtt_ms (netcheck : NetcheckReport) : Z :=
  default 40%Z (best_probe_latency_ms netcheck).

(* crates/fabric/src/lib.rs:3442-3448 direct_bootstrap_jitter_ms *)
Definition direct_bootstrap_jitter_ms (netcheck : NetcheckReport) : Z :=
  if udp_reachable netcheck then 3 else 12.

(* crates/fabric/src/lib.rs:3450-3456 direct_bootstrap_loss_pct *)
Definition direct_bootstrap_loss_pct (netcheck : NetcheckReport) : f32 :=
  if udp_reachable netcheck then f32_ratio 2 10 else f32_ratio 15 10.

(* crates/fabric/src/lib.rs:3458-3464 direct_bootstrap_throughput_mbps *)
Definition direct_bootstrap_throughput_mbps (netcheck : NetcheckReport) : Z :=
  if udp_reachable netcheck then 600 else 120.

(* crates/fabric/src/lib.rs:3466-3474 direct_relay_rtt_ms *)
Definition direct_relay_rtt_ms (relay : RelayAnnouncement) (netcheck : NetcheckReport) : Z :=
  let base := default (if udp_reachable netcheck then 30 else 70)%Z
                (best_probe_latency_ms netcheck) in
  if bool_decide (relay_path_kind relay = DirectIpv6) && ipv6_reachable netcheck
  then u32_sat_add base 5
  else u32_sat_add base 15.

(* crates/fabric/src/lib.rs:3476-3482 direct_relay_jitter_ms *)
Definition direct_relay_jitter_ms (netcheck : NetcheckReport) : Z :=
  if udp_reachable netcheck then 4 else 14.

(* crates/fabric/src/lib.rs:3484-3490 direct_relay_loss_pct *)
Definition direct_relay_loss_pct (netcheck : NetcheckReport) : f32 :=
  if udp_reachable netcheck then f32_ratio 3 10 else f32_ratio 18 10.

(* crates/fabric/src/lib.rs:3492-3494 relay_direct_throughput_mbps *)
Definition relay_direct_throughput_mbps (relay : RelayAnnouncement) : Z :=
  Z.min 5000 (Z.max 100 (ra_max_bandwidth_bps relay / 1000000)).

(* crates/fabric/src/lib.rs:3496-3500 relay_fallback_rtt_ms *)
Definition relay_fallback_rtt_ms (relay : RelayAnnouncement) (netcheck : NetcheckReport) : Z :=
  u32_sat_add (u32_sat_mul (direct_relay_rtt_ms relay netcheck) 2) 20.

(* crates/fabric/src/lib.rs:3502-3504 relay_fallback_jitter_ms *)
Definition relay_fallback_jitter_ms (netcheck : NetcheckReport) : Z :=
  u32_sat_add (direct_relay_jitter_ms netcheck) 5.

(* crates/fabric/src/lib.rs:3506-3508 relay_fallback_loss_pct *)
Definition relay_fallback_loss_pct (netcheck : NetcheckReport) : f32 :=
  f32_add (direct_relay_loss_pct netcheck) (f32_ratio 4 10).

(* crates/fabric/src/lib.rs:3510-3512 relay_fallback_throughput_mbps *)
Definition relay_fallback_throughput_mbps (relay : RelayAnnouncement) : Z :=
  Z.max 80 (relay_direct_throughput_mbps relay / 2).

(* crates/fabric/src/lib.rs:3556-3571 relay_traffic_classes *)
Definition relay_traffic_classes (values : list string) : list TrafficClass :=
  let classes := omap (λ value,
    if String.eqb value "NetworkControl" then Some Control
    else if String.eqb value "InteractiveRpc" then Some Interactive
    else if String.eqb value "Background" then Some Background
    else if String.eqb value "Bulk" then Some Bulk
    else None) values in
  match classes with [] => [Control; Interactive] | _ => classes end.

(** ** Path candidates *)

(* crates/fabric/src/lib.rs:3266-3276 push_unique_candidate *)
Definition push_unique_candidate (candidates : list PathCandidate) (candidate : PathCandidate)
    : list PathCandidate :=
  let exists_ := any (λ existing,
    bool_decide (pc_peer existing = pc_peer candidate) &&
    bool_decide (pc_path_kind existing = pc_path_kind candidate) &&
    bool_decide (pc_relay_peer existing = pc_relay_peer candidate) &&
    bool_decide (pc_source existing = pc_source candidate)) candidates in
  if exists_ then candidates else candidates ++ [candidate].

(* crates/fabric/src/lib.rs:3278-3313 synthesized_direct_bootstrap_candidates *)
Definition synthesized_direct_bootstrap_candidates (state : DaemonState) : list PathCandidate :=
  let netcheck := ds_netcheck state in
  if negb (udp_reachable netcheck) && negb (ipv6_reachable netcheck) then [] else
  omap (λ endpoint,
    peer ← be_peer endpoint;
    if any is_direct_quic_address (be_addresses endpoint) then Some {|
      pc_peer := peer;
      pc_path_kind := endpoint_path_kind endpoint;
      pc_relay_peer := None;
      pc_source := Bootstrap;
      pc_traffic_classes := [Control; Interactive; Bulk; Background];
      pc_rtt_ms := direct_bootstrap_rtt_ms netcheck;
      pc_jitter_ms := direct_bootstrap_jitter_ms netcheck;
      pc_loss_pct := direct_bootstrap_loss_pct netcheck;
      pc_throughput_mbps := direct_bootstrap_throughput_mbps netcheck;
      pc_relay_penalty := 0 |}
    else None) (ds_bootstrap state).

(** The path to a relay itself, and the path to a peer over a relay. *)
(* crates/fabric/src/lib.rs:3326-3339 synthesized_relay_candidates (direct) *)
Definition relay_direct_candidate (netcheck : NetcheckReport) (relay : RelayAnnouncement)
    : PathCandidate := {|
  pc_peer := ra_peer_id relay;
  pc_path_kind := relay_path_kind relay;
  pc_relay_peer := None;
  pc_source := AuthorityRelay;
  pc_traffic_classes := relay_traffic_classes (ra_traffic_classes relay);
  pc_rtt_ms := direct_relay_rtt_ms relay netcheck;
  pc_jitter_ms := direct_relay_jitter_ms netcheck;
  pc_loss_pct := direct_relay_loss_pct netcheck;
  pc_throughput_mbps := relay_direct_throughput_mbps relay;
  pc_relay_penalty := 0 |}.

(* crates/fabric/src/lib.rs:3345-3358 synthesized_relay_candidates (fallback) *)
Definition relay_fallback_candidate (netcheck : NetcheckReport) (peer : PeerId)
    (relay : RelayAnnouncement) : PathCandidate := {|
  pc_peer := peer;
  pc_path_kind := Relay;
  pc_relay_peer := Some (ra_peer_id relay);
  pc_source := AuthorityRelay;
  pc_traffic_classes := relay_traffic_classes (ra_traffic_classes relay);
  pc_rtt_ms := relay_fallback_rtt_ms relay netcheck;
  pc_jitter_ms := relay_fallback_jitter_ms netcheck;
  pc_loss_pct := relay_fallback_loss_pct netcheck;
  pc_throughput_mbps := relay_fallback_throughput_mbps relay;
  pc_relay_penalty := 25 |}.

(* crates/fabric/src/lib.rs:3315-3362 synthesized_relay_candidates *)
Definition synthesized_relay_candidates (state : DaemonState) : list PathCandidate :=
  match ds_relay_map state with
  | None => []
  | Some relay_map =>
      let relay_peer_ids := ra_peer_id <$> rm_relays relay_map in
      (relay_direct_candidate (ds_netcheck state) <$> rm_relays relay_map) ++
      concat ((λ peer,
        let peer := snap_peer (insp_snapshot peer) in
        if any (λ id, bool_decide (id = peer)) relay_peer_ids then []
        else relay_fallback_candidate (ds_netcheck state) peer <$> rm_relays relay_map)
        <$> ds_peers state)
  end.

(* crates/fabric/src/lib.rs:3006-3022 merged_path_candidates *)
Definition merged_path_candidates (state : DaemonState) : list PathCandidate :=
  let candidates := retain (λ candidate, bool_decide (pc_source candidate = Observed))
    (ds_path_candidates state) in
  let candidates := foldl push_unique_candidate candidates
    (synthesized_direct_bootstrap_candidates state) in
  foldl push_unique_candidate candidates (synthesized_relay_candidates state).

(** ** Network checks *)

(* crates/fabric/src/lib.rs:3514-3554 reprobe_netcheck *)
Definition reprobe_netcheck (state : DaemonState) (reason : string) : NetcheckReport :=
  let netcheck := ds_netcheck state in
  let mapped := port_mapped netcheck || bool_decide (is_Some (public_udp_addr netcheck)) in
  let udp := mapped || udp_reachable netcheck in
  let nat :=
    if mapped then
      match nat_type netcheck with NatUnknown | UdpBlocked => RestrictedCone | nat => nat end
    else nat_type netcheck in
  let ipv6 :=
    match public_udp_addr netcheck with
    | Some addr => is_ipv6_address addr
    | None => false
    end || ipv6_reachable netcheck in
  let status := if udp || ipv6 then ProbePassed else ProbeFailed in
  let latency_ms :=
    if bool_decide (status = ProbePassed)
    then or_else (best_probe_latency_ms netcheck) (Some 20%Z) else None in
  let observations := probe_observations netcheck ++ [{|
    po_vantage := "local-runtime"; po_status := status; po_latency_ms := latency_ms;
    po_detail := "network change reprobe: " +:+ reason |}] in
  let observations :=
    if (8 <? length observations)%nat then drop (length observations - 8) observations
    else observations in
  {| nat_type := nat; udp_reachable := udp; ipv6_reachable := ipv6;
     hairpin_supported := hairpin_supported netcheck;
     public_udp_addr := public_udp_addr netcheck; port_mapped := port_mapped netcheck;
     probe_observations := observations |}.

(* crates/fabric/src/lib.rs:3573-3588 pending_netcheck *)
Definition pending_netcheck : NetcheckReport := {|
  nat_type := NatUnknown;
  udp_reachable := false;
  ipv6_reachable := false;
  hairpin_supported := false;
  public_udp_addr := None;
  port_mapped := false;
  probe_observations := [{|
    po_vantage := "local"; po_status := ProbePending; po_latency_ms := None;
    po_detail := "netcheck has not run yet" |}] |}.

(** ** Peers *)

(* crates/fabric/src/lib.rs:2884-2897 bootstrap_protocols *)
Definition bootstrap_protocols (metadata : gmap string string) : list string :=
  let values :=
    match metadata !! "protocols" with
    | Some value => retain (λ value, negb (String.eqb value "")) (trim <$> split_char "," value)
    | None => []
    end in
  match values with [] => ["/quip/control/1"; "/quip/records/1"] | _ => values end.

(* crates/fabric/src/lib.rs:2899-2906 bootstrap_endpoint_from_hint *)
Definition bootstrap_endpoint_from_hint (hint : Membership.BootstrapHint) : BootstrapEndpoint := {|
  be_peer := hint_peer_id hint;
  be_addresses := hint_addresses hint;
  be_protocols := bootstrap_protocols (hint_metadata hint);
  be_metadata := hint_metadata hint |}.

Definition bootstrap_status : PeerStatus := {|
  st_source := SourceBootstrap; st_reachability := Unknown; st_last_seen_unix_secs := None |}.

Definition endpoint_snapshot (peer : PeerId) (endpoint : BootstrapEndpoint) : PeerSnapshot := {|
  snap_peer := peer; snap_protocols := be_protocols endpoint;
  snap_addresses := be_addresses endpoint |}.

(* crates/fabric/src/lib.rs:2908-2930 bootstrap_peers *)
Definition bootstrap_peers (endpoints : list BootstrapEndpoint) : list PeerInspection :=
  peers (foldl (λ store endpoint,
    match be_peer endpoint with
    | None => store
    | Some peer => upsert_peer_with_status (endpoint_snapshot peer endpoint) bootstrap_status store
    end) PeerStore_default endpoints).

(** A store that holds the given peers. *)
(* crates/fabric/src/lib.rs:2936-2940 merge_bootstrap_peers (existing) *)
Definition store_of (existing : list PeerInspection) : PeerStore :=
  foldl (λ store peer, upsert_peer_with_status (insp_snapshot peer) (insp_status peer) store)
    PeerStore_default existing.

(* crates/fabric/src/lib.rs:2932-2960 merge_bootstrap_peers *)
Definition merge_bootstrap_peers (existing : list PeerInspection)
    (bootstrap : list BootstrapEndpoint) : list PeerInspection :=
  peers (foldl (λ store endpoint,
    match be_peer endpoint with
    | None => store
    | Some peer =>
        let status := default bootstrap_status (peer_status store peer) in
        upsert_peer_with_status (endpoint_snapshot peer endpoint) status store
    end) (store_of existing) bootstrap).

(* crates/fabric/src/lib.rs:2962-2981 relay_peers *)
Definition relay_peers (relay_map : RelayMap) : list PeerInspection :=
  peers (foldl (λ store relay,
    upsert_peer_with_status
      {| snap_peer := ra_peer_id relay; snap_protocols := ["/quip/relay/1"];
         snap_addresses := ra_advertised_endpoints relay |}
      {| st_source := SourceRelayMap; st_reachability := Unknown;
         st_last_seen_unix_secs := Some (rm_generated_at relay_map) |} store)
    PeerStore_default (rm_relays relay_map)).

(* crates/fabric/src/lib.rs:2983-3004 merge_relay_peers *)
Definition merge_relay_peers (existing relays : list PeerInspection) : list PeerInspection :=
  peers (foldl (λ store relay,
    let status := default {|
      st_source := SourceRelayMap; st_reachability := Unknown;
      st_last_seen_unix_secs := st_last_seen_unix_secs (insp_status relay) |}
      (peer_status store (snap_peer (insp_snapshot relay))) in
    upsert_peer_with_status (insp_snapshot relay) status store) (store_of existing) relays).

Section daemon.
Context `{Blake3, Varint, Base32}.

(* crates/fabric/src/lib.rs:3590-3621 denied_peers *)
Definition denied_peers (membership : MembershipCertificate) (revocations : list RevocationRecord)
    : list DeniedPeer :=
  omap (λ revocation,
    let text := RevocationReason_debug (rr_reason revocation) +:+ " seq=" +:+
      pretty (rr_sequence revocation) +:+ " issuer=" +:+
      PeerId_to_text (rr_issuer_peer_id revocation) in
    match rr_target revocation with
    | TargetPeer peer_id => Some {| dp_peer := peer_id; dp_reason := "peer revoked: " +:+ text |}
    | TargetMembershipCertificate subject_peer_id issued_at =>
        if bool_decide (subject_peer_id = mc_subject_peer_id membership) &&
           (issued_at =? mc_issued_at membership)%Z
        then Some {| dp_peer := subject_peer_id; dp_reason := "membership revoked: " +:+ text |}
        else None
    | _ => None
    end) revocations.

(* crates/fabric/src/lib.rs:3623-3629 protocol_capability *)
Definition protocol_capability (protocol : ProtocolId) : string :=
  if String.eqb (protocol_text protocol) "/quip/records/1" then "records.publish"
  else if String.eqb (protocol_text protocol) "/quip/control/1" then "control.access"
  else "protocol:" +:+ protocol_text protocol.

(** ** Queries on a state *)

(* crates/fabric/src/lib.rs:428-430 DaemonState::peer *)
Definition daemon_peer (self : DaemonState) (peer : PeerId) : option PeerInspection :=
  find_first (λ entry, bool_decide (snap_peer (insp_snapshot entry) = peer)) (ds_peers self).

(* crates/fabric/src/lib.rs:557-562 DaemonState::relay_count *)
Definition relay_count (self : DaemonState) : Z :=
  match ds_relay_map self with
  | Some relay_map => Z.of_nat (length (rm_relays relay_map))
  | None => 0
  end.

Definition bool_text (b : bool) : string := if b then "true" else "false".
Definition len_text {A} (l : list A) : string := pretty (Z.of_nat (length l)).

(* crates/fabric/src/lib.rs:432-446 DaemonState::status_line *)
Definition daemon_status_line (self : DaemonState) : string :=
  "network=" +:+ ds_network self +:+
  " local_peer=" +:+ PeerId_to_text (ds_local_peer_id self) +:+
  " roles=" +:+ len_text (ds_roles self) +:+
  " bootstrap=" +:+ len_text (ds_bootstrap self) +:+
  " relays=" +:+ pretty (relay_count self) +:+
  " peers=" +:+ len_text (ds_peers self) +:+
  " revocations=" +:+ len_text (ds_revocations self) +:+
  " denied=" +:+ len_text (ds_denied_peers self) +:+
  " sessions=" +:+ len_text (ds_active_sessions self) +:+
  " relay_required=" +:+ bool_text (relay_required (ds_netcheck self)).

(* crates/fabric/src/lib.rs:458-464 DaemonState::path_candidates_for *)
Definition path_candidates_for (self : DaemonState) (peer : PeerId) : list PathCandidate :=
  retain (λ candidate, bool_decide (pc_peer candidate = peer)) (ds_path_candidates self).

(* crates/fabric/src/lib.rs:448-456 DaemonState::best_path *)
Definition best_path (self : DaemonState) (peer : PeerId) (class : TrafficClass)
    : option PathDecision :=
  let candidates := retain (λ candidate, bool_decide (pc_peer candidate = peer))
    (ds_path_candidates self) in
  select_best_path candidates class.

(* crates/fabric/src/lib.rs:466-468 DaemonState::first_peer *)
Definition first_peer (self : DaemonState) : option PeerInspection := head (ds_peers self).

(* crates/fabric/src/lib.rs:474-478 DaemonState::session *)
Definition daemon_session (self : DaemonState) (session_id : bytes) : option SessionSnapshot :=
  find_first (λ session, bool_decide (ss_session_id session = session_id))
    (ds_active_sessions self).

(* crates/fabric/src/lib.rs:3632-3642 DaemonState::is_capability_revoked *)
Definition is_capability_revoked (self : DaemonState) (peer : PeerId) (sequence : Z) : bool :=
  any (λ revocation,
    match rr_target revocation with
    | TargetCapabilityGrant subject_peer_id revoked_sequence =>
        bool_decide (subject_peer_id = peer) && (revoked_sequence =? sequence)%Z
    | _ => false
    end) (ds_revocations self).

(* crates/fabric/src/lib.rs:480-487 DaemonState::grants_for_peer *)
Definition grants_for_peer (self : DaemonState) (peer : PeerId) : list CapabilityGrant :=
  retain (λ grant, negb (is_capability_revoked self (cg_subject_peer_id grant) (cg_sequence grant)))
    (retain (λ grant, bool_decide (cg_subject_peer_id grant = peer)) (ds_capability_grants self)).

(* crates/fabric/src/lib.rs:489-494 DaemonState::deny_reason *)
Definition deny_reason (self : DaemonState) (peer : PeerId) : option string :=
  dp_reason <$> find_first (λ entry, bool_decide (dp_peer entry = peer)) (ds_denied_peers self).

(* crates/fabric/src/lib.rs:507-536 DaemonState::explain_local_protocol_policy *)
Definition explain_local_protocol_policy (self : DaemonState) (protocol : ProtocolId) : Decision :=
  let grants := grants_for_peer self (ds_local_peer_id self) in
  let network_id := NetworkId_derive (as_bytes (ds_network self)) in
  let engine := with_rules [{|
    rule_effect := Allow;
    rule_network_id := Some network_id;
    rule_protocol := Some protocol;
    rule_source_peer := Some (ds_local_peer_id self);
    rule_required_capability := Some (protocol_capability protocol) |}] in
  let decision := evaluate engine network_id (ds_local_peer_id self) protocol grants in
  if allowed decision then
    {| allowed := true;
       reason := reason decision +:+ " using " +:+ len_text grants +:+ " active grant(s)" |}
  else match grants with
  | [] => {| allowed := false;
             reason := "no active capability grants for " +:+ protocol_text protocol |}
  | _ => decision
  end.

(* crates/fabric/src/lib.rs:496-505 DaemonState::explain_policy *)
Definition explain_policy (self : DaemonState) (peer : PeerId) (protocol : ProtocolId) : Decision :=
  match deny_reason self peer with
  | Some reason => {| allowed := false; reason := reason |}
  | None => explain_local_protocol_policy self protocol
  end.

(* crates/fabric/src/lib.rs:538-555 DaemonState::authority_snapshot *)
Definition authority_snapshot (self : DaemonState) : AuthorityArtifactSnapshot := {|
  as_network_id := NetworkId_derive (as_bytes (ds_network self));
  as_enrollment_token := None;
  as_membership := Some (ds_membership self);
  as_capability_grants := ds_capability_grants self;
  as_revocations := ds_revocations self;
  as_bootstrap_hints := (λ endpoint, {|
    hint_peer_id := be_peer endpoint; hint_addresses := be_addresses endpoint;
    hint_metadata := be_metadata endpoint |}) <$> ds_bootstrap self |}.

(* crates/fabric/src/lib.rs:564-569 DaemonState::relay_announcements *)
Definition relay_announcements (self : DaemonState) : list RelayAnnouncement :=
  match ds_relay_map self with Some relay_map => rm_relays relay_map | None => [] end.

(* crates/fabric/src/lib.rs:571-576 DaemonState::max_revocation_sequence *)
Definition max_revocation_sequence (self : DaemonState) : option Z :=
  match rr_sequence <$> ds_revocations self with
  | [] => None
  | n :: l => Some (foldl Z.max n l)
  end.

(** ** Operations on a state *)

(* crates/fabric/src/lib.rs:578-595 DaemonState::apply_revocations *)
Definition apply_revocations (self : DaemonState) (incoming : list RevocationRecord)
    : DaemonState * Z :=
  let '(revocations, added) := merge_revocations (ds_revocations self) incoming in
  (with_revocations revocations (denied_peers (ds_membership self) revocations) self, added).

(* crates/fabric/src/lib.rs:597-621 DaemonState::apply_relay_map *)
Definition apply_relay_map (self : DaemonState) (incoming : RelayMap) : DaemonState * Z :=
  let current := ds_relay_map self in
  if match current with
     | Some existing => (rm_version incoming <? rm_version existing)%Z
     | None => false
     end then (self, 0%Z)
  else
    let added := count (λ relay, negb
      match current with
      | Some existing => any (λ known, bool_decide (ra_peer_id known = ra_peer_id relay))
                           (rm_relays existing)
      | None => false
      end) (rm_relays incoming) in
    let relay_peers := relay_peers incoming in
    let state := with_relay_map (Some incoming) (merge_relay_peers (ds_peers self) relay_peers) self in
    (with_candidates (merged_path_candidates state) state, added).

(* crates/fabric/src/lib.rs:623-673 DaemonState::route_plan *)
Definition route_plan (self : DaemonState) (peer : PeerId) (protocol : option ProtocolId)
    (class : TrafficClass) : result DaemonStateError RoutePlan :=
  decision ← ok_or (DsNoRoute peer) (best_path self peer class);
  inspection ← ok_or (DsPeerNotFound (PeerId_to_text peer)) (daemon_peer self peer);
  let selected := dec_selected decision in
  let remote_endpoints :=
    route_endpoints (snap_addresses (insp_snapshot inspection)) (pc_path_kind selected) in
  relay ←
    if decide (pc_path_kind selected = Relay) then
      relay_peer ← ok_or (DsNoRoute peer) (pc_relay_peer selected);
      relay ← ok_or (DsNoRoute peer)
        (find_first (λ candidate, bool_decide (ra_peer_id candidate = relay_peer))
          (relay_announcements self));
      Ok (Some {|
        rp_relay_peer := relay_peer;
        rp_relay_endpoints :=
          route_endpoints (ra_advertised_endpoints relay) (relay_path_kind relay);
        rp_relay_control_endpoint := ra_control_endpoint relay;
        rp_destination_endpoints := remote_endpoints;
        rp_supports_datagrams := ra_supports_quic_datagrams relay;
        rp_supports_path_migration := ra_supports_path_migration relay |})
    else Ok None;
  Ok {|
    rt_local_peer := ds_local_peer_id self;
    rt_peer := peer;
    rt_protocol := protocol;
    rt_class := class;
    rt_path_kind := pc_path_kind selected;
    rt_source := route_source (pc_source selected);
    rt_remote_endpoints := remote_endpoints;
    rt_relay := relay |}.

(* crates/fabric/src/lib.rs:675-687 DaemonState::with_active_session *)
Definition with_active_session (self : DaemonState) (session : SessionSnapshot) : DaemonState :=
  with_sessions (upsert_by (λ existing, bool_decide (ss_session_id existing = ss_session_id session))
    session (ds_active_sessions self)) self.

(* crates/fabric/src/lib.rs:689-695 DaemonState::without_session *)
Definition without_session (self : DaemonState) (session_id : bytes) : DaemonState :=
  with_sessions (retain (λ session, bool_decide (ss_session_id session ≠ session_id))
    (ds_active_sessions self)) self.

(* crates/fabric/src/lib.rs:697-732 DaemonState::sync_authority_snapshot *)
Definition daemon_sync_snapshot (self : DaemonState) (client : ControlClient)
    (incoming : AuthorityArtifactSnapshot) : result DaemonStateError (DaemonState * StateSyncReport) :=
  '(merged, delta) ← map_err DsControl
    (merge_snapshot client (Some (authority_snapshot self)) incoming);
  membership ← ok_or DsMissingMembership (as_membership merged);
  let bootstrap := bootstrap_endpoint_from_hint <$> as_bootstrap_hints merged in
  let state := {|
    ds_schema_version := ds_schema_version self;
    ds_network := ds_network self;
    ds_local_peer_id := mc_subject_peer_id membership;
    ds_roles := ds_roles self;
    ds_membership := membership;
    ds_capability_grants := as_capability_grants merged;
    ds_revocations := as_revocations merged;
    ds_denied_peers := denied_peers membership (as_revocations merged);
    ds_bootstrap := bootstrap;
    ds_relay_map := ds_relay_map self;
    ds_peers := merge_bootstrap_peers (ds_peers self) bootstrap;
    ds_netcheck := ds_netcheck self;
    ds_queue_policies := ds_queue_policies self;
    ds_active_sessions := ds_active_sessions self;
    ds_path_candidates := ds_path_candidates self |} in
  Ok (with_candidates (merged_path_candidates state) state, {|
    sy_membership_changed := membership_changed delta;
    sy_grants_added := grants_added delta;
    sy_grants_removed := grants_removed delta;
    sy_revocations_added := revocations_added delta;
    sy_bootstrap_hints_added := bootstrap_hints_added delta;
    sy_bootstrap_hints_removed := bootstrap_hints_removed delta;
    sy_relay_announcements_added := 0 |}).

(* crates/fabric/src/lib.rs:734-775 DaemonState::from_authority_snapshot *)
Definition from_authority_snapshot (network : string) (roles : list DaemonRole)
    (snapshot : AuthorityArtifactSnapshot) : result DaemonStateError DaemonState :=
  if decide (as_network_id snapshot ≠ NetworkId_derive (as_bytes network))
  then Err DsNetworkMismatch
  else
  membership ← ok_or DsMissingMembership (as_membership snapshot);
  let bootstrap := bootstrap_endpoint_from_hint <$> as_bootstrap_hints snapshot in
  let state := {|
    ds_schema_version := DAEMON_STATE_SCHEMA_VERSION;
    ds_network := network;
    ds_local_peer_id := mc_subject_peer_id membership;
    ds_roles := roles;
    ds_membership := membership;
    ds_capability_grants := as_capability_grants snapshot;
    ds_revocations := as_revocations snapshot;
    ds_denied_peers := denied_peers membership (as_revocations snapshot);
    ds_bootstrap := bootstrap;
    ds_relay_map := None;
    ds_peers := bootstrap_peers bootstrap;
    ds_netcheck := pending_netcheck;
    ds_queue_policies := default_queue_policies;
    ds_active_sessions := [];
    ds_path_candidates := [] |} in
  Ok (with_candidates (merged_path_candidates state) state).
End daemon.
