(* ===== verification/FabricProps.v ===== *)
(** The daemon's state: what its operations preserve, the routes it plans, and
    what its policy allows. *)
From stdpp Require Import countable option base relations list strings gmap pretty sorting.
From Stdlib Require Import ZArith Lia Strings.Byte Strings.Ascii.
From S2P Require Import Prelude Text BTree F32 External Model Crypto Records Netcheck Scheduler PeerStore Policy Routing RelayWire Transport Membership Control Authority AuthorityProps Fabric.

(** ** Peers *)

Definition peer_ids (l : list PeerInspection) : list PeerId := (snap_peer ∘ insp_snapshot) <$> l.

Lemma peers_sorted s : store_wf s → StronglySorted key_lt (peer_ids (peers s)).
Proof. intros Hs. unfold peer_ids. rewrite peers_keys by done. apply bt_keys_sorted. Qed.

Lemma elem_of_peer_ids s p : store_wf s → p ∈ peer_ids (peers s) ↔ is_Some (store_peers s !! p).
Proof. intros Hs. unfold peer_ids. rewrite peers_keys by done. apply elem_of_bt_keys. Qed.

(** A loop whose rounds upsert at most one peer each. *)
Lemma foldl_upserts {A} (f : PeerStore → A → PeerStore) (key : A → option PeerId) l s :
  (∀ s x, store_wf s → store_wf (f s x)) →
  (∀ s x p, is_Some (store_peers (f s x) !! p) ↔ is_Some (store_peers s !! p) ∨ key x = Some p) →
  store_wf s →
  store_wf (foldl f s l) ∧
  ∀ p, is_Some (store_peers (foldl f s l) !! p) ↔ is_Some (store_peers s !! p) ∨ Some p ∈ key <$> l.
Proof.
  intros Hwf Hkey. revert s. induction l as [|x l IH]; intros s Hs.
  { split; [done|]. intros p. rewrite fmap_nil, elem_of_nil. tauto. }
  destruct (IH (f s x)) as [Hs' Hp]; [by apply Hwf|]. split; [done|]. intros p.
  cbn [foldl]. rewrite Hp, Hkey, fmap_cons, elem_of_cons. intuition congruence.
Qed.

Lemma upsert_is_Some snap st s p :
  is_Some (store_peers (upsert_peer_with_status snap st s) !! p) ↔
  is_Some (store_peers s !! p) ∨ Some (snap_peer snap) = Some p.
Proof.
  simpl. rewrite lookup_insert. case_decide as Hp; split; auto.
  - intros _. right. congruence.
  - intros [?|[= ?]]; [done|congruence].
Qed.

Lemma store_of_spec existing :
  store_wf (store_of existing) ∧
  ∀ p, is_Some (store_peers (store_of existing) !! p) ↔ p ∈ peer_ids existing.
Proof.
  unfold store_of.
  edestruct (foldl_upserts (λ store peer,
    upsert_peer_with_status (insp_snapshot peer) (insp_status peer) store)
    (λ i, Some (snap_peer (insp_snapshot i))) existing) as [Hwf Hp].
  - intros. by apply upsert_peer_with_status_wf.
  - intros. apply upsert_is_Some.
  - apply store_wf_default.
  - split; [exact Hwf|]. intros p. rewrite Hp. unfold peer_ids. simpl.
    rewrite !list_elem_of_fmap. split; [intros [[? [=]]|]|]; naive_solver.
Qed.

Section endpoints.
Context (endpoints : list BootstrapEndpoint).

Lemma bootstrap_peers_ids :
  StronglySorted key_lt (peer_ids (bootstrap_peers endpoints)) ∧
  ∀ p, p ∈ peer_ids (bootstrap_peers endpoints) ↔ Some p ∈ be_peer <$> endpoints.
Proof.
  unfold bootstrap_peers.
  edestruct (foldl_upserts (λ store endpoint, match be_peer endpoint with
    | None => store
    | Some peer => upsert_peer_with_status (endpoint_snapshot peer endpoint) bootstrap_status store
    end) be_peer endpoints PeerStore_default) as [Hwf Hp].
  - intros s x Hs. destruct (be_peer x); [by apply upsert_peer_with_status_wf|done].
  - intros s x p. destruct (be_peer x); [apply upsert_is_Some|naive_solver].
  - apply store_wf_default.
  - split; [by apply peers_sorted|]. intros p. rewrite elem_of_peer_ids, Hp by done.
    split; [|auto]. by intros [[? [=]]|].
Qed.

Lemma merge_bootstrap_peers_ids existing :
  StronglySorted key_lt (peer_ids (merge_bootstrap_peers existing endpoints)) ∧
  ∀ p, p ∈ peer_ids (merge_bootstrap_peers existing endpoints) ↔
    p ∈ peer_ids existing ∨ Some p ∈ be_peer <$> endpoints.
Proof.
  unfold merge_bootstrap_peers. destruct (store_of_spec existing) as [Hwf0 Hp0].
  edestruct (foldl_upserts (λ store endpoint, match be_peer endpoint with
    | None => store
    | Some peer => upsert_peer_with_status (endpoint_snapshot peer endpoint)
        (default bootstrap_status (peer_status store peer)) store
    end) be_peer endpoints (store_of existing)) as [Hwf Hp].
  - intros s x Hs. destruct (be_peer x); [by apply upsert_peer_with_status_wf|done].
  - intros s x p. destruct (be_peer x); [apply upsert_is_Some|naive_solver].
  - done.
  - split; [by apply peers_sorted|]. intros p. by rewrite elem_of_peer_ids, Hp, Hp0.
Qed.
End endpoints.

Lemma relay_peers_ids m p :
  p ∈ peer_ids (relay_peers m) ↔ p ∈ ra_peer_id <$> rm_relays m.
Proof.
  unfold relay_peers.
  edestruct (foldl_upserts (λ store relay, upsert_peer_with_status
      {| snap_peer := ra_peer_id relay; snap_protocols := ["/quip/relay/1"];
         snap_addresses := ra_advertised_endpoints relay |}
      {| st_source := SourceRelayMap; st_reachability := Unknown;
         st_last_seen_unix_secs := Some (rm_generated_at m) |} store)
    (λ r, Some (ra_peer_id r)) (rm_relays m) PeerStore_default) as [Hwf Hp].
  - intros. by apply upsert_peer_with_status_wf.
  - intros. apply upsert_is_Some.
  - apply store_wf_default.
  - rewrite elem_of_peer_ids, Hp by done. rewrite !list_elem_of_fmap.
    split; [intros [[? [=]]|]|]; naive_solver.
Qed.

Lemma merge_relay_peers_ids existing relays :
  StronglySorted key_lt (peer_ids (merge_relay_peers existing relays)) ∧
  ∀ p, p ∈ peer_ids (merge_relay_peers existing relays) ↔
    p ∈ peer_ids existing ∨ p ∈ peer_ids relays.
Proof.
  unfold merge_relay_peers. destruct (store_of_spec existing) as [Hwf0 Hp0].
  edestruct (foldl_upserts (λ store relay, upsert_peer_with_status (insp_snapshot relay)
      (default {| st_source := SourceRelayMap; st_reachability := Unknown;
         st_last_seen_unix_secs := st_last_seen_unix_secs (insp_status relay) |}
      (peer_status store (snap_peer (insp_snapshot relay)))) store)
    (λ i, Some (snap_peer (insp_snapshot i))) relays (store_of existing)) as [Hwf Hp].
  - intros. by apply upsert_peer_with_status_wf.
  - intros. apply upsert_is_Some.
  - done.
  - split; [by apply peers_sorted|]. intros p. rewrite elem_of_peer_ids, Hp, Hp0 by done.
    f_equiv. unfold peer_ids. rewrite !list_elem_of_fmap. naive_solver.
Qed.

(** ** Candidates *)

Lemma elem_of_push_unique l x c : c ∈ push_unique_candidate l x → c ∈ l ∨ c = x.
Proof.
  unfold push_unique_candidate. destruct (any _ _); [auto|].
  intros [?| ->%list_elem_of_singleton]%elem_of_app; auto.
Qed.

Lemma elem_of_push_all l xs c : c ∈ foldl push_unique_candidate l xs → c ∈ l ∨ c ∈ xs.
Proof.
  revert l. induction xs as [|x xs IH]; intros l; simpl; [auto|].
  intros [[?| ->]%elem_of_push_unique|?]%IH; [auto|right; left|right; by right].
Qed.

Lemma push_all_prefix l xs : l `prefix_of` foldl push_unique_candidate l xs.
Proof.
  revert l. induction xs as [|x xs IH]; intros l; simpl; [done|].
  etrans; [|apply IH]. unfold push_unique_candidate. destruct (any _ _); [done|].
  by apply prefix_app_r.
Qed.

Definition observed (c : PathCandidate) : bool := bool_decide (pc_source c = Observed).

Lemma retain_observed_push l xs :
  (∀ x, x ∈ xs → pc_source x ≠ Observed) →
  retain observed (foldl push_unique_candidate l xs) = retain observed l.
Proof.
  revert l. induction xs as [|x xs IH]; intros l Hxs; simpl; [done|].
  rewrite IH by (intros y Hy; apply Hxs; by right).
  unfold push_unique_candidate. destruct (any _ _); [done|].
  rewrite retain_app. simpl. unfold observed at 2.
  rewrite bool_decide_eq_false_2 by (apply Hxs; left). by rewrite app_nil_r.
Qed.

Lemma retain_retain {A} (p : A → bool) l : retain p (retain p l) = retain p l.
Proof. apply retain_all. by intros x [_ ?]%elem_of_retain. Qed.

Lemma elem_of_bootstrap_candidates s c :
  c ∈ synthesized_direct_bootstrap_candidates s →
  pc_source c = Bootstrap ∧ pc_relay_peer c = None ∧ pc_path_kind c ≠ Relay ∧
  Some (pc_peer c) ∈ be_peer <$> ds_bootstrap s.
Proof.
  unfold synthesized_direct_bootstrap_candidates. destruct (_ && _); [by intros ?%elem_of_nil|].
  intros (e & He & Hc)%list_elem_of_omap. apply bind_Some in Hc as (p & Hp & Hc).
  destruct (any _ _); [|done]. injection Hc as <-. simpl. split_and!; try done.
  - unfold endpoint_path_kind. by destruct (any _ _).
  - rewrite <-Hp. by apply list_elem_of_fmap_2.
Qed.

Lemma elem_of_relay_candidates s c :
  c ∈ synthesized_relay_candidates s →
  pc_source c = AuthorityRelay ∧ ∃ r, r ∈ relay_announcements s ∧
  ((pc_relay_peer c = None ∧ pc_path_kind c ≠ Relay ∧ pc_peer c = ra_peer_id r) ∨
   (pc_relay_peer c = Some (ra_peer_id r) ∧ pc_path_kind c = Relay ∧
    pc_peer c ∈ peer_ids (ds_peers s))).
Proof.
  unfold synthesized_relay_candidates, relay_announcements.
  destruct (ds_relay_map s) as [m|]; [|by intros ?%elem_of_nil].
  intros [(r & -> & Hr)%list_elem_of_fmap|Hc]%elem_of_app.
  - split; [done|]. exists r. split; [done|]. left. split_and!; try done. simpl.
    unfold relay_path_kind. by destruct (any _ _).
  - apply list_elem_of_In, in_concat in Hc as (l & Hl & Hc).
    apply list_elem_of_In in Hl, Hc. apply list_elem_of_fmap in Hl as (i & -> & Hi).
    destruct (any _ _); [by apply elem_of_nil in Hc|].
    apply list_elem_of_fmap in Hc as (r & -> & Hr). split; [done|]. exists r. split; [done|].
    right. split_and!; try done. simpl. unfold peer_ids. apply list_elem_of_fmap. by exists i.
Qed.

(** Rebuilding the candidates keeps the observed ones and adds synthesized
    ones only. *)
Lemma elem_of_merged_candidates s c :
  c ∈ merged_path_candidates s →
  (c ∈ ds_path_candidates s ∧ pc_source c = Observed) ∨
  c ∈ synthesized_direct_bootstrap_candidates s ∨ c ∈ synthesized_relay_candidates s.
Proof.
  unfold merged_path_candidates. intros [[Hc|Hc]%elem_of_push_all|Hc]%elem_of_push_all; auto.
  left. by rewrite elem_of_retain, bool_decide_eq_true in Hc.
Qed.

Lemma retain_observed_merged s :
  retain observed (merged_path_candidates s) = retain observed (ds_path_candidates s).
Proof.
  unfold merged_path_candidates. rewrite !retain_observed_push.
  - apply retain_retain.
  - intros x (Hx & _)%elem_of_bootstrap_candidates. by rewrite Hx.
  - intros x (Hx & _)%elem_of_relay_candidates. by rewrite Hx.
Qed.

(** Candidates that were rebuilt are up to date. *)
Lemma merged_idempotent s :
  merged_path_candidates (with_candidates (merged_path_candidates s) s) = merged_path_candidates s.
Proof.
  unfold merged_path_candidates at 1. cbn [ds_path_candidates with_candidates].
  change (retain (λ candidate, bool_decide (pc_source candidate = Observed)))
    with (retain observed). by rewrite retain_observed_merged.
Qed.

(** ** Losses *)

Lemma push_unique_forall (P : PathCandidate → Prop) l k :
  Forall P l → Forall P k → Forall P (foldl push_unique_candidate l k).
Proof.
  intros Hl Hk. revert l Hl. induction Hk as [|c k Hc _ IH]; intros l Hl; [exact Hl|].
  apply IH. unfold push_unique_candidate. case_match; [exact Hl|]. apply Forall_app. by repeat constructor.
Qed.

(** The losses the daemon gives its candidates are numbers. *)
Lemma synthesized_finite s :
  Forall (λ c, f32_finite (pc_loss_pct c) = true)
    (synthesized_direct_bootstrap_candidates s ++ synthesized_relay_candidates s).
Proof.
  apply Forall_app. split.
  - unfold synthesized_direct_bootstrap_candidates. case_match; [constructor|].
    apply Forall_forall. intros c (endpoint & _ & Hc)%list_elem_of_omap.
    destruct (be_peer endpoint); [|done]. cbn in Hc. case_match; [|done]. injection Hc as <-.
    cbn. unfold direct_bootstrap_loss_pct. by case_match.
  - unfold synthesized_relay_candidates. case_match; [|constructor]. cbv zeta.
    apply Forall_app. split; [|apply Forall_concat]; apply Forall_fmap, Forall_true; intros x.
    + cbn. unfold direct_relay_loss_pct. by case_match.
    + cbn. case_match; [constructor|]. apply Forall_fmap, Forall_true. intros relay. cbn.
      unfold relay_fallback_loss_pct, direct_relay_loss_pct. by case_match.
Qed.

Lemma merged_finite s :
  finite_losses s → finite_losses (with_candidates (merged_path_candidates s) s).
Proof.
  intros Hs. unfold finite_losses, merged_path_candidates. cbn [ds_path_candidates with_candidates].
  pose proof (synthesized_finite s) as [Hb Hr]%Forall_app.
  do 2 (apply push_unique_forall; [|done]). apply Forall_forall. intros c [Hc _]%elem_of_retain.
  exact (proj1 (Forall_forall _ _) Hs c Hc).
Qed.

(** ** The state and its operations *)

Section states.
Context `{Blake3, Varint, Base32}.

(** The derived fields are up to date: who is denied, which peers are known,
    which paths there are. *)
Record daemon_wf (s : DaemonState) : Prop := {
  dw_local : ds_local_peer_id s = mc_subject_peer_id (ds_membership s);
  dw_denied : ds_denied_peers s = denied_peers (ds_membership s) (ds_revocations s);
  dw_sessions : NoDup (ss_session_id <$> ds_active_sessions s);
  dw_peers : StronglySorted key_lt (peer_ids (ds_peers s));
  dw_bootstrap p : Some p ∈ be_peer <$> ds_bootstrap s → p ∈ peer_ids (ds_peers s);
  dw_relays r : r ∈ relay_announcements s → ra_peer_id r ∈ peer_ids (ds_peers s);
  dw_candidates : ds_path_candidates s = merged_path_candidates s;
  dw_finite : finite_losses s;
}.

(** Everything but the candidates, before they are rebuilt. *)
Lemma rebuilt_wf s :
  ds_local_peer_id s = mc_subject_peer_id (ds_membership s) →
  ds_denied_peers s = denied_peers (ds_membership s) (ds_revocations s) →
  NoDup (ss_session_id <$> ds_active_sessions s) →
  StronglySorted key_lt (peer_ids (ds_peers s)) →
  (∀ p, Some p ∈ be_peer <$> ds_bootstrap s → p ∈ peer_ids (ds_peers s)) →
  (∀ r, r ∈ relay_announcements s → ra_peer_id r ∈ peer_ids (ds_peers s)) →
  finite_losses s →
  daemon_wf (with_candidates (merged_path_candidates s) s).
Proof. intros. split; try done; [by rewrite merged_idempotent|by apply merged_finite]. Qed.

(** One operation on a state, as the control plane applies them. *)
Inductive daemon_step (s : DaemonState) : DaemonState → Prop :=
| step_revocations incoming : daemon_step s (apply_revocations s incoming).1
| step_relay_map incoming : daemon_step s (apply_relay_map s incoming).1
| step_sync client incoming s' report :
    daemon_sync_snapshot s client incoming = Ok (s', report) → daemon_step s s'
| step_reprobe reason :
    let s1 := with_netcheck (reprobe_netcheck s reason) s in
    daemon_step s (with_candidates (merged_path_candidates s1) s1)
| step_session session : daemon_step s (with_active_session s session)
| step_no_session id : daemon_step s (without_session s id)
| step_sessions sessions :
    NoDup (ss_session_id <$> sessions) → daemon_step s (with_sessions sessions s)
| step_roles roles : daemon_step s (with_roles roles s)
| step_rebuild : daemon_step s (with_candidates (merged_path_candidates s) s).

Lemma sync_snapshot_wf s client incoming s' report :
  daemon_wf s → daemon_sync_snapshot s client incoming = Ok (s', report) → daemon_wf s'.
Proof.
  intros Hs Hsync. unfold daemon_sync_snapshot in Hsync.
  apply result_bind_Ok in Hsync as ([merged delta] & _ & Hsync).
  apply result_bind_Ok in Hsync as (membership & _ & [= <- _]).
  destruct (merge_bootstrap_peers_ids (bootstrap_endpoint_from_hint <$> as_bootstrap_hints merged)
    (ds_peers s)) as [Hsorted Hids].
  apply rebuilt_wf; try done; [apply Hs| | |apply (dw_finite s Hs)]; cbn [ds_bootstrap ds_peers].
  - intros p Hp. apply Hids. by right.
  - intros r Hr. apply Hids. left. by apply (dw_relays s Hs).
Qed.

Lemma apply_relay_map_wf s incoming : daemon_wf s → daemon_wf (apply_relay_map s incoming).1.
Proof.
  intros Hs. unfold apply_relay_map.
  destruct (match ds_relay_map s with Some e => _ | None => _ end); [done|].
  destruct (merge_relay_peers_ids (ds_peers s) (relay_peers incoming)) as [Hsorted Hids].
  destruct Hs. apply rebuilt_wf; try done; cbn [ds_bootstrap ds_peers with_relay_map].
  - intros p Hp. apply Hids. left. by apply dw_bootstrap0.
  - intros r Hr. apply Hids. right. apply relay_peers_ids. by apply list_elem_of_fmap_2.
Qed.

Lemma NoDup_fmap_retain {A B} (f : A → B) p l : NoDup (f <$> l) → NoDup (f <$> retain p l).
Proof.
  intros Hnd. eapply sublist_NoDup; [exact Hnd|]. apply fmap_sublist, retain_sublist.
Qed.

(** Parts of a state the candidates do not depend on. *)
Lemma daemon_step_wf s s' : daemon_wf s → daemon_step s s' → daemon_wf s'.
Proof.
  intros Hs [incoming|incoming|client incoming s1 report Hsync|reason|session|id|sessions Hnd|roles|].
  - unfold apply_revocations. destruct (merge_revocations _ _) as [l n]. destruct Hs. by split.
  - by apply apply_relay_map_wf.
  - by eapply sync_snapshot_wf.
  - destruct Hs. by apply rebuilt_wf.
  - destruct Hs. split; try done. simpl. apply NoDup_upsert_by; [|done].
    intros y. apply bool_decide_eq_true.
  - destruct Hs. split; try done. simpl. by apply NoDup_fmap_retain.
  - destruct Hs. by split.
  - destruct Hs. by split.
  - destruct Hs. by apply rebuilt_wf.
Qed.

Lemma from_authority_snapshot_wf network roles snapshot s :
  from_authority_snapshot network roles snapshot = Ok s → daemon_wf s.
Proof.
  unfold from_authority_snapshot. case_decide; [done|].
  intros (membership & _ & [= <-])%result_bind_Ok.
  destruct (bootstrap_peers_ids (bootstrap_endpoint_from_hint <$> as_bootstrap_hints snapshot))
    as [Hsorted Hids].
  apply rebuilt_wf; try done; cbn [ds_bootstrap ds_peers ds_active_sessions].
  - apply NoDup_nil_2.
  - intros p Hp. by apply Hids.
  - by intros r ?%elem_of_nil.
  - constructor.
Qed.

Lemma daemon_steps_wf s s' : daemon_wf s → rtc daemon_step s s' → daemon_wf s'.
Proof. intros Hs Hr. induction Hr; [done|]. eauto using daemon_step_wf. Qed.

(** C19.  Whatever snapshots, relay maps, revocations, network changes and
    sessions a daemon seeded from the authority goes through, the peers it
    denies are the ones its revocations name, every bootstrap peer and every
    relay is a known peer, peers and sessions are unique, and its path
    candidates are the ones its other fields give, with losses that are
    numbers. *)
Theorem daemon_reachable_wf network roles snapshot s0 s
    (Hseed : from_authority_snapshot network roles snapshot = Ok s0)
    (Hsteps : rtc daemon_step s0 s) :
  daemon_wf s.
Proof. eauto using daemon_steps_wf, from_authority_snapshot_wf. Qed.

(** ** Progress *)

(** The second state knows every revocation of the first, in place, and has a
    membership and a relay map at least as recent. *)
Record daemon_advances (s s' : DaemonState) : Prop := {
  adv_network : ds_network s' = ds_network s;
  adv_revocations : ds_revocations s `prefix_of` ds_revocations s';
  adv_subject : mc_subject_peer_id (ds_membership s') = mc_subject_peer_id (ds_membership s);
  adv_issued : (mc_issued_at (ds_membership s) ≤ mc_issued_at (ds_membership s'))%Z;
  adv_relays m : ds_relay_map s = Some m →
    ∃ m', ds_relay_map s' = Some m' ∧ (rm_version m ≤ rm_version m')%Z;
}.

#[export] Instance daemon_advances_preorder : PreOrder daemon_advances.
Proof.
  split.
  - intros s. split; try done. intros m Hm. by exists m.
  - intros s1 s2 s3 [] []. split; [congruence|by etrans|congruence|lia|].
    intros m (m' & Hm' & ?)%adv_relays0. destruct (adv_relays1 _ Hm') as (m'' & ? & ?).
    exists m''. split; [done|lia].
Qed.

Lemma merge_revocations_prefix l incoming : l `prefix_of` (merge_revocations l incoming).1.
Proof.
  pose proof (merge_revocations_spec l incoming) as Hs.
  destruct (merge_revocations l incoming) as [m n]. destruct Hs as [(k & -> & _) _]. by exists k.
Qed.

(** What a successful synchronization takes over. *)
Lemma sync_snapshot_effect s client incoming s' report :
  daemon_sync_snapshot s client incoming = Ok (s', report) →
  daemon_advances s s' ∧
  ds_revocations s' = (merge_revocations (ds_revocations s) (as_revocations incoming)).1 ∧
  ds_capability_grants s' = as_capability_grants incoming ∧
  ds_membership s' = default (ds_membership s) (as_membership incoming) ∧
  ds_denied_peers s' = denied_peers (ds_membership s') (ds_revocations s').
Proof.
  intros Hsync. unfold daemon_sync_snapshot in Hsync.
  apply result_bind_Ok in Hsync as ([merged delta] & Hm & Hsync).
  apply map_err_Ok in Hm. apply result_bind_Ok in Hsync as (membership & Hmem & [= <- _]).
  apply ok_or_Ok in Hmem.
  pose proof (merge_snapshot_cases client (authority_snapshot s) incoming) as Hc.
  rewrite Hm in Hc. destruct Hc as ([_ Hmg _] & _ & _ & Hme & Hg & _ & Hr).
  simpl in Hr. rewrite Hme in Hmem. simpl in Hmem.
  assert (membership = default (ds_membership s) (as_membership incoming)) as ->
    by (destruct (as_membership incoming); simpl in *; congruence).
  split_and!; cbn; try done; [|by rewrite Hr].
  pose proof (merge_revocations_prefix (ds_revocations s) (as_revocations incoming)) as Hp.
  rewrite Hr in Hp. simpl in Hp.
  split; cbn; try done.
  - destruct (as_membership incoming) as [i|]; simpl; [|done].
    by destruct (Hmg _ i eq_refl eq_refl) as [-> _].
  - destruct (as_membership incoming) as [i|]; simpl; [|done].
    destruct (Hmg _ i eq_refl eq_refl) as [_ [?| ->]]; lia.
  - intros m Hm'. by exists m.
Qed.

Lemma daemon_step_advances s s' : daemon_step s s' → daemon_advances s s'.
Proof.
  intros [incoming|incoming|client incoming s1 report Hsync|reason|session|id|sessions _|roles|].
  - unfold apply_revocations.
    pose proof (merge_revocations_prefix (ds_revocations s) incoming).
    destruct (merge_revocations _ _) as [l n]. split; try done. intros m Hm. by exists m.
  - unfold apply_relay_map. destruct (ds_relay_map s) as [e|] eqn:He.
    + destruct (Z.ltb_spec (rm_version incoming) (rm_version e)); [done|].
      split; try done. cbn. rewrite He. intros m [= <-]. by exists incoming.
    + split; try done. cbn. rewrite He. done.
  - by apply sync_snapshot_effect in Hsync as [? _].
  - split; try done. intros m Hm. by exists m.
  - split; try done. intros m Hm. by exists m.
  - split; try done. intros m Hm. by exists m.
  - split; try done. intros m Hm. by exists m.
  - split; try done. intros m Hm. by exists m.
  - split; try done. intros m Hm. by exists m.
Qed.

Lemma daemon_steps_advance s s' : rtc daemon_step s s' → daemon_advances s s'.
Proof.
  intros Hsteps. induction Hsteps as [s|s1 s2 s3 Hst _ IH]; [done|].
  etrans; [|done]. by apply daemon_step_advances.
Qed.

(** No operation rolls a daemon's state back: revocations accumulate,
    the membership stays with its subject and never gets older, and the relay
    map never goes to an earlier version. *)
Lemma daemon_never_rolls_back s s' (Hsteps : rtc daemon_step s s') : daemon_advances s s'.
Proof. by apply daemon_steps_advance. Qed.

(** ** Policy *)

Lemma deny_reason_None s p : deny_reason s p = None ↔ ∀ d, d ∈ ds_denied_peers s → dp_peer d ≠ p.
Proof.
  unfold deny_reason. rewrite fmap_None, find_first_None, any_false.
  setoid_rewrite bool_decide_eq_false. done.
Qed.

(** A grant of the local peer that no revocation names. *)
Definition active_grant (s : DaemonState) (g : CapabilityGrant) : Prop :=
  g ∈ ds_capability_grants s ∧ cg_subject_peer_id g = ds_local_peer_id s ∧
  ∀ r, r ∈ ds_revocations s →
    rr_target r ≠ TargetCapabilityGrant (cg_subject_peer_id g) (cg_sequence g).

Lemma is_capability_revoked_false s p n :
  is_capability_revoked s p n = false ↔
  ∀ r, r ∈ ds_revocations s → rr_target r ≠ TargetCapabilityGrant p n.
Proof.
  unfold is_capability_revoked. rewrite any_false. apply forall_proper. intros r.
  assert (∀ t, match t with
    | TargetCapabilityGrant q m => bool_decide (q = p) && (m =? n)%Z
    | _ => false end = false ↔ t ≠ TargetCapabilityGrant p n) as Ht.
  { intros [| |q m|]; try done.
    rewrite andb_false_iff, bool_decide_eq_false, Z.eqb_neq.
    split; [intros [?|?]; congruence|]. intros Hne.
    destruct (decide (q = p)) as [->|]; [right|by left]. by intros ->. }
  by rewrite Ht.
Qed.

Lemma elem_of_active_grants s g :
  g ∈ grants_for_peer s (ds_local_peer_id s) ↔ active_grant s g.
Proof.
  unfold grants_for_peer, active_grant.
  rewrite !elem_of_retain, negb_true_iff, is_capability_revoked_false, bool_decide_eq_true. tauto.
Qed.

Lemma local_policy_allowed s protocol :
  allowed (explain_local_protocol_policy s protocol) = true ↔
  ∃ g, active_grant s g ∧ protocol_capability protocol ∈ cg_capabilities g ∧
    protocol ∈ cg_protocol_scopes g.
Proof.
  unfold explain_local_protocol_policy. set (grants := grants_for_peer s (ds_local_peer_id s)).
  match goal with |- context [evaluate ?e ?n ?p ?q ?g] => set (d := evaluate e n p q g) end.
  assert (allowed d = true ↔ ∃ g, active_grant s g ∧
    protocol_capability protocol ∈ cg_capabilities g ∧ protocol ∈ cg_protocol_scopes g) as Hd.
  { unfold d, evaluate. rewrite evaluate_rules_find. cbn [rules with_rules find_first].
    setoid_rewrite <-elem_of_active_grants. fold grants. rewrite <-has_capability_true.
    unfold applies_b. cbn. rewrite !bool_decide_eq_false_2 by tauto. cbn.
    by destruct (has_capability _ _ _). }
  destruct (allowed d) eqn:E; [exact Hd|]. rewrite <-Hd.
  destruct grants; [done|]. by rewrite E.
Qed.

Lemma policy_allowed s peer protocol :
  allowed (explain_policy s peer protocol) = true ↔
  (∀ d, d ∈ ds_denied_peers s → dp_peer d ≠ peer) ∧
  ∃ g, active_grant s g ∧ protocol_capability protocol ∈ cg_capabilities g ∧
    protocol ∈ cg_protocol_scopes g.
Proof.
  rewrite <-deny_reason_None, <-local_policy_allowed. unfold explain_policy.
  destruct (deny_reason s peer); simpl; naive_solver.
Qed.

(** C20.  A daemon allows a protocol towards a peer exactly when nothing
    denies the peer and the local peer holds a grant that no revocation names,
    with the capability of the protocol and the protocol in its scope. *)
Theorem explain_policy_spec s peer protocol :
  allowed (explain_policy s peer protocol) = true ↔
  (∀ d, d ∈ ds_denied_peers s → dp_peer d ≠ peer) ∧
  ∃ g, active_grant s g ∧ protocol_capability protocol ∈ cg_capabilities g ∧
    protocol ∈ cg_protocol_scopes g.
Proof. apply policy_allowed. Qed.

Lemma revoked_peer_denied s r p protocol :
  daemon_wf s → r ∈ ds_revocations s → rr_target r = TargetPeer p →
  allowed (explain_policy s p protocol) = false.
Proof.
  intros Hs Hr Ht. apply not_true_iff_false. intros [Hd _]%policy_allowed.
  rewrite (dw_denied s Hs) in Hd.
  eapply Hd; [apply list_elem_of_omap; exists r; split; [exact Hr|]; by rewrite Ht|done].
Qed.

(** A peer revoked at the authority is denied by every daemon that has
    merged a snapshot the authority served since, and stays denied whatever
    else the daemon goes through. *)
Lemma authority_revocation_enforced sa subject snapshot r p s client s1 report s2 protocol
    (Hrev : r ∈ st_revocations sa) (Htarget : rr_target r = TargetPeer p)
    (Hserved : projected_snapshot sa subject = Some snapshot)
    (Hs : daemon_wf s)
    (Hsync : daemon_sync_snapshot s client snapshot = Ok (s1, report))
    (Hsteps : rtc daemon_step s1 s2) :
  allowed (explain_policy s2 p protocol) = false.
Proof.
  assert (as_revocations snapshot = st_revocations sa) as Hsnap.
  { destruct subject as [seed|].
    - rewrite projected_snapshot_Some in Hserved. by apply fmap_Some in Hserved as (m & _ & ->).
    - rewrite projected_snapshot_None in Hserved. by injection Hserved as <-. }
  pose proof (sync_snapshot_wf _ _ _ _ _ Hs Hsync) as Hs1.
  apply sync_snapshot_effect in Hsync as (_ & Hrevs & _).
  pose proof (merge_revocations_spec (ds_revocations s) (as_revocations snapshot)) as Hm.
  rewrite (surjective_pairing (merge_revocations _ _)) in Hm. rewrite <-Hrevs, Hsnap in Hm.
  destruct (proj2 Hm r Hrev) as (x & Hx & Hsame).
  unfold same_revocation in Hsame. rewrite !andb_true_iff, !bool_decide_eq_true in Hsame.
  pose proof (daemon_steps_advance s1 s2 Hsteps) as Hadv.
  destruct (adv_revocations _ _ Hadv) as [k Hk].
  eapply (revoked_peer_denied s2 x); [by eapply daemon_steps_wf| |].
  - rewrite Hk. apply elem_of_app. by left.
  - destruct Hsame as [_ ->]. done.
Qed.

(** ** Routes *)

Lemma daemon_peer_known s p :
  p ∈ peer_ids (ds_peers s) → ∃ i, daemon_peer s p = Some i ∧ snap_peer (insp_snapshot i) = p.
Proof.
  intros (i & -> & Hi)%list_elem_of_fmap. unfold daemon_peer.
  destruct (find_first _ _) as [j|] eqn:Hf.
  - apply find_first_Some in Hf as [_ Hj%bool_decide_eq_true]. by exists j.
  - apply find_first_None in Hf. rewrite any_false in Hf. specialize (Hf i Hi).
    by apply bool_decide_eq_false in Hf.
Qed.

Lemma relay_known s r :
  r ∈ relay_announcements s → ∃ r', find_first (λ c, bool_decide (ra_peer_id c = ra_peer_id r))
    (relay_announcements s) = Some r' ∧ ra_peer_id r' = ra_peer_id r.
Proof.
  intros Hr. destruct (find_first _ _) as [r'|] eqn:Hf.
  - apply find_first_Some in Hf as [_ Hj%bool_decide_eq_true]. by exists r'.
  - apply find_first_None in Hf. rewrite any_false in Hf. specialize (Hf r Hr).
    by apply bool_decide_eq_false in Hf.
Qed.

Lemma best_path_selected s p class d :
  best_path s p class = Some d →
  dec_selected d ∈ ds_path_candidates s ∧ pc_peer (dec_selected d) = p.
Proof.
  unfold best_path, select_best_path. intros (c & Hc & [= <-])%bind_Some. simpl.
  apply min_by_key_Some in Hc as (b & a & Hl & _).
  assert (c ∈ retain (λ candidate, supports_class candidate class)
    (retain (λ candidate, bool_decide (pc_peer candidate = p)) (ds_path_candidates s))) as Hin
    by (rewrite Hl; apply elem_of_app; right; left).
  apply elem_of_retain in Hin as [[Hin Hp]%elem_of_retain _].
  by apply bool_decide_eq_true in Hp.
Qed.

(** A route plan fails with [NoRoute] when no candidate of the peer
    supports the class, and otherwise follows the best candidate: when that is
    one the daemon derived itself, the plan succeeds, keeps its kind and
    source, and goes over exactly the relay the candidate names, with the
    announced control endpoint. *)
Lemma route_plan_spec s peer protocol class (Hs : daemon_wf s) :
  match best_path s peer class with
  | None => route_plan s peer protocol class = Err (DsNoRoute peer)
  | Some d =>
      pc_source (dec_selected d) ≠ Observed →
      ∃ plan, route_plan s peer protocol class = Ok plan ∧
        rt_local_peer plan = ds_local_peer_id s ∧ rt_peer plan = peer ∧
        rt_protocol plan = protocol ∧ rt_class plan = class ∧
        rt_path_kind plan = pc_path_kind (dec_selected d) ∧
        rt_source plan = route_source (pc_source (dec_selected d)) ∧
        rp_relay_peer <$> rt_relay plan = pc_relay_peer (dec_selected d) ∧
        ∀ rp, rt_relay plan = Some rp → ∃ r, r ∈ relay_announcements s ∧
          ra_peer_id r = rp_relay_peer rp ∧ ra_control_endpoint r = rp_relay_control_endpoint rp ∧
          rp_destination_endpoints rp = rt_remote_endpoints plan
  end.
Proof.
  unfold route_plan. destruct (best_path s peer class) as [d|] eqn:Hb; [|done].
  intros Hobs. apply best_path_selected in Hb as [Hin Hpeer]. rewrite (dw_candidates s Hs) in Hin.
  cbn [ok_or mbind result_bind]. set (c := dec_selected d) in *.
  assert (peer ∈ peer_ids (ds_peers s) ∧
    ((pc_relay_peer c = None ∧ pc_path_kind c ≠ Relay) ∨
     ∃ r, r ∈ relay_announcements s ∧ pc_relay_peer c = Some (ra_peer_id r) ∧ pc_path_kind c = Relay))
    as [Hknown Hrelay].
  { rewrite <-Hpeer. apply elem_of_merged_candidates in Hin as [[_ Hobs']|[Hc|Hc]]; [done| |].
    - apply elem_of_bootstrap_candidates in Hc as (_ & Hn & Hk & Hp).
      split; [by apply (dw_bootstrap s Hs)|]. by left.
    - apply elem_of_relay_candidates in Hc as (_ & r & Hr & [(Hn & Hk & Hp)|(Hn & Hk & Hp)]).
      + split; [rewrite Hp; by apply (dw_relays s Hs)|]. by left.
      + split; [done|]. right. by exists r. }
  destruct (daemon_peer_known s peer Hknown) as (i & -> & _). cbn [ok_or mbind result_bind].
  destruct Hrelay as [[Hn Hk]|(r & Hr & Hn & Hk)].
  - rewrite decide_False by done. eexists. split; [reflexivity|]. cbn.
    split_and!; try done.
  - rewrite decide_True by done. rewrite Hn. cbn [ok_or mbind result_bind].
    destruct (relay_known s r Hr) as (r' & Hf & Hid). rewrite Hf. cbn [ok_or mbind result_bind].
    eexists. split; [reflexivity|]. cbn. split_and!; try done.
    intros rp [= <-]. exists r'. cbn. split_and!; try done.
    by apply find_first_Some in Hf as [? _].
Qed.
End states.

Section witnesses.
Import External.Demo.

Definition demo_client : ControlClient :=
  from_origin (NetworkId_derive (as_bytes "net")) "http://authority".

(** A daemon seeded from one snapshot of the authority, and then synchronized
    with a later one. *)
Definition demo_daemon : option (AuthorityArtifactSnapshot * DaemonState) :=
  old ← demo_snapshot_of demo_before;
  match from_authority_snapshot "net" [RoleEdge] old with Ok s => Some (old, s) | Err _ => None end.
Definition demo_synced (s : DaemonState) : option (AuthorityArtifactSnapshot * DaemonState * StateSyncReport) :=
  new ← demo_snapshot_of (demo_before ++ demo_after);
  match daemon_sync_snapshot s demo_client new with
  | Ok (s1, report) => Some (new, s1, report)
  | Err _ => None
  end.

Definition demo_both : option (DaemonState * DaemonState) :=
  d ← demo_daemon; e ← demo_synced d.2; Some (d.2, e.1.2).

Lemma demo_daemon_facts :
  ∃ old s new s1 report sa, from_authority_snapshot "net" [RoleEdge] old = Ok s ∧
    daemon_sync_snapshot s demo_client new = Ok (s1, report) ∧
    demo_state (demo_before ++ demo_after) = Some sa ∧
    projected_snapshot sa (Some "alice") = Some new ∧
    ds_network s = "net" ∧ demo_both = Some (s, s1).
Proof.
  assert (bool_decide (is_Some demo_both) = true) as Hb by (vm_compute; reflexivity).
  assert ((ds_network ∘ fst) <$> demo_both = Some "net") as Hnet by (vm_compute; reflexivity).
  apply bool_decide_eq_true in Hb as [[s s1] Hb]. rewrite Hb in Hnet. injection Hnet as Hnet.
  pose proof Hb as Hb'. unfold demo_both, demo_daemon, demo_synced, demo_snapshot_of in Hb'.
  apply bind_Some in Hb' as ([old s'] & Hd & Hb').
  apply bind_Some in Hd as (old' & _ & Hd).
  destruct (from_authority_snapshot "net" [RoleEdge] old') as [s0|e] eqn:Hseed; [|discriminate Hd].
  injection Hd as <- <-.
  apply bind_Some in Hb' as ([[new s1'] report] & He & Hb').
  apply bind_Some in He as (new' & Hnew & He).
  cbn [snd] in He.
  destruct (daemon_sync_snapshot s0 demo_client new') as [[s2 report']|e] eqn:Hsync; [|discriminate He].
  injection He as <- <- <-. cbn [fst snd] in Hb'. injection Hb' as <- <-.
  apply bind_Some in Hnew as (sa & Hsa & Hnew).
  exists old', s0, new', s2, report', sa. split_and!; assumption.
Qed.

Lemma daemon_reachable_wf_witness : ∃ s s1, demo_both = Some (s, s1) ∧ daemon_wf s1.
Proof.
  destruct demo_daemon_facts as (old & s & new & s1 & report & sa & Hseed & Hsync & _ & _ & Hnet & Hb).
  exists s, s1. split; [exact Hb|]. apply (daemon_reachable_wf "net" [RoleEdge] old s s1 Hseed).
  exact (rtc_once _ _ (step_sync s demo_client new s1 report Hsync)).
Defined.

Lemma daemon_never_rolls_back_witness : ∃ s s1, demo_both = Some (s, s1) ∧ daemon_advances s s1.
Proof.
  destruct demo_daemon_facts as (old & s & new & s1 & report & sa & Hseed & Hsync & _ & _ & Hnet & Hb).
  exists s, s1. split; [exact Hb|]. apply (daemon_never_rolls_back s s1).
  exact (rtc_once _ _ (step_sync s demo_client new s1 report Hsync)).
Defined.

Lemma authority_revocation_enforced_witness :
  ∃ s s1, demo_both = Some (s, s1) ∧
    allowed (explain_policy s1 (peer_id (seeded_keypair "subject:bob"))
      (mk_ProtocolId "/quip/records/1")) = false.
Proof.
  destruct demo_daemon_facts
    as (old & s & new & s1 & report & sa & Hseed & Hsync & Hsa & Hproj & Hnet & Hb).
  exists s, s1. split; [exact Hb|].
  assert (map rr_target ∘ st_revocations <$> demo_state (demo_before ++ demo_after) =
    Some [TargetPeer (peer_id (seeded_keypair "subject:bob"))]) as Ht by (vm_compute; reflexivity).
  rewrite Hsa in Ht. cbn [fmap option_fmap option_map compose] in Ht. injection Ht as Ht.
  destruct (st_revocations sa) as [|r l] eqn:Hr; [discriminate Ht|]. injection Ht as Ht Hl.
  apply (authority_revocation_enforced sa (Some "alice") new r
    (peer_id (seeded_keypair "subject:bob")) s demo_client s1 report s1).
  - rewrite Hr. left.
  - exact Ht.
  - exact Hproj.
  - exact (from_authority_snapshot_wf "net" [RoleEdge] old s Hseed).
  - exact Hsync.
  - apply rtc_refl.
Defined.

Definition demo_relay : RelayAnnouncement := {|
  ra_peer_id := peer_id (seeded_keypair "relay"); ra_region := "eu";
  ra_advertised_endpoints := ["udp://203.0.113.10:443"];
  ra_control_endpoint := "http://203.0.113.10:9081"; ra_max_bandwidth_bps := 1500000000;
  ra_supports_quic_datagrams := true; ra_supports_path_migration := true;
  ra_traffic_classes := ["NetworkControl"] |}.
Definition demo_relay_map : RelayMap :=
  {| rm_version := 1; rm_generated_at := 140; rm_relays := [demo_relay] |}.

Lemma route_plan_spec_witness :
  ∃ s s1 plan, demo_both = Some (s, s1) ∧
    route_plan (apply_relay_map s1 demo_relay_map).1 (peer_id (seeded_keypair "relay")) None Control = Ok plan ∧
    rt_source plan = RouteAuthorityRelay ∧ rp_relay_peer <$> rt_relay plan = None.
Proof.
  destruct demo_daemon_facts as (old & s & new & s1 & report & sa & Hseed & Hsync & _ & _ & Hnet & Hb).
  pose proof (route_plan_spec (apply_relay_map s1 demo_relay_map).1 (peer_id (seeded_keypair "relay")) None
    Control (apply_relay_map_wf s1 demo_relay_map (sync_snapshot_wf s demo_client new s1 report
      (from_authority_snapshot_wf "net" [RoleEdge] old s Hseed) Hsync))) as Hplan.
  assert ((λ p, (λ d, (pc_source (dec_selected d), pc_relay_peer (dec_selected d))) <$>
      best_path (apply_relay_map p.2 demo_relay_map).1 (peer_id (seeded_keypair "relay")) Control)
    <$> demo_both = Some (Some (AuthorityRelay, None))) as Hbest by (vm_compute; reflexivity).
  rewrite Hb in Hbest. injection Hbest as Hbest. cbn [snd] in Hbest.
  destruct (best_path (apply_relay_map s1 demo_relay_map).1 (peer_id (seeded_keypair "relay")) Control)
    as [d|]; cbn [fmap option_fmap option_map] in Hbest; [|discriminate Hbest].
  injection Hbest as Hsrc Hrel.
  destruct Hplan as (plan & Hp & _ & _ & _ & _ & _ & Hs & Hr & _).
  { rewrite Hsrc. discriminate. }
  exists s, s1, plan. rewrite Hs, Hr, Hsrc, Hrel.
  split; [exact Hb|]. split; [exact Hp|]. split; reflexivity.
Defined.
End witnesses.
