(* ===== verification/FabricPaths.v ===== *)
(** crates/fabric: what the daemon reports of its runtime: the paths in use and
    the ones it could use, and the health levels. *)
From stdpp Require Import countable option base list strings gmap pretty.
From Stdlib Require Import ZArith Lia Strings.Byte Strings.Ascii.
From S2P Require Import Prelude Text BTree F32 External Model Crypto Records Netcheck Scheduler PeerStore Policy Routing RelayWire Transport Membership Control Fabric.

(** ** Reports *)

(* crates/fabric/src/lib.rs:304-313 RuntimePathState *)
Inductive RuntimePathState :=
| PathCandidateState | PathActive | PathDegraded | PathMigrating | PathFailed | PathSuppressed.

(* crates/fabric/src/lib.rs:315-322 RuntimePathAlternative *)
Record RuntimePathAlternative := {
  alt_path_kind : PathKind;
  alt_source : PathSource;
  alt_relay_peer : option PeerId;
  alt_score : Z;
  alt_summary : string;
}.

(* crates/fabric/src/lib.rs:324-340 RuntimePathSnapshot *)
Record RuntimePathSnapshot := {
  ps_session_id : option bytes;
  ps_peer : PeerId;
  ps_protocol : option ProtocolId;
  ps_class : TrafficClass;
  ps_state : RuntimePathState;
  ps_path_kind : option PathKind;
  ps_source : option PathSource;
  ps_relay_peer : option PeerId;
  ps_endpoint_summary : string;
  ps_state_reason : option string;
  ps_decision_reason : option string;
  ps_score : option Z;
  ps_summary : string;
  ps_alternatives : list RuntimePathAlternative;
}.

(* crates/fabric/src/lib.rs:342-349 RuntimeHealthLevel *)
Inductive RuntimeHealthLevel := HealthReady | HealthDegraded | HealthFailed | HealthSuppressed.

(* crates/fabric/src/lib.rs:351-368 RuntimeHealthReport *)
Record RuntimeHealthReport := {
  hr_daemon_readiness : RuntimeHealthLevel;
  hr_authority_sync_health : RuntimeHealthLevel;
  hr_runtime_registry_health : RuntimeHealthLevel;
  hr_path_manager_health : RuntimeHealthLevel;
  hr_reconnect_subsystem_health : RuntimeHealthLevel;
  hr_authority_subject_status : string;
  hr_authority_deny_reason : option string;
  hr_active_sessions : Z;
  hr_active_paths : Z;
  hr_active_listeners : Z;
  hr_reconnect_state : RuntimeReconnectState;
  hr_reconnect_attempt_count : Z;
  hr_reconnect_next_attempt_unix_secs : option Z;
  hr_reconnect_suppression_count : Z;
  hr_runtime_event_buffer_depth : Z;
}.

#[export] Instance RuntimePathState_eq_dec : EqDecision RuntimePathState.
Proof. solve_decision. Defined.
#[export] Instance RuntimeHealthLevel_eq_dec : EqDecision RuntimeHealthLevel.
Proof. solve_decision. Defined.

(** ** Ranks and health levels *)

(* crates/fabric/src/lib.rs:3024-3033 runtime_path_state_from_session *)
Definition runtime_path_state_from_session (state : RuntimeSessionState) : RuntimePathState :=
  match state with
  | StDegraded => PathDegraded
  | StMigrating => PathMigrating
  | StFailed | StClosing | StClosed => PathFailed
  | _ => PathActive
  end.

(* crates/fabric/src/lib.rs:3216-3223 runtime_class_rank *)
Definition runtime_class_rank (class : TrafficClass) : N :=
  match class with Control => 0 | Interactive => 1 | Bulk => 2 | Background => 3 end.

(* crates/fabric/src/lib.rs:3225-3234 runtime_path_state_rank *)
Definition runtime_path_state_rank (state : RuntimePathState) : N :=
  match state with
  | PathActive => 0 | PathMigrating => 1 | PathDegraded => 2
  | PathCandidateState => 3 | PathSuppressed => 4 | PathFailed => 5
  end.

(* crates/fabric/src/lib.rs:3236-3243 runtime_reconnect_health_level *)
Definition runtime_reconnect_health_level (state : RuntimeReconnectState) : RuntimeHealthLevel :=
  match state with
  | ReconnectIdle => HealthReady
  | ReconnectActive => HealthDegraded
  | ReconnectSuppressed => HealthSuppressed
  | ReconnectFailed => HealthFailed
  end.

(* crates/fabric/src/lib.rs:3245-3264 runtime_rollup_health *)
Definition runtime_rollup_health (levels : list RuntimeHealthLevel) : RuntimeHealthLevel :=
  if any (λ level, bool_decide (level = HealthFailed)) levels then HealthFailed
  else if any (λ level, bool_decide (level = HealthSuppressed)) levels then HealthSuppressed
  else if any (λ level, bool_decide (level = HealthDegraded)) levels then HealthDegraded
  else HealthReady.

(* crates/fabric/src/lib.rs:3066-3072 route_source_to_path_source *)
Definition route_source_to_path_source (source : RouteSource) : option PathSource :=
  Some match source with
  | RouteObserved => Observed
  | RouteBootstrap => Bootstrap
  | RouteAuthorityRelay => AuthorityRelay
  end.

(* crates/fabric/src/lib.rs:3139-3148 session_closure_reason_phrase *)
Definition session_closure_reason_phrase (reason : SessionClosureReason) : string :=
  match reason with
  | OperatorRequested => "operator requested closure"
  | LocalRuntimeFailure => "the local runtime failed"
  | RemoteFailure => "the remote peer failed"
  | PolicyRejected => "authority or policy rejected the session"
  | PathExhaustion => "no eligible path remained"
  | DaemonShutdown => "the daemon shut down"
  end.

(* crates/fabric/src/lib.rs:2819-2844 session_matches_route *)
Definition session_matches_route (session : SessionSnapshot) (route : RoutePlan) : bool :=
  if negb (bool_decide (ss_path_kind session = rt_path_kind route)) ||
     negb (bool_decide (ss_class session = rt_class route)) then false
  else if negb (bool_decide (ss_protocol session = rt_protocol route)) then false
  else
    match head (rt_remote_endpoints route) with
    | None => false
    | Some remote_endpoint =>
        if negb (String.eqb (ss_remote_endpoint session) remote_endpoint) then false
        else
          match ss_relay_peer session, rt_relay route with
          | None, None => true
          | Some peer, Some relay =>
              bool_decide (ss_relay_control_endpoint session = Some (rp_relay_control_endpoint relay)) &&
              bool_decide (peer = rp_relay_peer relay) &&
              bool_decide (ss_relay_endpoint session = head (rp_relay_endpoints relay))
          | _, _ => false
          end
    end.

(* crates/fabric/src/lib.rs:3035-3040 runtime_candidate_matches_session *)
Definition runtime_candidate_matches_session (candidate : PathCandidate)
    (session : SessionSnapshot) : bool :=
  bool_decide (pc_peer candidate = ss_peer session) &&
  bool_decide (pc_path_kind candidate = ss_path_kind session) &&
  bool_decide (pc_relay_peer candidate = ss_relay_peer session) &&
  supports_class candidate (ss_class session).

(** [PathCandidate]'s derived [==], with [f32]'s own. *)
Definition candidate_eqb (a b : PathCandidate) : bool :=
  bool_decide (pc_peer a = pc_peer b) && bool_decide (pc_path_kind a = pc_path_kind b) &&
  bool_decide (pc_relay_peer a = pc_relay_peer b) && bool_decide (pc_source a = pc_source b) &&
  bool_decide (pc_traffic_classes a = pc_traffic_classes b) && (pc_rtt_ms a =? pc_rtt_ms b)%Z &&
  (pc_jitter_ms a =? pc_jitter_ms b)%Z && f32_eqb (pc_loss_pct a) (pc_loss_pct b) &&
  (pc_throughput_mbps a =? pc_throughput_mbps b)%Z &&
  (pc_relay_penalty a =? pc_relay_penalty b)%Z.

Section paths.
Context `{Blake3, Varint, Base32}.

(* crates/fabric/src/lib.rs:3042-3064 runtime_path_alternatives *)
Definition runtime_path_alternatives (candidates : list PathCandidate) (class : TrafficClass)
    (selected : option PathCandidate) : list RuntimePathAlternative :=
  let alternatives := retain (λ candidate,
      negb match selected with Some s => candidate_eqb candidate s | None => false end)
    (retain (λ candidate, supports_class candidate class) candidates) in
  let alternatives := stable_sort (λ a b, (score a class <=? score b class)%Z) alternatives in
  (λ candidate, {|
    alt_path_kind := pc_path_kind candidate;
    alt_source := pc_source candidate;
    alt_relay_peer := pc_relay_peer candidate;
    alt_score := score candidate class;
    alt_summary := ex_summary (explain candidate class) |}) <$> alternatives.

(* crates/fabric/src/lib.rs:3074-3087 runtime_session_endpoint_summary *)
Definition runtime_session_endpoint_summary (session : SessionSnapshot) : string :=
  if bool_decide (ss_path_kind session = Relay) then
    "relay=" +:+ default "unknown-relay-endpoint" (ss_relay_endpoint session) +:+
    " destination=" +:+ ss_remote_endpoint session
  else ss_remote_endpoint session.

(* crates/fabric/src/lib.rs:3089-3101 runtime_candidate_endpoint_summary *)
Definition runtime_candidate_endpoint_summary (candidate : PathCandidate) : string :=
  match pc_path_kind candidate with
  | Relay => "relay=" +:+ match pc_relay_peer candidate with
                          | Some p => PeerId_to_text p | None => "unknown-relay" end
  | _ => "direct"
  end.

(* crates/fabric/src/lib.rs:3103-3113 runtime_session_summary *)
Definition runtime_session_summary (session : SessionSnapshot) : string :=
  match ss_path_kind session with Relay => "relay" | _ => "direct" end +:+
  " runtime path for " +:+ PeerId_to_text (ss_peer session) +:+ " is " +:+
  runtime_session_endpoint_summary session.

(* crates/fabric/src/lib.rs:3115-3137 runtime_terminal_path_summary *)
Definition runtime_terminal_path_summary (session : SessionSnapshot) : string :=
  let outcome := match ss_state session with
    | StClosed => "closed" | StFailed => "failed" | _ => "terminal" end in
  let reason := default "runtime session is no longer active"
    (or_else (ss_state_reason session)
       (session_closure_reason_phrase <$> ss_closure_reason session)) in
  outcome +:+ " path for " +:+ PeerId_to_text (ss_peer session) +:+ " is " +:+
  runtime_session_endpoint_summary session +:+ " because " +:+ reason.

(* crates/fabric/src/lib.rs:3150-3198 runtime_reconnect_path_status *)
Definition runtime_reconnect_path_status (attempt : RuntimeReconnectAttempt)
    (selected : option PathDecision) : RuntimePathState * option string * string :=
  let selected_summary := match selected with
    | Some decision => ex_summary (dec_explanation decision)
    | None => "no known runtime candidate path remains" end in
  let fallback_summary := match selected with
    | Some decision =>
        match pc_path_kind (dec_selected decision) with
        | Relay => "best known relay fallback remains " +:+ ex_summary (dec_explanation decision)
        | _ => "best known direct path remains " +:+ ex_summary (dec_explanation decision)
        end
    | None => "no known runtime candidate path remains" end in
  let tries := pretty (at_attempt_count attempt) +:+ "/" +:+ pretty (at_max_attempts attempt) in
  match at_state attempt with
  | AttemptBackingOff =>
      (PathCandidateState,
       Some ("attempt " +:+ tries +:+ " backing off until " +:+
             pretty (at_next_attempt_unix_secs attempt) +:+ " because " +:+ at_reason attempt),
       "reconnect backing off for " +:+ PeerId_to_text (at_peer attempt) +:+ " after " +:+ tries +:+
       " attempts; " +:+ selected_summary)
  | AttemptFailed =>
      (PathFailed,
       Some ("reconnect exhausted " +:+ tries +:+ " attempts because " +:+ at_reason attempt),
       "reconnect failed for " +:+ PeerId_to_text (at_peer attempt) +:+ " after " +:+ tries +:+
       " attempts; " +:+ fallback_summary)
  end.

(* crates/fabric/src/lib.rs:3200-3214 runtime_path_decision_reason *)
Definition runtime_path_decision_reason (explanation : PathExplanation) : string :=
  match ex_strengths explanation, ex_tradeoffs explanation with
  | (_ :: _) as strengths, (_ :: _) as tradeoffs =>
      "strengths=" +:+ join "|" strengths +:+ " tradeoffs=" +:+ join "|" tradeoffs
  | (_ :: _) as strengths, [] => "strengths=" +:+ join "|" strengths
  | [], (_ :: _) as tradeoffs => "tradeoffs=" +:+ join "|" tradeoffs
  | [], [] => ex_summary explanation
  end.

(** ** The paths of a state *)

(** The entry of a session of the transport, and of one that has ended. *)
(* crates/fabric/src/lib.rs:2036-2063 LocalControlPlane::runtime_paths (sessions) *)
Definition session_path (state : DaemonState) (session : SessionSnapshot) : RuntimePathSnapshot :=
  let candidates := path_candidates_for state (ss_peer session) in
  let selected := find_first (λ candidate, runtime_candidate_matches_session candidate session)
    candidates in
  let explanation := (λ candidate, explain candidate (ss_class session)) <$> selected in {|
    ps_session_id := Some (ss_session_id session);
    ps_peer := ss_peer session;
    ps_protocol := ss_protocol session;
    ps_class := ss_class session;
    ps_state := runtime_path_state_from_session (ss_state session);
    ps_path_kind := Some (ss_path_kind session);
    ps_source := or_else (pc_source <$> selected) (route_source_to_path_source (ss_source session));
    ps_relay_peer := ss_relay_peer session;
    ps_endpoint_summary := runtime_session_endpoint_summary session;
    ps_state_reason := ss_state_reason session;
    ps_decision_reason := runtime_path_decision_reason <$> explanation;
    ps_score := (λ candidate, score candidate (ss_class session)) <$> selected;
    ps_summary := default (runtime_session_summary session) (ex_summary <$> explanation);
    ps_alternatives := runtime_path_alternatives candidates (ss_class session) selected |}.

(* crates/fabric/src/lib.rs:2165-2188 LocalControlPlane::runtime_paths (terminal sessions) *)
Definition terminal_path (state : DaemonState) (session : SessionSnapshot) : RuntimePathSnapshot :=
  let candidates := path_candidates_for state (ss_peer session) in
  let selected := find_first (λ candidate, runtime_candidate_matches_session candidate session)
    candidates in
  let explanation := (λ candidate, explain candidate (ss_class session)) <$> selected in {|
    ps_session_id := Some (ss_session_id session);
    ps_peer := ss_peer session;
    ps_protocol := ss_protocol session;
    ps_class := ss_class session;
    ps_state := PathFailed;
    ps_path_kind := Some (ss_path_kind session);
    ps_source := or_else (pc_source <$> selected) (route_source_to_path_source (ss_source session));
    ps_relay_peer := ss_relay_peer session;
    ps_endpoint_summary := runtime_session_endpoint_summary session;
    ps_state_reason := ss_state_reason session;
    ps_decision_reason := runtime_path_decision_reason <$> explanation;
    ps_score := (λ candidate, score candidate (ss_class session)) <$> selected;
    ps_summary := runtime_terminal_path_summary session;
    ps_alternatives := runtime_path_alternatives candidates (ss_class session) selected |}.

(** An entry without a session, for the path selected among the candidates. *)
Definition idle_path (peer : PeerId) (protocol : option ProtocolId) (class : TrafficClass)
    (path_state : RuntimePathState) (candidates : list PathCandidate)
    (selected : option PathDecision) (no_endpoint : string) (state_reason : option string)
    (summary : string) : RuntimePathSnapshot :=
  let selected_candidate := dec_selected <$> selected in {|
    ps_session_id := None;
    ps_peer := peer;
    ps_protocol := protocol;
    ps_class := class;
    ps_state := path_state;
    ps_path_kind := pc_path_kind <$> selected_candidate;
    ps_source := pc_source <$> selected_candidate;
    ps_relay_peer := selected_candidate ≫= pc_relay_peer;
    ps_endpoint_summary := default no_endpoint
      (runtime_candidate_endpoint_summary <$> selected_candidate);
    ps_state_reason := state_reason;
    ps_decision_reason := (runtime_path_decision_reason ∘ dec_explanation) <$> selected;
    ps_score := (λ candidate, score candidate class) <$> selected_candidate;
    ps_summary := summary;
    ps_alternatives := runtime_path_alternatives candidates class selected_candidate |}.

(* crates/fabric/src/lib.rs:2074-2114 LocalControlPlane::runtime_paths (suppressions) *)
Definition suppressed_path (state : DaemonState) (suppression : ReconnectSuppression)
    : RuntimePathSnapshot :=
  let candidates := path_candidates_for state (sup_peer suppression) in
  let selected := select_best_path candidates (sup_class suppression) in
  let suppressed_summary := match selected with
    | Some decision => "reconnect suppressed for " +:+ PeerId_to_text (sup_peer suppression) +:+
        ": " +:+ ex_summary (dec_explanation decision)
    | None => "reconnect suppressed for " +:+ PeerId_to_text (sup_peer suppression) +:+
        " because " +:+ sup_reason suppression end in
  idle_path (sup_peer suppression) (sup_protocol suppression) (sup_class suppression)
    PathSuppressed candidates selected "no active runtime path" (Some (sup_reason suppression))
    suppressed_summary.

(* crates/fabric/src/lib.rs:2126-2154 LocalControlPlane::runtime_paths (attempts) *)
Definition reconnect_path (state : DaemonState) (attempt : RuntimeReconnectAttempt)
    : RuntimePathSnapshot :=
  let candidates := path_candidates_for state (at_peer attempt) in
  let selected := select_best_path candidates (at_class attempt) in
  let '(state_kind, state_reason, summary) := runtime_reconnect_path_status attempt selected in
  idle_path (at_peer attempt) (at_protocol attempt) (at_class attempt) state_kind candidates
    selected "no known runtime candidate path" state_reason summary.

(* crates/fabric/src/lib.rs:2213-2236 LocalControlPlane::runtime_paths (candidates) *)
Definition candidate_path (peer : PeerId) (class : TrafficClass)
    (candidates : list PathCandidate) (selected : PathDecision) : RuntimePathSnapshot :=
  idle_path peer None class PathCandidateState candidates (Some selected) ""
    (Some "known candidate path is not currently active")
    ("candidate path available for " +:+ PeerId_to_text peer +:+ ": " +:+
     ex_summary (dec_explanation selected)).

(** Whether some entry, or some entry of a session, is for the same traffic. *)
Definition covers (peer : PeerId) (protocol : option ProtocolId) (class : TrafficClass)
    (entry : RuntimePathSnapshot) : bool :=
  bool_decide (ps_peer entry = peer) && bool_decide (ps_protocol entry = protocol) &&
  bool_decide (ps_class entry = class).

(** One round of each loop: an entry is added unless the traffic is covered. *)
(* crates/fabric/src/lib.rs:2065-2115 LocalControlPlane::runtime_paths (suppressions loop) *)
Definition push_suppressed (state : DaemonState) (snapshots : list RuntimePathSnapshot)
    (suppression : ReconnectSuppression) : list RuntimePathSnapshot :=
  if any (λ entry, bool_decide (is_Some (ps_session_id entry)) &&
      covers (sup_peer suppression) (sup_protocol suppression) (sup_class suppression) entry)
    snapshots
  then snapshots
  else snapshots ++ [suppressed_path state suppression].

(* crates/fabric/src/lib.rs:2118-2155 LocalControlPlane::runtime_paths (attempts loop) *)
Definition push_attempt (state : DaemonState) (snapshots : list RuntimePathSnapshot)
    (attempt : RuntimeReconnectAttempt) : list RuntimePathSnapshot :=
  if any (covers (at_peer attempt) (at_protocol attempt) (at_class attempt)) snapshots
  then snapshots
  else snapshots ++ [reconnect_path state attempt].

(* crates/fabric/src/lib.rs:2157-2189 LocalControlPlane::runtime_paths (terminal loop) *)
Definition push_terminal (state : DaemonState) (snapshots : list RuntimePathSnapshot)
    (session : SessionSnapshot) : list RuntimePathSnapshot :=
  if any (covers (ss_peer session) (ss_protocol session) (ss_class session)) snapshots
  then snapshots
  else snapshots ++ [terminal_path state session].

(* crates/fabric/src/lib.rs:2191-2196 LocalControlPlane::runtime_paths (path_classes) *)
Definition path_classes : list TrafficClass := [Control; Interactive; Bulk; Background].

(* crates/fabric/src/lib.rs:2202-2237 LocalControlPlane::runtime_paths (candidates inner loop) *)
Definition push_candidate (peer : PeerId) (candidates : list PathCandidate)
    (snapshots : list RuntimePathSnapshot) (class : TrafficClass) : list RuntimePathSnapshot :=
  if any (λ entry, bool_decide (ps_peer entry = peer) && bool_decide (ps_class entry = class))
    snapshots
  then snapshots
  else
    match select_best_path candidates class with
    | None => snapshots
    | Some selected => snapshots ++ [candidate_path peer class candidates selected]
    end.

(* crates/fabric/src/lib.rs:2197-2238 LocalControlPlane::runtime_paths (candidates loop) *)
Definition push_peer_candidates (state : DaemonState) (snapshots : list RuntimePathSnapshot)
    (inspection : PeerInspection) : list RuntimePathSnapshot :=
  let peer := snap_peer (insp_snapshot inspection) in
  match path_candidates_for state peer with
  | [] => snapshots
  | candidates => foldl (push_candidate peer candidates) snapshots path_classes
  end.

(** The order of the report: by peer text, class, state and session, compared
    as the lists of numbers that order them. *)
Definition session_rank (id : option bytes) : list N :=
  match id with None => [] | Some id => 1%N :: byte_codes id end.
(* crates/fabric/src/lib.rs:2240-2250 LocalControlPlane::runtime_paths (sort) *)
Definition path_le (left right : RuntimePathSnapshot) : bool :=
  let lt (l r : list N) := lex_le l r && negb (lex_le r l) in
  let l1 := string_codes (PeerId_to_text (ps_peer left)) in
  let r1 := string_codes (PeerId_to_text (ps_peer right)) in
  let l2 := [runtime_class_rank (ps_class left)] in
  let r2 := [runtime_class_rank (ps_class right)] in
  let l3 := [runtime_path_state_rank (ps_state left)] in
  let r3 := [runtime_path_state_rank (ps_state right)] in
  if lt l1 r1 then true else if lt r1 l1 then false
  else if lt l2 r2 then true else if lt r2 l2 then false
  else if lt l3 r3 then true else if lt r3 l3 then false
  else lex_le (session_rank (ps_session_id left)) (session_rank (ps_session_id right)).

(** The report, from the state and the five readings of the transport. *)
(* crates/fabric/src/lib.rs:2024-2252 LocalControlPlane::runtime_paths *)
Definition path_snapshots (state : DaemonState) (sessions : list SessionSnapshot)
    (suppressions : list ReconnectSuppression) (attempts : list RuntimeReconnectAttempt)
    (terminal : list SessionSnapshot) : list RuntimePathSnapshot :=
  let snapshots := session_path state <$> sessions in
  let snapshots := foldl (push_suppressed state) snapshots suppressions in
  let snapshots := foldl (push_attempt state) snapshots attempts in
  let snapshots := foldl (push_terminal state) snapshots terminal in
  let snapshots := foldl (push_peer_candidates state) snapshots (ds_peers state) in
  stable_sort path_le snapshots.
End paths.
