(* ===== verification/Durable.v ===== *)
(** crates/fabric: the durable state file.  Validation and migration of its
    JSON, loading and saving, inspection, and encrypted backup bundles. *)
From stdpp Require Import countable option base list strings gmap pretty.
From Stdlib Require Import ZArith Lia Strings.Byte Strings.Ascii.
From S2P Require Import Prelude Text BTree F32 External Model Crypto Records Netcheck Scheduler PeerStore Policy Routing RelayWire Transport Membership Control Fabric.

(* crates/fabric/src/lib.rs:39-39 BACKUP_BUNDLE_FORMAT_VERSION *)
Definition BACKUP_BUNDLE_FORMAT_VERSION : Z := 1.

(** ** JSON values *)

(** [Value::as_object], [Map::get], [Value::as_u64]; a [Map] is its entries in
    key order, and a number that is not an integer is not represented. *)
Definition as_object (v : Json) : option (list (string * Json)) :=
  match v with JObj l => Some l | _ => None end.
Definition json_get (key : string) (l : list (string * Json)) : option Json :=
  snd <$> find_first (λ e, String.eqb e.1 key) l.
Definition as_u64 (v : Json) : option Z :=
  match v with
  | JNum n => if ((0 <=? n) && (n <=? u64_max))%Z then Some n else None
  | _ => None
  end.
(** [Map::insert]. *)
Definition json_insert (key : string) (v : Json) (l : list (string * Json)) : list (string * Json) :=
  upsert_by (λ e, String.eqb e.1 key) (key, v) l.

(* crates/fabric/src/lib.rs:793-798 durable_state_schema_version *)
Definition durable_state_schema_version (value : Json) : option Z :=
  object ← as_object value; v ← json_get "schema_version" object; as_u64 v.

(* crates/fabric/src/lib.rs:1355-1370 validate_durable_state_value (allowed_fields) *)
Definition allowed_fields : list string :=
  ["schema_version"; "network"; "local_peer_id"; "roles"; "membership"; "capability_grants";
   "revocations"; "denied_peers"; "bootstrap"; "relay_map"; "peers"; "netcheck";
   "queue_policies"; "path_candidates"].

(* crates/fabric/src/lib.rs:1326-1378 validate_durable_state_value *)
Definition validate_durable_state_value (value : Json) : result DaemonStateError () :=
  object ← ok_or (DsInvalidSession "durable state must be a JSON object") (as_object value);
  version ← ok_or DsMissingSchemaVersion (json_get "schema_version" object);
  schema_version ← ok_or
    (DsInvalidSession "durable state schema version must be an unsigned integer") (as_u64 version);
  if ((schema_version <? DAEMON_STATE_SCHEMA_VERSION) &&
      (MIN_MIGRATABLE_DAEMON_STATE_SCHEMA_VERSION <=? schema_version))%Z
  then Err (DsMigrationRequired schema_version DAEMON_STATE_SCHEMA_VERSION)
  else if negb (schema_version =? DAEMON_STATE_SCHEMA_VERSION)%Z
  then Err (DsUnsupportedSchemaVersion schema_version DAEMON_STATE_SCHEMA_VERSION)
  else
    match find_first (λ field, negb (any (String.eqb field) allowed_fields)) object.*1 with
    | Some field => Err (DsUnsupportedDurableField field)
    | None => Ok ()
    end.

(** [str::replace]: every occurrence, from the left, without overlaps. *)
Fixpoint replace_from (fuel : nat) (pattern by_ s : string) : string :=
  match fuel, s with
  | S fuel, String a rest =>
      match strip_prefix pattern s with
      | Some rest => by_ +:+ replace_from fuel pattern by_ rest
      | None => String a (replace_from fuel pattern by_ rest)
      end
  | _, _ => s
  end.
Definition str_replace (pattern by_ s : string) : string :=
  replace_from (String.length s) pattern by_ s.

(** The value with its strings rewritten, and the paths reported. *)
(* crates/fabric/src/lib.rs:1417-1445 rewrite_legacy_protocols *)
Fixpoint rewrite_legacy_protocols (value : Json) (path : string) : Json * list string :=
  match value with
  | JStr text =>
      let '(text, changed) :=
        if contains "/quip/" text then (str_replace "/quip/" "/quip/" text, true)
        else (text, false) in
      let '(text, changed) :=
        if contains "quip:" text then (str_replace "quip:" "quip:" text, true)
        else (text, changed) in
      (JStr text, if (changed : bool) then [path] else [])
  | JArr values =>
      let fix go (index : nat) (l : list Json) : list Json * list string :=
        match l with
        | [] => ([], [])
        | entry :: l =>
            let '(entry, fields) :=
              rewrite_legacy_protocols entry (path +:+ "[" +:+ pretty index +:+ "]") in
            let '(l, more) := go (S index) l in
            (entry :: l, fields ++ more)
        end in
      let '(values, fields) := go 0 values in (JArr values, fields)
  | JObj map =>
      let fix go (l : list (string * Json)) : list (string * Json) * list string :=
        match l with
        | [] => ([], [])
        | (key, entry) :: l =>
            let '(entry, fields) := rewrite_legacy_protocols entry (path +:+ "." +:+ key) in
            let '(l, more) := go l in
            ((key, entry) :: l, fields ++ more)
        end in
      let '(map, fields) := go map in (JObj map, fields)
  | _ => (value, [])
  end.

(* crates/fabric/src/lib.rs:1380-1415 migrate_durable_state_value_with_report *)
Definition migrate_durable_state_value_with_report (value : Json)
    : result DaemonStateError (Json * list string) :=
  match durable_state_schema_version value with
  | None => Err DsMissingSchemaVersion
  | Some schema_version =>
      if (schema_version =? DAEMON_STATE_SCHEMA_VERSION)%Z then Ok (value, [])
      else if ((schema_version <? MIN_MIGRATABLE_DAEMON_STATE_SCHEMA_VERSION) ||
               (DAEMON_STATE_SCHEMA_VERSION <? schema_version))%Z
      then Err (DsUnsupportedSchemaVersion schema_version DAEMON_STATE_SCHEMA_VERSION)
      else if (schema_version =? 1)%Z then
        let '(value, migrated_fields) := rewrite_legacy_protocols value "$" in
        let value := match value with
          | JObj object =>
              JObj (json_insert "schema_version" (JNum DAEMON_STATE_SCHEMA_VERSION) object)
          | _ => value
          end in
        Ok (value, migrated_fields ++ ["$.schema_version"])
      else Err (DsUnsupportedSchemaVersion schema_version DAEMON_STATE_SCHEMA_VERSION)
  end.

(** ** Error texts *)

(* crates/control/src/lib.rs:29-45 ControlError (Display) *)
Definition ControlError_text (e : ControlError) : string :=
  match e with
  | NetworkMismatch => "snapshot network does not match client network"
  | CtlSubjectMismatch => "incoming membership subject does not match local membership subject"
  | MembershipRollback => "incoming membership is older than the local membership"
  | GrantConflict => "grant identity collision with non-identical payload"
  | Control.Transport err => "http transport failed: " +:+ err
  | Decode err => "snapshot decoding failed: " +:+ err
  | MissingSubject subject => "authority subject projection is unavailable: " +:+ subject
  end.

(* crates/fabric/src/lib.rs:66-104 DaemonStateError (Display) *)
Definition DaemonStateError_text `{Blake3, Varint, Base32} (e : DaemonStateError) : string :=
  match e with
  | DsIo err => "io error: " +:+ err
  | DsSerialization err => "serialization error: " +:+ err
  | DsPeerNotFound peer => "peer " +:+ peer +:+ " was not found in daemon state"
  | DsNetworkMismatch => "authority snapshot network does not match configured network"
  | DsMissingMembership => "authority snapshot did not contain a membership certificate"
  | DsControl err => "control-plane merge failed: " +:+ ControlError_text err
  | DsNoRoute peer => "no route is available for peer " +:+ PeerId_to_text peer
  | DsPolicyDenied reason => "transport policy denied request: " +:+ reason
  | DsTransport err => "transport execution failed: " +:+ transport_error_text err
  | DsSessionNotFound id => "session " +:+ id +:+ " was not found"
  | DsInvalidSession reason => "session state is invalid: " +:+ reason
  | DsMissingSchemaVersion => "durable state schema version is missing"
  | DsMigrationRequired found target =>
      "durable state schema version " +:+ pretty found +:+
      " requires explicit migration before use; target schema is " +:+ pretty target
  | DsUnsupportedSchemaVersion found expected =>
      "durable state schema version " +:+ pretty found +:+ " is unsupported; expected " +:+
      pretty expected
  | DsUnsupportedDurableField field =>
      "durable state contains unsupported field `" +:+ field +:+ "`"
  | DsInvalidBackupBundle => "backup bundle is invalid or the passphrase is incorrect"
  | DsBackupKeyDerivation => "backup bundle key derivation failed"
  end.

(** ** Reports *)

(* crates/fabric/src/lib.rs:370-374 DurableStateViolation *)
Record DurableStateViolation := { dv_path : string; dv_message : string }.

(* crates/fabric/src/lib.rs:376-388 DurableStateSummary *)
Record DurableStateSummary := {
  dsum_network : string;
  dsum_local_peer_id : PeerId;
  dsum_roles : list DaemonRole;
  dsum_bootstrap_hints : Z;
  dsum_relays : Z;
  dsum_peers : Z;
  dsum_capability_grants : Z;
  dsum_revocations : Z;
  dsum_denied_peers : Z;
  dsum_path_candidates : Z;
}.

(* crates/fabric/src/lib.rs:390-398 DurableStateInspectionReport *)
Record DurableStateInspectionReport := {
  ir_state_path : string;
  ir_present : bool;
  ir_schema_version : option Z;
  ir_valid : bool;
  ir_violations : list DurableStateViolation;
  ir_summary : option DurableStateSummary;
}.

(* crates/fabric/src/lib.rs:400-406 DurableStateMigrationReport *)
Record DurableStateMigrationReport := {
  mr_state_path : string;
  mr_from_schema_version : Z;
  mr_to_schema_version : Z;
  mr_migrated_fields : list string;
}.

Definition list_len {A} (l : list A) : Z := Z.of_nat (length l).

(* crates/fabric/src/lib.rs:778-791 durable_state_summary *)
Definition durable_state_summary (state : DaemonState) : DurableStateSummary := {|
  dsum_network := ds_network state;
  dsum_local_peer_id := ds_local_peer_id state;
  dsum_roles := ds_roles state;
  dsum_bootstrap_hints := list_len (ds_bootstrap state);
  dsum_relays := relay_count state;
  dsum_peers := list_len (ds_peers state);
  dsum_capability_grants := list_len (ds_capability_grants state);
  dsum_revocations := list_len (ds_revocations state);
  dsum_denied_peers := list_len (ds_denied_peers state);
  dsum_path_candidates := list_len (ds_path_candidates state) |}.

(* crates/fabric/src/lib.rs:800-808 durable_state_violation *)
Definition durable_state_violation (path message : string) : DurableStateViolation :=
  {| dv_path := path; dv_message := message |}.

(* crates/fabric/src/lib.rs:810-838 durable_state_violations_from_error *)
Definition durable_state_violations_from_error `{Blake3, Varint, Base32}
    (error : DaemonStateError) : list DurableStateViolation :=
  match error with
  | DsMissingSchemaVersion | DsMigrationRequired _ _ | DsUnsupportedSchemaVersion _ _ =>
      [durable_state_violation "$.schema_version" (DaemonStateError_text error)]
  | DsUnsupportedDurableField field =>
      [durable_state_violation ("$." +:+ field) (DaemonStateError_text error)]
  | _ => [durable_state_violation "$" (DaemonStateError_text error)]
  end.

(** ** The state file

    serde_json over the contents of a file: [decode_value] is [from_slice] to
    a [Value], [decode_state] that followed by [from_value], [encode_state] and
    [encode_value] are [to_vec_pretty]. *)

(** The values of the fields that are structures of their own. *)
Class FieldJson := {
  field_local_peer_id : PeerId → Json;
  field_roles : list DaemonRole → Json;
  field_membership : MembershipCertificate → Json;
  field_capability_grants : list CapabilityGrant → Json;
  field_revocations : list RevocationRecord → Json;
  field_denied_peers : list DeniedPeer → Json;
  field_bootstrap : list BootstrapEndpoint → Json;
  field_relay_map : RelayMap → Json;
  field_peers : list PeerInspection → Json;
  field_netcheck : NetcheckReport → Json;
  field_queue_policies : list QueuePolicy → Json;
  field_path_candidates : list PathCandidate → Json;
}.

(** The derived [Serialize]: an entry for each field of the struct, but for the
    sessions, which are skipped. *)
(* crates/fabric/src/lib.rs:216-235 DaemonState (Serialize) *)
Definition state_object `{FieldJson} (s : DaemonState) : list (string * Json) :=
  [("schema_version", JNum (ds_schema_version s));
   ("network", JStr (ds_network s));
   ("local_peer_id", field_local_peer_id (ds_local_peer_id s));
   ("roles", field_roles (ds_roles s));
   ("membership", field_membership (ds_membership s));
   ("capability_grants", field_capability_grants (ds_capability_grants s));
   ("revocations", field_revocations (ds_revocations s));
   ("denied_peers", field_denied_peers (ds_denied_peers s));
   ("bootstrap", field_bootstrap (ds_bootstrap s));
   ("relay_map", match ds_relay_map s with Some m => field_relay_map m | None => JNull end);
   ("peers", field_peers (ds_peers s));
   ("netcheck", field_netcheck (ds_netcheck s));
   ("queue_policies", field_queue_policies (ds_queue_policies s));
   ("path_candidates", field_path_candidates (ds_path_candidates s))].

Class StateFormat (C : Type) := {
  state_fields :: FieldJson;
  decode_value : C → result string Json;
  decode_state : C → result string DaemonState;
  decode_snapshot : C → result string AuthorityArtifactSnapshot;
  encode_state : DaemonState → C;
  encode_value : Json → C;
}.

(** What serde_json promises: a state reads back without its sessions, unless
    it has a loss that is not a number, which is written as [null] and is not
    read as a loss; as a value it is the object of its fields, in the order of a
    [Map]. *)
Class StateFormatLaws (C : Type) `{StateFormat C} := {
  decode_encode_state s : finite_losses s → decode_state (encode_state s) = Ok (with_sessions [] s);
  decode_infinite_state s : ¬ finite_losses s → ∃ e, decode_state (encode_state s) = Err e;
  encode_state_object s : ∃ fields, decode_value (encode_state s) = Ok (JObj fields) ∧
    fields ≡ₚ state_object s;
}.

(** File contents by path; directories are not represented, so that creating
    the parents of a path does nothing. *)
Definition Files (C : Type) : Type := gmap string C.

Definition with_schema_version (version : Z) (s : DaemonState) : DaemonState := {|
  ds_schema_version := version; ds_network := ds_network s;
  ds_local_peer_id := ds_local_peer_id s; ds_roles := ds_roles s;
  ds_membership := ds_membership s; ds_capability_grants := ds_capability_grants s;
  ds_revocations := ds_revocations s; ds_denied_peers := ds_denied_peers s;
  ds_bootstrap := ds_bootstrap s; ds_relay_map := ds_relay_map s; ds_peers := ds_peers s;
  ds_netcheck := ds_netcheck s; ds_queue_policies := ds_queue_policies s;
  ds_active_sessions := ds_active_sessions s; ds_path_candidates := ds_path_candidates s |}.

Section state_file.
Context `{Blake3, Varint, Base32} {C : Type} `{StateFormat C}.

Definition file_exists (path : string) (fs : Files C) : bool :=
  bool_decide (is_Some ((fs : gmap string C) !! path)).

(** [fs::read]. *)
Definition file_read (path : string) (fs : Files C) : result DaemonStateError C :=
  ok_or (DsIo "No such file or directory (os error 2)") ((fs : gmap string C) !! path).

(* crates/fabric/src/lib.rs:409-415 DaemonState::load *)
Definition daemon_load (path : string) (fs : Files C) : result DaemonStateError DaemonState :=
  contents ← file_read path fs;
  value ← map_err DsSerialization (decode_value contents);
  _ ← validate_durable_state_value value;
  state ← map_err DsSerialization (decode_state contents);
  Ok (with_sessions [] state).

(* crates/fabric/src/lib.rs:417-426 DaemonState::save *)
Definition daemon_save (self : DaemonState) (path : string) (fs : Files C) : Files C :=
  let state := with_schema_version DAEMON_STATE_SCHEMA_VERSION self in
  let state := with_sessions [] state in
  <[path := encode_state state]> (fs : gmap string C).

(** A report on a file that is not a valid state. *)
Definition invalid_report (path : string) (present : bool) (version : option Z)
    (violations : list DurableStateViolation) : DurableStateInspectionReport := {|
  ir_state_path := path; ir_present := present; ir_schema_version := version;
  ir_valid := false; ir_violations := violations; ir_summary := None |}.

(* crates/fabric/src/lib.rs:840-913 inspect_durable_state_file *)
Definition inspect_durable_state_file (path : string) (fs : Files C)
    : DurableStateInspectionReport :=
  match (fs : gmap string C) !! path with
  | None => invalid_report path false None
              [durable_state_violation "$" "durable state file is missing"]
  | Some contents =>
      match decode_value contents with
      | Err error => invalid_report path true None
          [durable_state_violation "$" ("durable state is not valid JSON: " +:+ error)]
      | Ok value =>
          let schema_version := durable_state_schema_version value in
          match validate_durable_state_value value with
          | Ok () =>
              match decode_state contents with
              | Err error => invalid_report path true schema_version
                  [durable_state_violation "$"
                     ("durable state could not be deserialized: " +:+ error)]
              | Ok state => {|
                  ir_state_path := path; ir_present := true;
                  ir_schema_version := schema_version; ir_valid := true; ir_violations := [];
                  ir_summary := Some (durable_state_summary (with_sessions [] state)) |}
              end
          | Err error => invalid_report path true schema_version
              (durable_state_violations_from_error error)
          end
      end
  end.

(* crates/fabric/src/lib.rs:915-927 validate_durable_state_file *)
Definition validate_durable_state_file (path : string) (fs : Files C)
    : DurableStateInspectionReport :=
  let report := inspect_durable_state_file path fs in {|
    ir_state_path := ir_state_path report; ir_present := ir_present report;
    ir_schema_version := ir_schema_version report; ir_valid := ir_valid report;
    ir_violations := ir_violations report; ir_summary := None |}.

(* crates/fabric/src/lib.rs:929-950 migrate_durable_state_file *)
Definition migrate_durable_state_file (path : string) (fs : Files C)
    : result DaemonStateError (DurableStateMigrationReport * Files C) :=
  contents ← file_read path fs;
  value ← map_err DsSerialization (decode_value contents);
  from_schema_version ← ok_or DsMissingSchemaVersion (durable_state_schema_version value);
  '(migrated, migrated_fields) ← migrate_durable_state_value_with_report value;
  _ ← validate_durable_state_value migrated;
  Ok ({| mr_state_path := path; mr_from_schema_version := from_schema_version;
         mr_to_schema_version := DAEMON_STATE_SCHEMA_VERSION;
         mr_migrated_fields := migrated_fields |},
      <[path := encode_value migrated]> (fs : gmap string C)).
End state_file.
