(* ===== verification/FabricPlane.v ===== *)
(** crates/fabric: [LocalControlPlane], the operations of the daemon and of the
    command line on the state file, and the fixture they start from.

    An operation reads and writes the file at the configured path and may fail
    after it has written; what it wrote stays. *)
From stdpp Require Import countable option base list strings gmap pretty.
From Stdlib Require Import ZArith Lia Strings.Byte Strings.Ascii.
From S2P Require Import Prelude Text BTree F32 External Model Crypto Records Netcheck Scheduler PeerStore Discovery Policy Routing RelayWire Transport Membership Control ControlFetch Fabric Durable.

(** ** The fixture *)

(* crates/fabric/src/lib.rs:49-54 DaemonConfig *)
Record DaemonConfig := {
  cfg_network : string;
  cfg_state_path : string;
  cfg_roles : list DaemonRole;
}.

(* crates/fabric/src/lib.rs:57-63 DaemonConfig::new *)
Definition DaemonConfig_new (network state_path : string) : DaemonConfig := {|
  cfg_network := network; cfg_state_path := state_path; cfg_roles := [RoleEdge; RoleObserver] |}.

(* crates/fabric/src/lib.rs:1144-1151 LocalNode *)
Record LocalNode := {
  ln_network_id : NetworkId;
  ln_peer_store : PeerStore;
  ln_discovery : DiscoveryService;
  ln_netcheck : NetcheckReport;
  ln_candidate_paths : list PathCandidate;
}.

Section fixture.
Context `{Blake3, Varint, Base32, Curves, ArtifactJson}.

Definition fixture_relay_peer : PeerId := PeerId_from_public_key Ed25519 (as_bytes "fra-relay-1").
Definition fixture_worker_peer : PeerId := PeerId_from_public_key Ed25519 (as_bytes "worker-17").

(* crates/fabric/src/lib.rs:1158-1169 LocalNode::fixture (bootstrap) *)
Definition fixture_hints : list Discovery.BootstrapHint := [
  {| bh_peer := fixture_relay_peer;
     bh_addresses := ["udp://203.0.113.10:443"]; bh_protocols := ["/quip/relay/1"] |};
  {| bh_peer := fixture_worker_peer;
     bh_addresses := ["udp://198.51.100.24:8443"];
     bh_protocols := ["/quip/control/1"; "/quip/records/1"] |}].

(* crates/fabric/src/lib.rs:1191-1212 LocalNode::fixture (netcheck) *)
Definition fixture_netcheck : NetcheckReport := {|
  nat_type := RestrictedCone;
  udp_reachable := true;
  ipv6_reachable := true;
  hairpin_supported := true;
  public_udp_addr := Some "198.51.100.24:8443";
  port_mapped := false;
  probe_observations := [
    {| po_vantage := "nyc-observer-1"; po_status := ProbePassed; po_latency_ms := Some 12%Z;
       po_detail := "reflexive candidate validated" |};
    {| po_vantage := "fra-observer-1"; po_status := ProbePassed; po_latency_ms := Some 24%Z;
       po_detail := "ipv6 direct candidate validated" |}] |}.

(* crates/fabric/src/lib.rs:1213-1238 LocalNode::fixture (candidate_paths) *)
Definition fixture_candidates : list PathCandidate := [
  {| pc_peer := fixture_worker_peer;
     pc_path_kind := DirectIpv6;
     pc_relay_peer := None;
     pc_source := Observed;
     pc_traffic_classes := [Interactive; Control];
     pc_rtt_ms := 13;
     pc_jitter_ms := 1;
     pc_loss_pct := f32_ratio 1 10;
     pc_throughput_mbps := 780;
     pc_relay_penalty := 0 |};
  {| pc_peer := fixture_worker_peer;
     pc_path_kind := Relay;
     pc_relay_peer := Some fixture_relay_peer;
     pc_source := Observed;
     pc_traffic_classes := [Interactive; Bulk];
     pc_rtt_ms := 24;
     pc_jitter_ms := 4;
     pc_loss_pct := f32_ratio 3 10;
     pc_throughput_mbps := 1200;
     pc_relay_penalty := 25 |}].

(* crates/fabric/src/lib.rs:1154-1240 LocalNode::fixture *)
Definition LocalNode_fixture (network_name : string) : LocalNode :=
  let discovery := Discovery.with_bootstrap fixture_hints in
  let '(_, peer_store) := ingest_bootstrap discovery PeerStore_default 1720000000 in
  let peer_store := upsert_peer_with_status
    {| snap_peer := fixture_worker_peer;
       snap_protocols := ["/quip/control/1"; "/quip/records/1"];
       snap_addresses := ["udp://198.51.100.24:8443"] |}
    {| st_source := SourceDiscovery; st_reachability := Direct;
       st_last_seen_unix_secs := Some 1720000120%Z |} peer_store in
  {| ln_network_id := NetworkId_derive (as_bytes network_name);
     ln_peer_store := peer_store;
     ln_discovery := discovery;
     ln_netcheck := fixture_netcheck;
     ln_candidate_paths := fixture_candidates |}.

(* crates/fabric/src/lib.rs:1242-1250 LocalNode::status_line *)
Definition node_status_line (self : LocalNode) : string :=
  "network=" +:+ NetworkId_to_text (ln_network_id self) +:+
  " peers=" +:+ len_text (peers (ln_peer_store self)) +:+
  " bootstrap_candidates=" +:+ len_text (bootstrap_candidates (ln_discovery self)) +:+
  " " +:+ summary (ln_netcheck self).

(* crates/fabric/src/lib.rs:1256-1258 LocalNode::best_path_for *)
Definition best_path_for (self : LocalNode) (class : TrafficClass) : option PathDecision :=
  select_best_path (ln_candidate_paths self) class.

(* crates/fabric/src/lib.rs:1300-1317 fixture_daemon_state (relay_map) *)
Definition fixture_relay_map : RelayMap := {|
  rm_version := 1;
  rm_generated_at := 1720000000;
  rm_relays := [{|
    ra_peer_id := fixture_relay_peer;
    ra_region := "eu-central-1";
    ra_advertised_endpoints := ["udp://203.0.113.10:443"];
    ra_control_endpoint := "http://203.0.113.10:9081";
    ra_max_bandwidth_bps := 1500000000;
    ra_supports_quic_datagrams := true;
    ra_supports_path_migration := true;
    ra_traffic_classes := ["NetworkControl"; "InteractiveRpc"; "Background"] |}] |}.

(* crates/fabric/src/lib.rs:1261-1324 fixture_daemon_state *)
Definition fixture_daemon_state (network : string) : DaemonState :=
  let node := LocalNode_fixture network in
  let authority := from_secret_bytes (replicate 32 x0b) in
  let local_identity := from_secret_bytes (replicate 32 x0c) in
  let local_peer_id := peer_id local_identity in
  let membership := certificate_issue authority (NetworkId_derive (as_bytes network))
    local_peer_id 1720000000 1820000000 ["member"] in
  let bootstrap := (λ hint, {|
    be_peer := Some (bh_peer hint);
    be_addresses := bh_addresses hint;
    be_protocols := bh_protocols hint;
    be_metadata := {["source" := "fixture"]} |}) <$> bootstrap_candidates (ln_discovery node) in
  {| ds_schema_version := DAEMON_STATE_SCHEMA_VERSION;
     ds_network := network;
     ds_local_peer_id := local_peer_id;
     ds_roles := [RoleEdge; RoleObserver];
     ds_membership := membership;
     ds_capability_grants := [];
     ds_revocations := [];
     ds_denied_peers := [];
     ds_bootstrap := bootstrap;
     ds_relay_map := Some fixture_relay_map;
     ds_peers := peers (ln_peer_store node);
     ds_netcheck := ln_netcheck node;
     ds_queue_policies := default_queue_policies;
     ds_active_sessions := [];
     ds_path_candidates := ln_candidate_paths node |}.

(* crates/fabric/src/lib.rs:2737-2757 self_identity_daemon_state *)
Definition self_identity_daemon_state (network : string) (roles : list DaemonRole)
    (local_identity : IdentityKeypair) : DaemonState :=
  let state := fixture_daemon_state network in
  let local_peer_id := peer_id local_identity in
  let membership := certificate_issue local_identity (NetworkId_derive (as_bytes network))
    local_peer_id 1720000000 1820000000 ["member"] in
  let state := {|
    ds_schema_version := ds_schema_version state; ds_network := ds_network state;
    ds_local_peer_id := local_peer_id;
    ds_roles := roles;
    ds_membership := membership;
    ds_capability_grants := ds_capability_grants state;
    ds_revocations := ds_revocations state;
    ds_denied_peers := denied_peers membership (ds_revocations state);
    ds_bootstrap := ds_bootstrap state; ds_relay_map := ds_relay_map state;
    ds_peers := ds_peers state; ds_netcheck := ds_netcheck state;
    ds_queue_policies := ds_queue_policies state;
    ds_active_sessions := ds_active_sessions state;
    ds_path_candidates := ds_path_candidates state |} in
  with_candidates (merged_path_candidates state) state.
End fixture.

(** ** Operations on files *)

Definition FileM (C A : Type) : Type := Files C → result DaemonStateError A * Files C.

#[export] Instance filem_ret {C} : MRet (FileM C) := λ A a fs, (Ok a, fs).
#[export] Instance filem_bind {C} : MBind (FileM C) := λ A B f m fs,
  match m fs with (Ok a, fs') => f a fs' | (Err e, fs') => (Err e, fs') end.

(** A step that may fail, a reading of the files, and a change of them. *)
Definition filem_lift {C A} (r : result DaemonStateError A) : FileM C A := λ fs, (r, fs).
Definition filem_read {C A} (f : Files C → result DaemonStateError A) : FileM C A :=
  λ fs, (f fs, fs).
Definition filem_write {C} (f : Files C → Files C) : FileM C () := λ fs, (Ok (), f fs).

Section plane.
Context `{Blake3, Varint, Base32, Curves, ArtifactJson} {C : Type} `{StateFormat C}.
Context {Body : Type} `{ControlJson Body}.

(** What the authority answers while an operation runs; no operation asks for
    the same URL twice. *)
Variable web : string → HttpReply Body.
Variable config : DaemonConfig.

Definition plane_exists : FileM C bool :=
  filem_read (λ fs, Ok (file_exists (cfg_state_path config) fs)).
Definition plane_load : FileM C DaemonState := filem_read (daemon_load (cfg_state_path config)).
Definition plane_save (state : DaemonState) : FileM C () :=
  filem_write (daemon_save state (cfg_state_path config)).

(** [state.path_candidates = merged_path_candidates(&state)] *)
Definition rebuild (state : DaemonState) : DaemonState :=
  with_candidates (merged_path_candidates state) state.

(* crates/fabric/src/lib.rs:1457-1470 LocalControlPlane::ensure_state *)
Definition ensure_state : FileM C DaemonState :=
  exists_ ← plane_exists;
  if (exists_ : bool) then
    state ← plane_load;
    let state := with_roles (cfg_roles config) state in
    mret (rebuild state)
  else
    let state := fixture_daemon_state (cfg_network config) in
    let state := with_roles (cfg_roles config) state in
    let state := rebuild state in
    _ ← plane_save state;
    mret state.

(* crates/fabric/src/lib.rs:1472-1488 LocalControlPlane::ensure_state_for_local_identity *)
Definition ensure_state_for_local_identity (local_identity : IdentityKeypair)
    : FileM C DaemonState :=
  exists_ ← plane_exists;
  if (exists_ : bool) then ensure_state
  else
    let state := self_identity_daemon_state (cfg_network config) (cfg_roles config)
      local_identity in
    let state := rebuild state in
    _ ← plane_save state;
    mret state.

(* crates/fabric/src/lib.rs:1490-1509 LocalControlPlane::ensure_identity_bound_state *)
Definition ensure_identity_bound_state (local_identity : IdentityKeypair)
    : FileM C DaemonState :=
  state ← ensure_state_for_local_identity local_identity;
  let expected := peer_id local_identity in
  if negb (bool_decide (ds_local_peer_id state = expected)) then
    filem_lift (Err (DsInvalidSession (
      "state local peer " +:+ PeerId_to_text (ds_local_peer_id state) +:+
      " does not match runtime identity " +:+ PeerId_to_text expected)))
  else if negb (bool_decide (mc_subject_peer_id (ds_membership state) = expected)) then
    filem_lift (Err (DsInvalidSession (
      "membership subject peer " +:+ PeerId_to_text (mc_subject_peer_id (ds_membership state)) +:+
      " does not match runtime identity " +:+ PeerId_to_text expected)))
  else mret state.

(* crates/fabric/src/lib.rs:1511-1515 LocalControlPlane::refresh_and_persist *)
Definition refresh_and_persist : FileM C DaemonState :=
  state ← ensure_state;
  _ ← plane_save state;
  mret state.

(* crates/fabric/src/lib.rs:1517-1524 LocalControlPlane::refresh_and_persist_for_local_identity *)
Definition refresh_and_persist_for_local_identity (local_identity : IdentityKeypair)
    : FileM C DaemonState :=
  state ← ensure_state_for_local_identity local_identity;
  _ ← plane_save state;
  mret state.

(* crates/fabric/src/lib.rs:1526-1544 LocalControlPlane::reprobe_network_change *)
Definition reprobe_network_change (reason : string) : FileM C NetcheckReprobeReport :=
  state ← ensure_state;
  let state := with_netcheck (reprobe_netcheck state reason) state in
  let state := rebuild state in
  let report := {|
    rp_reason := reason;
    rp_udp_reachable := udp_reachable (ds_netcheck state);
    rp_ipv6_reachable := ipv6_reachable (ds_netcheck state);
    rp_relay_required := relay_required (ds_netcheck state);
    rp_probe_observations := list_len (probe_observations (ds_netcheck state));
    rp_path_candidates := list_len (ds_path_candidates state) |} in
  _ ← plane_save state;
  mret report.

(* crates/fabric/src/lib.rs:2725-2731 load_authority_snapshot *)
Definition load_authority_snapshot (snapshot_path : string) : FileM C AuthorityArtifactSnapshot :=
  filem_read (λ fs,
    contents ← file_read snapshot_path fs;
    map_err DsSerialization (decode_snapshot contents)).

(* crates/fabric/src/lib.rs:1546-1559 LocalControlPlane::seed_from_authority_snapshot *)
Definition seed_from_authority_snapshot (snapshot_path : string) : FileM C DaemonState :=
  snapshot ← load_authority_snapshot snapshot_path;
  state ← filem_lift (from_authority_snapshot (cfg_network config) (cfg_roles config) snapshot);
  let state := rebuild state in
  _ ← plane_save state;
  mret state.

(** The report on a state that a synchronization has seeded. *)
(* crates/fabric/src/lib.rs:1577-1585 LocalControlPlane::sync_authority_snapshot (report) *)
Definition seed_report (state : DaemonState) (relays_added : Z) : StateSyncReport := {|
  sy_membership_changed := true;
  sy_grants_added := list_len (ds_capability_grants state);
  sy_grants_removed := 0;
  sy_revocations_added := list_len (ds_revocations state);
  sy_bootstrap_hints_added := list_len (ds_bootstrap state);
  sy_bootstrap_hints_removed := 0;
  sy_relay_announcements_added := relays_added |}.

(* crates/fabric/src/lib.rs:1589-1598 LocalControlPlane::sync_authority_snapshot (client) *)
Definition local_client : ControlClient := {|
  cc_network_id := NetworkId_derive (as_bytes (cfg_network config));
  cc_endpoints := {|
    ae_enrollment := "local://enroll"; ae_revocation := "local://revoke";
    ae_relay_map := "local://relays"; ae_bootstrap := "local://bootstrap";
    ae_snapshot := "local://snapshot" |} |}.

(* crates/fabric/src/lib.rs:1561-1602 LocalControlPlane::sync_authority_snapshot *)
Definition plane_sync_snapshot (snapshot_path : string)
    : FileM C (DaemonState * StateSyncReport) :=
  snapshot ← load_authority_snapshot snapshot_path;
  exists_ ← plane_exists;
  if (exists_ : bool) then
    state ← plane_load;
    let state := with_roles (cfg_roles config) state in
    '(state, report) ← filem_lift (daemon_sync_snapshot state local_client snapshot);
    _ ← plane_save state;
    mret (state, report)
  else
    state ← filem_lift (from_authority_snapshot (cfg_network config) (cfg_roles config) snapshot);
    let state := rebuild state in
    let report := seed_report state 0 in
    _ ← plane_save state;
    mret (state, report).

(* crates/fabric/src/lib.rs:2733-2735 authority_client *)
Definition authority_client (network origin : string) : ControlClient :=
  from_origin (NetworkId_derive (as_bytes network)) origin.

Definition fetched {A} (r : result ControlError A) : FileM C A := filem_lift (map_err DsControl r).

(* crates/fabric/src/lib.rs:1604-1621 LocalControlPlane::seed_from_authority_origin *)
Definition seed_from_authority_origin (origin : string) (subject : option string)
    : FileM C DaemonState :=
  let client := authority_client (cfg_network config) origin in
  snapshot ← fetched (fetch_authority_snapshot_for web client subject);
  relay_map ← fetched (fetch_relay_map web client);
  state ← filem_lift (from_authority_snapshot (cfg_network config) (cfg_roles config) snapshot);
  let state := rebuild state in
  let '(state, _) := apply_relay_map state relay_map in
  _ ← plane_save state;
  mret state.

(* crates/fabric/src/lib.rs:1623-1667 LocalControlPlane::sync_authority_origin *)
Definition sync_authority_origin (origin : string) (subject : option string)
    : FileM C (DaemonState * StateSyncReport) :=
  let client := authority_client (cfg_network config) origin in
  snapshot ← fetched (fetch_authority_snapshot_for web client subject);
  relay_map ← fetched (fetch_relay_map web client);
  exists_ ← plane_exists;
  if (exists_ : bool) then
    state ← plane_load;
    let state := with_roles (cfg_roles config) state in
    '(state, report) ← filem_lift (daemon_sync_snapshot state client snapshot);
    let '(state, relay_announcements_added) := apply_relay_map state relay_map in
    _ ← plane_save state;
    mret (state, {|
      sy_membership_changed := sy_membership_changed report;
      sy_grants_added := sy_grants_added report;
      sy_grants_removed := sy_grants_removed report;
      sy_revocations_added := sy_revocations_added report;
      sy_bootstrap_hints_added := sy_bootstrap_hints_added report;
      sy_bootstrap_hints_removed := sy_bootstrap_hints_removed report;
      sy_relay_announcements_added := relay_announcements_added |})
  else
    state ← filem_lift (from_authority_snapshot (cfg_network config) (cfg_roles config) snapshot);
    let state := rebuild state in
    let '(state, relay_announcements_added) := apply_relay_map state relay_map in
    let report := seed_report state relay_announcements_added in
    _ ← plane_save state;
    mret (state, report).

(* crates/fabric/src/lib.rs:1669-1680 LocalControlPlane::sync_authority_revocations_origin *)
Definition sync_authority_revocations_origin (origin : string) : FileM C (DaemonState * Z) :=
  state ← ensure_state;
  let state := with_roles (cfg_roles config) state in
  let client := authority_client (cfg_network config) origin in
  revocations ← fetched (fetch_revocations web client (max_revocation_sequence state));
  let '(state, added) := apply_revocations state revocations in
  _ ← plane_save state;
  mret (state, added).

(* crates/fabric/src/lib.rs:1682-1693 LocalControlPlane::inspect_peer *)
Definition inspect_peer (peer : PeerId) : FileM C (PeerInspection * option PathDecision) :=
  state ← ensure_state;
  inspection ← filem_lift (ok_or (DsPeerNotFound (PeerId_to_text peer)) (daemon_peer state peer));
  let routing := best_path state peer Interactive in
  mret (inspection, routing).

(* crates/fabric/src/lib.rs:1695-1697 LocalControlPlane::session_snapshots *)
Definition plane_session_snapshots : FileM C (list SessionSnapshot) :=
  state ← ensure_state; mret (ds_active_sessions state).

(* crates/fabric/src/lib.rs:1699-1701 LocalControlPlane::inspect_state_file *)
Definition inspect_state_file : FileM C DurableStateInspectionReport :=
  filem_read (λ fs, Ok (inspect_durable_state_file (cfg_state_path config) fs)).

(* crates/fabric/src/lib.rs:1703-1705 LocalControlPlane::validate_state_file *)
Definition validate_state_file : FileM C DurableStateInspectionReport :=
  filem_read (λ fs, Ok (validate_durable_state_file (cfg_state_path config) fs)).

(* crates/fabric/src/lib.rs:1714-1721 LocalControlPlane::reset_network_state *)
Definition reset_network_state : FileM C bool :=
  exists_ ← plane_exists;
  if (exists_ : bool) then
    _ ← filem_write (delete (cfg_state_path config) : Files C → Files C);
    mret true
  else mret false.

(* crates/fabric/src/lib.rs:2715-2722 LocalControlPlane::explain_policy *)
Definition plane_explain_policy (peer : PeerId) (protocol : ProtocolId) : FileM C Decision :=
  state ← ensure_state; mret (explain_policy state peer protocol).
End plane.
