(* ===== verification/FabricRuntime.v ===== *)
(** crates/fabric: the operations of [LocalControlPlane] on a transport: it
    opens, closes, upgrades and reconciles sessions, enforces the authority's
    decisions on them, and reports on them.

    The transport is an interface, the trait [SessionLifecycleTransport]; the
    daemon's files are those of [FabricPlane].  An operation is a state
    transformer over both, and keeps what it did before it failed. *)
From stdpp Require Import countable option base list strings gmap pretty.
From Stdlib Require Import ZArith Lia Strings.Byte Strings.Ascii.
From S2P Require Import Prelude Text BTree F32 External Model Crypto Records Netcheck Scheduler PeerStore Policy Routing RelayWire Transport Membership Control Fabric FabricPaths Durable FabricPlane.

(** ** The transport *)

Definition TransportM (W A : Type) : Type := W → result TransportError A * W.

(** A connection handle is its [snapshot]. *)
(* crates/transport/src/lib.rs:209-310 SessionLifecycleTransport *)
Class LifecycleTransport (W : Type) := {
  lt_connect : RoutePlan → TransportM W SessionSnapshot;
  lt_active_sessions : TransportM W (list SessionSnapshot);
  lt_session_snapshot : bytes → TransportM W (option SessionSnapshot);
  lt_recent_terminal_sessions : nat → TransportM W (list SessionSnapshot);
  lt_update_session_state : bytes → RuntimeSessionState → option SessionClosureReason →
    option string → TransportM W (option SessionSnapshot);
  lt_recent_events : nat → TransportM W (list RuntimeEvent);
  lt_suppress_reconnect : PeerId → option ProtocolId → TrafficClass → string → TransportM W ();
  lt_clear_reconnect_suppression : PeerId → option ProtocolId → TrafficClass → TransportM W ();
  lt_reconnect_suppressions : TransportM W (list ReconnectSuppression);
  lt_active_listeners : TransportM W (list RuntimeListenerSnapshot);
  lt_update_listener_state : string → RuntimeListenerState → option string →
    TransportM W (option RuntimeListenerSnapshot);
  lt_transport_health : TransportM W RuntimeTransportHealth;
  lt_reconnect_attempts : TransportM W (list RuntimeReconnectAttempt);
  lt_record_runtime_event : string → RuntimeEventSubject → Json → TransportM W ();
  lt_migrate : SessionSnapshot → RoutePlan → TransportM W SessionSnapshot;
  lt_close_session : SessionSnapshot → TransportM W ();
}.

(** ** Effects *)

Record Node (C W : Type) := mk_Node { node_files : Files C; node_transport : W }.
Arguments mk_Node {C W} _ _.
Arguments node_files {C W} _.
Arguments node_transport {C W} _.

Definition NodeM (C W A : Type) : Type := Node C W → result DaemonStateError A * Node C W.

#[export] Instance node_ret {C W} : MRet (NodeM C W) := λ A a n, (Ok a, n).
#[export] Instance node_bind {C W} : MBind (NodeM C W) := λ A B f m n,
  match m n with (Ok a, n') => f a n' | (Err e, n') => (Err e, n') end.

Definition node_throw {C W A} (e : DaemonStateError) : NodeM C W A := λ n, (Err e, n).
Definition node_lift {C W A} (r : result DaemonStateError A) : NodeM C W A := λ n, (r, n).
Definition on_files {C W A} (m : FileM C A) : NodeM C W A := λ n,
  let '(r, fs) := m (node_files n) in (r, mk_Node fs (node_transport n)).
(** A call on the transport: [?] on its result, or the result itself. *)
Definition on_transport {C W A} (m : TransportM W A) : NodeM C W A := λ n,
  let '(r, w) := m (node_transport n) in (map_err DsTransport r, mk_Node (node_files n) w).
Definition try_transport {C W A} (m : TransportM W A) : NodeM C W (result TransportError A) := λ n,
  let '(r, w) := m (node_transport n) in (Ok r, mk_Node (node_files n) w).

(** A [for] loop over a list that carries a state. *)
Fixpoint node_for {C W A B} (l : list A) (body : A → B → NodeM C W B) (b : B) : NodeM C W B :=
  match l with
  | [] => mret b
  | a :: l => b ← body a b; node_for l body b
  end.

(** ** Reports *)

(* crates/fabric/src/lib.rs:258-263 SessionReconcileDisposition *)
Inductive SessionReconcileDisposition := Unchanged | Upgraded | Closed.

(* crates/fabric/src/lib.rs:265-272 SessionReconcileEntry *)
Record SessionReconcileEntry := {
  re_session_id : bytes;
  re_peer : PeerId;
  re_disposition : SessionReconcileDisposition;
  re_reason : string;
  re_path_kind : option PathKind;
}.

(* crates/fabric/src/lib.rs:274-281 SessionReconcileReport *)
Record SessionReconcileReport := {
  rc_examined : Z;
  rc_unchanged : Z;
  rc_upgraded : Z;
  rc_closed : Z;
  rc_entries : list SessionReconcileEntry;
}.

(* crates/fabric/src/lib.rs:2766-2772 AuthorityPolicyCause *)
Inductive AuthorityPolicyCause :=
| CauseSubjectMismatch | LocalMembershipDenied | PeerMembershipDenied | CapabilityDenied.

(* crates/fabric/src/lib.rs:2783-2790 AuthorityPolicyCause::label *)
Definition cause_label (self : AuthorityPolicyCause) : string :=
  match self with
  | CauseSubjectMismatch => "subject_mismatch"
  | LocalMembershipDenied => "local_membership_denied"
  | PeerMembershipDenied => "peer_membership_denied"
  | CapabilityDenied => "capability_denied"
  end.

(* crates/fabric/src/lib.rs:2775-2781 AuthorityPolicyCause::if_subject_mismatch *)
Definition if_subject_mismatch (mismatch : bool) : option AuthorityPolicyCause :=
  if mismatch then Some CauseSubjectMismatch else None.

(* crates/fabric/src/lib.rs:2793-2797 AuthorityPolicyEnforcement *)
Record AuthorityPolicyEnforcement := { enf_cause : AuthorityPolicyCause; enf_reason : string }.

(* crates/fabric/src/lib.rs:283-302 AuthorityReevaluationReport *)
Record AuthorityReevaluationReport := {
  rv_reevaluated_sessions : Z;
  rv_closed_sessions : Z;
  rv_degraded_sessions : Z;
  rv_migrated_sessions : Z;
  rv_unchanged_sessions : Z;
  rv_reevaluated_listeners : Z;
  rv_suppressed_listeners : Z;
  rv_restored_listeners : Z;
  rv_reconnect_suppressions_added : Z;
  rv_reconnect_suppressions_cleared : Z;
  rv_local_policy_denied : bool;
  rv_authority_subject_mismatch : bool;
  rv_subject_mismatch_sessions : Z;
  rv_local_membership_denied_sessions : Z;
  rv_peer_membership_denied_sessions : Z;
  rv_capability_denied_sessions : Z;
  rv_local_policy_reason : option string;
}.

(* crates/fabric/src/lib.rs:2846-2855 path_failure_cause *)
Definition path_failure_cause (reason : SessionClosureReason) : string :=
  match reason with
  | OperatorRequested => "operator_requested"
  | LocalRuntimeFailure => "local_runtime_failure"
  | RemoteFailure => "remote_failure"
  | PolicyRejected => "policy_rejected"
  | PathExhaustion => "path_exhaustion"
  | DaemonShutdown => "daemon_shutdown"
  end.

(* crates/fabric/src/lib.rs:2759-2764 hex_session_id *)
Definition hex_session_id (session_id : bytes) : string := hex_string session_id.

Definition subject_of (kind id : string) : RuntimeEventSubject := {| sub_kind := kind; sub_id := id |}.
Definition session_event_subject (session : SessionSnapshot) : RuntimeEventSubject :=
  subject_of "session" (hex_session_id (ss_session_id session)).

Section runtime.
Context `{Blake3, Varint, Base32, Curves, ArtifactJson} {C : Type} `{StateFormat C}.
Context {W : Type} `{LifecycleTransport W}.
Variable config : DaemonConfig.

Local Notation M := (NodeM C W).

(** ** Sessions *)

(* crates/fabric/src/lib.rs:1723-1730 LocalControlPlane::sync_runtime_sessions *)
Definition sync_runtime_sessions : M DaemonState :=
  state ← on_files (ensure_state config);
  sessions ← on_transport lt_active_sessions;
  mret (with_sessions sessions state).

(** The end of the operations that change sessions. *)
(* crates/fabric/src/lib.rs:1751-1752 LocalControlPlane::close_session (save) *)
Definition save_sessions (state : DaemonState) : M () :=
  sessions ← on_transport lt_active_sessions;
  let state := with_sessions sessions state in
  on_files (plane_save config state).

Definition known_session (session_id : bytes) : M SessionSnapshot :=
  session ← on_transport (lt_session_snapshot session_id);
  node_lift (ok_or (DsSessionNotFound (hex_session_id session_id)) session).

(* crates/fabric/src/lib.rs:1732-1754 LocalControlPlane::close_session *)
Definition fabric_close_session (session_id : bytes) : M () :=
  state ← on_files (ensure_state config);
  session ← known_session session_id;
  _ ← on_transport (lt_update_session_state session_id StClosing (Some OperatorRequested)
        (Some "operator requested close"));
  _ ← on_transport (lt_close_session session);
  save_sessions state.

(* crates/fabric/src/lib.rs:2857-2882 record_path_failure_event *)
Definition record_path_failure_event (session : SessionSnapshot) (cause reason : string) : M () :=
  on_transport (lt_record_runtime_event "path.failed" (session_event_subject session)
    (JObj [("peer_id", JStr (PeerId_to_text (ss_peer session)));
           ("protocol", match ss_protocol session with
                        | Some protocol => JStr (protocol_text protocol) | None => JNull end);
           ("class", JStr (TrafficClass_debug (ss_class session)));
           ("path_class", JStr (PathKind_debug (ss_path_kind session)));
           ("cause", JStr cause); ("reason", JStr reason)])).

(* crates/fabric/src/lib.rs:1756-1780 LocalControlPlane::fail_and_close_session *)
Definition fail_and_close_session (session : SessionSnapshot)
    (closure_reason : SessionClosureReason) (state_reason : string) : M () :=
  _ ← on_transport (lt_update_session_state (ss_session_id session) StFailed
        (Some closure_reason) (Some state_reason));
  _ ← record_path_failure_event session (path_failure_cause closure_reason) state_reason;
  on_transport (lt_close_session session).

(* crates/fabric/src/lib.rs:1782-1819 LocalControlPlane::upgrade_session *)
Definition upgrade_session (session_id : bytes) : M SessionSnapshot :=
  state ← on_files (ensure_state config);
  session ← known_session session_id;
  protocol ← node_lift (ok_or (DsInvalidSession "session has no negotiated protocol")
    (ss_protocol session));
  let policy := explain_policy state (ss_peer session) protocol in
  if negb (allowed policy) then
    _ ← on_transport (lt_update_session_state session_id StFailed (Some PolicyRejected)
          (Some (reason policy)));
    node_throw (DsPolicyDenied (reason policy))
  else
    _ ← on_transport (lt_update_session_state session_id StMigrating None
          (Some "daemon selected a better path"));
    route ← node_lift (route_plan state (ss_peer session) (Some protocol) (ss_class session));
    upgraded ← on_transport (lt_migrate session route);
    let state := with_active_session state upgraded in
    _ ← save_sessions state;
    mret upgraded.

(* crates/fabric/src/lib.rs:1989-2011 LocalControlPlane::realize_best_path *)
Definition realize_best_path (peer : PeerId) (protocol : ProtocolId) (class : TrafficClass)
    : M SessionSnapshot :=
  state ← on_files (ensure_state config);
  let policy := explain_policy state peer protocol in
  if negb (allowed policy) then node_throw (DsPolicyDenied (reason policy))
  else
    route ← node_lift (route_plan state peer (Some protocol) class);
    session ← on_transport (lt_connect route);
    let state := with_active_session state session in
    _ ← save_sessions state;
    mret session.

(** ** Reconciliation *)

(** The counters and entries of the loop, with the state it rewrites. *)
Record Reconciling := {
  rg_state : DaemonState;
  rg_unchanged : Z;
  rg_upgraded : Z;
  rg_closed : Z;
  rg_entries : list SessionReconcileEntry;
}.

Definition rg_entry (session : SessionSnapshot) (disposition : SessionReconcileDisposition)
    (why : string) (path_kind : option PathKind) : SessionReconcileEntry := {|
  re_session_id := ss_session_id session; re_peer := ss_peer session;
  re_disposition := disposition; re_reason := why; re_path_kind := path_kind |}.

Definition rg_close (session : SessionSnapshot) (why : string) (g : Reconciling) : Reconciling := {|
  rg_state := without_session (rg_state g) (ss_session_id session);
  rg_unchanged := rg_unchanged g; rg_upgraded := rg_upgraded g; rg_closed := rg_closed g + 1;
  rg_entries := rg_entries g ++ [rg_entry session Closed why None] |}.

Definition rg_keep (session : SessionSnapshot) (why : string) (g : Reconciling) : Reconciling := {|
  rg_state := rg_state g;
  rg_unchanged := rg_unchanged g + 1; rg_upgraded := rg_upgraded g; rg_closed := rg_closed g;
  rg_entries := rg_entries g ++ [rg_entry session Unchanged why (Some (ss_path_kind session))] |}.

Definition rg_upgrade (session migrated : SessionSnapshot) (next : PathKind) (why : string)
    (g : Reconciling) : Reconciling := {|
  rg_state := with_active_session (rg_state g) migrated;
  rg_unchanged := rg_unchanged g; rg_upgraded := rg_upgraded g + 1; rg_closed := rg_closed g;
  rg_entries := rg_entries g ++ [rg_entry session Upgraded why (Some next)] |}.

(** One round of the loop. *)
(* crates/fabric/src/lib.rs:1835-1976 LocalControlPlane::reconcile_sessions (loop body) *)
Definition reconcile_session (listed : SessionSnapshot) (g : Reconciling) : M Reconciling :=
  _ ← on_transport (lt_update_session_state (ss_session_id listed) StReconciling None
        (Some "daemon reconcile cycle"));
  session ← on_transport (lt_session_snapshot (ss_session_id listed));
  match session with
  | None => mret (rg_close listed "session is not active in runtime transport" g)
  | Some session =>
      match ss_protocol session with
      | None =>
          _ ← fail_and_close_session session LocalRuntimeFailure
                "session is missing negotiated protocol";
          mret (rg_close session "session is missing negotiated protocol" g)
      | Some protocol =>
          let policy := explain_policy (rg_state g) (ss_peer session) protocol in
          if negb (allowed policy) then
            _ ← on_transport (lt_update_session_state (ss_session_id session) StClosing
                  (Some PolicyRejected) (Some (reason policy)));
            _ ← on_transport (lt_close_session session);
            mret (rg_close session ("policy denied session: " +:+ reason policy) g)
          else
            match route_plan (rg_state g) (ss_peer session) (Some protocol) (ss_class session) with
            | Err (DsNoRoute _) =>
                _ ← fail_and_close_session session PathExhaustion
                      "no route is available for session";
                mret (rg_close session "no route is available for session" g)
            | Err error => node_throw error
            | Ok route =>
                if session_matches_route session route then
                  _ ← on_transport (lt_update_session_state (ss_session_id session) StActive None
                        (Some "selected path still matches active session"));
                  mret (rg_keep session "selected path still matches active session" g)
                else
                  _ ← on_transport (lt_update_session_state (ss_session_id session) StMigrating
                        None (Some "selected path changed; session migrating"));
                  migrated ← try_transport (lt_migrate session route);
                  match migrated with
                  | Ok migrated =>
                      mret (rg_upgrade session migrated (rt_path_kind route)
                              "selected path changed; session migrated" g)
                  | Err error =>
                      let why := "session migration failed: " +:+ transport_error_text error in
                      _ ← fail_and_close_session session LocalRuntimeFailure why;
                      mret (rg_close session why g)
                  end
            end
      end
  end.

(* crates/fabric/src/lib.rs:1821-1987 LocalControlPlane::reconcile_sessions *)
Definition reconcile_sessions : M SessionReconcileReport :=
  state ← on_files (ensure_state config);
  sessions ← on_transport lt_active_sessions;
  g ← node_for sessions reconcile_session {|
    rg_state := state; rg_unchanged := 0; rg_upgraded := 0; rg_closed := 0; rg_entries := [] |};
  _ ← save_sessions (rg_state g);
  mret {| rc_examined := list_len (rg_entries g); rc_unchanged := rg_unchanged g;
          rc_upgraded := rg_upgraded g; rc_closed := rg_closed g; rc_entries := rg_entries g |}.

(** ** Reports on the runtime *)

(* crates/fabric/src/lib.rs:2013-2022 LocalControlPlane::runtime_events *)
Definition runtime_events (limit : nat) : M (list RuntimeEvent) := on_transport (lt_recent_events limit).

(* crates/fabric/src/lib.rs:2024-2252 LocalControlPlane::runtime_paths *)
Definition runtime_paths : M (list RuntimePathSnapshot) :=
  state ← on_files (ensure_state config);
  sessions ← on_transport lt_active_sessions;
  suppressions ← on_transport lt_reconnect_suppressions;
  reconnect_attempts ← on_transport lt_reconnect_attempts;
  terminal ← on_transport (lt_recent_terminal_sessions 16);
  mret (path_snapshots state sessions suppressions reconnect_attempts terminal).

Definition listener_with (state : RuntimeListenerState) (state_reason : option string)
    (s : RuntimeListenerSnapshot) : RuntimeListenerSnapshot := {|
  ls_listener_id := ls_listener_id s; ls_transport := ls_transport s;
  ls_bind_summary := ls_bind_summary s; ls_protocol := ls_protocol s;
  ls_advertise := ls_advertise s; ls_state := state; ls_state_reason := state_reason;
  ls_started_at_unix_secs := ls_started_at_unix_secs s |}.

(** Why the local peer may not take part, compared with an identity. *)
(* crates/fabric/src/lib.rs:2372-2380 LocalControlPlane::reevaluate_runtime_authority (local_policy_reason) *)
Definition local_policy_reason (state : DaemonState) (identity : PeerId) : option string :=
  if negb (bool_decide (mc_subject_peer_id (ds_membership state) = identity)) then
    Some ("authority subject " +:+ PeerId_to_text (mc_subject_peer_id (ds_membership state)) +:+
          " does not match runtime identity " +:+ PeerId_to_text identity)
  else deny_reason state (ds_local_peer_id state).

(* crates/fabric/src/lib.rs:2271-2288 LocalControlPlane::runtime_listeners (loop body) *)
Definition listener_posture (state : DaemonState) (local_policy_reason : option string)
    (listener : RuntimeListenerSnapshot) : RuntimeListenerSnapshot :=
  if bool_decide (ls_state listener = ListenerFailed) then listener
  else
    match local_policy_reason with
    | Some reason => listener_with ListenerSuppressed (Some reason) listener
    | None =>
        let decision := explain_local_protocol_policy state (ls_protocol listener) in
        if negb (allowed decision)
        then listener_with ListenerSuppressed (Some (reason decision)) listener
        else if bool_decide (ls_state listener = ListenerSuppressed)
        then listener_with ListenerActive None listener
        else listener
    end.

(* crates/fabric/src/lib.rs:2254-2290 LocalControlPlane::runtime_listeners *)
Definition runtime_listeners : M (list RuntimeListenerSnapshot) :=
  state ← on_files (ensure_state config);
  let local_policy_reason := local_policy_reason state (ds_local_peer_id state) in
  listeners ← on_transport lt_active_listeners;
  mret (listener_posture state local_policy_reason <$> listeners).

(** The report, from the state, the transport's health, and the numbers of
    active listeners and paths. *)
(* crates/fabric/src/lib.rs:2308-2359 LocalControlPlane::runtime_health (report) *)
Definition health_report (state : DaemonState) (transport_health : RuntimeTransportHealth)
    (active_listeners active_paths : Z) : RuntimeHealthReport :=
  let authority_subject_mismatch :=
    negb (bool_decide (mc_subject_peer_id (ds_membership state) = ds_local_peer_id state)) in
  let authority_deny_reason := deny_reason state (ds_local_peer_id state) in
  let authority_sync_health :=
    if authority_subject_mismatch then HealthFailed
    else match authority_deny_reason with Some _ => HealthSuppressed | None => HealthReady end in
  let runtime_registry_health :=
    if th_session_registry_healthy transport_health && th_listener_registry_healthy transport_health
    then HealthReady else HealthFailed in
  let path_manager_health :=
    if ((0 <? th_active_sessions transport_health) && (active_paths =? 0))%Z then HealthFailed
    else if (active_paths <? th_active_sessions transport_health)%Z then HealthDegraded
    else HealthReady in
  let reconnect_subsystem_health :=
    runtime_reconnect_health_level (th_reconnect_state transport_health) in {|
    hr_daemon_readiness := runtime_rollup_health [authority_sync_health; runtime_registry_health;
      path_manager_health; reconnect_subsystem_health];
    hr_authority_sync_health := authority_sync_health;
    hr_runtime_registry_health := runtime_registry_health;
    hr_path_manager_health := path_manager_health;
    hr_reconnect_subsystem_health := reconnect_subsystem_health;
    hr_authority_subject_status := if authority_subject_mismatch then "mismatched" else "matched";
    hr_authority_deny_reason := authority_deny_reason;
    hr_active_sessions := th_active_sessions transport_health;
    hr_active_paths := active_paths;
    hr_active_listeners := active_listeners;
    hr_reconnect_state := th_reconnect_state transport_health;
    hr_reconnect_attempt_count := th_reconnect_attempt_count transport_health;
    hr_reconnect_next_attempt_unix_secs := th_reconnect_next_attempt_unix_secs transport_health;
    hr_reconnect_suppression_count := th_reconnect_suppression_count transport_health;
    hr_runtime_event_buffer_depth := th_event_buffer_depth transport_health |}.

(* crates/fabric/src/lib.rs:2292-2360 LocalControlPlane::runtime_health *)
Definition runtime_health : M RuntimeHealthReport :=
  state ← on_files (ensure_state config);
  transport_health ← on_transport lt_transport_health;
  listeners ← runtime_listeners;
  let active_listeners :=
    count (λ listener, bool_decide (ls_state listener = ListenerActive)) listeners in
  paths ← runtime_paths;
  let active_paths := count (λ path, bool_decide (is_Some (ps_session_id path))) paths in
  mret (health_report state transport_health active_listeners active_paths).

(** ** Enforcing the authority's decisions *)

(* crates/fabric/src/lib.rs:2806-2817 classify_remote_policy_cause *)
Definition classify_remote_policy_cause (state : DaemonState) (peer : PeerId) (why : string)
    : AuthorityPolicyCause :=
  if bool_decide (is_Some (deny_reason state peer)) || contains "revoked" why ||
     contains "denied" why
  then PeerMembershipDenied else CapabilityDenied.

(** What the policy demands of a session, if anything. *)
(* crates/fabric/src/lib.rs:2417-2435 LocalControlPlane::reevaluate_runtime_authority (enforced) *)
Definition enforcement (state : DaemonState) (local_reason : option string) (mismatch : bool)
    (peer : PeerId) (protocol : ProtocolId) : option AuthorityPolicyEnforcement :=
  let policy := explain_policy state peer protocol in
  match local_reason with
  | Some why => Some {| enf_cause := default LocalMembershipDenied (if_subject_mismatch mismatch);
                        enf_reason := why |}
  | None =>
      if negb (allowed policy) then
        Some {| enf_cause := classify_remote_policy_cause state peer (reason policy);
                enf_reason := reason policy |}
      else None
  end.

Record Reevaluating := {
  rx_reevaluated : Z;
  rx_closed : Z;
  rx_degraded : Z;
  rx_migrated : Z;
  rx_unchanged : Z;
  rx_added : Z;
  rx_cleared : Z;
  rx_cause : AuthorityPolicyCause → Z;
}.
Definition rx_start : Reevaluating := {|
  rx_reevaluated := 0; rx_closed := 0; rx_degraded := 0; rx_migrated := 0; rx_unchanged := 0;
  rx_added := 0; rx_cleared := 0; rx_cause := λ _, 0%Z |}.

(** What one session adds to the counters. *)
Definition rx_count (closed degraded migrated unchanged added cleared : Z)
    (cause : option AuthorityPolicyCause) (x : Reevaluating) : Reevaluating := {|
  rx_reevaluated := rx_reevaluated x + 1; rx_closed := rx_closed x + closed;
  rx_degraded := rx_degraded x + degraded; rx_migrated := rx_migrated x + migrated;
  rx_unchanged := rx_unchanged x + unchanged; rx_added := rx_added x + added;
  rx_cleared := rx_cleared x + cleared;
  rx_cause := λ c, (rx_cause x c +
    match cause, c with
    | Some CauseSubjectMismatch, CauseSubjectMismatch
    | Some LocalMembershipDenied, LocalMembershipDenied
    | Some PeerMembershipDenied, PeerMembershipDenied
    | Some CapabilityDenied, CapabilityDenied => 1
    | _, _ => 0
    end)%Z |}.

Definition session_key_suppressed (session : SessionSnapshot) (protocol : ProtocolId)
    (suppressions : list ReconnectSuppression) : bool :=
  any (λ entry, bool_decide (sup_peer entry = ss_peer session) &&
    bool_decide (sup_protocol entry = Some protocol) &&
    bool_decide (sup_class entry = ss_class session)) suppressions.

(** The event of a session whose path is worse or about to change. *)
Definition session_event (event_type : string) (session : SessionSnapshot)
    (protocol : ProtocolId) (why : string) : M () :=
  on_transport (lt_record_runtime_event event_type (session_event_subject session)
    (JObj [("peer_id", JStr (PeerId_to_text (ss_peer session)));
           ("protocol", JStr (protocol_text protocol));
           ("class", JStr (TrafficClass_debug (ss_class session)));
           ("reason", JStr why)])).

(* crates/fabric/src/lib.rs:2436-2490 LocalControlPlane::reevaluate_runtime_authority (denied session) *)
Definition deny_session (session : SessionSnapshot) (protocol : ProtocolId)
    (enforced : AuthorityPolicyEnforcement) (denied mismatch : bool) (x : Reevaluating)
    : M Reevaluating :=
  suppressions ← on_transport lt_reconnect_suppressions;
  let suppression_present := session_key_suppressed session protocol suppressions in
  _ ← on_transport (lt_suppress_reconnect (ss_peer session) (Some protocol) (ss_class session)
        (enf_reason enforced));
  _ ← on_transport (lt_update_session_state (ss_session_id session) StClosing
        (Some PolicyRejected) (Some (enf_reason enforced)));
  _ ← on_transport (lt_record_runtime_event "authority.policy_enforced"
        (session_event_subject session)
        (JObj [("peer_id", JStr (PeerId_to_text (ss_peer session)));
               ("protocol", JStr (protocol_text protocol));
               ("class", JStr (TrafficClass_debug (ss_class session)));
               ("action", JStr "close_and_suppress_reconnect");
               ("cause", JStr (cause_label (enf_cause enforced)));
               ("reason", JStr (enf_reason enforced));
               ("local_policy_denied", JBool denied);
               ("authority_subject_mismatch", JBool mismatch)]));
  _ ← on_transport (lt_close_session session);
  mret (rx_count 1 0 0 0 (if suppression_present then 0 else 1) 0 (Some (enf_cause enforced)) x).

(* crates/fabric/src/lib.rs:2519-2589 LocalControlPlane::reevaluate_runtime_authority (changed route) *)
Definition reroute_session (session : SessionSnapshot) (protocol : ProtocolId)
    (route : RoutePlan) (cleared : Z) (x : Reevaluating) : M Reevaluating :=
  if ss_migration_capable session then
    _ ← session_event "path.migration_started" session protocol
          "authority reevaluation selected a different eligible path";
    _ ← on_transport (lt_update_session_state (ss_session_id session) StMigrating None
          (Some "authority reevaluation selected a different eligible path"));
    migrated ← try_transport (lt_migrate session route);
    match migrated with
    | Ok _ => mret (rx_count 0 0 1 0 0 cleared None x)
    | Err error =>
        let why := "authority reevaluation migration failed: " +:+ transport_error_text error in
        _ ← fail_and_close_session session LocalRuntimeFailure why;
        _ ← on_transport (lt_suppress_reconnect (ss_peer session) (Some protocol)
              (ss_class session) why);
        mret (rx_count 1 0 0 0 0 cleared None x)
    end
  else
    let why := "authority reevaluation selected a different eligible path but the active session cannot migrate" in
    _ ← on_transport (lt_update_session_state (ss_session_id session) StDegraded None (Some why));
    _ ← session_event "path.degraded" session protocol why;
    mret (rx_count 0 1 0 0 0 cleared None x).

(* crates/fabric/src/lib.rs:2490-2615 LocalControlPlane::reevaluate_runtime_authority (allowed session) *)
Definition keep_session (state : DaemonState) (session : SessionSnapshot) (protocol : ProtocolId)
    (x : Reevaluating) : M Reevaluating :=
  suppressions ← on_transport lt_reconnect_suppressions;
  let suppression_present := session_key_suppressed session protocol suppressions in
  _ ← on_transport (lt_clear_reconnect_suppression (ss_peer session) (Some protocol)
        (ss_class session));
  let cleared := if suppression_present then 1%Z else 0%Z in
  match route_plan state (ss_peer session) (Some protocol) (ss_class session) with
  | Ok route =>
      if session_matches_route session route then
        _ ← (if bool_decide (ss_state session = StDegraded) then
               _ ← on_transport (lt_update_session_state (ss_session_id session) StActive None
                     (Some "authority reevaluation restored the selected path posture"));
               mret ()
             else mret ());
        mret (rx_count 0 0 0 1 0 cleared None x)
      else reroute_session session protocol route cleared x
  | Err (DsNoRoute _) =>
      let why := "authority reevaluation found no eligible replacement path; keeping the current session alive in degraded posture" in
      _ ← on_transport (lt_update_session_state (ss_session_id session) StDegraded None (Some why));
      _ ← session_event "path.degraded" session protocol why;
      mret (rx_count 0 1 0 0 0 cleared None x)
  | Err error => node_throw error
  end.

(** One round of the loop over the sessions. *)
(* crates/fabric/src/lib.rs:2412-2616 LocalControlPlane::reevaluate_runtime_authority (sessions) *)
Definition reevaluate_session (state : DaemonState) (local_reason : option string)
    (mismatch : bool) (session : SessionSnapshot) (x : Reevaluating) : M Reevaluating :=
  match ss_protocol session with
  | None => mret x
  | Some protocol =>
      match enforcement state local_reason mismatch (ss_peer session) protocol with
      | Some enforced =>
          deny_session session protocol enforced (bool_decide (is_Some local_reason)) mismatch x
      | None => keep_session state session protocol x
      end
  end.

(** One round of the loop over the listeners, with the counters of examined,
    suppressed and restored ones. *)
(* crates/fabric/src/lib.rs:2618-2665 LocalControlPlane::reevaluate_runtime_authority (listeners) *)
Definition reevaluate_listener (state : DaemonState) (local_reason : option string)
    (mismatch : bool) (listener : RuntimeListenerSnapshot) (n : Z * Z * Z) : M (Z * Z * Z) :=
  let '(reevaluated, suppressed, restored) := n in
  if bool_decide (ls_state listener = ListenerFailed)
  then mret ((reevaluated + 1)%Z, suppressed, restored)
  else
  let enforced_reason := or_else local_reason
    (let decision := explain_local_protocol_policy state (ls_protocol listener) in
     if allowed decision then None else Some (reason decision)) in
  match enforced_reason with
  | Some why =>
      let was_suppressed := bool_decide (ls_state listener = ListenerSuppressed) &&
        bool_decide (ls_state_reason listener = Some why) in
      _ ← on_transport (lt_update_listener_state (ls_listener_id listener) ListenerSuppressed
            (Some why));
      if (was_suppressed : bool) then mret ((reevaluated + 1)%Z, suppressed, restored)
      else
        _ ← on_transport (lt_record_runtime_event "authority.policy_enforced"
              (subject_of "listener" (ls_listener_id listener))
              (JObj [("listener_id", JStr (ls_listener_id listener));
                     ("protocol", JStr (protocol_text (ls_protocol listener)));
                     ("action", JStr "suppress_listener"); ("reason", JStr why);
                     ("local_policy_denied", JBool (bool_decide (is_Some local_reason)));
                     ("authority_subject_mismatch", JBool mismatch)]));
        mret ((reevaluated + 1)%Z, (suppressed + 1)%Z, restored)
  | None =>
      if bool_decide (ls_state listener = ListenerSuppressed) then
        _ ← on_transport (lt_update_listener_state (ls_listener_id listener) ListenerActive None);
        mret ((reevaluated + 1)%Z, suppressed, (restored + 1)%Z)
      else mret ((reevaluated + 1)%Z, suppressed, restored)
  end.

Definition reevaluation_report (x : Reevaluating) (listeners : Z * Z * Z)
    (local_reason : option string) (mismatch : bool) : AuthorityReevaluationReport :=
  let '(reevaluated_listeners, suppressed_listeners, restored_listeners) := listeners in {|
  rv_reevaluated_sessions := rx_reevaluated x;
  rv_closed_sessions := rx_closed x;
  rv_degraded_sessions := rx_degraded x;
  rv_migrated_sessions := rx_migrated x;
  rv_unchanged_sessions := rx_unchanged x;
  rv_reevaluated_listeners := reevaluated_listeners;
  rv_suppressed_listeners := suppressed_listeners;
  rv_restored_listeners := restored_listeners;
  rv_reconnect_suppressions_added := rx_added x;
  rv_reconnect_suppressions_cleared := rx_cleared x;
  rv_local_policy_denied := bool_decide (is_Some local_reason);
  rv_authority_subject_mismatch := mismatch;
  rv_subject_mismatch_sessions := rx_cause x CauseSubjectMismatch;
  rv_local_membership_denied_sessions := rx_cause x LocalMembershipDenied;
  rv_peer_membership_denied_sessions := rx_cause x PeerMembershipDenied;
  rv_capability_denied_sessions := rx_cause x CapabilityDenied;
  rv_local_policy_reason := local_reason |}.

Definition json_reason (local_reason : option string) : Json :=
  match local_reason with Some why => JStr why | None => JNull end.

(** The details of the event that ends a reevaluation. *)
(* crates/fabric/src/lib.rs:2692-2710 LocalControlPlane::reevaluate_runtime_authority (completed) *)
Definition reevaluation_details (report : AuthorityReevaluationReport) : Json := JObj [
  ("reevaluated_sessions", JNum (rv_reevaluated_sessions report));
  ("closed_sessions", JNum (rv_closed_sessions report));
  ("degraded_sessions", JNum (rv_degraded_sessions report));
  ("migrated_sessions", JNum (rv_migrated_sessions report));
  ("unchanged_sessions", JNum (rv_unchanged_sessions report));
  ("reevaluated_listeners", JNum (rv_reevaluated_listeners report));
  ("suppressed_listeners", JNum (rv_suppressed_listeners report));
  ("restored_listeners", JNum (rv_restored_listeners report));
  ("reconnect_suppressions_added", JNum (rv_reconnect_suppressions_added report));
  ("reconnect_suppressions_cleared", JNum (rv_reconnect_suppressions_cleared report));
  ("local_policy_denied", JBool (rv_local_policy_denied report));
  ("authority_subject_mismatch", JBool (rv_authority_subject_mismatch report));
  ("subject_mismatch_sessions", JNum (rv_subject_mismatch_sessions report));
  ("local_membership_denied_sessions", JNum (rv_local_membership_denied_sessions report));
  ("peer_membership_denied_sessions", JNum (rv_peer_membership_denied_sessions report));
  ("capability_denied_sessions", JNum (rv_capability_denied_sessions report));
  ("local_policy_reason", json_reason (rv_local_policy_reason report))].

(* crates/fabric/src/lib.rs:2362-2713 LocalControlPlane::reevaluate_runtime_authority *)
Definition reevaluate_runtime_authority (runtime_identity : IdentityKeypair)
    : M AuthorityReevaluationReport :=
  state ← on_files (ensure_state config);
  let runtime_peer_id := peer_id runtime_identity in
  let mismatch := negb (bool_decide (mc_subject_peer_id (ds_membership state) = runtime_peer_id)) in
  let local_reason := local_policy_reason state runtime_peer_id in
  listed ← on_transport lt_active_sessions;
  _ ← on_transport (lt_record_runtime_event "authority.reevaluation_started"
        (subject_of "authority" (PeerId_to_text runtime_peer_id))
        (JObj [("active_sessions", JNum (list_len listed));
               ("authority_subject_peer_id",
                  JStr (PeerId_to_text (mc_subject_peer_id (ds_membership state))));
               ("runtime_peer_id", JStr (PeerId_to_text runtime_peer_id));
               ("authority_subject_mismatch", JBool mismatch);
               ("local_policy_reason", json_reason local_reason)]));
  sessions ← on_transport lt_active_sessions;
  x ← node_for sessions (reevaluate_session state local_reason mismatch) rx_start;
  listeners ← on_transport lt_active_listeners;
  n ← node_for listeners (reevaluate_listener state local_reason mismatch) (0%Z, 0%Z, 0%Z);
  let report := reevaluation_report x n local_reason mismatch in
  _ ← on_transport (lt_record_runtime_event "authority.reevaluation_completed"
        (subject_of "authority" (PeerId_to_text runtime_peer_id)) (reevaluation_details report));
  mret report.
End runtime.
