(* ===== verification/DurableProps.v ===== *)
(** Properties of the durable state file: what validation accepts, what
    migration changes, and how loading, saving and inspection agree. *)
From stdpp Require Import countable option base list strings gmap pretty.
From Stdlib Require Import ZArith Lia Strings.Byte Strings.Ascii.
From S2P Require Import Prelude Text BTree F32 External Model Crypto Records Netcheck Scheduler PeerStore Policy Routing RelayWire Transport Membership Control Fabric Durable.

(** The validator allows the fields that are written, and no others. *)
Lemma allowed_fields_written `{FieldJson} s : allowed_fields = (state_object s).*1.
Proof. reflexivity. Qed.

#[local] Opaque allowed_fields.

(** ** Validation *)

Lemma as_object_Some v l : as_object v = Some l ↔ v = JObj l.
Proof. destruct v; simpl; naive_solver. Qed.

Lemma as_u64_Some v n : as_u64 v = Some n ↔ v = JNum n ∧ (0 <= n <= u64_max)%Z.
Proof.
  destruct v as [| |m| | |]; simpl; try naive_solver. case_match eqn:E.
  - rewrite andb_true_iff, !Z.leb_le in E. naive_solver.
  - rewrite andb_false_iff, !Z.leb_gt in E. split; [done|]. intros [[= ->] ?]. lia.
Qed.

Lemma allowed_field f : any (String.eqb f) allowed_fields = true ↔ f ∈ allowed_fields.
Proof.
  rewrite any_true. split.
  - intros (x & Hx & ->%String.eqb_eq). exact Hx.
  - intros Hf. exists f. split; [exact Hf|apply String.eqb_refl].
Qed.

Lemma unsupported_field_none l :
  find_first (λ field, negb (any (String.eqb field) allowed_fields)) l = None ↔
  ∀ f, f ∈ l → f ∈ allowed_fields.
Proof.
  rewrite find_first_None, any_false. split; intros Hl f Hf.
  - apply allowed_field, negb_false_iff, (Hl f Hf).
  - apply negb_false_iff, allowed_field, (Hl f Hf).
Qed.

Lemma validate_Ok v :
  validate_durable_state_value v = Ok () ↔
  ∃ l, v = JObj l ∧ json_get "schema_version" l = Some (JNum DAEMON_STATE_SCHEMA_VERSION) ∧
       ∀ f, f ∈ l.*1 → f ∈ allowed_fields.
Proof.
  unfold validate_durable_state_value.
  destruct (as_object v) as [l|] eqn:Hv; simpl.
  2: { split; [done|]. by intros (l & -> & _). }
  apply as_object_Some in Hv as ->.
  destruct (json_get "schema_version" l) as [w|] eqn:Hg; simpl; [|naive_solver].
  destruct (as_u64 w) as [n|] eqn:Hn; simpl.
  2: { split; [done|]. intros (l' & [= <-] & Hw & _). rewrite Hg in Hw.
       injection Hw as ->. vm_compute in Hn. discriminate Hn. }
  apply as_u64_Some in Hn as [-> Hn].
  destruct ((n <? DAEMON_STATE_SCHEMA_VERSION)%Z &&
            (MIN_MIGRATABLE_DAEMON_STATE_SCHEMA_VERSION <=? n)%Z) eqn:Hm.
  { split; [done|]. intros (l' & [= <-] & Hw & _). rewrite Hg in Hw.
    injection Hw as ->. vm_compute in Hm. discriminate Hm. }
  destruct (n =? DAEMON_STATE_SCHEMA_VERSION)%Z eqn:He; simpl.
  - apply Z.eqb_eq in He as ->. rewrite <-Hg.
    destruct (find_first _ l.*1) as [f|] eqn:Hf.
    + split; [done|]. intros (l' & [= <-] & _ & Hl).
      apply unsupported_field_none in Hl. by rewrite Hf in Hl.
    + pose proof (proj1 (unsupported_field_none l.*1) Hf). naive_solver.
  - apply Z.eqb_neq in He. split; [done|]. intros (l' & [= <-] & Hw & _).
    rewrite Hg in Hw. by injection Hw as ->.
Qed.

(** The object a state is written as has every entry once. *)
Lemma state_object_keys `{FieldJson} s : NoDup (state_object s).*1.
Proof. rewrite <-(allowed_fields_written s). apply (bool_decide_unpack _). vm_compute. exact I. Qed.

Lemma json_get_elem k v l : NoDup l.*1 → (k, v) ∈ l → json_get k l = Some v.
Proof.
  intros Hnd Hin. unfold json_get. induction l as [|[k' v'] l IH]; [by apply elem_of_nil in Hin|].
  cbn [find_first fst]. apply NoDup_cons in Hnd as [Hk Hnd]. apply elem_of_cons in Hin as [[= <- <-]|Hin].
  - by rewrite String.eqb_refl.
  - destruct (String.eqb_spec k' k) as [->|_]; [|by apply IH].
    destruct Hk. by apply (list_elem_of_fmap_2 fst) in Hin.
Qed.

(** C29.  Validation accepts exactly the objects whose schema version is the
    current one and whose keys are all fields that a state is written with: it
    refuses the sessions, which are a field and are not written, and any other
    key, which it names; and an older version asks for the migration.  The
    object of a state of the current version is accepted. *)
Theorem validate_durable_state_spec `{FieldJson} (s : DaemonState) v :
  (validate_durable_state_value v = Ok () ↔
   ∃ l, v = JObj l ∧ json_get "schema_version" l = Some (JNum DAEMON_STATE_SCHEMA_VERSION) ∧
        ∀ f, f ∈ l.*1 → f ∈ (state_object s).*1) ∧
  (∀ l, v = JObj l → "active_sessions" ∈ l.*1 → validate_durable_state_value v ≠ Ok ()) ∧
  (∀ f, validate_durable_state_value v = Err (DsUnsupportedDurableField f) →
        ∃ l, v = JObj l ∧ f ∈ l.*1 ∧ f ∉ (state_object s).*1) ∧
  (durable_state_schema_version v = Some 1%Z →
   validate_durable_state_value v = Err (DsMigrationRequired 1 2)) ∧
  (v = JObj (state_object s) → ds_schema_version s = DAEMON_STATE_SCHEMA_VERSION →
   validate_durable_state_value v = Ok ()).
Proof.
  rewrite <-(allowed_fields_written s).
  split_and!; [apply validate_Ok| | | |].
  - intros l -> Hin (l' & [= <-] & _ & Hl)%validate_Ok. apply Hl, allowed_field in Hin. by vm_compute in Hin.
  - intros f. unfold validate_durable_state_value.
    destruct (as_object v) as [l|] eqn:Hv; [|done]. apply as_object_Some in Hv as ->. simpl.
    destruct (json_get _ l) as [w|]; simpl; [|done]. destruct (as_u64 w); simpl; [|done].
    case_match; [done|]. case_match; [done|].
    destruct (find_first _ l.*1) as [g|] eqn:Hg; [|done]. intros [= ->].
    apply find_first_Some in Hg as [Hl Hg]. exists l. split_and!; [done|done|].
    rewrite <-allowed_field. by destruct (any _ _).
  - unfold durable_state_schema_version, validate_durable_state_value.
    destruct (as_object v) as [l|]; [|done]. simpl.
    destruct (json_get _ l) as [w|]; [|done]. simpl. by intros ->.
  - intros -> Hv. apply validate_Ok. eexists. split; [reflexivity|]. split.
    + apply json_get_elem; [apply state_object_keys|]. rewrite <-Hv. left.
    + intros f. by rewrite (allowed_fields_written s).
Qed.

(** ** Migration *)

(** Replacing a pattern by itself changes nothing. *)
Lemma replace_from_self n p s : replace_from n p p s = s.
Proof.
  revert s. induction n as [|n IH]; intros [|a s]; try done. cbn [replace_from].
  destruct (strip_prefix p (String a s)) as [rest|] eqn:E; [|by rewrite IH].
  rewrite IH. symmetry. by apply strip_prefix_Some.
Qed.

Lemma str_replace_self p s : str_replace p p s = s.
Proof. apply replace_from_self. Qed.

(** Induction over a value and the values in it. *)
Section json_induction.
Variables (P : Json → Prop).
Hypothesis (Hnull : P JNull) (Hbool : ∀ b, P (JBool b)) (Hnum : ∀ n, P (JNum n)).
Hypothesis (Hstr : ∀ s, P (JStr s)) (Harr : ∀ l, Forall P l → P (JArr l)).
Hypothesis (Hobj : ∀ l : list (string * Json), Forall (λ e, P e.2) l → P (JObj l)).

Fixpoint Json_nested_ind (v : Json) : P v :=
  match v with
  | JNull => Hnull
  | JBool b => Hbool b
  | JNum n => Hnum n
  | JStr s => Hstr s
  | JArr l => Harr l ((fix go l : Forall P l :=
      match l with
      | [] => Forall_nil_2 P
      | v :: l => Forall_cons_2 P v l (Json_nested_ind v) (go l)
      end) l)
  | JObj l => Hobj l ((fix go (l : list (string * Json)) : Forall (λ e, P e.2) l :=
      match l with
      | [] => Forall_nil_2 _
      | e :: l => Forall_cons_2 _ e l (Json_nested_ind e.2) (go l)
      end) l)
  end.
End json_induction.

Lemma rewrite_legacy_protocols_value v path : (rewrite_legacy_protocols v path).1 = v.
Proof.
  revert path.
  induction v as [|b|n|s|l Hl|l Hl] using Json_nested_ind; intros path; try done;
    cbn [rewrite_legacy_protocols].
  - destruct (contains "/quip/" s); rewrite ?str_replace_self;
      destruct (contains "quip:" s); by rewrite ?str_replace_self.
  - match goal with |- context [let '(_, _) := ?go 0 l in _] =>
      cut (∀ k i, Forall (λ v, ∀ p, (rewrite_legacy_protocols v p).1 = v) k → (go i k).1 = k) end.
    { intros Hgo. specialize (Hgo l 0 Hl). by destruct (_ 0 l) as [l' fs]; simpl in *; subst. }
    clear Hl. intros k. induction k as [|v k IH]; intros i Hk; [done|].
    apply Forall_cons in Hk as [Hv Hk]. specialize (IH (S i) Hk). cbn in IH |- *.
    match goal with |- context [rewrite_legacy_protocols v ?p] =>
      specialize (Hv p); destruct (rewrite_legacy_protocols v p) as [v' fs] end.
    match type of IH with (?g (S i) k).1 = k => destruct (g (S i) k) as [k' fs'] end.
    simpl in *. by subst.
  - match goal with |- context [let '(_, _) := ?go l in _] =>
      cut (∀ k, Forall (λ e, ∀ p, (rewrite_legacy_protocols e.2 p).1 = e.2) k → (go k).1 = k) end.
    { intros Hgo. specialize (Hgo l Hl). by destruct (_ l) as [l' fs]; simpl in *; subst. }
    clear Hl. intros k. induction k as [|[key v] k IH]; intros Hk; [done|].
    apply Forall_cons in Hk as [Hv Hk]. specialize (IH Hk). cbn in IH, Hv |- *.
    match goal with |- context [rewrite_legacy_protocols v ?p] =>
      specialize (Hv p); destruct (rewrite_legacy_protocols v p) as [v' fs] end.
    match type of IH with (?g k).1 = k => destruct (g k) as [k' fs'] end.
    simpl in *. by subst.
Qed.

Lemma json_get_insert key v l : json_get key (json_insert key v l) = Some v.
Proof.
  unfold json_get, json_insert. rewrite (find_first_upsert _ _ (key, v)); simpl;
    auto using String.eqb_refl.
Qed.

Lemma json_get_insert_ne key key' v l :
  key ≠ key' → json_get key (json_insert key' v l) = json_get key l.
Proof.
  intros Hne. unfold json_get, json_insert. rewrite find_first_upsert_ne; [done| |].
  - apply String.eqb_neq. simpl. congruence.
  - intros [k w] ->%String.eqb_eq. apply String.eqb_neq. simpl. congruence.
Qed.

(** The values that may be migrated, and what migrating them gives. *)
Lemma migrate_Ok v v' fields :
  migrate_durable_state_value_with_report v = Ok (v', fields) ↔
  (durable_state_schema_version v = Some 2%Z ∧ v' = v ∧ fields = []) ∨
  (durable_state_schema_version v = Some 1%Z ∧
   ∃ l, v = JObj l ∧ v' = JObj (json_insert "schema_version" (JNum 2) l) ∧
        fields = (rewrite_legacy_protocols v "$").2 ++ ["$.schema_version"]).
Proof.
  unfold migrate_durable_state_value_with_report.
  destruct (durable_state_schema_version v) as [n|] eqn:Hn; [|naive_solver].
  unfold DAEMON_STATE_SCHEMA_VERSION, MIN_MIGRATABLE_DAEMON_STATE_SCHEMA_VERSION.
  destruct (Z.eqb_spec n 2) as [->|H2]; [naive_solver|].
  destruct (((n <? 1) || (2 <? n))%Z) eqn:Hr.
  { split; [done|]. intros [(? & _)|(Hs & _)]; [naive_solver|]. injection Hs as ->.
    vm_compute in Hr. discriminate Hr. }
  assert (n = 1%Z) as ->.
  { rewrite orb_false_iff, !Z.ltb_ge in Hr. lia. }
  simpl. unfold durable_state_schema_version in Hn.
  destruct (as_object v) as [l|] eqn:Hv; [|done]. apply as_object_Some in Hv as ->.
  pose proof (rewrite_legacy_protocols_value (JObj l) "$") as Hw.
  destruct (rewrite_legacy_protocols (JObj l) "$") as [w fs]. cbn [fst snd] in Hw |- *. subst w.
  split.
  - intros [= <- <-]. right. eauto.
  - intros [(? & _)|(_ & l' & [= <-] & -> & ->)]; [naive_solver|done].
Qed.

(** Migrating a value succeeds exactly on versions 1 and 2.  A version 2
    value is returned as it is.  A version 1 value comes back with schema
    version 2 and every other entry unchanged - also the strings reported as
    rewritten - so that it validates if and only if its keys are fields of a
    state, and migrating the result again changes and reports nothing. *)
Lemma migrate_durable_state_spec v v' fields
    (Hm : migrate_durable_state_value_with_report v = Ok (v', fields)) :
  durable_state_schema_version v' = Some DAEMON_STATE_SCHEMA_VERSION ∧
  (∃ l l', v = JObj l ∧ v' = JObj l' ∧
     (∀ key, key ≠ "schema_version" → json_get key l' = json_get key l) ∧
     (validate_durable_state_value v' = Ok () ↔ ∀ f, f ∈ l.*1 → f ∈ allowed_fields)) ∧
  migrate_durable_state_value_with_report v' = Ok (v', []).
Proof.
  apply migrate_Ok in Hm as [(Hv & -> & ->)|(Hv & l & -> & -> & ->)].
  - pose proof Hv as Hv2. unfold durable_state_schema_version in Hv.
    destruct (as_object v) as [l|] eqn:Ho; [|done]. apply as_object_Some in Ho as ->.
    simpl in Hv. destruct (json_get "schema_version" l) as [w|] eqn:Hg; [|done].
    apply as_u64_Some in Hv as [-> _]. split_and!; [done| |].
    + exists l, l. split_and!; try done. rewrite validate_Ok. naive_solver.
    + apply migrate_Ok. auto.
  - set (l' := json_insert "schema_version" (JNum 2) l).
    assert (durable_state_schema_version (JObj l') = Some 2%Z) as H2.
    { unfold durable_state_schema_version. simpl. unfold l'. by rewrite json_get_insert. }
    assert (l'.*1 = l.*1) as Hkeys.
    { unfold l', json_insert. rewrite (fmap_upsert_by fst) by (intros y; apply String.eqb_eq).
      assert (any (λ e, String.eqb e.1 "schema_version") l = true) as ->; [|done].
      unfold durable_state_schema_version in Hv. simpl in Hv. unfold json_get in Hv.
      apply not_false_iff_true. intros Hn. by rewrite (proj2 (find_first_None _ _) Hn) in Hv. }
    split_and!; [done| |apply migrate_Ok; auto].
    exists l, l'. split_and!; [done|done| |].
    + intros key Hk. by apply json_get_insert_ne.
    + rewrite validate_Ok, <-Hkeys. split; [naive_solver|]. intros Hl. exists l'.
      split_and!; [done| |done]. apply json_get_insert.
Qed.

(** ** The state file *)

Section state_file.
Context `{Blake3, Varint, Base32} {C : Type} `{StateFormat C}.

(** The state a file's contents decode to, or why they are not a state. *)
Lemma inspect_cases path (fs : Files C) :
  match daemon_load path fs with
  | Ok state => ∃ v, inspect_durable_state_file path fs = {|
      ir_state_path := path; ir_present := true; ir_schema_version := Some v;
      ir_valid := true; ir_violations := [];
      ir_summary := Some (durable_state_summary state) |} ∧ v = DAEMON_STATE_SCHEMA_VERSION
  | Err _ => ∃ present version violations,
      inspect_durable_state_file path fs = invalid_report path present version violations ∧
      violations ≠ [] ∧ present = file_exists path fs
  end.
Proof.
  unfold daemon_load, inspect_durable_state_file, file_read, file_exists.
  destruct ((fs : gmap string C) !! path) as [c|]; simpl; [|by eauto 10].
  destruct (decode_value c) as [v|e]; simpl; [|by eauto 10].
  destruct (validate_durable_state_value v) as [[]|e] eqn:Hv; simpl.
  - apply validate_Ok in Hv as (l & -> & Hg & _).
    unfold durable_state_schema_version. simpl. rewrite Hg. simpl.
    destruct (decode_state c); simpl; [|by eauto 10]. eauto.
  - eexists _, _, _. split_and!; [done|by destruct e|done].
Qed.

(** A file inspects as valid exactly when it loads, and then the report
    summarises the loaded state; otherwise it names at least one violation.
    Validation reports the same without the summary. *)
Lemma inspect_agrees_with_load path (fs : Files C) :
  let report := inspect_durable_state_file path fs in
  ir_valid report = is_ok (daemon_load path fs) ∧
  ir_present report = file_exists path fs ∧
  (ir_violations report = [] ↔ ir_valid report = true) ∧
  (∀ state, daemon_load path fs = Ok state →
     ir_summary report = Some (durable_state_summary state) ∧ ds_active_sessions state = []) ∧
  ir_valid (validate_durable_state_file path fs) = ir_valid report ∧
  ir_violations (validate_durable_state_file path fs) = ir_violations report.
Proof.
  pose proof (inspect_cases path fs) as Hc.
  destruct (daemon_load path fs) as [state|e] eqn:Hl.
  - destruct Hc as (v & Hi & _). simpl. rewrite Hi.
    assert (file_exists path fs = true ∧ ds_active_sessions state = []) as [-> Hs].
    { revert Hl. unfold daemon_load, file_read, file_exists.
      destruct ((fs : gmap string C) !! path); simpl; [|done].
      destruct (decode_value _); simpl; [|done]. destruct (validate_durable_state_value _); [|done].
      simpl. destruct (decode_state _); simpl; [|done]. by intros [= <-]. }
    unfold validate_durable_state_file. rewrite ?Hi. naive_solver.
  - destruct Hc as (p & ver & vs & Hi & Hne & ->). simpl. rewrite Hi. simpl.
    unfold validate_durable_state_file. rewrite ?Hi. naive_solver.
Qed.

Context `{!StateFormatLaws C}.

(** The contents a save leaves pass validation. *)
Lemma saved_valid s :
  ds_schema_version s = DAEMON_STATE_SCHEMA_VERSION →
  ∃ v, decode_value (encode_state s) = Ok v ∧ validate_durable_state_value v = Ok ().
Proof.
  intros Hv. destruct (encode_state_object s) as (l & Hl & Hperm). exists (JObj l).
  split; [exact Hl|]. apply validate_Ok. exists l. split; [done|]. split.
  - apply json_get_elem; [rewrite Hperm; apply state_object_keys|].
    rewrite Hperm, <-Hv. left.
  - intros f. by rewrite Hperm, (allowed_fields_written s).
Qed.

Lemma load_saved state path (fs : Files C) :
  daemon_load path (daemon_save state path fs) =
  let s := with_sessions [] (with_schema_version DAEMON_STATE_SCHEMA_VERSION state) in
  state ← map_err DsSerialization (decode_state (encode_state s)); Ok (with_sessions [] state).
Proof.
  unfold daemon_load, daemon_save, file_read. rewrite lookup_insert_eq. cbv zeta.
  destruct (saved_valid (with_sessions [] (with_schema_version DAEMON_STATE_SCHEMA_VERSION state)))
    as (v & Hd & Hv); [done|].
  cbn [ok_or mbind result_bind]. rewrite Hd.
  cbn [map_err mbind result_bind]. by rewrite Hv.
Qed.

Lemma load_save state path (fs : Files C) :
  finite_losses state → daemon_load path (daemon_save state path fs) =
  Ok (with_sessions [] (with_schema_version DAEMON_STATE_SCHEMA_VERSION state)).
Proof. intros Hs. rewrite load_saved. cbv zeta. by rewrite decode_encode_state. Qed.

Lemma load_infinite state path (fs : Files C) :
  ¬ finite_losses state → ∃ e, daemon_load path (daemon_save state path fs) = Err e.
Proof.
  intros Hs. rewrite load_saved. cbv zeta.
  destruct (decode_infinite_state
    (with_sessions [] (with_schema_version DAEMON_STATE_SCHEMA_VERSION state))) as [e ->]; [done|].
  by eexists.
Qed.

(** C30.  A saved state is loaded back without its sessions and with the
    current schema version, unless a candidate has an infinite loss or one that
    is not a number: then what is written does not load.  No other file
    changes.  Over any files, what
    inspection and validation report agrees with loading: a file is valid
    exactly when it loads, the summary is the one of the loaded state, and an
    invalid file has at least one violation. *)
Theorem state_file_contract state path (fs : Files C) :
  let fs' := daemon_save state path fs in
  (finite_losses state → daemon_load path fs' =
    Ok (with_sessions [] (with_schema_version DAEMON_STATE_SCHEMA_VERSION state))) ∧
  (¬ finite_losses state → ∃ e, daemon_load path fs' = Err e) ∧
  (∀ path', path' ≠ path → (fs' : gmap string C) !! path' = (fs : gmap string C) !! path') ∧
  ∀ path (fs : Files C), let report := inspect_durable_state_file path fs in
    ir_valid report = is_ok (daemon_load path fs) ∧
    ir_present report = file_exists path fs ∧
    (ir_violations report = [] ↔ ir_valid report = true) ∧
    (∀ state, daemon_load path fs = Ok state →
       ir_summary report = Some (durable_state_summary state) ∧ ds_active_sessions state = []) ∧
    ir_valid (validate_durable_state_file path fs) = ir_valid report ∧
    ir_violations (validate_durable_state_file path fs) = ir_violations report.
Proof.
  split_and!; [apply load_save|apply load_infinite| |intros; apply inspect_agrees_with_load].
  intros path' Hp. unfold daemon_save. by rewrite lookup_insert_ne.
Qed.
End state_file.

(** A concrete file format: contents are JSON values or states. *)
Module DemoFiles.
Definition Contents : Type := Json + DaemonState.

#[export] Instance demo_field_json : FieldJson := {|
  field_local_peer_id _ := JNull; field_roles _ := JNull; field_membership _ := JNull;
  field_capability_grants _ := JNull; field_revocations _ := JNull; field_denied_peers _ := JNull;
  field_bootstrap _ := JNull; field_relay_map _ := JNull; field_peers _ := JNull;
  field_netcheck _ := JNull; field_queue_policies _ := JNull; field_path_candidates _ := JNull |}.
#[export] Instance demo_state_format : StateFormat Contents := {|
  decode_value c := match c with inl v => Ok v | inr s => Ok (JObj (state_object s)) end;
  decode_state c := match c with
    | inl _ => Err "missing field `network`"
    | inr s => if bool_decide (finite_losses s) then Ok s else Err "invalid type: null, expected f32"
    end;
  decode_snapshot _ := Err "missing field `network_id`";
  encode_state s := inr (with_sessions [] s);
  encode_value v := inl v;
|}.

#[export] Instance demo_state_format_laws : StateFormatLaws Contents.
Proof.
  split.
  - intros s Hs. cbn. rewrite bool_decide_true; [done|exact Hs].
  - intros s Hs. eexists. cbn. rewrite bool_decide_false; [reflexivity|exact Hs].
  - intros s. by eexists.
Qed.
End DemoFiles.

Section witnesses.
Import External.Demo DemoFiles.

Lemma migrate_durable_state_spec_witness :
  let v := JObj [("bootstrap", JArr [JStr "/quip/control/1"]); ("schema_version", JNum 1)] in
  let v' := JObj [("bootstrap", JArr [JStr "/quip/control/1"]); ("schema_version", JNum 2)] in
  migrate_durable_state_value_with_report v = Ok (v', ["$.bootstrap[0]"; "$.schema_version"]) ∧
  migrate_durable_state_value_with_report v' = Ok (v', []).
Proof.
  intros v v'. split; [vm_compute; reflexivity|].
  exact (proj2 (proj2 (migrate_durable_state_spec v v' ["$.bootstrap[0]"; "$.schema_version"]
    ltac:(vm_compute; reflexivity)))).
Defined.

Definition demo_plain_state : DaemonState := {|
  ds_schema_version := 0; ds_network := "net"; ds_local_peer_id := mk_PeerId [];
  ds_roles := []; ds_membership := {|
    mc_network_id := mk_NetworkId []; mc_subject_peer_id := mk_PeerId [];
    mc_issuer_peer_id := mk_PeerId []; mc_issued_at := 0; mc_expires_at := 0; mc_roles := [];
    mc_signature := mk_SignatureBytes [] |};
  ds_capability_grants := []; ds_revocations := []; ds_denied_peers := []; ds_bootstrap := [];
  ds_relay_map := None; ds_peers := []; ds_netcheck := pending_netcheck;
  ds_queue_policies := []; ds_active_sessions := []; ds_path_candidates := [] |}.

Lemma state_file_contract_witness :
  daemon_load "state.json" (daemon_save demo_plain_state "state.json" (∅ : Files Contents)) =
  Ok (with_schema_version 2 demo_plain_state).
Proof.
  exact (proj1 (state_file_contract demo_plain_state "state.json" (∅ : Files Contents)) (Forall_nil_2 _)).
Defined.
End witnesses.
