(* ===== verification/Backup.v ===== *)
(** crates/fabric: encrypted backups of the identity and the state file, and
    their restoration. *)
From stdpp Require Import countable option base list strings gmap pretty.
From Stdlib Require Import ZArith Lia Strings.Byte Strings.Ascii.
From S2P Require Import Prelude Text BTree F32 External Model Crypto Records Netcheck Scheduler PeerStore Policy Routing RelayWire Transport Membership Control Fabric Durable.

(* crates/fabric/src/lib.rs:106-112 DurableBackupAsset *)
Record DurableBackupAsset := {
  asset_concern : string;
  asset_relative_path : string;
  asset_sha256_hex : string;
  asset_bytes : Z;
}.

(* crates/fabric/src/lib.rs:114-133 DurableBackupManifest *)
Record DurableBackupManifest := {
  bm_format : string;
  bm_format_version : Z;
  bm_created_at_unix_secs : Z;
  bm_hostname : string;
  bm_environment : string;
  bm_network : string;
  bm_identity_path : string;
  bm_state_path : string;
  bm_authority_origin : option string;
  bm_authority_subject : option string;
  bm_authority_snapshot : option string;
  bm_durable_state_present : bool;
  bm_durable_state_valid : bool;
  bm_assets : list DurableBackupAsset;
}.

(* crates/fabric/src/lib.rs:135-140 DurableBackupBundleData *)
Record DurableBackupBundleData := {
  bundle_manifest : DurableBackupManifest;
  bundle_identity_file_base64 : string;
  bundle_state_file_base64 : string;
}.

(* crates/fabric/src/lib.rs:142-150 DurableBackupBundleEnvelope *)
Record DurableBackupBundleEnvelope := {
  env_version : Z;
  env_cipher : string;
  env_kdf : string;
  env_salt : bytes;
  env_nonce : bytes;
  env_ciphertext : string;
}.

(* crates/fabric/src/lib.rs:152-165 DurableBackupExportRequest *)
Record DurableBackupExportRequest := {
  ex_output_path : string;
  ex_passphrase : string;
  ex_hostname : string;
  ex_environment : string;
  ex_identity_path : string;
  ex_state_path : string;
  ex_network : string;
  ex_authority_origin : option string;
  ex_authority_subject : option string;
  ex_authority_snapshot : option string;
  ex_overwrite : bool;
}.

(* crates/fabric/src/lib.rs:167-178 DurableBackupExportReport *)
Record DurableBackupExportReport := {
  er_bundle_path : string;
  er_created_at_unix_secs : Z;
  er_hostname : string;
  er_environment : string;
  er_network : string;
  er_identity_sha256_hex : string;
  er_state_sha256_hex : string;
  er_durable_state_present : bool;
  er_durable_state_valid : bool;
}.

(* crates/fabric/src/lib.rs:180-187 DurableBackupRestoreRequest *)
Record DurableBackupRestoreRequest := {
  rs_input_path : string;
  rs_passphrase : string;
  rs_identity_path : string;
  rs_state_path : string;
  rs_overwrite : bool;
}.

(* crates/fabric/src/lib.rs:189-200 DurableBackupRestoreReport *)
Record DurableBackupRestoreReport := {
  rst_input_path : string;
  rst_restored_identity_path : string;
  rst_restored_state_path : string;
  rst_created_at_unix_secs : Z;
  rst_hostname : string;
  rst_environment : string;
  rst_network : string;
  rst_identity_sha256_hex : string;
  rst_state_sha256_hex : string;
}.

(** serde_json over bundles and envelopes. *)
Class BackupFormat := {
  bundle_to_json : DurableBackupBundleData → bytes;
  bundle_from_json : bytes → result string DurableBackupBundleData;
  envelope_to_json : DurableBackupBundleEnvelope → bytes;
  envelope_from_json : bytes → result string DurableBackupBundleEnvelope;
}.
Class BackupFormatLaws `{BackupFormat} := {
  bundle_json_roundtrip b : bundle_from_json (bundle_to_json b) = Ok b;
  envelope_json_roundtrip e : envelope_from_json (envelope_to_json e) = Ok e;
}.

Section backup.
Context `{Blake3, Varint, Base32, Sealing, Sha256, BackupFormat, StateFormat bytes}.

(* crates/fabric/src/lib.rs:952-956 sha256_hex *)
Definition sha256_hex (data : bytes) : string := hex_string (sha256 data).

(* crates/fabric/src/lib.rs:958-964 derive_backup_key *)
Definition derive_backup_key (passphrase salt : bytes) : result DaemonStateError bytes :=
  ok_or DsBackupKeyDerivation (scrypt_key passphrase salt).

(** [salt] and [nonce] are the bytes drawn from the generator. *)
(* crates/fabric/src/lib.rs:966-989 encrypt_backup_bundle *)
Definition encrypt_backup_bundle (salt nonce : bytes) (bundle : DurableBackupBundleData)
    (passphrase : string) : result DaemonStateError DurableBackupBundleEnvelope :=
  let plaintext := bundle_to_json bundle in
  key ← derive_backup_key (as_bytes passphrase) salt;
  ciphertext ← ok_or DsInvalidBackupBundle (aead_encrypt key nonce plaintext);
  Ok {| env_version := BACKUP_BUNDLE_FORMAT_VERSION; env_cipher := "chacha20poly1305";
        env_kdf := "scrypt"; env_salt := salt; env_nonce := nonce;
        env_ciphertext := b64_encode ciphertext |}.

(* crates/fabric/src/lib.rs:991-1011 decrypt_backup_bundle *)
Definition decrypt_backup_bundle (envelope : DurableBackupBundleEnvelope) (passphrase : string)
    : result DaemonStateError DurableBackupBundleData :=
  if negb (env_version envelope =? BACKUP_BUNDLE_FORMAT_VERSION)%Z
     || negb (String.eqb (env_cipher envelope) "chacha20poly1305")
     || negb (String.eqb (env_kdf envelope) "scrypt")
  then Err DsInvalidBackupBundle
  else
  ciphertext ← ok_or DsInvalidBackupBundle (b64_decode (env_ciphertext envelope));
  key ← derive_backup_key (as_bytes passphrase) (env_salt envelope);
  plaintext ← ok_or DsInvalidBackupBundle (aead_decrypt key (env_nonce envelope) ciphertext);
  map_err DsSerialization (bundle_from_json plaintext).

(** The bundle of an export: the two files, and what is known of them. *)
(* crates/fabric/src/lib.rs:1035-1067 export_backup_bundle (bundle) *)
Definition backup_bundle (created_at_unix_secs : Z) (request : DurableBackupExportRequest)
    (durable_state : DurableStateInspectionReport) (identity_bytes state_bytes : bytes)
    : DurableBackupBundleData := {|
  bundle_manifest := {|
    bm_format := "quip_backup_bundle";
    bm_format_version := BACKUP_BUNDLE_FORMAT_VERSION;
    bm_created_at_unix_secs := created_at_unix_secs;
    bm_hostname := ex_hostname request;
    bm_environment := ex_environment request;
    bm_network := ex_network request;
    bm_identity_path := ex_identity_path request;
    bm_state_path := ex_state_path request;
    bm_authority_origin := ex_authority_origin request;
    bm_authority_subject := ex_authority_subject request;
    bm_authority_snapshot := ex_authority_snapshot request;
    bm_durable_state_present := ir_present durable_state;
    bm_durable_state_valid := ir_valid durable_state;
    bm_assets := [
      {| asset_concern := "identity"; asset_relative_path := "identity/node.json";
         asset_sha256_hex := sha256_hex identity_bytes; asset_bytes := list_len identity_bytes |};
      {| asset_concern := "network_state"; asset_relative_path := "net/state.json";
         asset_sha256_hex := sha256_hex state_bytes; asset_bytes := list_len state_bytes |}] |};
  bundle_identity_file_base64 := b64_encode identity_bytes;
  bundle_state_file_base64 := b64_encode state_bytes |}.

(** [now] is the clock's reading. *)
(* crates/fabric/src/lib.rs:1020-1084 export_backup_bundle *)
Definition export_backup_bundle (now : Z) (salt nonce : bytes)
    (request : DurableBackupExportRequest) (fs : Files bytes)
    : result DaemonStateError (DurableBackupExportReport * Files bytes) :=
  if file_exists (ex_output_path request) fs && negb (ex_overwrite request)
  then Err (DsInvalidSession ("backup bundle path " +:+ ex_output_path request +:+
              " already exists; rerun with overwrite enabled"))
  else
  identity_bytes ← file_read (ex_identity_path request) fs;
  state_bytes ← file_read (ex_state_path request) fs;
  let durable_state := inspect_durable_state_file (ex_state_path request) fs in
  let created_at_unix_secs := now in
  let bundle := backup_bundle created_at_unix_secs request durable_state identity_bytes state_bytes in
  envelope ← encrypt_backup_bundle salt nonce bundle (ex_passphrase request);
  Ok ({| er_bundle_path := ex_output_path request;
         er_created_at_unix_secs := created_at_unix_secs;
         er_hostname := ex_hostname request;
         er_environment := ex_environment request;
         er_network := ex_network request;
         er_identity_sha256_hex := sha256_hex identity_bytes;
         er_state_sha256_hex := sha256_hex state_bytes;
         er_durable_state_present := ir_present durable_state;
         er_durable_state_valid := ir_valid durable_state |},
      <[ex_output_path request := envelope_to_json envelope]> (fs : gmap string bytes)).

Definition find_asset (concern : string) (bundle : DurableBackupBundleData)
    : result DaemonStateError DurableBackupAsset :=
  ok_or DsInvalidBackupBundle
    (find_first (λ asset, String.eqb (asset_concern asset) concern)
       (bm_assets (bundle_manifest bundle))).

(* crates/fabric/src/lib.rs:1086-1142 restore_backup_bundle *)
Definition restore_backup_bundle (request : DurableBackupRestoreRequest) (fs : Files bytes)
    : result DaemonStateError (DurableBackupRestoreReport * Files bytes) :=
  if negb (rs_overwrite request) &&
     (file_exists (rs_identity_path request) fs || file_exists (rs_state_path request) fs)
  then Err (DsInvalidSession "restore target already exists; rerun with overwrite enabled")
  else
  contents ← file_read (rs_input_path request) fs;
  envelope ← map_err DsSerialization (envelope_from_json contents);
  bundle ← decrypt_backup_bundle envelope (rs_passphrase request);
  identity_bytes ← ok_or DsInvalidBackupBundle (b64_decode (bundle_identity_file_base64 bundle));
  state_bytes ← ok_or DsInvalidBackupBundle (b64_decode (bundle_state_file_base64 bundle));
  identity_asset ← find_asset "identity" bundle;
  state_asset ← find_asset "network_state" bundle;
  if negb (String.eqb (sha256_hex identity_bytes) (asset_sha256_hex identity_asset))
     || negb (String.eqb (sha256_hex state_bytes) (asset_sha256_hex state_asset))
  then Err DsInvalidBackupBundle
  else
  state_value ← map_err (λ _, DsInvalidBackupBundle) (decode_value state_bytes);
  _ ← validate_durable_state_value state_value;
  let manifest := bundle_manifest bundle in
  Ok ({| rst_input_path := rs_input_path request;
         rst_restored_identity_path := rs_identity_path request;
         rst_restored_state_path := rs_state_path request;
         rst_created_at_unix_secs := bm_created_at_unix_secs manifest;
         rst_hostname := bm_hostname manifest;
         rst_environment := bm_environment manifest;
         rst_network := bm_network manifest;
         rst_identity_sha256_hex := sha256_hex identity_bytes;
         rst_state_sha256_hex := sha256_hex state_bytes |},
      <[rs_state_path request := state_bytes]>
        (<[rs_identity_path request := identity_bytes]> (fs : gmap string bytes))).

(** ** Properties *)

Context `{!SealingLaws, !BackupFormatLaws}.

Lemma decrypt_encrypt salt nonce bundle passphrase envelope :
  encrypt_backup_bundle salt nonce bundle passphrase = Ok envelope →
  decrypt_backup_bundle envelope passphrase = Ok bundle.
Proof.
  unfold encrypt_backup_bundle, decrypt_backup_bundle, derive_backup_key.
  destruct (scrypt_key (as_bytes passphrase) salt) as [key|] eqn:Ek; simpl; [|done].
  destruct (aead_encrypt key nonce _) as [c|] eqn:Ec; simpl; [|done].
  intros [= <-]. simpl. rewrite b64_roundtrip. simpl. rewrite Ek. simpl.
  rewrite (aead_roundtrip _ _ _ _ Ec). simpl. by rewrite bundle_json_roundtrip.
Qed.

(** Why the value of a state file would not be restored. *)
Definition restorable (state_bytes : bytes) : result DaemonStateError () :=
  value ← map_err (λ _, DsInvalidBackupBundle) (decode_value state_bytes);
  validate_durable_state_value value.

(** C32.  An export writes one bundle and nothing else.  Restoring that bundle
    with its passphrase to free paths, or with overwrite, gives back the bytes
    of both files and touches no third file - provided the state file was
    valid JSON of the current schema, which the export does not require: a
    bundle of any other state file is never restored. *)
Theorem backup_roundtrip now salt nonce request fs report fs' identity state restore fs2
    (Hexport : export_backup_bundle now salt nonce request fs = Ok (report, fs'))
    (Hidentity : (fs : gmap string bytes) !! ex_identity_path request = Some identity)
    (Hstate : (fs : gmap string bytes) !! ex_state_path request = Some state)
    (Hinput : (fs2 : gmap string bytes) !! rs_input_path restore =
              (fs' : gmap string bytes) !! ex_output_path request)
    (Hpass : rs_passphrase restore = ex_passphrase request)
    (Hfree : rs_overwrite restore = true ∨
             file_exists (rs_identity_path restore) fs2 = false ∧
             file_exists (rs_state_path restore) fs2 = false)
    (Hpaths : rs_identity_path restore ≠ rs_state_path restore) :
  (∀ path, path ≠ ex_output_path request →
     (fs' : gmap string bytes) !! path = (fs : gmap string bytes) !! path) ∧
  match restorable state with
  | Ok () => ∃ restored fs3, restore_backup_bundle restore fs2 = Ok (restored, fs3) ∧
      rst_identity_sha256_hex restored = er_identity_sha256_hex report ∧
      rst_state_sha256_hex restored = er_state_sha256_hex report ∧
      (fs3 : gmap string bytes) !! rs_identity_path restore = Some identity ∧
      (fs3 : gmap string bytes) !! rs_state_path restore = Some state ∧
      (∀ path, path ≠ rs_identity_path restore → path ≠ rs_state_path restore →
         (fs3 : gmap string bytes) !! path = (fs2 : gmap string bytes) !! path)
  | Err e => restore_backup_bundle restore fs2 = Err e ∧ er_durable_state_valid report = false
  end.
Proof.
  revert Hexport. unfold export_backup_bundle, file_read.
  destruct (file_exists _ fs && _); [done|].
  rewrite Hidentity, Hstate. cbn [ok_or mbind result_bind].
  set (bundle := backup_bundle _ _ _ _ _).
  destruct (encrypt_backup_bundle salt nonce bundle _) as [envelope|] eqn:Henc; [|done].
  cbn. intros [= <- <-].
  split; [intros path Hp; by rewrite lookup_insert_ne|].
  rewrite lookup_insert_eq in Hinput.
  unfold restore_backup_bundle, find_asset.
  assert (negb (rs_overwrite restore) && (file_exists (rs_identity_path restore) fs2 ||
            file_exists (rs_state_path restore) fs2) = false) as ->.
  { destruct Hfree as [->|[-> ->]]; [done|]. apply andb_false_r. }
  unfold file_read. rewrite Hinput. simpl. rewrite envelope_json_roundtrip. simpl.
  rewrite Hpass, (decrypt_encrypt _ _ _ _ _ Henc). simpl.
  rewrite !b64_roundtrip. simpl. rewrite !String.eqb_refl. simpl.
  unfold inspect_durable_state_file, restorable. rewrite Hstate.
  destruct (decode_value state) as [v|]; simpl; [|done].
  destruct (validate_durable_state_value v) as [[]|]; simpl; [|done].
  eexists _, _. split_and!; [done|done|done| | |].
  - by rewrite lookup_insert_ne, lookup_insert_eq.
  - by rewrite lookup_insert_eq.
  - intros path Hp1 Hp2. by rewrite !lookup_insert_ne by done.
Qed.
End backup.

Section witnesses.
Import External.Demo.

(** An asset, a manifest and a bundle as tuples. *)
Definition asset_tuple (a : DurableBackupAsset) :=
  (asset_concern a, asset_relative_path a, asset_sha256_hex a, asset_bytes a).
Definition manifest_tuple (m : DurableBackupManifest) :=
  ((bm_format m, bm_format_version m, bm_created_at_unix_secs m, bm_hostname m,
    bm_environment m, bm_network m, bm_identity_path m, bm_state_path m),
   (bm_authority_origin m, bm_authority_subject m, bm_authority_snapshot m,
    bm_durable_state_present m, bm_durable_state_valid m, asset_tuple <$> bm_assets m)).
Definition envelope_tuple (e : DurableBackupBundleEnvelope) :=
  (env_version e, env_cipher e, env_kdf e, env_salt e, env_nonce e, env_ciphertext e).

#[local] Instance demo_backup_format : BackupFormat := {|
  bundle_to_json b := pack (manifest_tuple (bundle_manifest b),
    bundle_identity_file_base64 b, bundle_state_file_base64 b);
  bundle_from_json l :=
    match unpack l with
    | Some (((f, v, c, h, e, n, i, s), (o, su, sn, p, va, assets)), ib, sb) => Ok {|
        bundle_manifest := {|
          bm_format := f; bm_format_version := v; bm_created_at_unix_secs := c;
          bm_hostname := h; bm_environment := e; bm_network := n; bm_identity_path := i;
          bm_state_path := s; bm_authority_origin := o; bm_authority_subject := su;
          bm_authority_snapshot := sn; bm_durable_state_present := p;
          bm_durable_state_valid := va;
          bm_assets := (λ '(c, r, h, n), {| asset_concern := c; asset_relative_path := r;
            asset_sha256_hex := h; asset_bytes := n |}) <$> assets |};
        bundle_identity_file_base64 := ib; bundle_state_file_base64 := sb |}
    | None => Err "expected value"
    end;
  envelope_to_json e := pack (envelope_tuple e);
  envelope_from_json l :=
    match unpack l with
    | Some (v, c, k, s, n, t) => Ok {| env_version := v; env_cipher := c; env_kdf := k;
        env_salt := s; env_nonce := n; env_ciphertext := t |}
    | None => Err "expected value"
    end;
|}.

#[local] Instance demo_backup_format_laws : BackupFormatLaws.
Proof.
  split.
  - intros [m ib sb]. cbn [bundle_from_json bundle_to_json demo_backup_format].
    rewrite unpack_pack. destruct m as [? ? ? ? ? ? ? ? ? ? ? ? ? assets].
    unfold manifest_tuple. simpl. do 3 f_equal. rewrite <-list_fmap_compose.
    rewrite <-(list_fmap_id assets) at 2. apply list_fmap_ext. intros _ [] _. reflexivity.
  - intros e. cbn [envelope_from_json envelope_to_json demo_backup_format].
    rewrite unpack_pack. by destruct e.
Qed.

(** Every file holds the empty object of schema version 2, which is no state. *)
#[local] Instance demo_bytes_format : StateFormat bytes := {|
  state_fields := {|
    field_local_peer_id _ := JNull; field_roles _ := JNull; field_membership _ := JNull;
    field_capability_grants _ := JNull; field_revocations _ := JNull; field_denied_peers _ := JNull;
    field_bootstrap _ := JNull; field_relay_map _ := JNull; field_peers _ := JNull;
    field_netcheck _ := JNull; field_queue_policies _ := JNull; field_path_candidates _ := JNull |};
  decode_value _ := Ok (JObj [("schema_version", JNum 2)]);
  decode_state _ := Err "missing field `network`";
  decode_snapshot _ := Err "expected value";
  encode_state _ := [];
  encode_value _ := [];
|}.

Definition demo_export : DurableBackupExportRequest := {|
  ex_output_path := "backup.json"; ex_passphrase := "p"; ex_hostname := "h";
  ex_environment := "e"; ex_identity_path := "node.json"; ex_state_path := "state.json";
  ex_network := "n"; ex_authority_origin := None; ex_authority_subject := None;
  ex_authority_snapshot := None; ex_overwrite := false |}.
Definition demo_restore : DurableBackupRestoreRequest := {|
  rs_input_path := "backup.json"; rs_passphrase := "p"; rs_identity_path := "node2.json";
  rs_state_path := "state2.json"; rs_overwrite := false |}.
Definition demo_files : Files bytes := {["node.json" := [x01]; "state.json" := [x02]]}.

Lemma backup_roundtrip_witness :
  ∃ report fs' restored fs3,
    export_backup_bundle 7 [x03] [x04] demo_export demo_files = Ok (report, fs') ∧
    restore_backup_bundle demo_restore fs' = Ok (restored, fs3) ∧
    (fs3 : gmap string bytes) !! "state2.json" = Some [x02].
Proof.
  eassert (export_backup_bundle 7 [x03] [x04] demo_export demo_files = Ok (_, _)) as He
    by reflexivity.
  pose proof (proj2 (backup_roundtrip 7 [x03] [x04] demo_export demo_files _ _ [x01] [x02]
    demo_restore _ He eq_refl eq_refl eq_refl eq_refl
    (or_intror (conj eq_refl eq_refl)) ltac:(discriminate)))
    as (restored & fs3 & Hr & _ & _ & _ & Hs & _).
  eexists _, _, restored, fs3. split; [exact He|]. split; [exact Hr|exact Hs].
Defined.
End witnesses.
