(* ===== verification/FabricPathsProps.v ===== *)
(** What the path report contains, and in which order. *)
From stdpp Require Import countable option base list strings gmap pretty sorting.
From Stdlib Require Import ZArith Lia Strings.Byte Strings.Ascii.
From S2P Require Import Prelude Text BTree F32 External Model Crypto Records Netcheck Scheduler PeerStore Policy Routing RelayWire Transport Membership Control Fabric FabricPaths.

(** A loop that only adds entries. *)
Lemma foldl_keeps {A B} (f : list B → A → list B) l acc :
  (∀ acc a e, e ∈ acc → e ∈ f acc a) → ∀ e, e ∈ acc → e ∈ foldl f acc l.
Proof. intros Hf. revert acc. induction l as [|a l IH]; intros acc e He; simpl; auto. Qed.

(** What one round makes true stays true. *)
Lemma foldl_covers {A B} (f : list B → A → list B) (p : B → bool) l acc a :
  (∀ acc a e, e ∈ acc → e ∈ f acc a) → (∀ acc, any p (f acc a) = true) →
  a ∈ l → any p (foldl f acc l) = true.
Proof.
  intros Hkeep Hcov. revert acc. induction l as [|b l IH]; intros acc; [by intros ?%elem_of_nil|].
  intros [->|Ha]%elem_of_cons; simpl; [|by apply IH].
  apply any_true. destruct (proj1 (any_true _ _) (Hcov acc)) as (e & He & Hp).
  exists e. split; [by apply foldl_keeps|exact Hp].
Qed.

(** Entries come from the start or from some round. *)
Lemma foldl_origin {A B} (f : list B → A → list B) (P : B → Prop) l acc :
  (∀ acc a e, a ∈ l → e ∈ f acc a → e ∈ acc ∨ P e) → ∀ e, e ∈ foldl f acc l → e ∈ acc ∨ P e.
Proof.
  revert acc. induction l as [|a l IH]; intros acc Hf e He; simpl in *; [by left|].
  destruct (IH (f acc a)) with (e := e) as [H|H]; auto.
  - intros acc' b e' Hb. apply Hf. by right.
  - apply Hf in H; [done|by left].
Qed.

Lemma elem_of_snoc_if {B} (b : bool) (l : list B) x e :
  e ∈ (if b then l else l ++ [x]) → e ∈ l ∨ e = x.
Proof. destruct b; [auto|]. rewrite elem_of_app, list_elem_of_singleton. tauto. Qed.

Lemma elem_of_if_snoc {B} (b : bool) (l : list B) x e : e ∈ l → e ∈ (if b then l else l ++ [x]).
Proof. destruct b; [auto|]. rewrite elem_of_app. auto. Qed.

Lemma any_if_snoc {B} (p : B → bool) (l : list B) x :
  p x = true → any p (if any p l then l else l ++ [x]) = true.
Proof. intros Hp. destruct (any p l) eqn:E; [exact E|]. by rewrite any_app, E; simpl; rewrite Hp. Qed.

(** A comparison that falls through to the next one is total if that is. *)
Lemma then_total (lt gt b b' : bool) :
  b = true ∨ b' = true →
  (if lt then true else if gt then false else b) = true ∨
  (if gt then true else if lt then false else b') = true.
Proof. destruct lt, gt; auto. Qed.

Section paths.
Context `{Blake3, Varint, Base32}.

Lemma path_le_total x y : path_le x y = true ∨ path_le y x = true.
Proof. unfold path_le. do 3 apply then_total. apply lex_le_total. Qed.

Lemma covers_refl e : covers (ps_peer e) (ps_protocol e) (ps_class e) e = true.
Proof. unfold covers. by rewrite !bool_decide_eq_true_2. Qed.

Lemma push_suppressed_covers state acc s :
  any (covers (sup_peer s) (sup_protocol s) (sup_class s)) (push_suppressed state acc s) = true.
Proof.
  unfold push_suppressed. destruct (any (λ entry, _) acc) eqn:E.
  - apply any_true in E as (e & He & [_ Hc]%andb_true_iff). apply any_true. by exists e.
  - rewrite any_app. simpl. rewrite (covers_refl (suppressed_path state s)). apply orb_true_r.
Qed.

Lemma reconnect_path_key state a :
  covers (at_peer a) (at_protocol a) (at_class a) (reconnect_path state a) = true.
Proof.
  unfold reconnect_path. destruct (runtime_reconnect_path_status _ _) as [[st sr] su].
  apply (covers_refl (idle_path _ _ _ _ _ _ _ _ _)).
Qed.

Lemma push_peer_candidates_covers state acc i class d :
  best_path state (snap_peer (insp_snapshot i)) class = Some d →
  any (λ e, bool_decide (ps_peer e = snap_peer (insp_snapshot i)) &&
            bool_decide (ps_class e = class)) (push_peer_candidates state acc i) = true.
Proof.
  intros Hb. unfold push_peer_candidates. unfold best_path in Hb.
  change (retain _ (ds_path_candidates state))
    with (path_candidates_for state (snap_peer (insp_snapshot i))) in Hb.
  destruct (path_candidates_for _ _) as [|c cs] eqn:Hc; [done|].
  apply (foldl_covers _ _ _ _ class).
  - clear. intros acc a e He. unfold push_candidate. destruct (any _ acc); [done|].
    destruct (select_best_path _ _); [|done]. rewrite elem_of_app. auto.
  - intros acc'. unfold push_candidate. destruct (any _ acc') eqn:E; [exact E|].
    rewrite Hb, any_app, E. simpl. by rewrite !bool_decide_eq_true_2.
  - unfold path_classes. destruct class; rewrite !elem_of_cons; tauto.
Qed.

Lemma push_peer_candidates_keeps state acc i e :
  e ∈ acc → e ∈ push_peer_candidates state acc i.
Proof.
  intros He. unfold push_peer_candidates. destruct (path_candidates_for _ _); [done|].
  apply foldl_keeps; [|done]. clear. intros acc a e He. unfold push_candidate.
  destruct (any _ acc); [done|]. destruct (select_best_path _ _); [|done].
  rewrite elem_of_app. auto.
Qed.

Lemma push_peer_candidates_origin state acc i e :
  e ∈ push_peer_candidates state acc i → e ∈ acc ∨ ps_session_id e = None.
Proof.
  unfold push_peer_candidates. destruct (path_candidates_for _ _); [auto|].
  apply (foldl_origin _ (λ e, ps_session_id e = None)). clear. intros acc a e _ He. unfold push_candidate in He.
  destruct (any _ acc); [auto|]. destruct (select_best_path _ _); [|auto].
  apply elem_of_app in He as [?|?%list_elem_of_singleton]; [auto|]. right. by subst.
Qed.

Lemma count_le_snoc_if {B} (p : B → bool) (b : bool) l x :
  (count p l <= count p (if b then l else l ++ [x]))%Z.
Proof.
  destruct b; [lia|]. unfold count.
  enough (length (retain p l) <= length (retain p (l ++ [x]))) by lia.
  induction l as [|y l IH]; simpl; [lia|]. destruct (p y); simpl; lia.
Qed.

Lemma count_le_foldl {A B} (p : B → bool) (f : list B → A → list B) l acc :
  (∀ acc a, (count p acc <= count p (f acc a))%Z) → (count p acc <= count p (foldl f acc l))%Z.
Proof.
  intros Hf. revert acc. induction l as [|a l IH]; intros acc; simpl; [lia|].
  etrans; [apply Hf|apply IH].
Qed.

(** The report has at least as many entries with a session as there are
    sessions. *)
Lemma count_session_paths state sessions suppressions attempts terminal :
  (Z.of_nat (length sessions) <= count (λ path, bool_decide (is_Some (ps_session_id path)))
    (path_snapshots state sessions suppressions attempts terminal))%Z.
Proof.
  unfold path_snapshots. rewrite (count_Permutation _ _ _ (stable_sort_perm _ _)).
  etrans; [|apply count_le_foldl; intros acc i].
  - etrans; [|apply count_le_foldl; intros; apply count_le_snoc_if].
    etrans; [|apply count_le_foldl; intros; apply count_le_snoc_if].
    etrans; [|apply count_le_foldl; intros; apply count_le_snoc_if].
    unfold count. induction sessions as [|s l IH]; [simpl; lia|].
    rewrite fmap_cons. cbn [retain session_path ps_session_id].
    rewrite bool_decide_eq_true_2 by by eexists. cbn [length]. unfold count in IH. lia.
  - unfold push_peer_candidates. destruct (path_candidates_for _ _); [lia|].
    apply count_le_foldl. clear. intros acc class. unfold push_candidate.
    destruct (any _ acc); [lia|]. destruct (select_best_path _ _); [|lia].
    apply (count_le_snoc_if _ false).
Qed.

(** C21.  The path report is sorted; it has the entry of every session of the
    transport, and the only other entries with a session are those of ended
    sessions; every suppressed and every reconnecting traffic is covered by an
    entry, and so is every peer and class that some candidate path serves. *)
Theorem path_snapshots_spec state sessions suppressions attempts terminal :
  let report := path_snapshots state sessions suppressions attempts terminal in
  Sorted (λ x y, path_le x y = true) report ∧
  (∀ s, s ∈ sessions → session_path state s ∈ report) ∧
  (∀ e, e ∈ report → ps_session_id e ≠ None →
     (∃ s, s ∈ sessions ∧ e = session_path state s) ∨
     (∃ s, s ∈ terminal ∧ e = terminal_path state s)) ∧
  (∀ s, s ∈ suppressions →
     any (covers (sup_peer s) (sup_protocol s) (sup_class s)) report = true) ∧
  (∀ a, a ∈ attempts → any (covers (at_peer a) (at_protocol a) (at_class a)) report = true) ∧
  (∀ i class d, i ∈ ds_peers state →
     best_path state (snap_peer (insp_snapshot i)) class = Some d →
     any (λ e, bool_decide (ps_peer e = snap_peer (insp_snapshot i)) &&
               bool_decide (ps_class e = class)) report = true).
Proof.
  cbv zeta. unfold path_snapshots.
  set (r1 := foldl (push_suppressed state) (session_path state <$> sessions) suppressions).
  set (r2 := foldl (push_attempt state) r1 attempts).
  set (r3 := foldl (push_terminal state) r2 terminal).
  set (r4 := foldl (push_peer_candidates state) r3 (ds_peers state)).
  assert (∀ e, e ∈ r1 → e ∈ r2) as H12 by (apply foldl_keeps; intros; by apply elem_of_if_snoc).
  assert (∀ e, e ∈ r2 → e ∈ r3) as H23 by (apply foldl_keeps; intros; by apply elem_of_if_snoc).
  assert (∀ e, e ∈ r3 → e ∈ r4) as H34
    by (apply foldl_keeps; intros; by apply push_peer_candidates_keeps).
  assert (∀ p (l l' : list RuntimePathSnapshot), (∀ e, e ∈ l → e ∈ l') → any p l = true →
    any p l' = true) as Hany.
  { intros p l l' Hl (e & He & Hp)%any_true. apply any_true. eauto. }
  assert (∀ p, any p r4 = true → any p (stable_sort path_le r4) = true) as Hsort.
  { intros p. apply Hany. intros e. by rewrite stable_sort_perm. }
  split_and!.
  - apply stable_sort_sorted, path_le_total.
  - intros s Hs. rewrite stable_sort_perm. apply H34, H23, H12.
    apply foldl_keeps; [intros; by apply elem_of_if_snoc|]. by apply list_elem_of_fmap_2.
  - intros e He Hid. rewrite stable_sort_perm in He.
    apply (foldl_origin _ (λ e, ps_session_id e = None)) in He as [He|]; [|done|
      intros acc i e' _; apply push_peer_candidates_origin].
    apply (foldl_origin _ (λ e, ∃ s, s ∈ terminal ∧ e = terminal_path state s)) in He as [He|];
      [|by right|intros acc s e' Hs He'; apply elem_of_snoc_if in He' as [?| ->]; eauto].
    apply (foldl_origin _ (λ e, ps_session_id e = None)) in He as [He|]; [|done|].
    2: { intros acc a e' _ He'. apply elem_of_snoc_if in He' as [?| ->]; [by left|right].
         unfold reconnect_path. by destruct (runtime_reconnect_path_status _ _) as [[st sr] su]. }
    apply (foldl_origin _ (λ e, ps_session_id e = None)) in He as [He|]; [|done|].
    2: { intros acc a e' _ He'. apply elem_of_snoc_if in He' as [?| ->]; [by left|by right]. }
    apply list_elem_of_fmap in He as (s & -> & Hs). left. by exists s.
  - intros s Hs. apply Hsort. eapply Hany; [intros e He; apply H34, H23, H12, He|].
    eapply foldl_covers; [intros; by apply elem_of_if_snoc|intros; apply push_suppressed_covers|done].
  - intros a Ha. apply Hsort. eapply Hany; [intros e He; apply H34, H23, He|].
    eapply foldl_covers; [intros; by apply elem_of_if_snoc|intros acc|done].
    apply any_if_snoc, reconnect_path_key.
  - intros i class d Hi Hd. apply Hsort.
    eapply foldl_covers; [intros; by apply push_peer_candidates_keeps|intros acc|exact Hi].
    by eapply push_peer_candidates_covers.
Qed.
End paths.
