(* ===== verification/FabricPlaneProps.v ===== *)
(** The control plane's operations on the state file: each one refines steps on
    the state the file holds, whether it succeeds or fails. *)
From stdpp Require Import countable option base relations list strings gmap pretty sorting.
From Stdlib Require Import ZArith Lia Strings.Byte Strings.Ascii.
From S2P Require Import Prelude Text BTree F32 External Model Crypto Records Netcheck Scheduler PeerStore Discovery Policy Routing RelayWire Transport Membership Control ControlFetch Authority AuthorityProps Fabric FabricProps Durable FabricPlane DurableProps.

(** ** The fixture *)

Section fixture.
Context `{Blake3, Varint, Base32, Curves, ArtifactJson}.

Lemma fixture_store network :
  store_wf (ln_peer_store (LocalNode_fixture network)) ∧
  is_Some (store_peers (ln_peer_store (LocalNode_fixture network)) !! fixture_relay_peer) ∧
  is_Some (store_peers (ln_peer_store (LocalNode_fixture network)) !! fixture_worker_peer).
Proof.
  unfold LocalNode_fixture. rewrite (surjective_pairing (ingest_bootstrap _ _ _)).
  cbn [ln_peer_store]. unfold ingest_bootstrap.
  rewrite ingest_store. split_and!.
  - apply upsert_peer_with_status_wf, upserts_wf, store_wf_default.
  - unfold upserts, hint_entries. cbn. rewrite !lookup_insert_is_Some'. tauto.
  - unfold upserts, hint_entries. cbn. rewrite !lookup_insert_is_Some'. tauto.
Qed.

(** Given to a local peer with its membership, the fixture is well formed. *)
Lemma fixture_wf network local membership roles :
  local = mc_subject_peer_id membership →
  daemon_wf (rebuild {|
    ds_schema_version := DAEMON_STATE_SCHEMA_VERSION; ds_network := network;
    ds_local_peer_id := local; ds_roles := roles; ds_membership := membership;
    ds_capability_grants := []; ds_revocations := []; ds_denied_peers := [];
    ds_bootstrap := ds_bootstrap (fixture_daemon_state network);
    ds_relay_map := Some fixture_relay_map;
    ds_peers := ds_peers (fixture_daemon_state network);
    ds_netcheck := fixture_netcheck; ds_queue_policies := default_queue_policies;
    ds_active_sessions := []; ds_path_candidates := fixture_candidates |}).
Proof.
  intros Hl. destruct (fixture_store network) as (Hwf & Hr & Hw).
  apply rebuilt_wf; cbn [ds_local_peer_id ds_membership ds_denied_peers ds_revocations
    ds_active_sessions ds_peers ds_bootstrap relay_announcements ds_relay_map]; try done.
  - apply NoDup_nil_2.
  - by apply peers_sorted.
  - intros p Hp. apply elem_of_peer_ids; [done|]. revert Hp.
    unfold fixture_daemon_state, LocalNode_fixture.
    rewrite (surjective_pairing (ingest_bootstrap _ _ _)). cbn.
    rewrite !elem_of_cons, elem_of_nil. intros [[= ->]|[[= ->]|[]]]; [exact Hr|exact Hw].
  - intros r ->%list_elem_of_singleton. apply elem_of_peer_ids; [done|exact Hr].
  - repeat constructor.
Qed.

Lemma fixture_netcheck_eq network : ds_netcheck (fixture_daemon_state network) = fixture_netcheck.
Proof.
  unfold fixture_daemon_state, LocalNode_fixture.
  by rewrite (surjective_pairing (ingest_bootstrap _ _ _)).
Qed.

Lemma fixture_candidates_eq network :
  ds_path_candidates (fixture_daemon_state network) = fixture_candidates.
Proof.
  unfold fixture_daemon_state, LocalNode_fixture.
  by rewrite (surjective_pairing (ingest_bootstrap _ _ _)).
Qed.

Lemma fixture_daemon_wf network roles :
  daemon_wf (rebuild (with_roles roles (fixture_daemon_state network))).
Proof.
  set (k := from_secret_bytes (replicate 32 x0c)).
  set (m := certificate_issue (from_secret_bytes (replicate 32 x0b))
    (NetworkId_derive (as_bytes network)) (peer_id k) 1720000000 1820000000 ["member"]).
  pose proof (fixture_wf network (peer_id k) m roles eq_refl) as Hf.
  rewrite <-(fixture_netcheck_eq network), <-(fixture_candidates_eq network) in Hf. exact Hf.
Qed.

Lemma self_identity_wf network roles k :
  daemon_wf (self_identity_daemon_state network roles k).
Proof.
  set (m := certificate_issue k (NetworkId_derive (as_bytes network)) (peer_id k)
    1720000000 1820000000 ["member"]).
  pose proof (fixture_wf network (peer_id k) m roles eq_refl) as Hf.
  rewrite <-(fixture_netcheck_eq network), <-(fixture_candidates_eq network) in Hf. exact Hf.
Qed.
End fixture.

(** ** The file at the configured path *)

Lemma with_schema_version_id s : with_schema_version (ds_schema_version s) s = s.
Proof. by destruct s. Qed.

Lemma rebuild_id `{Blake3, Varint, Base32} s : daemon_wf s → rebuild s = s.
Proof. intros Hs. unfold rebuild. rewrite <-(dw_candidates s Hs). by destruct s. Qed.

Section plane.
Context `{Blake3, Varint, Base32, Curves, ArtifactJson} {C : Type} `{StateFormatLaws C}.
Context {Body : Type} `{ControlJson Body}.
Variable config : DaemonConfig.

Notation load fs := (daemon_load (cfg_state_path config) fs).

Definition current (s : DaemonState) : Prop :=
  daemon_wf s ∧ ds_schema_version s = DAEMON_STATE_SCHEMA_VERSION.

(** Whatever state the file holds is well formed. *)
Definition plane_inv (fs : Files C) : Prop := ∀ s, load fs = Ok s → current s.

(** The file keeps the invariant, and the state it holds goes on by steps. *)
Definition plane_advances (fs fs' : Files C) : Prop :=
  plane_inv fs' ∧ ∀ s, load fs = Ok s → ∃ s', load fs' = Ok s' ∧ rtc daemon_step s s'.

Lemma plane_advances_refl fs : plane_inv fs → plane_advances fs fs.
Proof. intros Hi. split; [exact Hi|]. intros s Hs. by exists s. Qed.

Lemma plane_advances_trans fs1 fs2 fs3 :
  plane_advances fs1 fs2 → plane_advances fs2 fs3 → plane_advances fs1 fs3.
Proof.
  intros [_ H12] [Hi H23]. split; [exact Hi|]. intros s (s2 & Hs2 & ?)%H12.
  destruct (H23 s2 Hs2) as (s3 & ? & ?). exists s3. split; [done|]. by etrans.
Qed.

Lemma current_step s s' :
  current s → daemon_step s s' → ds_schema_version s' = ds_schema_version s → current s'.
Proof. intros [Hs Hv] Hst He. split; [by eapply daemon_step_wf|congruence]. Qed.

Lemma save_current s fs :
  current s → load (daemon_save s (cfg_state_path config) fs) = Ok (with_sessions [] s) ∧
    current (with_sessions [] s).
Proof.
  intros Hs. rewrite load_save by apply (dw_finite s), Hs. destruct Hs as [Hwf Hv]. rewrite <-Hv, with_schema_version_id.
  split; [done|]. split; [|done]. eapply daemon_step_wf; [exact Hwf|]. apply step_sessions.
  apply NoDup_nil_2.
Qed.

(** Saving a state that the file's state can step to. *)
Lemma save_advances s fs :
  current s → (∀ s0, load fs = Ok s0 → rtc daemon_step s0 s) →
  plane_advances fs (daemon_save s (cfg_state_path config) fs).
Proof.
  intros Hs Hst. destruct (save_current s fs Hs) as [Hl Hc]. split.
  - intros s' Hs'. rewrite Hl in Hs'. by injection Hs' as <-.
  - intros s0 Hs0. eexists. split; [exact Hl|]. eapply rtc_r; [by apply Hst|].
    apply step_sessions, NoDup_nil_2.
Qed.

(** ** Operations *)

(** The returned state is well formed, and the state of the file steps to it. *)
Definition held (fs : Files C) (s : DaemonState) : Prop :=
  current s ∧ ∀ s0, load fs = Ok s0 → rtc daemon_step s0 s.

(** Run on the files [fs], the operation only advances them. *)
Definition safe {A} (m : FileM C A) (fs : Files C) : Prop := plane_advances fs (m fs).2.
(** The same, and the state it returns is held. *)
Definition gives_held (m : FileM C DaemonState) : Prop :=
  ∀ fs, plane_inv fs → safe m fs ∧ ∀ s, (m fs).1 = Ok s → held (m fs).2 s.

Lemma safe_ret {A} (a : A) fs : plane_inv fs → safe (mret a) fs.
Proof. apply plane_advances_refl. Qed.

Lemma safe_lift_bind {A B} (r : result DaemonStateError A) (f : A → FileM C B) fs :
  plane_inv fs → (∀ a, r = Ok a → safe (f a) fs) → safe (filem_lift r ≫= f) fs.
Proof.
  intros Hi Hf. unfold safe, mbind, filem_bind, filem_lift.
  destruct r; [by apply Hf|by apply plane_advances_refl].
Qed.

Lemma safe_read_bind {A B} (r : Files C → result DaemonStateError A) (f : A → FileM C B) fs :
  plane_inv fs → (∀ a, r fs = Ok a → safe (f a) fs) → safe (filem_read r ≫= f) fs.
Proof. apply (safe_lift_bind (r fs) f fs). Qed.

Lemma safe_held_bind {B} (m : FileM C DaemonState) (f : DaemonState → FileM C B) fs :
  gives_held m → plane_inv fs → (∀ s fs', plane_inv fs' → held fs' s → safe (f s) fs') →
  safe (m ≫= f) fs.
Proof.
  intros Hm Hi Hf. destruct (Hm fs Hi) as [Hadv Hheld].
  unfold safe, mbind, filem_bind in *. destruct (m fs) as [[s|e] fs']; [|exact Hadv].
  eapply plane_advances_trans; [exact Hadv|]. apply Hf; [apply Hadv|by apply Hheld].
Qed.

(** A save at the end of an operation. *)
Lemma safe_save {A} s (a : A) fs : held fs s → safe (_ ← plane_save config s; mret a) fs.
Proof. intros [Hs Hst]. by apply save_advances. Qed.

Lemma load_exists fs s : load fs = Ok s → file_exists (cfg_state_path config) fs = true.
Proof.
  unfold daemon_load, file_read, file_exists.
  by destruct ((fs : gmap string C) !! cfg_state_path config).
Qed.

Lemma ensure_loads fs s :
  load fs = Ok s → ensure_state config fs = (Ok (rebuild (with_roles (cfg_roles config) s)), fs).
Proof.
  intros Hl. unfold ensure_state, plane_exists, plane_load, mbind, filem_bind, filem_read.
  by rewrite (load_exists _ _ Hl), Hl.
Qed.

(** It fails without touching the files, and when it succeeds the file loads. *)
Lemma ensure_fails fs e fs' : ensure_state config fs = (Err e, fs') → fs' = fs.
Proof.
  unfold ensure_state, plane_exists, plane_load, plane_save, mbind, filem_bind, filem_read, filem_write.
  destruct (file_exists _ fs); [|done]. by destruct (load fs); intros [= _ <-].
Qed.
Lemma ensure_saved fs s fs' : ensure_state config fs = (Ok s, fs') → ∃ s0, load fs' = Ok s0.
Proof.
  unfold ensure_state, plane_exists, plane_load, plane_save, mbind, filem_bind, filem_read, filem_write.
  destruct (file_exists _ fs).
  - destruct (load fs) as [s0|e] eqn:Hl; [|done]. intros [= _ <-]. by eexists.
  - intros [= _ <-]. eexists. apply load_save, (dw_finite _ (fixture_daemon_wf _ _)).
Qed.

Lemma held_fresh fs s : file_exists (cfg_state_path config) fs = false → current s → held fs s.
Proof. intros He Hs. split; [exact Hs|]. intros s0 Hl%load_exists. congruence. Qed.

Lemma held_step fs s s' :
  held fs s → daemon_step s s' → ds_schema_version s' = ds_schema_version s → held fs s'.
Proof.
  intros [Hs Hst] Hs' Hv. split; [by eapply current_step|].
  intros s0 Hl. eapply rtc_r; [by apply Hst|exact Hs'].
Qed.

(** Loading gives the state of the file, with the configured roles. *)
Lemma load_held fs s :
  plane_inv fs → load fs = Ok s → held fs (with_roles (cfg_roles config) s).
Proof.
  intros Hi Hl. eapply held_step; [|apply step_roles|done].
  split; [by apply Hi|]. intros s0 Hl0. rewrite Hl in Hl0. injection Hl0 as ->. reflexivity.
Qed.

Lemma held_rebuild fs s : held fs s → held fs (rebuild s).
Proof. intros Hs. eapply held_step; [exact Hs|apply step_rebuild|done]. Qed.

Lemma held_relay_map fs s m : held fs s → held fs (apply_relay_map s m).1.
Proof.
  intros Hs. eapply held_step; [exact Hs|apply step_relay_map|].
  unfold apply_relay_map. by destruct (match ds_relay_map s with Some e => _ | None => _ end).
Qed.

Lemma held_sync fs s client incoming s' report :
  held fs s → daemon_sync_snapshot s client incoming = Ok (s', report) → held fs s'.
Proof.
  intros Hs Hsync. eapply held_step; [exact Hs|by eapply step_sync|].
  unfold daemon_sync_snapshot in Hsync.
  apply result_bind_Ok in Hsync as ([merged delta] & _ & Hsync).
  by apply result_bind_Ok in Hsync as (membership & _ & [= <- _]).
Qed.

Lemma current_from_snapshot roles snapshot s :
  from_authority_snapshot (cfg_network config) roles snapshot = Ok s → current s.
Proof.
  intros Hs. split; [by eapply from_authority_snapshot_wf|]. revert Hs.
  unfold from_authority_snapshot. case_decide; [done|].
  by intros (membership & _ & [= <-])%result_bind_Ok.
Qed.

(** A fresh state, saved and returned. *)
Lemma create_held s fs :
  file_exists (cfg_state_path config) fs = false → current s →
  let m := (_ ← plane_save config s; mret s) : FileM C DaemonState in
  safe m fs ∧ ∀ s', (m fs).1 = Ok s' → held (m fs).2 s'.
Proof.
  intros He Hs. split; [by apply safe_save, held_fresh|]. intros s' [= <-].
  split; [exact Hs|]. intros s0 Hl. pose proof (proj1 (save_current s fs Hs)) as Hl'.
  assert (Ok (with_sessions [] s) = Ok s0) as [= <-] by (rewrite <-Hl'; exact Hl).
  apply rtc_once.
  replace s with (with_sessions (ds_active_sessions s) (with_sessions [] s)) at 2 by (by destruct s).
  apply step_sessions, Hs.
Qed.

(** A test of the file, an operation for each answer. *)
Lemma if_exists_held (m m' : FileM C DaemonState) fs :
  plane_inv fs →
  (file_exists (cfg_state_path config) fs = true →
     safe m fs ∧ ∀ s, (m fs).1 = Ok s → held (m fs).2 s) →
  (file_exists (cfg_state_path config) fs = false →
     safe m' fs ∧ ∀ s, (m' fs).1 = Ok s → held (m' fs).2 s) →
  let b := exists_ ← plane_exists config; if (exists_ : bool) then m else m' in
  safe b fs ∧ ∀ s, (b fs).1 = Ok s → held (b fs).2 s.
Proof.
  intros Hi Hm Hm'. unfold safe, plane_exists, mbind, filem_bind, filem_read.
  destruct (file_exists (cfg_state_path config) fs); [by apply Hm|by apply Hm'].
Qed.

Lemma ensure_state_held : gives_held (ensure_state config).
Proof.
  intros fs Hi. apply if_exists_held; [exact Hi|intros He|intros He].
  - cbv [safe plane_load filem_read mbind filem_bind mret filem_ret].
    destruct (load fs) as [s|e] eqn:Hl; cbn [fst snd].
    + split; [by apply plane_advances_refl|]. intros s' [= <-]. by apply held_rebuild, load_held.
    + split; [by apply plane_advances_refl|done].
  - apply create_held; [exact He|]. split; [apply fixture_daemon_wf|].
    unfold rebuild, fixture_daemon_state. by destruct (LocalNode_fixture _).
Qed.

Lemma ensure_identity_held k : gives_held (ensure_state_for_local_identity config k).
Proof.
  intros fs Hi. apply if_exists_held; [exact Hi|intros He; by apply ensure_state_held|intros He].
  apply create_held; [exact He|].
  rewrite rebuild_id by apply self_identity_wf. split; [apply self_identity_wf|].
  unfold self_identity_daemon_state, fixture_daemon_state. by destruct (LocalNode_fixture _).
Qed.

(** ** All operations *)

Inductive PlaneOp :=
| OpEnsure
| OpEnsureFor (identity : IdentityKeypair)
| OpEnsureBound (identity : IdentityKeypair)
| OpRefresh
| OpRefreshFor (identity : IdentityKeypair)
| OpReprobe (reason : string)
| OpSyncSnapshot (path : string)
| OpSyncOrigin (origin : string) (subject : option string)
| OpSyncRevocations (origin : string)
| OpInspectPeer (peer : PeerId)
| OpExplainPolicy (peer : PeerId) (protocol : ProtocolId).

(** One operation, with what the authority answers meanwhile. *)
Definition run_plane (web : string → HttpReply Body) (op : PlaneOp) (fs : Files C) : Files C :=
  match op with
  | OpEnsure => (ensure_state config fs).2
  | OpEnsureFor k => (ensure_state_for_local_identity config k fs).2
  | OpEnsureBound k => (ensure_identity_bound_state config k fs).2
  | OpRefresh => (refresh_and_persist config fs).2
  | OpRefreshFor k => (refresh_and_persist_for_local_identity config k fs).2
  | OpReprobe reason => (reprobe_network_change config reason fs).2
  | OpSyncSnapshot path => (plane_sync_snapshot config path fs).2
  | OpSyncOrigin origin subject => (sync_authority_origin web config origin subject fs).2
  | OpSyncRevocations origin => (sync_authority_revocations_origin web config origin fs).2
  | OpInspectPeer peer => (inspect_peer config peer fs).2
  | OpExplainPolicy peer protocol => (plane_explain_policy config peer protocol fs).2
  end.

Lemma safe_if_exists {A} (m m' : FileM C A) fs :
  (file_exists (cfg_state_path config) fs = true → safe m fs) →
  (file_exists (cfg_state_path config) fs = false → safe m' fs) →
  safe (exists_ ← plane_exists config; if (exists_ : bool) then m else m') fs.
Proof.
  intros Hm Hm'. unfold safe, plane_exists, mbind, filem_bind, filem_read.
  destruct (file_exists (cfg_state_path config) fs); [by apply Hm|by apply Hm'].
Qed.

Lemma safe_sync_snapshot path fs : plane_inv fs → safe (plane_sync_snapshot config path) fs.
Proof.
  intros Hi. apply safe_read_bind; [exact Hi|]. intros snapshot _.
  apply safe_if_exists; intros He.
  - apply safe_read_bind; [exact Hi|]. intros s Hl. apply safe_lift_bind; [exact Hi|].
    intros [s' report] Hs. apply safe_save. by eapply held_sync, Hs; apply load_held.
  - apply safe_lift_bind; [exact Hi|]. intros s Hs. apply safe_save, held_rebuild.
    by eapply held_fresh, current_from_snapshot, Hs.
Qed.

Lemma safe_sync_origin web origin subject fs :
  plane_inv fs → safe (sync_authority_origin web config origin subject) fs.
Proof.
  intros Hi. apply safe_lift_bind; [exact Hi|]. intros snapshot _.
  apply safe_lift_bind; [exact Hi|]. intros relay_map _.
  apply safe_if_exists; intros He.
  - apply safe_read_bind; [exact Hi|]. intros s Hl. apply safe_lift_bind; [exact Hi|].
    intros [s' report] Hs.
    assert (held fs s') as Hh by (eapply held_sync, Hs; by apply load_held).
    apply (held_relay_map _ _ relay_map) in Hh. cbv zeta. destruct (apply_relay_map s' relay_map).
    by apply safe_save.
  - apply safe_lift_bind; [exact Hi|]. intros s Hs.
    assert (held fs (rebuild s)) as Hh
      by (apply held_rebuild; by eapply held_fresh, current_from_snapshot, Hs).
    apply (held_relay_map _ _ relay_map) in Hh. cbv zeta.
    destruct (apply_relay_map (rebuild s) relay_map). by apply safe_save.
Qed.

Lemma safe_sync_revocations web origin fs :
  plane_inv fs → safe (sync_authority_revocations_origin web config origin) fs.
Proof.
  intros Hi. apply safe_held_bind; [apply ensure_state_held|exact Hi|].
  intros s fs' Hi' Hs. apply safe_lift_bind; [exact Hi'|]. intros revocations _.
  assert (held fs' (with_roles (cfg_roles config) s)) as Hr
    by (by eapply held_step; [|apply step_roles|]).
  assert (held fs' (apply_revocations (with_roles (cfg_roles config) s) revocations).1) as Ha.
  { eapply held_step; [exact Hr|apply step_revocations|].
    unfold apply_revocations. by destruct (merge_revocations _ _). }
  destruct (apply_revocations _ _). by apply safe_save.
Qed.

Lemma run_plane_advances web op fs : plane_inv fs → plane_advances fs (run_plane web op fs).
Proof.
  intros Hi. destruct op; cbn [run_plane].
  - by apply ensure_state_held.
  - by apply ensure_identity_held.
  - apply safe_held_bind; [apply ensure_identity_held|exact Hi|]. intros s fs' Hi' Hs.
    cbv zeta. destruct (negb _); [|destruct (negb _)]; by apply plane_advances_refl.
  - apply safe_held_bind; [apply ensure_state_held|exact Hi|]. intros. by apply safe_save.
  - apply safe_held_bind; [apply ensure_identity_held|exact Hi|]. intros. by apply safe_save.
  - apply safe_held_bind; [apply ensure_state_held|exact Hi|]. intros s fs' Hi' Hs.
    apply (safe_save (rebuild (with_netcheck (reprobe_netcheck s reason) s))).
    by eapply held_step; [exact Hs|apply step_reprobe|].
  - by apply safe_sync_snapshot.
  - by apply safe_sync_origin.
  - by apply safe_sync_revocations.
  - apply safe_held_bind; [apply ensure_state_held|exact Hi|]. intros s fs' Hi' _.
    apply safe_lift_bind; [exact Hi'|]. intros i _. by apply safe_ret.
  - apply safe_held_bind; [apply ensure_state_held|exact Hi|]. intros s fs' Hi' _.
    by apply safe_ret.
Qed.

(** Whatever synchronizations, refreshes and network changes run on the
    state file, whatever the authority answers and wherever they fail, a file
    that loads keeps loading, its state is well formed, and it goes on from the
    one before by operations of the state: no revocation is forgotten, the
    membership and the relay map do not go back. *)
Lemma state_file_never_rolls_back ops (fs : Files C) s
    (Hinv : plane_inv fs) (Hload : load fs = Ok s) :
  let fs' := foldl (λ fs '(web, op), run_plane web op fs) fs ops in
  plane_inv fs' ∧ ∃ s', load fs' = Ok s' ∧ rtc daemon_step s s' ∧ daemon_advances s s'.
Proof.
  assert (plane_advances fs (foldl (λ fs '(web, op), run_plane web op fs) fs ops)) as [Hi' Hl].
  { clear s Hload. revert fs Hinv. induction ops as [|[web op] ops IH]; intros fs Hi.
    - by apply plane_advances_refl.
    - cbn [foldl]. pose proof (run_plane_advances web op fs Hi) as Hadv.
      eapply plane_advances_trans; [exact Hadv|]. apply IH, Hadv. }
  split; [exact Hi'|]. destruct (Hl s Hload) as (s' & Hs' & Hst).
  exists s'. split_and!; [exact Hs'|exact Hst|]. by apply daemon_steps_advance.
Qed.
End plane.
