(* ===== verification/FabricRuntimeProps.v ===== *)
(** The operations on a transport, against the interface: which sessions they
    leave, for any transport that keeps its laws. *)
From stdpp Require Import countable option base list strings gmap pretty.
From Stdlib Require Import ZArith Lia Strings.Byte Strings.Ascii.
From S2P Require Import Prelude Text BTree F32 External Model Crypto Records Netcheck Scheduler PeerStore Policy Routing RelayWire Transport Membership Control Fabric FabricPaths FabricPathsProps Durable FabricPlane FabricRuntime.

(** ** What a transport promises

    [lt_who] is the peer and the protocol of each of its sessions, [lt_ok] the
    states it is ever in. *)
Notation Who := (@gmap bytes (@list_eq_dec byte byte_eq_dec)
  (@list_countable byte byte_eq_dec byte_countable) (PeerId * option ProtocolId)%type).

Class LifecycleView (W : Type) := { lt_ok : W → Prop; lt_who : W → Who }.

Definition session_of (s : SessionSnapshot) : PeerId * option ProtocolId := (ss_peer s, ss_protocol s).

(** An operation that keeps the sessions as they are. *)
Definition quiet {W A} `{LifecycleView W} (m : TransportM W A) : Prop :=
  ∀ w, lt_ok w → lt_ok (m w).2 ∧ lt_who (m w).2 = lt_who w.

Class LifecycleLaws (W : Type) `{LifecycleTransport W, LifecycleView W} : Prop := {
  (** Listing gives one snapshot per session. *)
  lt_active_quiet : quiet lt_active_sessions;
  lt_active_lists w l id x : lt_ok w → (lt_active_sessions w).1 = Ok l →
    (lt_who w !! id = Some x ↔ ∃ s, s ∈ l ∧ ss_session_id s = id ∧ session_of s = x);
  lt_active_count w l : lt_ok w → (lt_active_sessions w).1 = Ok l →
    length l = size (lt_who w);
  lt_snapshot_quiet id : quiet (lt_session_snapshot id);
  lt_snapshot_of w id o : lt_ok w → (lt_session_snapshot id w).1 = Ok o →
    session_of <$> o = lt_who w !! id ∧ ∀ s, o = Some s → ss_session_id s = id;
  lt_terminal_quiet n : quiet (lt_recent_terminal_sessions n);
  lt_update_quiet id st cr sr : quiet (lt_update_session_state id st cr sr);
  lt_events_quiet n : quiet (lt_recent_events n);
  lt_suppress_quiet p q c r : quiet (lt_suppress_reconnect p q c r);
  lt_clear_quiet p q c : quiet (lt_clear_reconnect_suppression p q c);
  lt_suppressions_quiet : quiet lt_reconnect_suppressions;
  lt_listeners_quiet : quiet lt_active_listeners;
  lt_update_listener_quiet id st r : quiet (lt_update_listener_state id st r);
  lt_health_quiet : quiet lt_transport_health;
  lt_health_count w h : lt_ok w → (lt_transport_health w).1 = Ok h →
    th_active_sessions h = Z.of_nat (size (lt_who w));
  lt_attempts_quiet : quiet lt_reconnect_attempts;
  lt_record_quiet t s d : quiet (lt_record_runtime_event t s d);
  (** A successful close removes the session; a failed one may. *)
  lt_close_who s w : lt_ok w → let '(r, w') := lt_close_session s w in lt_ok w' ∧
    (lt_who w' = delete (ss_session_id s) (lt_who w) ∨ r ≠ Ok () ∧ lt_who w' = lt_who w);
  (** Migration and connection add or replace at most the session they are for. *)
  lt_migrate_who s route w : lt_ok w → let '(r, w') := lt_migrate s route w in lt_ok w' ∧
    (lt_who w' = lt_who w ∨
     lt_who w' = <[ss_session_id s := (rt_peer route, rt_protocol route)]> (lt_who w));
  lt_connect_who route w : lt_ok w → let '(r, w') := lt_connect route w in lt_ok w' ∧
    (lt_who w' = lt_who w ∨
     ∃ id, lt_who w' = <[id := (rt_peer route, rt_protocol route)]> (lt_who w));
}.

Section runtime.
Context `{Blake3, Varint, Base32, Curves, ArtifactJson} {C : Type} `{StateFormat C}.
Context {W : Type} `{LifecycleLaws W}.
Variable config : DaemonConfig.

Local Notation M := (NodeM C W).

(** ** A logic of the sessions

    From a transport whose sessions satisfy [P], [m] returns a value and
    sessions that satisfy [Q], or fails; it leaves the files alone. *)
Definition triple {A : Type} (P : Who → Prop) (m : M A) (Q : A → Who → Prop) : Prop :=
  ∀ n, lt_ok (node_transport n) → P (lt_who (node_transport n)) →
    lt_ok (node_transport (m n).2) ∧ node_files (m n).2 = node_files n ∧
    ∀ a, (m n).1 = Ok a → Q a (lt_who (node_transport (m n).2)).

Lemma triple_bind {A B : Type} P (m : M A) (f : A → M B) Q R :
  triple P m Q → (∀ a, triple (Q a) (f a) R) → triple P (m ≫= f) R.
Proof.
  intros Hm Hf n Hok HP. destruct (Hm n Hok HP) as (Hok' & Hfs & HQ).
  unfold mbind, node_bind. destruct (m n) as [[a|e] n']; simpl in *; [|done].
  rewrite <-Hfs. by apply Hf, HQ.
Qed.

Lemma triple_ret {A : Type} (a : A) P (Q : A → Who → Prop) : (∀ k, P k → Q a k) → triple P (mret a : M A) Q.
Proof. intros HPQ n Hok HP. split_and!; [exact Hok|done|]. intros a' [= <-]. by apply HPQ. Qed.

Lemma triple_throw {A : Type} e P (Q : A → Who → Prop) : triple P (node_throw e : M A) Q.
Proof. intros n Hok HP. by split. Qed.

Lemma triple_lift {A : Type} (r : result DaemonStateError A) P (Q : A → Who → Prop) :
  (∀ a k, r = Ok a → P k → Q a k) → triple P (node_lift r : M A) Q.
Proof. intros HPQ n Hok HP. split_and!; [exact Hok|done|]. intros a Ha. by apply HPQ. Qed.

Lemma triple_pre {A : Type} (P P' : Who → Prop) (m : M A) Q :
  (∀ k, P k → P' k) → triple P' m Q → triple P m Q.
Proof. intros HP Hm n Hok Hk. apply Hm; auto. Qed.

Lemma triple_post {A : Type} P (m : M A) (Q Q' : A → Who → Prop) :
  triple P m Q → (∀ a k, Q a k → Q' a k) → triple P m Q'.
Proof. intros Hm HQ n Hok Hk. destruct (Hm n Hok Hk) as (? & ? & ?). eauto. Qed.

(** An operation that starts with the files. *)
Lemma bind_files_Ok {A B : Type} (m : FileM C A) (f : A → M B) n b n' :
  (on_files m ≫= f) n = (Ok b, n') →
  ∃ a fs, m (node_files n) = (Ok a, fs) ∧ f a (mk_Node fs (node_transport n)) = (Ok b, n').
Proof.
  unfold mbind, node_bind, on_files. destruct (m (node_files n)) as [[a|e] fs]; [eauto|done].
Qed.

Lemma triple_run {A : Type} P (m : M A) Q n a n' :
  triple P m Q → lt_ok (node_transport n) → P (lt_who (node_transport n)) → m n = (Ok a, n') →
  lt_ok (node_transport n') ∧ node_files n' = node_files n ∧ Q a (lt_who (node_transport n')).
Proof. intros Hm Hok HP Hrun. specialize (Hm n Hok HP). rewrite Hrun in Hm. naive_solver. Qed.

Lemma triple_quiet {A : Type} (m : TransportM W A) P : quiet m → triple P (on_transport m : M A) (λ _, P).
Proof.
  intros Hm n Hok HP. destruct (Hm _ Hok) as [Hok' Hw]. unfold on_transport.
  destruct (m (node_transport n)) as [r w]; simpl in *. split_and!; [done|done|]. by rewrite Hw.
Qed.

(** The listed sessions are the ones there are. *)
Lemma triple_active P :
  triple P (on_transport lt_active_sessions : M _)
    (λ l k, P k ∧ ∀ id x, k !! id = Some x ↔ ∃ s, s ∈ l ∧ ss_session_id s = id ∧ session_of s = x).
Proof.
  intros n Hok HP. destruct (lt_active_quiet _ Hok) as [Hok' Hw]. unfold on_transport.
  pose proof (λ l id x, lt_active_lists _ l id x Hok) as Hl.
  destruct (lt_active_sessions (node_transport n)) as [r w]; simpl in *.
  split_and!; [done|done|]. intros l Hr. destruct r as [l'|]; [|done]. injection Hr as ->.
  rewrite Hw. split; [done|]. intros id x. by apply Hl.
Qed.

Lemma triple_close s P :
  triple P (on_transport (lt_close_session s) : M ())
    (λ _ k, ∃ k0, P k0 ∧ k = delete (ss_session_id s) k0).
Proof.
  intros n Hok HP. pose proof (lt_close_who s _ Hok) as Hc. unfold on_transport.
  destruct (lt_close_session s (node_transport n)) as [r w]; simpl in *.
  destruct Hc as [Hok' Hw]. split_and!; [done|done|]. intros [] Hr. destruct r; [|done].
  destruct Hw as [Hw|[[] _]]; [|by destruct a]. eauto.
Qed.

Lemma triple_migrate s route P :
  triple P (try_transport (lt_migrate s route) : M _)
    (λ _ k, ∃ k0, P k0 ∧
       (k = k0 ∨ k = <[ss_session_id s := (rt_peer route, rt_protocol route)]> k0)).
Proof.
  intros n Hok HP. pose proof (lt_migrate_who s route _ Hok) as Hc. unfold try_transport.
  destruct (lt_migrate s route (node_transport n)) as [r w]; simpl in *.
  destruct Hc as [Hok' Hw]. split_and!; [done|done|]. eauto.
Qed.

Lemma triple_for {A B : Type} (l : list A) (body : A → B → M B) b (Inv : list A → B → Who → Prop) :
  (∀ a rest b, triple (Inv (a :: rest) b) (body a b) (Inv rest)) →
  triple (Inv l b) (node_for l body b) (λ b, Inv [] b).
Proof.
  intros Hbody. revert b. induction l as [|a l IH]; intros b; cbn [node_for].
  - by apply triple_ret.
  - eapply triple_bind; [apply Hbody|]. intros b'. apply IH.
Qed.

#[local] Hint Resolve lt_active_quiet lt_snapshot_quiet lt_terminal_quiet lt_update_quiet lt_events_quiet
  lt_suppress_quiet lt_clear_quiet lt_suppressions_quiet lt_listeners_quiet
  lt_update_listener_quiet lt_health_quiet lt_attempts_quiet lt_record_quiet : quiet_db.

(** One quiet call, and the rest. *)
Lemma triple_quiet_bind {A B : Type} P (m : TransportM W A) (f : A → M B) R :
  quiet m → (∀ a, triple P (f a) R) → triple P (on_transport m ≫= f) R.
Proof. intros Hm Hf. eapply triple_bind; [by apply triple_quiet|done]. Qed.

Ltac quiet_step := apply triple_quiet_bind; [by auto with quiet_db|intros ?].

Lemma triple_fail_and_close s cr sr P :
  triple P (fail_and_close_session s cr sr : M ())
    (λ _ k, ∃ k0, P k0 ∧ k = delete (ss_session_id s) k0).
Proof.
  unfold fail_and_close_session, record_path_failure_event. do 2 quiet_step. apply triple_close.
Qed.

(** ** Loops over the sessions *)

Section owing.
Variable good : PeerId * option ProtocolId → Prop.

(** Every session is good or still to be looked at. *)
Definition owing (rest : list SessionSnapshot) (k : Who) : Prop :=
  ∀ id x, k !! id = Some x →
    good x ∨ ∃ s, s ∈ rest ∧ ss_session_id s = id ∧ session_of s = x.

(** The session at the front is good, if it is there as listed. *)
Lemma owing_front s rest k :
  owing (s :: rest) k →
  (k !! ss_session_id s = Some (session_of s) → good (session_of s)) → owing rest k.
Proof.
  intros Hk Hgood id x Hid. destruct (Hk id x Hid) as [?|(s' & Hs' & <- & <-)]; [auto|].
  apply elem_of_cons in Hs' as [->|Hs']; [auto|]. by eauto.
Qed.

Lemma owing_delete s rest k :
  owing (s :: rest) k → owing rest (delete (ss_session_id s) k).
Proof.
  intros Hk id x [Hne Hid]%lookup_delete_Some.
  destruct (Hk id x Hid) as [?|(s' & Hs' & Hid' & Hof)]; [auto|].
  apply elem_of_cons in Hs' as [->|Hs']; [done|]. by eauto.
Qed.

Lemma owing_delete_any id rest k : owing rest k → owing rest (delete id k).
Proof. intros Hk id' x [_ Hid]%lookup_delete_Some. by apply Hk. Qed.

Lemma owing_insert id x rest k : owing rest k → good x → owing rest (<[id := x]> k).
Proof.
  intros Hk Hgood id' x'. rewrite lookup_insert. case_decide as Heq; [|apply Hk].
  intros [= <-]. by left.
Qed.

Lemma owing_nil k id x : owing [] k → k !! id = Some x → good x.
Proof. intros Hk Hid. destruct (Hk id x Hid) as [?|(s & ?%elem_of_nil & _)]; done. Qed.

Lemma owing_listed l k :
  (∀ id x, k !! id = Some x ↔ ∃ s, s ∈ l ∧ ss_session_id s = id ∧ session_of s = x) → owing l k.
Proof. intros Hl id x Hid%Hl. by right. Qed.
End owing.

(** ** Enforcement *)

Section reevaluate.
Variables (state : DaemonState) (local_reason : option string) (mismatch : bool).

(** What the policy has nothing against. *)
Definition permitted (p : PeerId) (q : ProtocolId) : Prop :=
  local_reason = None ∧ allowed (explain_policy state p q) = true.
Definition permitted_session (x : PeerId * option ProtocolId) : Prop :=
  ∀ q, x.2 = Some q → permitted x.1 q.
Local Notation pending := (owing permitted_session).

Lemma permitted_of s q : ss_protocol s = Some q → permitted (ss_peer s) q → permitted_session (session_of s).
Proof. intros Hq Hperm q' Hq'. simpl in *. congruence. Qed.

Lemma enforcement_None p q : enforcement state local_reason mismatch p q = None → permitted p q.
Proof.
  unfold enforcement, permitted. destruct local_reason; [done|].
  destruct (allowed (explain_policy state p q)); [done|]. done.
Qed.

Lemma deny_session_pending s rest q enforced denied x :
  triple (pending (s :: rest)) (deny_session s q enforced denied mismatch x : M _)
    (λ _, pending rest).
Proof.
  unfold deny_session. do 4 quiet_step.
  eapply triple_bind; [apply triple_close|]. intros []. apply triple_ret.
  intros k (k0 & Hk & ->). by apply owing_delete.
Qed.

Lemma reroute_session_pending s rest q route cleared x :
  ss_protocol s = Some q → permitted (ss_peer s) q →
  rt_peer route = ss_peer s → rt_protocol route = Some q →
  triple (pending (s :: rest)) (reroute_session s q route cleared x : M _) (λ _, pending rest).
Proof.
  intros Hq Hperm Hp Hr. unfold reroute_session, session_event.
  destruct (ss_migration_capable s).
  - do 2 quiet_step. eapply triple_bind; [apply triple_migrate|].
    assert (∀ k k0, pending (s :: rest) k0 →
      k = k0 ∨ k = <[ss_session_id s := (rt_peer route, rt_protocol route)]> k0 →
      pending rest k) as Hins.
    { intros k k0 Hk0 Hk. apply owing_front in Hk0; [|intros _; by apply (permitted_of s q)].
      destruct Hk as [->| ->]; [done|]. rewrite Hp, Hr, <-Hq.
      apply owing_insert; [done|by apply (permitted_of s q)]. }
    intros [migrated|e]; cbn beta iota.
    + apply triple_ret. intros k (k0 & Hk0 & Hk). by eapply Hins.
    + eapply (triple_pre _ (pending rest)); [intros k (k0 & Hk0 & Hk); by eapply Hins|].
      eapply triple_bind; [apply triple_fail_and_close|]. intros [].
      quiet_step. apply triple_ret. intros k (k0 & Hk0 & ->). by apply owing_delete_any.
  - do 2 quiet_step. apply triple_ret. intros k Hk.
    eapply owing_front; [exact Hk|intros _; by apply (permitted_of s q)].
Qed.

Lemma route_plan_of p q c route :
  route_plan state p q c = Ok route → rt_peer route = p ∧ rt_protocol route = q.
Proof.
  unfold route_plan. intros (d & _ & Hr)%result_bind_Ok.
  apply result_bind_Ok in Hr as (i & _ & Hr). apply result_bind_Ok in Hr as (relay & _ & [= <-]).
  done.
Qed.

Lemma keep_session_pending s rest q x :
  ss_protocol s = Some q → permitted (ss_peer s) q →
  triple (pending (s :: rest)) (keep_session state s q x : M _) (λ _, pending rest).
Proof.
  intros Hq Hperm. unfold keep_session, session_event. do 2 quiet_step.
  destruct (route_plan state (ss_peer s) (Some q) (ss_class s)) as [route|e] eqn:Hroute.
  - destruct (session_matches_route s route).
    + eapply triple_bind with (Q := λ _, pending rest);
        [|intros _; by apply triple_ret].
      eapply triple_pre; [intros k Hk; eapply owing_front;
        [exact Hk|intros _; by apply (permitted_of s q)]|].
      destruct (bool_decide _); [|by apply triple_ret]. quiet_step. by apply triple_ret.
    + apply route_plan_of in Hroute as [Hp Hr]. by apply reroute_session_pending.
  - destruct e; try apply triple_throw.
    do 2 quiet_step. apply triple_ret. intros k Hk.
    eapply owing_front; [exact Hk|intros _; by apply (permitted_of s q)].
Qed.

Lemma reevaluate_session_pending s rest x :
  triple (pending (s :: rest)) (reevaluate_session state local_reason mismatch s x : M _)
    (λ _, pending rest).
Proof.
  unfold reevaluate_session. destruct (ss_protocol s) as [q|] eqn:Hq.
  - destruct (enforcement _ _ _ _ _) as [enforced|] eqn:He.
    + apply deny_session_pending.
    + apply enforcement_None in He. by apply keep_session_pending.
  - apply triple_ret. intros k Hk. eapply owing_front; [exact Hk|].
    intros _ q Hq'. simpl in Hq'. congruence.
Qed.

Lemma reevaluate_listener_quiet listener x P :
  triple P (reevaluate_listener state local_reason mismatch listener x : M _) (λ _, P).
Proof.
  unfold reevaluate_listener. destruct x as [[a b] c].
  destruct (bool_decide _); [by apply triple_ret|].
  destruct (or_else _ _).
  - quiet_step. destruct (_ && _); [by apply triple_ret|]. quiet_step. by apply triple_ret.
  - destruct (bool_decide _); [|by apply triple_ret]. quiet_step. by apply triple_ret.
Qed.
End reevaluate.

(** What a successful reevaluation leaves. *)
Lemma reevaluation_enforces identity (n n' : Node C W) report
    (Hok : lt_ok (node_transport n))
    (Hrun : reevaluate_runtime_authority config identity n = (Ok report, n')) :
  ∃ state, ensure_state config (node_files n) = (Ok state, node_files n') ∧
    lt_ok (node_transport n') ∧
    ∀ id p q, lt_who (node_transport n') !! id = Some (p, Some q) →
      local_policy_reason state (peer_id identity) = None ∧
      allowed (explain_policy state p q) = true.
Proof.
  apply bind_files_Ok in Hrun as (state & fs & Hst & Hrun). exists state.
  set (local := local_policy_reason state (peer_id identity)) in Hrun.
  eapply (triple_run (λ _, True) _ (λ _ k, owing (permitted_session state local) [] k)) in Hrun as (Hok' & Hfs & HQ);
    [|clear Hrun|exact Hok|done].
  - rewrite Hfs. split_and!; [exact Hst|exact Hok'|]. intros id p q Hid.
    exact (owing_nil _ _ _ _ HQ Hid q eq_refl).
  - do 2 quiet_step.
    eapply triple_bind; [apply triple_active|]. intros sessions.
    eapply triple_bind.
    { eapply triple_pre; [|apply (triple_for _ _ _ (λ rest _, owing (permitted_session state local) rest))].
      - intros k [_ Hk]. by apply owing_listed.
      - intros s rest x. apply reevaluate_session_pending. }
    intros x. quiet_step. eapply triple_bind.
    { apply (triple_for _ _ _ (λ _ _, owing (permitted_session state local) [])).
      intros listener rest y. apply reevaluate_listener_quiet. }
    intros y. quiet_step. by apply triple_ret.
Qed.

(** C17.  After a successful reevaluation, on any transport that keeps its
    laws, every session with a negotiated protocol is one the policy of the
    daemon's state allows, and there is none at all when the local peer itself
    may not take part; the state file is only read. *)
Theorem reevaluation_enforces_policy identity (n n' : Node C W) report
    (Hok : lt_ok (node_transport n))
    (Hrun : reevaluate_runtime_authority config identity n = (Ok report, n')) :
  ∃ state, ensure_state config (node_files n) = (Ok state, node_files n') ∧
    lt_ok (node_transport n') ∧
    ∀ id p q, lt_who (node_transport n') !! id = Some (p, Some q) →
      local_policy_reason state (peer_id identity) = None ∧
      allowed (explain_policy state p q) = true.
Proof. by eapply reevaluation_enforces. Qed.

(** ** Reconciliation *)

Lemma triple_snapshot id P :
  triple P (on_transport (lt_session_snapshot id) : M _)
    (λ o k, P k ∧ session_of <$> o = k !! id ∧ ∀ s, o = Some s → ss_session_id s = id).
Proof.
  intros n Hok HP. destruct (lt_snapshot_quiet id _ Hok) as [Hok' Hw]. unfold on_transport.
  pose proof (λ o, lt_snapshot_of _ id o Hok) as Hl.
  destruct (lt_session_snapshot id (node_transport n)) as [r w]; simpl in *.
  split_and!; [done|done|]. intros o Hr. destruct r as [o'|]; [|done]. injection Hr as ->.
  rewrite Hw. split; [done|]. by apply Hl.
Qed.

Section reconcile.
Variables (state : DaemonState) (total : nat).

(** A session with a protocol the policy allows. *)
Definition sanctioned (x : PeerId * option ProtocolId) : Prop :=
  ∃ q, x.2 = Some q ∧ allowed (explain_policy state x.1 q) = true.

(** The loop has the state it started with, but for its sessions, and accounts
    for every session it has seen. *)
Record tallied (rest : list SessionSnapshot) (g : Reconciling) : Prop := {
  rcd_state : ∃ l, rg_state g = with_sessions l state;
  rcd_sum : (rg_unchanged g + rg_upgraded g + rg_closed g)%Z = list_len (rg_entries g);
  rcd_total : length (rg_entries g) + length rest = total;
}.
Definition reconciled (rest : list SessionSnapshot) (g : Reconciling) (k : Who) : Prop :=
  tallied rest g ∧ owing sanctioned rest k.

Lemma list_len_snoc {A : Type} (l : list A) x : list_len (l ++ [x]) = (list_len l + 1)%Z.
Proof. unfold list_len. rewrite length_app. simpl. lia. Qed.

(** The three ways to account for a session. *)
Lemma tallied_count listed s why rest g f :
  f = rg_close s why ∨ f = rg_keep s why ∨ (∃ m next, f = rg_upgrade s m next why) →
  tallied (listed :: rest) g → tallied rest (f g).
Proof.
  intros Hf [(l & Hs) Hsum Htot]. simpl in Htot.
  destruct Hf as [->|[->|(m & next & ->)]]; split; simpl;
    rewrite ?Hs, ?list_len_snoc, ?length_app; simpl; try lia; by eexists.
Qed.

Lemma triple_after {A : Type} (P P' : Who → Prop) (m : M A) (g g' : Reconciling) listed rest :
  (tallied (listed :: rest) g → tallied rest g') →
  (∀ k, P k → tallied (listed :: rest) g) → triple P m (λ _, P') →
  (∀ k, P' k → owing sanctioned rest k) →
  triple P (_ ← m; mret g') (reconciled rest).
Proof.
  intros Ht HP Hm HP' n Hok Hk. destruct (Hm n Hok Hk) as (Hok' & Hfs & HQ).
  unfold mbind, node_bind. destruct (m n) as [[a|e] n']; simpl in *; [|done].
  split_and!; [done|done|]. intros g1 [= <-]. split; [by eapply Ht, HP|by eapply HP', HQ].
Qed.

(** What is known once the listed session has been found. *)
Definition found (listed s : SessionSnapshot) (rest : list SessionSnapshot) (g : Reconciling)
    (k : Who) : Prop :=
  tallied (listed :: rest) g ∧ owing sanctioned (s :: rest) k.

Lemma found_fail_and_close listed s rest g cr sr :
  triple (found listed s rest g) (_ ← fail_and_close_session s cr sr; mret (rg_close s sr g) : M _)
    (reconciled rest).
Proof.
  eapply triple_after; [eapply tallied_count; by left|by intros k [? _]|apply triple_fail_and_close|].
  intros k (k0 & [_ Hk0] & ->). by apply owing_delete.
Qed.

Lemma reconcile_session_step listed rest g :
  triple (reconciled (listed :: rest) g) (reconcile_session listed g : M _) (reconciled rest).
Proof.
  unfold reconcile_session. quiet_step.
  eapply triple_bind; [apply triple_snapshot|]. intros [s|]; cbn beta iota.
  2: { apply triple_ret. intros k ((Ht & Hk) & Hnone & _).
       split; [eapply tallied_count, Ht; by left|].
       eapply owing_front; [apply Hk|]. by rewrite <-Hnone. }
  eapply (triple_pre _ (found listed s rest g)).
  { intros k ((Ht & Hk) & Hsome & Hid). specialize (Hid s eq_refl).
    split; [exact Ht|]. intros id x Hx. destruct (Hk id x Hx) as [?|(s' & Hs' & <- & <-)]; [auto|].
    right. apply elem_of_cons in Hs' as [->|Hs']; [|exists s'; by rewrite elem_of_cons; auto].
    exists s. rewrite elem_of_cons. split_and!; [auto|done|].
    simpl in Hsome. congruence. }
  destruct (ss_protocol s) as [q|] eqn:Hq; [|apply found_fail_and_close].
  destruct (allowed (explain_policy (rg_state g) (ss_peer s) q)) eqn:Hpol; cbn [negb].
  2: { quiet_step. eapply triple_after; [eapply tallied_count; by left|by intros k [? _]|apply triple_close|].
       intros k (k0 & [_ Hk0] & ->). by apply owing_delete. }
  assert (∀ k, found listed s rest g k → sanctioned (session_of s)) as Hgood.
  { intros k [[(l & Hl) _ _] _]. exists q. rewrite Hl in Hpol. by split. }
  destruct (route_plan (rg_state g) (ss_peer s) (Some q) (ss_class s)) as [route|e] eqn:Hroute.
  2: { destruct e; try apply triple_throw. apply found_fail_and_close. }
  apply route_plan_of in Hroute as [Hp Hr].
  destruct (session_matches_route s route).
  { eapply triple_after; [eapply tallied_count; by right; left|by intros k [? _]|
      apply triple_quiet; by auto with quiet_db|].
    intros k Hk. eapply owing_front; [apply Hk|intros _; by eapply Hgood]. }
  quiet_step. eapply triple_bind; [apply triple_migrate|].
  assert (∀ k, (∃ k0, found listed s rest g k0 ∧
      (k = k0 ∨ k = <[ss_session_id s := (rt_peer route, rt_protocol route)]> k0)) →
    found listed s rest g k ∧ owing sanctioned rest k) as Hmig.
  { intros k (k0 & Hf & Hk).
    assert (owing sanctioned rest k0) as Hk0
      by (eapply owing_front; [apply Hf|intros _; by eapply Hgood]).
    assert (owing sanctioned rest k) as Hrest.
    { destruct Hk as [->| ->]; [done|]. rewrite Hp, Hr, <-Hq.
      apply owing_insert; [done|by eapply Hgood]. }
    split; [|exact Hrest]. split; [apply Hf|]. intros id x Hx.
    destruct (Hrest id x Hx) as [?|(s' & Hs' & ?)]; [auto|]. right. exists s'.
    rewrite elem_of_cons. auto. }
  intros [migrated|e]; cbn beta iota.
  - apply triple_ret. intros k Hk. destruct (Hmig k Hk) as [[Ht _] Ho].
    split; [eapply tallied_count, Ht; right; right; by eexists _, _|exact Ho].
  - eapply (triple_pre _ (found listed s rest g)); [intros k Hk; by apply Hmig|].
    apply found_fail_and_close.
Qed.
End reconcile.

(** What a successful reconciliation leaves. *)
Lemma reconcile_effect (n n' : Node C W) report
    (Hok : lt_ok (node_transport n))
    (Hrun : reconcile_sessions config n = (Ok report, n')) :
  ∃ state fs sessions l, ensure_state config (node_files n) = (Ok state, fs) ∧
    (lt_active_sessions (node_transport n)).1 = Ok sessions ∧
    rc_examined report = list_len sessions ∧
    (rc_unchanged report + rc_upgraded report + rc_closed report)%Z = rc_examined report ∧
    list_len (rc_entries report) = rc_examined report ∧
    (∀ id p q, lt_who (node_transport n') !! id = Some (p, q) →
      ∃ protocol, q = Some protocol ∧ allowed (explain_policy state p protocol) = true) ∧
    lt_ok (node_transport n') ∧
    node_files n' = daemon_save (with_sessions l state) (cfg_state_path config) fs.
Proof.
  apply bind_files_Ok in Hrun as (state & fs & Hst & Hrun). exists state, fs.
  destruct (lt_active_sessions (node_transport n)) as [[sessions|e] w] eqn:Hact.
  2: { exfalso. unfold mbind, node_bind, on_transport in Hrun. simpl in Hrun.
       by rewrite Hact in Hrun. }
  assert (∃ g n1, rg_state g = rg_state g ∧
    node_for sessions reconcile_session {|
      rg_state := state; rg_unchanged := 0; rg_upgraded := 0; rg_closed := 0; rg_entries := [] |}
      (mk_Node fs w) = (Ok g, n1) ∧
    (_ ← save_sessions config (rg_state g);
     mret {| rc_examined := list_len (rg_entries g); rc_unchanged := rg_unchanged g;
             rc_upgraded := rg_upgraded g; rc_closed := rg_closed g;
             rc_entries := rg_entries g |} : M _) n1 = (Ok report, n'))
    as (g & n1 & _ & Hloop & Hend).
  { unfold mbind at 1, node_bind at 1, on_transport at 1 in Hrun. simpl in Hrun.
    rewrite Hact in Hrun. simpl in Hrun. unfold mbind at 1, node_bind at 1 in Hrun.
    destruct (node_for _ _ _ _) as [[g|e] n1]; [|done]. by exists g, n1. }
  destruct (lt_active_quiet (node_transport n) Hok) as [Hok' Hw]. rewrite Hact in Hok', Hw.
  simpl in Hok', Hw.
  eapply (triple_run _ _ (reconciled state (length sessions) [])) in Hloop
    as (Hok1 & Hfs1 & [[Hs Hsum Htot] Howe]);
    [|apply (triple_for _ _ _ (reconciled state (length sessions)));
      intros s rest g0; apply reconcile_session_step|exact Hok'|].
  2: { split; [split; [by exists (ds_active_sessions state); destruct state|done|done]|].
       apply owing_listed. intros id x. simpl. rewrite Hw.
       eapply lt_active_lists; [exact Hok|]. by rewrite Hact. }
  assert (∃ l, lt_who (node_transport n') = lt_who (node_transport n1) ∧
    lt_ok (node_transport n') ∧
    node_files n' = daemon_save (with_sessions l (rg_state g)) (cfg_state_path config) (node_files n1) ∧
    report = {| rc_examined := list_len (rg_entries g); rc_unchanged := rg_unchanged g;
      rc_upgraded := rg_upgraded g; rc_closed := rg_closed g; rc_entries := rg_entries g |})
    as (l & Hwho & Hok2 & Hfs & ->).
  { revert Hend. destruct (lt_active_quiet (node_transport n1) Hok1) as [Hok2 Hw1].
    unfold save_sessions, plane_save, mbind, node_bind, on_transport, on_files, filem_write.
    destruct (lt_active_sessions (node_transport n1)) as [[l|e] w1]; simpl in *; [|done].
    intros [= <- <-]. by exists l. }
  exists sessions, l. destruct Hs as (l0 & Hs). split_and!; try done.
  - simpl. unfold list_len. simpl in Htot. f_equal. lia.
  - rewrite Hwho. intros id p q Hid. destruct (owing_nil _ _ _ _ Howe Hid) as (protocol & Hq & Ha).
    by exists protocol.
  - by rewrite Hfs, Hfs1, Hs.
Qed.

(** C18.  A successful reconciliation examines every session of the transport
    once and accounts for each as unchanged, upgraded or closed; afterwards
    every session has a negotiated protocol that the policy of the daemon's
    state allows with its peer. *)
Theorem reconcile_sessions_contract (n n' : Node C W) report
    (Hok : lt_ok (node_transport n))
    (Hrun : reconcile_sessions config n = (Ok report, n')) :
  ∃ state fs sessions, ensure_state config (node_files n) = (Ok state, fs) ∧
    (lt_active_sessions (node_transport n)).1 = Ok sessions ∧
    rc_examined report = list_len sessions ∧
    (rc_unchanged report + rc_upgraded report + rc_closed report)%Z = rc_examined report ∧
    list_len (rc_entries report) = rc_examined report ∧
    ∀ id p q, lt_who (node_transport n') !! id = Some (p, q) →
      ∃ protocol, q = Some protocol ∧ allowed (explain_policy state p protocol) = true.
Proof.
  destruct (reconcile_effect n n' report Hok Hrun) as (state & fs & sessions & l & Hrec).
  exists state, fs, sessions. tauto.
Qed.

(** ** Health *)

Lemma bind_Ok {A B : Type} (m : M A) (f : A → M B) n b n' :
  (m ≫= f) n = (Ok b, n') → ∃ a n1, m n = (Ok a, n1) ∧ f a n1 = (Ok b, n').
Proof. unfold mbind, node_bind. destruct (m n) as [[a|e] n1]; [eauto|done]. Qed.

Lemma quiet_Ok {A : Type} (m : TransportM W A) n a n1 :
  quiet m → lt_ok (node_transport n) → (on_transport m : M A) n = (Ok a, n1) →
  (m (node_transport n)).1 = Ok a ∧ lt_ok (node_transport n1) ∧
  lt_who (node_transport n1) = lt_who (node_transport n).
Proof.
  intros Hm Hok Hrun. destruct (Hm _ Hok) as [Hok' Hw]. unfold on_transport in Hrun.
  destruct (m (node_transport n)) as [r w]. simpl in *. destruct r; [|done].
  by injection Hrun as <- <-.
Qed.

Lemma runtime_paths_count n paths n' :
  lt_ok (node_transport n) → runtime_paths config n = (Ok paths, n') →
  (Z.of_nat (size (lt_who (node_transport n))) <=
   count (λ path, bool_decide (is_Some (ps_session_id path))) paths)%Z.
Proof.
  intros Hok Hrun. apply bind_files_Ok in Hrun as (state & fs & _ & Hrun).
  apply bind_Ok in Hrun as (sessions & n1 & Hs & Hrun).
  apply quiet_Ok in Hs as (Hs & _ & _); [|by auto with quiet_db|exact Hok].
  apply lt_active_count in Hs; [|exact Hok]. simpl in Hs. rewrite <-Hs.
  apply bind_Ok in Hrun as (suppressions & n2 & _ & Hrun).
  apply bind_Ok in Hrun as (attempts & n3 & _ & Hrun).
  apply bind_Ok in Hrun as (terminal & n4 & _ & [= <- _]).
  apply count_session_paths.
Qed.

Lemma rollup_four a b c d :
  runtime_rollup_health [a; b; c; d] = HealthReady ↔
  a = HealthReady ∧ b = HealthReady ∧ c = HealthReady ∧ d = HealthReady.
Proof. destruct a, b, c, d; cbn; naive_solver. Qed.

(** C28.  The health report counts at least as many active paths as sessions,
    ended sessions included, so that the path manager is reported ready
    whatever happens to the paths; the daemon is ready exactly when the local
    peer is the authority's subject and not denied, both registries are
    healthy and no reconnect is going on, suppressed or exhausted. *)
Theorem runtime_health_contract (n n' : Node C W) report
    (Hok : lt_ok (node_transport n)) (Hrun : runtime_health config n = (Ok report, n')) :
  ∃ state fs h, ensure_state config (node_files n) = (Ok state, fs) ∧
    (lt_transport_health (node_transport n)).1 = Ok h ∧
    hr_active_sessions report = Z.of_nat (size (lt_who (node_transport n))) ∧
    (hr_active_sessions report <= hr_active_paths report)%Z ∧
    hr_path_manager_health report = HealthReady ∧
    (hr_daemon_readiness report = HealthReady ↔
       local_policy_reason state (ds_local_peer_id state) = None ∧
       th_session_registry_healthy h = true ∧ th_listener_registry_healthy h = true ∧
       th_reconnect_state h = ReconnectIdle).
Proof.
  apply bind_files_Ok in Hrun as (state & fs & Hst & Hrun). exists state, fs.
  apply bind_Ok in Hrun as (h & n1 & Hh & Hrun).
  apply quiet_Ok in Hh as (Hh & Hok1 & Hw1); [|by auto with quiet_db|exact Hok].
  simpl in Hh, Hw1. exists h. split; [exact Hst|]. split; [exact Hh|].
  apply lt_health_count in Hh; [|exact Hok].
  apply bind_Ok in Hrun as (listeners & n2 & Hl & Hrun).
  apply bind_files_Ok in Hl as (state2 & fs2 & _ & Hl).
  apply bind_Ok in Hl as (ls & n2' & Hls & [= <- <-]).
  apply quiet_Ok in Hls as (_ & Hok2 & Hw2); [|by auto with quiet_db|exact Hok1].
  simpl in Hw2.
  apply bind_Ok in Hrun as (paths & n3 & Hp & [= <- <-]).
  apply runtime_paths_count in Hp; [|exact Hok2]. rewrite Hw2, Hw1 in Hp.
  set (active := count _ paths) in *. unfold health_report.
  cbn [hr_active_sessions hr_active_paths hr_path_manager_health hr_daemon_readiness].
  assert ((if (0 <? th_active_sessions h)%Z && (active =? 0)%Z then HealthFailed
    else if (active <? th_active_sessions h)%Z then HealthDegraded else HealthReady) = HealthReady)
    as Hpm.
  { rewrite Hh. destruct (Z.ltb_spec 0 (Z.of_nat (size (lt_who (node_transport n)))));
      destruct (Z.eqb_spec active 0); simpl; try lia;
      destruct (Z.ltb_spec active (Z.of_nat (size (lt_who (node_transport n))))); try done; lia. }
  split_and!; [exact Hh|lia|exact Hpm|].
  rewrite Hpm, rollup_four. unfold local_policy_reason.
  destruct (bool_decide (mc_subject_peer_id (ds_membership state) = ds_local_peer_id state));
    cbn [negb if_subject_mismatch]; destruct (deny_reason state (ds_local_peer_id state));
    destruct (th_session_registry_healthy h), (th_listener_registry_healthy h),
      (th_reconnect_state h); cbn; naive_solver.
Qed.
End runtime.
