(* ===== verification/EndToEnd.v ===== *)
(** A daemon and the authority it synchronizes with: the requests of the one
    answered by the request routing of the other. *)
From stdpp Require Import countable option base relations list strings gmap pretty sorting.
From Stdlib Require Import ZArith Lia Strings.Byte Strings.Ascii.
From S2P Require Import Prelude Text BTree F32 External Model Crypto Records Netcheck Scheduler PeerStore Discovery Policy Routing RelayWire Transport Membership Control ControlFetch Authority AuthorityProps Fabric FabricProps Durable FabricPlane DurableProps FabricPlaneProps.

(** What the server sends is what the client decodes, or an error. *)
#[export] Instance authority_json : ControlJson AuthorityBody := {|
  json_snapshot b := match b with BodySnapshot s => Ok s | _ => Err "invalid type" end;
  json_hints b := match b with BodyHints l => Ok l | _ => Err "invalid type" end;
  json_revocations b := match b with BodyRevocations l => Ok l | _ => Err "invalid type" end;
  json_relay_map b := match b with BodyRelays m => Ok m | _ => Err "invalid type" end;
|}.

Section web.
Context `{Blake3, Varint, Base32, Curves, ArtifactJson}.

(** An authority that listens at [origin]; its answers come from the state it
    has loaded. *)
Definition authority_web (now : Z) (state : AuthorityState) (origin url : string)
    : HttpReply AuthorityBody :=
  match strip_prefix (trim_end_matches "/"%char origin) url with
  | Some target =>
      let '(code, body) := route_request now state true target in
      if (code =? 200)%Z then HttpOk body else HttpStatus code "status code"
  | None => HttpFailed "connection refused"
  end.

Lemma authority_web_at now state origin target :
  authority_web now state origin (trim_end_matches "/"%char origin +:+ target) =
  let '(code, body) := route_request now state true target in
  if (code =? 200)%Z then HttpOk body else HttpStatus code "status code".
Proof. unfold authority_web. by rewrite strip_prefix_app. Qed.

Lemma fetch_revocations_from now state network origin n :
  authority_wf state → in_u64 n →
  fetch_revocations (authority_web now state origin) (authority_client network origin) (Some n) =
  Ok (drop (Z.to_nat n) (st_revocations state)).
Proof.
  intros Hs Hn. unfold fetch_revocations, fetch. cbn [authority_client from_origin cc_endpoints ae_revocation].
  change (endpoint_with_after_sequence (trim_end_matches "/"%char origin +:+ "/revoke") (Some n))
    with ((trim_end_matches "/"%char origin +:+ "/revoke") +:+ "?after_sequence=" +:+ pretty n).
  rewrite string_app_assoc, authority_web_at.
  pose proof (revocations_served now state n Hs Hn) as Hr.
  change (endpoint_with_after_sequence "/revoke" (Some n))
    with ("/revoke" +:+ "?after_sequence=" +:+ pretty n) in Hr. by rewrite Hr.
Qed.

Lemma fetch_all_revocations now state network origin :
  fetch_revocations (authority_web now state origin) (authority_client network origin) None =
  Ok (st_revocations state).
Proof.
  unfold fetch_revocations, fetch, endpoint_with_after_sequence.
  cbn [authority_client from_origin cc_endpoints ae_revocation].
  rewrite authority_web_at. unfold filtered_revocations, route_request. cbn.
  unfold filtered_revocations. f_equal. by induction (st_revocations state) as [|r l IH]; cbn; rewrite ?IH.
Qed.

(** The highest number among consecutive ones. *)
Lemma foldl_max_seq n m : (0 ≤ n)%Z → foldl Z.max n (seqZ (Z.succ n) (Z.of_nat m)) = (n + Z.of_nat m)%Z.
Proof.
  revert n. induction m as [|m IH]; intros n Hn; [simpl; lia|].
  rewrite seqZ_cons by lia. replace (Z.pred (Z.of_nat (S m))) with (Z.of_nat m) by lia.
  cbn [foldl]. rewrite Z.max_r by lia. rewrite IH by lia. lia.
Qed.

Lemma max_revocation_sequence_prefix s l k :
  rr_sequence <$> l = seqZ 1 (Z.of_nat (length l)) → ds_revocations s = take k l →
  max_revocation_sequence s =
  match take k l with [] => None | _ => Some (Z.of_nat (length (take k l))) end.
Proof.
  intros Hl Hs. unfold max_revocation_sequence. rewrite Hs.
  assert (rr_sequence <$> take k l = seqZ 1 (Z.of_nat (length (take k l)))) as Hseq.
  { assert (∀ m j (l : list RevocationRecord), rr_sequence <$> l = seqZ m (Z.of_nat (length l)) →
      rr_sequence <$> take j l = seqZ m (Z.of_nat (length (take j l)))) as Hg.
    { clear. intros m j l. revert m j. induction l as [|r l IH]; intros m [|j] Hl; try done.
      rewrite fmap_cons in Hl. simpl length in Hl. rewrite seqZ_cons in Hl by lia.
      injection Hl as Hr Hl. replace (Z.pred (Z.of_nat (S (length l)))) with (Z.of_nat (length l))
        in Hl by lia.
      cbn [take length fmap list_fmap]. rewrite seqZ_cons by lia.
      replace (Z.pred (Z.of_nat (S (length (take j l))))) with (Z.of_nat (length (take j l))) by lia.
      rewrite Hr. f_equal. by apply IH. }
    by apply Hg. }
  destruct (take k l) as [|r l'] eqn:Ht; [done|]. rewrite Hseq. simpl length.
  rewrite seqZ_cons by lia.
  replace (Z.pred (Z.of_nat (S (length l')))) with (Z.of_nat (length l')) by lia.
  change 1%Z with (1 + 0)%Z at 1. rewrite foldl_max_seq by lia. f_equal. lia.
Qed.

(** What a client that holds the first revocations of an authority fetches. *)
Lemma fetch_missing_revocations now sa network origin s k :
  authority_wf sa → (Z.of_nat (length (st_revocations sa)) <= u64_max)%Z →
  ds_revocations s = take k (st_revocations sa) →
  fetch_revocations (authority_web now sa origin) (authority_client network origin)
    (max_revocation_sequence s) = Ok (drop k (st_revocations sa)).
Proof.
  intros Hsa Hroom Hs.
  rewrite (max_revocation_sequence_prefix s (st_revocations sa) k (proj1 (core_revocations _ Hsa)) Hs).
  destruct (take k (st_revocations sa)) as [|r l] eqn:Ht.
  - rewrite fetch_all_revocations. rewrite <-(take_drop k (st_revocations sa)) at 1. by rewrite Ht.
  - rewrite fetch_revocations_from; [|done|].
    + rewrite Nat2Z.id, <-Ht, length_take.
      destruct (decide (k <= length (st_revocations sa))).
      * by rewrite Nat.min_l by done.
      * rewrite Nat.min_r by lia. by rewrite !drop_ge by lia.
    + split; [lia|]. rewrite <-Ht, length_take. lia.
Qed.

Context {C : Type} `{!StateFormat C, !StateFormatLaws C}.

(** The synchronization, and the state it leaves in memory and in the file. *)
Lemma revocations_synced config now sa origin (fs : Files C) s k :
  authority_wf sa → (Z.of_nat (length (st_revocations sa)) <= u64_max)%Z →
  plane_inv config fs → daemon_load (cfg_state_path config) fs = Ok s →
  ds_revocations s = take k (st_revocations sa) →
  ∃ s' s1, sync_authority_revocations_origin (authority_web now sa origin) config origin fs =
      (Ok (s', list_len (drop k (st_revocations sa))), daemon_save s' (cfg_state_path config) fs) ∧
    daemon_load (cfg_state_path config) (daemon_save s' (cfg_state_path config) fs) = Ok s1 ∧
    ds_revocations s1 = st_revocations sa ∧
    ds_revocations s' = st_revocations sa ∧ daemon_wf s' ∧ daemon_wf s1.
Proof.
  intros Hsa Hroom Hinv Hload Hprefix.
  set (st := with_roles (cfg_roles config) (rebuild (with_roles (cfg_roles config) s))).
  set (s' := (apply_revocations st (drop k (st_revocations sa))).1).
  assert (merge_revocations (take k (st_revocations sa)) (drop k (st_revocations sa)) =
    (st_revocations sa, list_len (drop k (st_revocations sa)))) as Hmerge.
  { rewrite merge_revocations_fresh; rewrite take_drop; [done|].
    exact (numbered_NoDup _ _ _ (core_revocations _ Hsa)). }
  assert (apply_revocations st (drop k (st_revocations sa)) =
    (s', list_len (drop k (st_revocations sa)))) as Happly.
  { unfold s', apply_revocations. change (ds_revocations st) with (ds_revocations s).
    by rewrite Hprefix, Hmerge. }
  assert (ds_revocations s' = st_revocations sa) as Hrevs.
  { unfold s', apply_revocations. change (ds_revocations st) with (ds_revocations s).
    by rewrite Hprefix, Hmerge. }
  assert (current s') as Hcur.
  { destruct (Hinv s Hload) as [Hwf Hv].
    assert (current st) as Hst.
    { split; [|exact Hv]. eapply daemon_step_wf; [|apply step_roles].
      eapply daemon_step_wf; [|apply step_rebuild].
      eapply daemon_step_wf; [exact Hwf|apply step_roles]. }
    eapply current_step; [exact Hst|apply step_revocations|].
    unfold s', apply_revocations.
    destruct (merge_revocations (ds_revocations st) _). reflexivity. }
  destruct (save_current config s' fs Hcur) as [Hl Hcur1].
  exists s', (with_sessions [] s'). split_and!; try done; [|apply Hcur|apply Hcur1].
  unfold sync_authority_revocations_origin, ensure_state, plane_exists, plane_load.
  cbv [mbind filem_bind filem_read mret filem_ret].
  rewrite (load_exists config fs s Hload), Hload. cbv beta iota zeta. fold st.
  cbv [fetched filem_lift].
  rewrite (fetch_missing_revocations now sa (cfg_network config) origin st k Hsa Hroom Hprefix).
  cbn [map_err]. rewrite Happly. reflexivity.
Qed.

(** C10.  A daemon whose state file holds the first revocations of an
    authority, and that asks that authority for the missing ones, ends with
    all of them, in the state it returns and in the file; whatever operations
    the state goes through from then on, it denies every peer any of them
    names. *)
Theorem daemon_follows_authority config now sa origin (fs : Files C) s k
    (Hsa : authority_wf sa) (Hroom : (Z.of_nat (length (st_revocations sa)) <= u64_max)%Z)
    (Hinv : plane_inv config fs) (Hload : daemon_load (cfg_state_path config) fs = Ok s)
    (Hprefix : ds_revocations s = take k (st_revocations sa)) :
  ∃ s' s1, sync_authority_revocations_origin (authority_web now sa origin) config origin fs =
      (Ok (s', list_len (drop k (st_revocations sa))), daemon_save s' (cfg_state_path config) fs) ∧
    daemon_load (cfg_state_path config) (daemon_save s' (cfg_state_path config) fs) = Ok s1 ∧
    ds_revocations s' = st_revocations sa ∧ ds_revocations s1 = st_revocations sa ∧
    (∀ r p protocol s2, r ∈ st_revocations sa → rr_target r = TargetPeer p →
       rtc daemon_step s' s2 ∨ rtc daemon_step s1 s2 →
       allowed (explain_policy s2 p protocol) = false).
Proof.
  destruct (revocations_synced config now sa origin fs s k Hsa Hroom Hinv Hload Hprefix)
    as (s' & s1 & Hsync & Hl & Hrevs1 & Hrevs & Hwf & Hwf1).
  exists s', s1. split_and!; try done.
  - intros r p protocol s2 Hr Ht Hst.
    assert (daemon_wf s2 ∧ r ∈ ds_revocations s2) as [Hwf2 Hr2].
    { destruct Hst as [Hst|Hst];
        (split; [by eapply daemon_steps_wf, Hst|]);
        destruct (adv_revocations _ _ (daemon_steps_advance _ _ Hst)) as [l Hpre];
        rewrite Hpre; apply elem_of_app; left; 
        rewrite ?Hrevs, ?Hrevs1; exact Hr. }
    by eapply revoked_peer_denied.
Qed.
End web.

Section witnesses.
Import External.Demo DemoFiles.
#[local] Existing Instance demo_authority_json.

Definition demo_config : DaemonConfig := DaemonConfig_new "net" "state.json".
Definition demo_fs (s : DaemonState) : Files Contents := daemon_save s "state.json" ∅.

(** The daemon of the scenario, in its file. *)
Lemma demo_file :
  ∃ s s1, demo_both = Some (s, s1) ∧ plane_inv demo_config (demo_fs s) ∧
    daemon_load "state.json" (demo_fs s) = Ok (with_sessions [] s) ∧ ds_revocations s = [].
Proof.
  destruct demo_daemon_facts as (old & s & new & s1 & report & sa & Hseed & _ & _ & _ & _ & Hb).
  assert (ds_revocations ∘ fst <$> demo_both = Some []) as Hr by (vm_compute; reflexivity).
  rewrite Hb in Hr. injection Hr as Hr.
  pose proof (current_from_snapshot (DaemonConfig_new "net" "") _ _ _ Hseed) as Hc.
  destruct (save_current (C := Contents) demo_config s ∅ Hc) as [Hl Hc'].
  exists s, s1. split_and!; [exact Hb| |exact Hl|exact Hr].
  intros s' Hs'. assert (Ok (with_sessions [] s) = Ok s') as [= <-] by (rewrite <-Hl; exact Hs').
  exact Hc'.
Qed.

Lemma daemon_follows_authority_witness :
  ∃ s sa s', demo_state (demo_before ++ demo_after) = Some sa ∧
    sync_authority_revocations_origin (authority_web 7 sa "http://a/") demo_config "http://a/"
      (demo_fs s) =
      (Ok (s', list_len (drop 0 (st_revocations sa))), daemon_save s' "state.json" (demo_fs s)) ∧
    ds_revocations s' = st_revocations sa.
Proof.
  destruct demo_file as (s & s1 & _ & Hinv & Hload & Hrevs).
  destruct (demo_state_exists (demo_before ++ demo_after)) as [sa Hsa]; [by vm_compute|].
  destruct (demo_state_room (demo_before ++ demo_after) sa eq_refl Hsa) as [Hwf _].
  assert (length ∘ st_revocations <$> demo_state (demo_before ++ demo_after) = Some 1) as Hlen
    by (vm_compute; reflexivity).
  rewrite Hsa in Hlen. injection Hlen as Hlen.
  assert (Z.of_nat (length (st_revocations sa)) <= u64_max)%Z as Hroom
    by (rewrite Hlen; vm_compute; discriminate).
  destruct (daemon_follows_authority demo_config 7 sa "http://a/" (demo_fs s)
    (with_sessions [] s) 0 Hwf Hroom Hinv Hload Hrevs) as (s' & s2 & Hsync & _ & Hr & _).
  exists s, sa, s'. split; [exact Hsa|]. split; [exact Hsync|exact Hr].
Defined.

Lemma state_file_never_rolls_back_witness :
  ∃ s s1 s', demo_both = Some (s, s1) ∧
    daemon_load "state.json"
      (run_plane demo_config (λ _ : string, HttpFailed "down" : HttpReply AuthorityBody)
         (OpReprobe "wifi") (demo_fs s)) = Ok s' ∧
    daemon_advances (with_sessions [] s) s'.
Proof.
  destruct demo_file as (s & s1 & Hb & Hinv & Hload & _).
  destruct (state_file_never_rolls_back demo_config
    [((λ _, HttpFailed "down") : string → HttpReply AuthorityBody, OpReprobe "wifi")]
    (demo_fs s) (with_sessions [] s) Hinv Hload) as (_ & s' & Hl & _ & Hadv).
  exists s, s1, s'. split; [exact Hb|]. split; [exact Hl|exact Hadv].
Defined.
End witnesses.
