(* ===== verification/FabricQuic.v ===== *)
(** The Quic adapter as the daemon's transport: its operations implement the
    interface of FabricRuntime, and keep its laws, so that the theorems of
    FabricRuntimeProps hold of a daemon over the adapter. *)
From stdpp Require Import countable option base list strings gmap pretty.
From Stdlib Require Import ZArith Lia Strings.Byte.
From S2P Require Import Prelude Text BTree F32 External Model Crypto Records Identity Netcheck Scheduler PeerStore Policy Routing RelayWire Relay Transport Membership Calendar Quic QuicProps Control Authority AuthorityProps Fabric FabricProps FabricPaths Durable FabricPlane FabricRuntime DurableProps FabricPathsProps FabricPlaneProps FabricRuntimeProps EndToEnd.

Section adapter.
Context `{Blake3, Varint, Base32, Curves, JsonBytes SessionCredentialUnsigned}.
Context {R : Type} `{RelayControl R} (clock : nat → Z) (rng : nat → nat → bytes).
Notation M := (M R).

(* crates/quic/src/lib.rs:182-759 SessionLifecycleTransport for QuicTransportAdapter *)
Definition quic_transport : LifecycleTransport (World R) := {|
  lt_connect route := handle ← connect clock rng route; mret (ch_session handle);
  lt_active_sessions := active_sessions;
  lt_session_snapshot := session_snapshot;
  lt_recent_terminal_sessions := recent_terminal_sessions;
  lt_update_session_state := update_session_state clock;
  lt_recent_events := recent_events;
  lt_suppress_reconnect := suppress_reconnect clock;
  lt_clear_reconnect_suppression := clear_reconnect_suppression clock;
  lt_reconnect_suppressions := list_reconnect_suppressions;
  lt_active_listeners := active_listeners;
  lt_update_listener_state := update_listener_state;
  lt_transport_health := transport_health;
  lt_reconnect_attempts := list_reconnect_attempts;
  lt_record_runtime_event := record_runtime_event clock;
  lt_migrate := migrate clock rng;
  lt_close_session := close_session clock;
|}.

Definition who (a : QuicTransportAdapter) : Who := session_of ∘ sr_snapshot <$> runtime_sessions a.
Definition quic_view : LifecycleView (World R) := {|
  lt_ok w := adapter_inv (adapter w);
  lt_who w := who (adapter w) |}.

#[local] Existing Instances quic_transport quic_view.

(** An operation is quiet when it keeps the invariant and each registry of
    peers and protocols. *)
Lemma quiet_of {A : Type} (m : M A) :
  keeps adapter_inv m → (∀ k, keeps (λ a, who a = k) m) → quiet m.
Proof.
  intros Hi Hk w Hok. specialize (Hi w Hok). specialize (Hk _ w eq_refl).
  destruct (m w) as [[a|e] w']; by split.
Qed.

Lemma reads_quiet {A : Type} (f : QuicTransportAdapter → A) : quiet (reading f : M A).
Proof. by intros w Hok. Qed.

Lemma who_events k : event_free (λ a, who a = k).
Proof. by intros a e Ha _. Qed.

#[local] Hint Resolve keeps_ret keeps_reading keeps_lift keeps_throw who_events adapter_inv_events : quic.
#[local] Hint Extern 1 (keeps _ _) => unfold keeps; simple apply hoare_secs : quic.
#[local] Hint Extern 1 (keeps _ _) => unfold keeps; simple apply hoare_emit : quic.
#[local] Hint Extern 1 (keeps _ _) => unfold keeps; simple apply hoare_relay_close : quic.
#[local] Hint Extern 1 (keeps _ (updating _)) => apply keeps_updating; by intros a Ha : quic.
#[local] Hint Extern 2 (keeps _ (_ ≫= _)) => simple apply keeps_bind; [|intros ?] : quic.
#[local] Hint Extern 3 (keeps _ (match ?x with _ => _ end)) => destruct x : quic.

Lemma who_insert a id r : who (set_sessions (<[id := r]> (runtime_sessions a)) a) =
  <[id := session_of (sr_snapshot r)]> (who a).
Proof. unfold who. simpl. by rewrite fmap_insert. Qed.

Lemma keeps_hoare {A : Type} P (m : M A) (E : QuicTransportAdapter → Prop) :
  keeps P m → (∀ a, P a → E a) → hoare P m (λ _, P) E.
Proof. intros Hm HE w Hw. specialize (Hm w Hw). destruct (m w) as [[a|e] w']; auto. Qed.

Lemma hoare_pure {A : Type} (P : QuicTransportAdapter → Prop) (Φ : Prop) (m : M A) Q E :
  (Φ → hoare P m Q E) → hoare (λ a, P a ∧ Φ) m Q E.
Proof. intros Hm w [Hw HΦ]. by apply Hm. Qed.

Lemma who_update_state k id st cr sr :
  keeps (λ a, who a = k) (update_session_state (R:=R) clock id st cr sr).
Proof.
  unfold update_session_state. eapply hoare_bind; [apply hoare_reading|].
  intros [r|]; [|intros w [Hw _]; exact Hw].
  eapply hoare_bind; [apply (hoare_secs clock)|intros now]. cbv zeta.
  eapply (hoare_pre _ (λ a, who a = k ∧ runtime_sessions a !! id = Some r)); [naive_solver|].
  eapply hoare_bind with (S := λ _ a, who a = k); [|intros ?; apply keeps_bind; eauto with quic].
  eapply hoare_pre; [|apply hoare_updating]. intros a [Hk Hr]. cbn beta.
  rewrite who_insert, <-Hk. apply insert_id. unfold who. by rewrite lookup_fmap, Hr.
Qed.

(** Removing and replacing a session. *)
Lemma who_delete a id : who (set_sessions (delete id (runtime_sessions a)) a) = delete id (who a).
Proof. unfold who. simpl. by rewrite fmap_delete. Qed.

Lemma who_remove k id :
  hoare (R:=R) (λ a, who a = k) (remove_runtime_session id) (λ _ a, who a = delete id k)
    (λ a, who a = delete id k).
Proof.
  intros w <-. apply who_delete.
Qed.

Lemma who_upsert k r : 
  hoare (R:=R) (λ a, who a = k) (upsert_runtime_session clock r)
    (λ _ a, who a = <[record_id r := session_of (sr_snapshot r)]> k)
    (λ a, who a = <[record_id r := session_of (sr_snapshot r)]> k).
Proof.
  unfold upsert_runtime_session. eapply hoare_bind; [apply hoare_reading|intros previous].
  eapply hoare_bind with (S := λ _ a, who a = <[record_id r := session_of (sr_snapshot r)]> k).
  - eapply hoare_pre; [|apply hoare_updating]. intros a [Hk _]. cbn beta.
    by rewrite who_insert, Hk.
  - intros _. destruct previous; (eapply keeps_hoare; [eauto 10 with quic|auto]).
Qed.

Lemma who_close s k :
  hoare (R:=R) (λ a, who a = k) (close_session clock s)
    (λ _ a, who a = delete (ss_session_id s) k) (λ a, who a = k ∨ who a = delete (ss_session_id s) k).
Proof.
  unfold close_session, session_snapshot.
  eapply hoare_bind with (S := λ _ a, who a = k); [eapply keeps_hoare; eauto with quic|intros e].
  eapply hoare_bind with (S := λ _ a, who a = k);
    [eapply keeps_hoare; [apply who_update_state|auto]|intros _].
  eapply hoare_bind with (S := λ _ a, who a = delete (ss_session_id s) k).
  { intros w Hw. pose proof (who_remove k (ss_session_id s) w Hw) as Hr.
    by destruct (remove_runtime_session _ w) as [[a|e'] w']; auto. }
  intros [r|].
  - unfold record_terminal_session. eapply keeps_hoare; [eauto 20 with quic|auto].
  - eapply keeps_hoare; [eauto with quic|auto].
Qed.

(** What every returned value satisfies. *)
Definition returns {A : Type} (P : A → Prop) (m : M A) : Prop := ∀ w a w', m w = (Ok a, w') → P a.

Lemma returns_bind {A B : Type} P (m : M A) (f : A → M B) :
  (∀ a, returns P (f a)) → returns P (m ≫= f).
Proof. intros Hf w b w' (a & w1 & _ & Hb)%M_bind_Ok. by eapply Hf. Qed.

Lemma returns_ret {A : Type} (P : A → Prop) a : P a → returns P (mret a).
Proof. by intros Ha w a' w' [= <- _]. Qed.

Lemma returns_snapshot route :
  returns (λ s, session_of s = (rt_peer route, rt_protocol route))
    (session_snapshot_for_route clock rng route).
Proof.
  unfold session_snapshot_for_route, relay_session_snapshot, direct_session_snapshot.
  destruct (rt_relay route) as [plan|];
    repeat (apply returns_bind; intros ?); by apply returns_ret.
Qed.

Lemma who_snapshot_for_route k route :
  hoare (R:=R) (λ a, who a = k) (session_snapshot_for_route clock rng route)
    (λ s a, who a = k ∧ session_of s = (rt_peer route, rt_protocol route)) (λ a, who a = k).
Proof.
  intros w Hw. pose proof (snapshot_for_route_adapter clock rng route w) as Ha.
  destruct (session_snapshot_for_route clock rng route w) as [[s|e] w'] eqn:Hs; simpl in Ha |- *;
    rewrite Ha; [|done]. split; [done|]. by eapply returns_snapshot, Hs.
Qed.

Lemma who_connect route k :
  hoare (R:=R) (λ a, who a = k) (connect clock rng route)
    (λ h a, who a = <[ss_session_id (ch_session h) := (rt_peer route, rt_protocol route)]> k)
    (λ a, who a = k ∨ ∃ id, who a = <[id := (rt_peer route, rt_protocol route)]> k).
Proof.
  unfold connect. eapply hoare_bind with (S := λ _ a, who a = k);
    [eapply keeps_hoare; eauto with quic|intros [s|]].
  - eapply hoare_bind with (S := λ _ a, who a = k); [eapply keeps_hoare; eauto with quic|intros _].
    intros w Hw. by left.
  - eapply hoare_bind with (S := λ m a, who a = k ∧ session_of m = (rt_peer route, rt_protocol route)).
    { intros w Hw. pose proof (who_snapshot_for_route k route w Hw) as Hs.
      destruct (session_snapshot_for_route clock rng route w) as [[s|e] w']; [exact Hs|by left]. }
    intros s w [Hw Hs]. unfold mbind, M_bind.
    pose proof (who_upsert k {| sr_snapshot := s; sr_alpn_protocol := protocol_text <$> rt_protocol route |} w Hw) as Hu.
    destruct (upsert_runtime_session clock _ w) as [[[]|e] w']; simpl in *; rewrite Hs in Hu; [exact Hu|].
    right. by eexists.
Qed.

Lemma who_migrate s route k :
  hoare (R:=R) (λ a, adapter_inv a ∧ who a = k) (migrate clock rng s route)
    (λ _ a, who a = <[ss_session_id s := (rt_peer route, rt_protocol route)]> k)
    (λ a, who a = k ∨ who a = <[ss_session_id s := (rt_peer route, rt_protocol route)]> k).
Proof.
  unfold migrate, session_snapshot.
  eapply hoare_bind with (S := λ _ a, adapter_inv a ∧ who a = k).
  { intros w [Hi Hw]. pose proof (keeps_update_state clock (ss_session_id s) StMigrating None
      (Some "daemon requested path migration") w Hi) as Hi'.
    pose proof (who_update_state k (ss_session_id s) StMigrating None
      (Some "daemon requested path migration") w Hw) as Hw'.
    destruct (update_session_state _ _ _ _ _ w) as [[o|e] w']; auto. }
  intros _. eapply hoare_bind with (S := λ e a, who a = k ∧
    ∀ e', e = Some e' → ss_session_id e' = ss_session_id s).
  { intros w [Hi Hw]. split; [exact Hw|]. intros e' He.
    apply fmap_Some in He as (r & Hr & ->). by apply (ai_sessions _ Hi). }
  intros [existing|]; [|intros w [Hw _]; by left].
  apply hoare_pure. intros Hid. rewrite <-(Hid _ eq_refl). cbn [ok_or].
  eapply hoare_bind with (S := λ e a, who a = k ∧ e = existing); [by intros w Hw|].
  intros ?. apply hoare_pure. intros ->.
  eapply hoare_bind with (S := λ m a, who a = k ∧ session_of m = (rt_peer route, rt_protocol route)).
  { intros w Hw. pose proof (who_snapshot_for_route k route w Hw) as Hs.
    destruct (session_snapshot_for_route clock rng route w) as [[m|e] w']; [exact Hs|by left]. }
  intros m. apply hoare_pure. intros Hm. rewrite <-Hm.
  eapply hoare_bind with (S := λ _ a, who a = k); [eapply keeps_hoare; eauto with quic|intros now].
  eapply hoare_bind with (S := λ _ a, who a = k); [eapply keeps_hoare; eauto with quic|intros _].
  eapply hoare_bind with (S := λ _ a, who a = <[ss_session_id existing := session_of m]> k).
  { intros w Hw. pose proof (who_upsert k {| sr_snapshot := snapshot_renamed (ss_session_id existing)
        (ss_created_at_unix_secs existing) now m; sr_alpn_protocol := protocol_text <$> rt_protocol route |} w Hw) as Hu.
    destruct (upsert_runtime_session clock _ w) as [[[]|e] w']; [exact Hu|by right]. }
  intros []. eapply keeps_hoare; [|by right]. eauto with quic.
Qed.

(** ** The laws *)

Lemma who_lookup a id x : who a !! id = Some x ↔ ∃ r, runtime_sessions a !! id = Some r ∧ session_of (sr_snapshot r) = x.
Proof. unfold who. rewrite lookup_fmap, fmap_Some. simpl. naive_solver. Qed.

Lemma listed_session a s : s ∈ (sr_snapshot <$> bt_values (runtime_sessions a)) ↔
  ∃ id r, runtime_sessions a !! id = Some r ∧ sr_snapshot r = s.
Proof.
  rewrite list_elem_of_fmap. setoid_rewrite elem_of_bt_values. naive_solver.
Qed.

Lemma quic_laws : LifecycleLaws (World R).
Proof.
  split.
  - apply reads_quiet.
  - intros w l id x Hok [= <-]. simpl. rewrite who_lookup. setoid_rewrite listed_session. split.
    + intros (r & Hr & Hx). exists (sr_snapshot r). split_and!; [eauto|by apply (ai_sessions _ Hok)|done].
    + intros (s & (id' & r & Hr & <-) & <- & Hx). pose proof (ai_sessions _ Hok _ _ Hr) as Hid.
      unfold record_id in Hid. rewrite Hid. by exists r.
  - intros w l Hok [= <-]. rewrite length_fmap, length_bt_values. simpl. unfold who. by rewrite map_size_fmap.
  - intros id. apply reads_quiet.
  - intros w id o Hok [= <-]. simpl. split.
    + unfold who. rewrite lookup_fmap. by destruct (runtime_sessions (adapter w) !! id).
    + intros s (r & Hr & ->)%fmap_Some. by apply (ai_sessions _ Hok).
  - intros n. apply reads_quiet.
  - intros id st cr sr. apply quiet_of; [apply keeps_update_state|intros k; apply who_update_state].
  - intros n. apply reads_quiet.
  - intros p q c r. apply quiet_of; [apply keeps_suppress|intros k].
    unfold lt_suppress_reconnect, quic_transport, suppress_reconnect. eauto 10 with quic.
  - intros p q c. apply quiet_of; [apply keeps_clear_suppression|intros k].
    unfold lt_clear_reconnect_suppression, quic_transport, clear_reconnect_suppression. eauto 10 with quic.
  - apply reads_quiet.
  - apply reads_quiet.
  - intros id st r. apply quiet_of; [apply keeps_update_listener|intros k].
    unfold lt_update_listener_state, quic_transport, update_listener_state. eauto 10 with quic.
  - apply reads_quiet.
  - intros w h Hok [= <-]. simpl. unfold bt_len, who. by rewrite map_size_fmap.
  - apply reads_quiet.
  - intros t s d. apply quiet_of; [|intros k]; unfold lt_record_runtime_event, quic_transport, record_runtime_event; eauto with quic.
  - intros s w Hok. pose proof (keeps_close clock s w Hok) as Hi.
    pose proof (who_close s _ w eq_refl) as Hw. cbn [lt_close_session quic_transport].
    destruct (close_session clock s w) as [[[]|e] w']; cbn; (split; [exact Hi|]); [by left|].
    destruct Hw as [Hw|Hw]; [by right|by left].
  - intros s route w Hok. pose proof (keeps_migrate clock rng s route w Hok) as Hi.
    pose proof (who_migrate s route _ w (conj Hok eq_refl)) as Hw. cbn [lt_migrate quic_transport].
    destruct (migrate clock rng s route w) as [[m|e] w']; cbn; (split; [exact Hi|]); [by right|exact Hw].
  - intros route w Hok. pose proof (keeps_connect clock rng route w Hok) as Hi.
    pose proof (who_connect route _ w eq_refl) as Hw. cbn [lt_connect quic_transport].
    unfold mbind, M_bind. destruct (connect clock rng route w) as [[h|e] w']; cbn; (split; [exact Hi|]).
    + right. by eexists.
    + exact Hw.
Qed.

(** The operations outside the interface that the daemon uses. *)
Lemma quiet_clear_attempt p q c o : quiet (clear_reconnect_attempt (R:=R) clock p q c o).
Proof.
  apply quiet_of; [apply keeps_clear_attempt|intros k]. unfold clear_reconnect_attempt.
  eauto 10 with quic.
Qed.

Lemma quiet_schedule p q c r m b x : quiet (schedule_reconnect (R:=R) clock p q c r m b x).
Proof.
  apply quiet_of; [apply keeps_schedule|intros k]. unfold schedule_reconnect. cbv zeta.
  eauto 20 with quic.
Qed.

Lemma quiet_secs : quiet (current_unix_secs (R:=R) clock).
Proof. by intros w Hok. Qed.
End adapter.

(** ** A daemon over the adapter *)

Section witnesses.
Import External.Demo DemoFiles.
#[local] Existing Instance demo_authority_json.
#[local] Instance demo_session_json : JsonBytes SessionCredentialUnsigned := scu_nonce.
#[local] Instance demo_relays : RelayControl (Registry * nat) :=
  inproc_relay_control (λ _, 120%Z) (λ _, demo_id).
#[local] Instance demo_transport : LifecycleTransport (World (Registry * nat)) :=
  quic_transport demo_clock demo_rng.
#[local] Instance demo_view : LifecycleView (World (Registry * nat)) := quic_view.
#[local] Instance demo_laws : LifecycleLaws (World (Registry * nat)) := quic_laws demo_clock demo_rng.

(** The demo session, of a negotiated protocol, and the daemon's file. *)
Definition demo_negotiated : RuntimeSessionRecord := {|
  sr_snapshot := let s := sr_snapshot demo_record in {|
    ss_session_id := ss_session_id s; ss_transport_session_id := ss_transport_session_id s;
    ss_relay_attempt_id := None; ss_peer := ss_peer s;
    ss_protocol := Some (mk_ProtocolId "/app/1"); ss_class := ss_class s;
    ss_path_kind := ss_path_kind s; ss_source := ss_source s;
    ss_remote_endpoint := ss_remote_endpoint s; ss_relay_peer := None;
    ss_relay_endpoint := None; ss_relay_control_endpoint := None;
    ss_datagrams_capable := true; ss_migration_capable := true; ss_state := StActive;
    ss_closure_reason := None; ss_state_reason := None; ss_created_at_unix_secs := 7;
    ss_last_activity_unix_secs := 9 |};
  sr_alpn_protocol := Some "/app/1" |}.
Definition demo_carrying (r : RuntimeSessionRecord) : World (Registry * nat) :=
  mk_World (set_sessions {[demo_id := r]} (adapter demo_world)) (relays demo_world) 0 0.
Definition demo_node (r : RuntimeSessionRecord) : Node Contents (World (Registry * nat)) :=
  mk_Node (match demo_both with Some (s, _) => demo_fs s | None => ∅ end) (demo_carrying r).

Lemma demo_node_ok r : record_id r = demo_id → lt_ok (node_transport (demo_node r)).
Proof.
  intros Hr. split; simpl; try constructor; try lia; intros; simplify_map_eq. done.
Qed.

Definition succeeds {A : Type} (r : result DaemonStateError A) : bool :=
  match r with Ok _ => true | Err _ => false end.

Lemma succeeds_Ok {A : Type} (m : NodeM Contents (World (Registry * nat)) A) n :
  succeeds (m n).1 = true → ∃ a n', m n = (Ok a, n').
Proof. destruct (m n) as [[a|e] n']; [eauto|done]. Qed.

(** The policy knows nothing of the demo session's peer: it is closed. *)
Lemma reevaluation_enforces_policy_witness :
  ∃ report n' state, reevaluate_runtime_authority demo_config demo_source
      (demo_node demo_negotiated) = (Ok report, n') ∧ rv_closed_sessions report = 1%Z ∧
    ensure_state demo_config (node_files (demo_node demo_negotiated)) = (Ok state, node_files n') ∧
    ∀ id p q, lt_who (node_transport n') !! id = Some (p, Some q) →
      allowed (explain_policy state p q) = true.
Proof.
  destruct (succeeds_Ok (reevaluate_runtime_authority demo_config demo_source)
    (demo_node demo_negotiated)) as (report & n' & Hrun); [vm_compute; reflexivity|].
  destruct (reevaluation_enforces_policy demo_config demo_source _ n' report
    (demo_node_ok demo_negotiated eq_refl) Hrun) as (state & Hst & _ & Hpol).
  exists report, n', state. split; [exact Hrun|]. split; [|split; [exact Hst|]].
  - assert (match (reevaluate_runtime_authority demo_config demo_source (demo_node demo_negotiated)).1
      with Ok r => rv_closed_sessions r | Err _ => 0%Z end = 1%Z) as Hc by (vm_compute; reflexivity).
    rewrite Hrun in Hc. exact Hc.
  - intros id p q Hid. by apply (Hpol id p q Hid).
Defined.

Lemma reconcile_sessions_contract_witness :
  ∃ report n', reconcile_sessions demo_config (demo_node demo_record) = (Ok report, n') ∧
    rc_examined report = 1%Z ∧
    (rc_unchanged report + rc_upgraded report + rc_closed report)%Z = 1%Z.
Proof.
  destruct (succeeds_Ok (reconcile_sessions demo_config) (demo_node demo_record))
    as (report & n' & Hrun); [vm_compute; reflexivity|].
  destruct (reconcile_sessions_contract demo_config _ n' report
    (demo_node_ok demo_record eq_refl) Hrun) as (state & fs & sessions & _ & Hl & He & Hs & _).
  assert (match (lt_active_sessions (node_transport (demo_node demo_record))).1
    with Ok l => list_len l | Err _ => 0%Z end = 1%Z) as Hc by (vm_compute; reflexivity).
  rewrite Hl in Hc. exists report, n'. split; [exact Hrun|]. rewrite Hs, He.
  split; exact Hc.
Defined.

Lemma runtime_health_contract_witness :
  ∃ report n', runtime_health demo_config (demo_node demo_negotiated) = (Ok report, n') ∧
    hr_active_sessions report = 1%Z ∧ hr_path_manager_health report = HealthReady.
Proof.
  destruct (succeeds_Ok (runtime_health demo_config) (demo_node demo_negotiated))
    as (report & n' & Hrun); [vm_compute; reflexivity|].
  destruct (runtime_health_contract demo_config _ n' report
    (demo_node_ok demo_negotiated eq_refl) Hrun) as (state & fs & h & _ & _ & Ha & _ & Hp & _).
  exists report, n'. split; [exact Hrun|]. split; [rewrite Ha; vm_compute; reflexivity|exact Hp].
Defined.
End witnesses.
