(* ===== verification/Quipd.v ===== *)
(** cmd/quipd: the daemon process: its arguments and identity, the files it
    watches, and the cycle it runs on a node (the state file and the Quic
    adapter).

    What the outside does while the process runs enters as arguments: the
    answers of the authority, file metadata, clock readings and signals. *)
From stdpp Require Import countable option base list strings gmap pretty.
From Stdlib Require Import ZArith Lia Strings.Byte Strings.Ascii.
From S2P Require Import Prelude Text BTree F32 External Model Crypto Records Identity Netcheck Scheduler PeerStore Policy Routing RelayWire Relay Transport Membership Calendar Quic Control ControlFetch Fabric FabricPaths Durable FabricPlane FabricRuntime FabricQuic.

(* cmd/quipd/src/main.rs:36-100 Args *)
Record Args := {
  arg_network : string;
  arg_state_path : string;
  arg_identity_path : string;
  arg_control_discovery_path : string;
  arg_control_bind : string;
  arg_identity_passphrase_env : string;
  arg_authority_snapshot : option string;
  arg_authority_origin : option string;
  arg_authority_subject : option string;
  arg_sync : bool;
  arg_revocation_sync : bool;
  arg_disable_reconcile : bool;
  arg_reconcile_verbose : bool;
  arg_reconcile_interval_seconds : Z;
  arg_change_watch_interval_ms : Z;
  arg_network_change_trigger_path : option string;
  arg_force_network_reprobe : bool;
  arg_one_shot : bool;
  arg_connect_protocol : option string;
  arg_connect_peer : option string;
  arg_connect_class : string;
}.

(* cmd/quipd/src/main.rs:118-125 TargetSessionOutcome *)
Inductive TargetSessionOutcome :=
| TargetActive (session : SessionSnapshot)
| TargetReused (session : SessionSnapshot)
| TargetBackingOff (status : string)
| TargetSuppressed (status : string)
| TargetFailed (status : string).

(* cmd/quipd/src/main.rs:127-133 CyclePreparation *)
Inductive CyclePreparation := ReloadState | RefreshState | SyncAuthoritySnapshot | ReprobeNetwork.

(* cmd/quipd/src/main.rs:135-142 CycleTrigger *)
Inductive CycleTrigger :=
| Startup | IntervalElapsed | StateChanged | AuthoritySnapshotChanged | NetworkChangeRequested.

(* cmd/quipd/src/main.rs:144-149 FileFingerprint *)
Record FileFingerprint := {
  fp_exists : bool;
  fp_len : option Z;
  fp_modified : option Z;
}.

(* cmd/quipd/src/main.rs:151-159 DaemonTriggerMonitor *)
Record DaemonTriggerMonitor := {
  mon_state_path : string;
  mon_authority_snapshot_path : option string;
  mon_network_change_trigger_path : option string;
  mon_state_fingerprint : FileFingerprint;
  mon_authority_snapshot_fingerprint : option FileFingerprint;
  mon_network_change_trigger_fingerprint : option FileFingerprint;
}.

(* cmd/quipd/src/main.rs:218-222 WaitOutcome *)
Inductive WaitOutcome := Interrupted | SignalError (err : string).

#[export] Instance FileFingerprint_eq_dec : EqDecision FileFingerprint.
Proof. solve_decision. Defined.
#[export] Instance CycleTrigger_eq_dec : EqDecision CycleTrigger.
Proof. solve_decision. Defined.

(* cmd/quipd/src/main.rs:114-114 RECONNECT_MAX_ATTEMPTS *)
Definition RECONNECT_MAX_ATTEMPTS : Z := 5.
(* cmd/quipd/src/main.rs:115-115 RECONNECT_BASE_BACKOFF_SECS *)
Definition RECONNECT_BASE_BACKOFF_SECS : Z := 5.
(* cmd/quipd/src/main.rs:116-116 RECONNECT_MAX_BACKOFF_SECS *)
Definition RECONNECT_MAX_BACKOFF_SECS : Z := 300.

(** ** Arguments *)

(* cmd/quipd/src/main.rs:591-598 parse_class *)
Definition parse_class (value : string) : TrafficClass :=
  if String.eqb value "control" then Control
  else if String.eqb value "bulk" then Bulk
  else if String.eqb value "background" then Background
  else Interactive.

(** [home] is the environment's HOME. *)
(* cmd/quipd/src/main.rs:621-628 expand_home_path *)
Definition expand_home_path (home : option string) (path : string) : string :=
  match strip_prefix "~/" path, home with
  | Some suffix, Some home => home +:+ "/" +:+ suffix
  | _, _ => path
  end.

(* cmd/quipd/src/main.rs:610-619 normalize_args_paths *)
Definition normalize_args_paths (home : option string) (args : Args) : Args := {|
  arg_network := arg_network args;
  arg_state_path := expand_home_path home (arg_state_path args);
  arg_identity_path := expand_home_path home (arg_identity_path args);
  arg_control_discovery_path := expand_home_path home (arg_control_discovery_path args);
  arg_control_bind := arg_control_bind args;
  arg_identity_passphrase_env := arg_identity_passphrase_env args;
  arg_authority_snapshot := expand_home_path home <$> arg_authority_snapshot args;
  arg_authority_origin := arg_authority_origin args;
  arg_authority_subject := arg_authority_subject args;
  arg_sync := arg_sync args;
  arg_revocation_sync := arg_revocation_sync args;
  arg_disable_reconcile := arg_disable_reconcile args;
  arg_reconcile_verbose := arg_reconcile_verbose args;
  arg_reconcile_interval_seconds := arg_reconcile_interval_seconds args;
  arg_change_watch_interval_ms := arg_change_watch_interval_ms args;
  arg_network_change_trigger_path :=
    expand_home_path home <$> arg_network_change_trigger_path args;
  arg_force_network_reprobe := arg_force_network_reprobe args;
  arg_one_shot := arg_one_shot args;
  arg_connect_protocol := arg_connect_protocol args;
  arg_connect_peer := arg_connect_peer args;
  arg_connect_class := arg_connect_class args;
|}.

(* cmd/quipd/src/main.rs:175-178 run (control) *)
Definition args_config (args : Args) : DaemonConfig :=
  DaemonConfig_new (arg_network args) (arg_state_path args).

(** ** The watched files *)

(** What [fs::metadata] answers: the length and, where the platform has it, the
    modification time. *)
Definition Metadata : Type := string → option (Z * option Z).

(* cmd/quipd/src/main.rs:2976-2989 file_fingerprint *)
Definition file_fingerprint (metadata : Metadata) (path : string) : FileFingerprint :=
  match metadata path with
  | Some (len, modified) => {| fp_exists := true; fp_len := Some len; fp_modified := modified |}
  | None => {| fp_exists := false; fp_len := None; fp_modified := None |}
  end.

(* cmd/quipd/src/main.rs:2918-2935 DaemonTriggerMonitor::new *)
Definition monitor_new (metadata : Metadata) (args : Args) : DaemonTriggerMonitor := {|
  mon_state_path := arg_state_path args;
  mon_authority_snapshot_path := arg_authority_snapshot args;
  mon_network_change_trigger_path := arg_network_change_trigger_path args;
  mon_state_fingerprint := file_fingerprint metadata (arg_state_path args);
  mon_authority_snapshot_fingerprint :=
    file_fingerprint metadata <$> arg_authority_snapshot args;
  mon_network_change_trigger_fingerprint :=
    file_fingerprint metadata <$> arg_network_change_trigger_path args;
|}.

(** The monitor with other fingerprints. *)
Definition with_fingerprints (state : FileFingerprint) (snapshot network : option FileFingerprint)
    (self : DaemonTriggerMonitor) : DaemonTriggerMonitor := {|
  mon_state_path := mon_state_path self;
  mon_authority_snapshot_path := mon_authority_snapshot_path self;
  mon_network_change_trigger_path := mon_network_change_trigger_path self;
  mon_state_fingerprint := state;
  mon_authority_snapshot_fingerprint := snapshot;
  mon_network_change_trigger_fingerprint := network;
|}.

(* cmd/quipd/src/main.rs:2937-2947 DaemonTriggerMonitor::refresh_baseline *)
Definition refresh_baseline (metadata : Metadata) (self : DaemonTriggerMonitor)
    : DaemonTriggerMonitor :=
  with_fingerprints (file_fingerprint metadata (mon_state_path self))
    (file_fingerprint metadata <$> mon_authority_snapshot_path self)
    (file_fingerprint metadata <$> mon_network_change_trigger_path self) self.

(** The fingerprint of an optional path, when it is not the recorded one. *)
Definition changed (metadata : Metadata) (path : option string) (recorded : option FileFingerprint)
    : option FileFingerprint :=
  match path with
  | Some path =>
      let current := file_fingerprint metadata path in
      if bool_decide (recorded = Some current) then None else Some current
  | None => None
  end.

(* cmd/quipd/src/main.rs:2949-2973 DaemonTriggerMonitor::detect_trigger *)
Definition detect_trigger (metadata : Metadata) (self : DaemonTriggerMonitor)
    : option CycleTrigger * DaemonTriggerMonitor :=
  match changed metadata (mon_network_change_trigger_path self)
          (mon_network_change_trigger_fingerprint self) with
  | Some current =>
      (Some NetworkChangeRequested,
       with_fingerprints (mon_state_fingerprint self) (mon_authority_snapshot_fingerprint self)
         (Some current) self)
  | None =>
      let current_state := file_fingerprint metadata (mon_state_path self) in
      if negb (bool_decide (mon_state_fingerprint self = current_state)) then
        (Some StateChanged,
         with_fingerprints current_state (mon_authority_snapshot_fingerprint self)
           (mon_network_change_trigger_fingerprint self) self)
      else
        match changed metadata (mon_authority_snapshot_path self)
                (mon_authority_snapshot_fingerprint self) with
        | Some current =>
            (Some AuthoritySnapshotChanged,
             with_fingerprints (mon_state_fingerprint self) (Some current)
               (mon_network_change_trigger_fingerprint self) self)
        | None => (None, self)
        end
  end.

(** One poll: the metadata and the clock (in nanoseconds) as it reads them, and
    the signal that ends its sleep, if one arrives. *)
Record Poll := {
  poll_metadata : Metadata;
  poll_now : Z;
  poll_signal : option (result string ());
}.

(* cmd/quipd/src/main.rs:2512-2512 wait_for_next_cycle (poll_interval) *)
Definition poll_interval (args : Args) : Z :=
  (Z.max (arg_change_watch_interval_ms args) 1 * 10 ^ 6)%Z.
(* cmd/quipd/src/main.rs:2510-2511 wait_for_next_cycle (deadline) *)
Definition cycle_interval (args : Args) : Z :=
  (Z.max (arg_reconcile_interval_seconds args) 1 * 10 ^ 9)%Z.

(** The loop, over the polls it makes; [None] when they run out. *)
(* cmd/quipd/src/main.rs:2514-2533 wait_for_next_cycle (loop) *)
Fixpoint wait_loop (deadline interval : Z) (trigger_monitor : DaemonTriggerMonitor)
    (polls : list Poll) : option (result WaitOutcome CycleTrigger * DaemonTriggerMonitor) :=
  match polls with
  | [] => None
  | poll :: polls =>
      let '(trigger, trigger_monitor) := detect_trigger (poll_metadata poll) trigger_monitor in
      match trigger with
      | Some trigger => Some (Ok trigger, trigger_monitor)
      | None =>
          if (deadline <=? poll_now poll)%Z then Some (Ok IntervalElapsed, trigger_monitor)
          else
            match poll_signal poll with
            | Some (Ok _) => Some (Err Interrupted, trigger_monitor)
            | Some (Err error) => Some (Err (SignalError error), trigger_monitor)
            | None => wait_loop deadline interval trigger_monitor polls
            end
      end
  end.

(** How long a poll sleeps. *)
(* cmd/quipd/src/main.rs:2522-2523 wait_for_next_cycle (sleep_duration) *)
Definition sleep_duration (deadline interval : Z) (poll : Poll) : Z :=
  Z.min (deadline - poll_now poll) interval.

(** The latest instant there is: its seconds are an [i64]. *)
Definition instant_max : Z := 2 ^ 63 * 10 ^ 9 - 1.

(** [start] is the clock when the wait begins; a deadline that no instant can
    hold is a panic. *)
(* cmd/quipd/src/main.rs:2506-2534 wait_for_next_cycle *)
Definition wait_for_next_cycle (args : Args) (start : Z) (trigger_monitor : DaemonTriggerMonitor)
    (polls : list Poll)
    : option (outcome (result WaitOutcome CycleTrigger * DaemonTriggerMonitor)) :=
  let deadline := (start + cycle_interval args)%Z in
  if (instant_max <? deadline)%Z then Some Panics
  else Returns <$> wait_loop deadline (poll_interval args) trigger_monitor polls.

(** ** The identity *)

Section identity.
Context `{Blake3, Varint, Curves, Sealing, KeyFileJson}.

(** [random] is what the generator gives: a salt, a nonce and a secret;
    [directory] is the failure to create the directory of the file, and [fault]
    what happens to the write of the file. *)
(* cmd/quipd/src/main.rs:2894-2915 load_or_init_identity *)
Definition load_or_init_identity (env : string → option string) (directory : option string)
    (fault : option (WriteFault bytes)) (salt nonce random : bytes) (identity_path passphrase_env : string) (fs : Identity.files)
    : result string IdentityKeypair * Identity.files :=
  match env passphrase_env with
  | None => (Err ("identity passphrase env var " +:+ passphrase_env +:+ " must be set"), fs)
  | Some passphrase =>
      match keystore_load identity_path passphrase fs with
      | Ok identity => (Ok identity, fs)
      | Err _ =>
          match directory with
          | Some error => (Err error, fs)
          | None =>
              let identity := keypair_generate random in
              let '(stored, fs) :=
                keystore_store fault salt nonce identity_path identity passphrase fs in
              (match stored with
               | Ok _ => Ok identity
               | Err error => Err (identity_error_text error)
               end, fs)
          end
      end
  end.
End identity.

(** ** The state file *)

Section state.
Context `{Blake3, Varint, Base32, Curves, ArtifactJson} {C : Type} `{StateFormat C}.
Context {Body : Type} `{ControlJson Body}.
Variable web : string → HttpReply Body.
Variable args : Args.

Let config : DaemonConfig := args_config args.

Definition synced {A B : Type} (m : FileM C (A * B)) : FileM C A := '(state, _) ← m; mret state.

(** The synchronization of the revocations that ends both operations. *)
(* cmd/quipd/src/main.rs:257-267 initialize_state (revocation_sync) *)
Definition sync_revocations (state : DaemonState) : FileM C DaemonState :=
  if arg_revocation_sync args then
    match arg_authority_origin args with
    | Some origin => synced (sync_authority_revocations_origin web config origin)
    | None => mret state
    end
  else mret state.

(* cmd/quipd/src/main.rs:224-268 initialize_state *)
Definition initialize_state (local_identity : IdentityKeypair) : FileM C DaemonState :=
  state ←
    match arg_authority_snapshot args, arg_authority_origin args with
    | Some path, None =>
        if arg_sync args then synced (plane_sync_snapshot config path)
        else seed_from_authority_snapshot config path
    | None, Some origin =>
        if arg_sync args
        then synced (sync_authority_origin web config origin (arg_authority_subject args))
        else seed_from_authority_origin web config origin (arg_authority_subject args)
    | None, None => refresh_and_persist_for_local_identity config local_identity
    | Some _, Some _ => filem_lift (Err (DsInvalidSession
        "only one of --authority-snapshot or --authority-origin may be supplied"))
    end;
  sync_revocations state.

(* cmd/quipd/src/main.rs:270-300 refresh_state *)
Definition refresh_state (local_identity : IdentityKeypair) : FileM C DaemonState :=
  state ←
    match arg_sync args, arg_authority_snapshot args, arg_authority_origin args with
    | true, Some path, None => synced (plane_sync_snapshot config path)
    | true, None, Some origin =>
        synced (sync_authority_origin web config origin (arg_authority_subject args))
    | _, _, _ => refresh_and_persist_for_local_identity config local_identity
    end;
  sync_revocations state.

(* cmd/quipd/src/main.rs:2461-2504 prepare_state_for_trigger *)
Definition prepare_state_for_trigger (local_identity : IdentityKeypair) (trigger : CycleTrigger)
    : FileM C (CyclePreparation * option NetcheckReprobeReport * DaemonState) :=
  match trigger with
  | StateChanged => state ← ensure_state config; mret (ReloadState, None, state)
  | AuthoritySnapshotChanged =>
      state ←
        match arg_authority_snapshot args with
        | Some path => synced (plane_sync_snapshot config path)
        | None => ensure_state config
        end;
      mret (SyncAuthoritySnapshot, None, state)
  | NetworkChangeRequested =>
      reprobe_report ← reprobe_network_change config "network change trigger observed";
      state ← ensure_state config;
      mret (ReprobeNetwork, Some reprobe_report, state)
  | Startup | IntervalElapsed =>
      state ← refresh_state local_identity; mret (RefreshState, None, state)
  end.
End state.

(** ** The cycle *)

(** A step whose failure is a value. *)
Definition node_try {C W A : Type} (m : NodeM C W A) : NodeM C W (result DaemonStateError A) := λ n,
  let '(r, n) := m n in (Ok r, n).

(* cmd/quipd/src/main.rs:102-112 DaemonCycleReport *)
Record DaemonCycleReport := {
  cy_trigger : CycleTrigger;
  cy_preparation : CyclePreparation;
  cy_reprobe_report : option NetcheckReprobeReport;
  cy_state : DaemonState;
  cy_authority_reevaluation_report : option AuthorityReevaluationReport;
  cy_reconcile_report : option SessionReconcileReport;
  cy_active_session : option SessionSnapshot;
  cy_connect_status : string;
}.

(* cmd/quipd/src/main.rs:348-355 run_cycle (status) *)
Definition target_report (outcome : TargetSessionOutcome) : option SessionSnapshot * string :=
  match outcome with
  | TargetActive session => (Some session, "active")
  | TargetReused session => (Some session, "reused")
  | TargetBackingOff status | TargetSuppressed status | TargetFailed status => (None, status)
  end.

Definition backoff_status (now : Z) (attempt : RuntimeReconnectAttempt) : string :=
  "backoff:attempts=" +:+ pretty (at_attempt_count attempt) +:+
  " next_retry_in=" +:+ pretty (sat_sub (at_next_attempt_unix_secs attempt) now) +:+
  "s reason=" +:+ at_reason attempt.
Definition failed_status (attempt : RuntimeReconnectAttempt) : string :=
  "failed:attempts=" +:+ pretty (at_attempt_count attempt) +:+ " reason=" +:+ at_reason attempt.

Section cycle.
Context `{Blake3, Varint, Base32, Curves, ArtifactJson, JsonBytes SessionCredentialUnsigned}.
Context {C : Type} `{StateFormat C} {Body : Type} `{ControlJson Body}.
Context {R : Type} `{RelayControl R} (clock : nat → Z) (rng : nat → nat → bytes).
Variable args : Args.

#[local] Instance daemon_transport_instance : LifecycleTransport (World R) := quic_transport clock rng.
Let config : DaemonConfig := args_config args.
Local Notation M := (NodeM C (World R)).

(** The peer an argument names, or the first one the state has; an argument
    that does not parse counts as absent. *)
(* cmd/quipd/src/main.rs:510-514 existing_target_session (target) *)
Definition target_peer (state : DaemonState) : option PeerId :=
  or_else (value ← arg_connect_peer args; match PeerId_from_str value with Ok p => Some p | Err _ => None end)
    ((λ peer, snap_peer (insp_snapshot peer)) <$> first_peer state).

(* cmd/quipd/src/main.rs:504-529 existing_target_session *)
Definition existing_target_session (state : DaemonState) (transport : QuicTransportAdapter)
    (protocol : string) : option SessionSnapshot :=
  target ← target_peer state;
  let class := parse_class (arg_connect_class args) in
  find_first (λ session,
    bool_decide (ss_peer session = target) && bool_decide (ss_class session = class) &&
    bool_decide (is_Some (runtime_sessions transport !! ss_session_id session)) &&
    match ss_protocol session with
    | Some value => String.eqb (protocol_text value) protocol | None => false end)
    (ds_active_sessions state).

(** The connection attempt, once nothing speaks against it. *)
(* cmd/quipd/src/main.rs:450-501 ensure_target_session (attempt) *)
Definition attempt_target (target : PeerId) (protocol : ProtocolId) (class : TrafficClass) (now : Z)
    : M TargetSessionOutcome :=
  _ ← on_transport (record_runtime_event clock "reconnect.started" (peer_subject target)
        (JObj [("protocol", JStr (protocol_text protocol)); ("class", JStr (class_label class))]));
  realized ← node_try (realize_best_path config target protocol class);
  match realized with
  | Ok session =>
      _ ← on_transport (clear_reconnect_attempt clock target (Some protocol) class
            (Some "reconnect succeeded"));
      mret (TargetActive session)
  | Err error =>
      scheduled ← on_transport (schedule_reconnect clock target (Some protocol) class
        (DaemonStateError_text error) RECONNECT_MAX_ATTEMPTS RECONNECT_BASE_BACKOFF_SECS
        RECONNECT_MAX_BACKOFF_SECS);
      mret match at_state scheduled with
           | AttemptBackingOff => TargetBackingOff (backoff_status now scheduled)
           | AttemptFailed => TargetFailed (failed_status scheduled)
           end
  end.

(* cmd/quipd/src/main.rs:374-502 ensure_target_session *)
Definition ensure_target_session (state : DaemonState) (protocol : string)
    : M TargetSessionOutcome :=
  existing ← on_transport (reading (λ a, existing_target_session state a protocol));
  match existing with
  | Some session =>
      _ ← on_transport (clear_reconnect_attempt clock (ss_peer session) (ss_protocol session)
            (ss_class session) (Some "session already active"));
      mret (TargetReused session)
  | None =>
      target ← node_lift (ok_or (DsInvalidSession
        "a peer is required or daemon state must contain at least one peer") (target_peer state));
      protocol ← node_lift (map_err (DsInvalidSession ∘ type_error_text) (ProtocolId_new protocol));
      let class := parse_class (arg_connect_class args) in
      suppressions ← on_transport list_reconnect_suppressions;
      match find_first (suppression_matches target (Some protocol) class) suppressions with
      | Some suppression =>
          _ ← on_transport (clear_reconnect_attempt clock target (Some protocol) class
                (Some "reconnect suppressed by policy"));
          mret (TargetSuppressed ("suppressed:" +:+ sup_reason suppression))
      | None =>
          now ← on_transport (current_unix_secs clock);
          attempts ← on_transport list_reconnect_attempts;
          match find_first (λ entry, attempt_matches target (Some protocol) class {| rr_snapshot := entry |})
                  attempts with
          | Some attempt =>
              match at_state attempt with
              | AttemptFailed => mret (TargetFailed (failed_status attempt))
              | AttemptBackingOff =>
                  if (now <? at_next_attempt_unix_secs attempt)%Z
                  then mret (TargetBackingOff (backoff_status now attempt))
                  else attempt_target target protocol class now
              end
          | None => attempt_target target protocol class now
          end
      end
  end.

(* cmd/quipd/src/main.rs:312-317 run_cycle (reevaluation triggers) *)
Definition reevaluating_trigger (trigger : CycleTrigger) : bool :=
  match trigger with
  | Startup | IntervalElapsed | AuthoritySnapshotChanged | StateChanged => true
  | NetworkChangeRequested => false
  end.

Definition empty_reconcile_report : SessionReconcileReport := {|
  rc_examined := 0; rc_unchanged := 0; rc_upgraded := 0; rc_closed := 0; rc_entries := [] |}.

(* cmd/quipd/src/main.rs:328-344 run_cycle (reconcile) *)
Definition reconcile_step (state : DaemonState) : M (option SessionReconcileReport * DaemonState) :=
  if arg_disable_reconcile args then mret (None, state)
  else
    match ds_active_sessions state with
    | [] => mret (Some empty_reconcile_report, state)
    | _ =>
        report ← reconcile_sessions config;
        state ← on_files (ensure_state config);
        mret (Some report, state)
    end.

(* cmd/quipd/src/main.rs:345-360 run_cycle (connect) *)
Definition connect_step (state : DaemonState) : M (option SessionSnapshot * string * DaemonState) :=
  match arg_connect_protocol args with
  | Some protocol =>
      outcome ← node_try (ensure_target_session state protocol);
      match outcome with
      | Ok (TargetActive session) =>
          state ← on_files (ensure_state config);
          mret (Some session, "active", state)
      | Ok outcome => mret (target_report outcome, state)
      | Err error => mret (None, "connect-failed:" +:+ DaemonStateError_text error, state)
      end
  | None => mret (None, "disabled", state)
  end.

(* cmd/quipd/src/main.rs:302-372 run_cycle *)
Definition run_cycle (web : string → HttpReply Body) (local_identity : IdentityKeypair)
    (trigger : CycleTrigger) : M DaemonCycleReport :=
  '(preparation, reprobe_report, _) ←
    on_files (prepare_state_for_trigger web args local_identity trigger);
  _ ← sync_runtime_sessions config;
  authority_reevaluation_report ←
    (if reevaluating_trigger trigger
     then report ← reevaluate_runtime_authority config local_identity; mret (Some report)
     else mret None);
  state ← sync_runtime_sessions config;
  '(reconcile_report, state) ← reconcile_step state;
  '(active_session, connect_status, state) ← connect_step state;
  mret {|
    cy_trigger := trigger;
    cy_preparation := preparation;
    cy_reprobe_report := reprobe_report;
    cy_state := state;
    cy_authority_reevaluation_report := authority_reevaluation_report;
    cy_reconcile_report := reconcile_report;
    cy_active_session := active_session;
    cy_connect_status := connect_status |}.
End cycle.

(** ** What a cycle prints *)

(* cmd/quipd/src/main.rs:2543-2551 cycle_trigger_label *)
Definition cycle_trigger_label (trigger : CycleTrigger) : string :=
  match trigger with
  | Startup => "startup"
  | IntervalElapsed => "interval"
  | StateChanged => "state-changed"
  | AuthoritySnapshotChanged => "authority-snapshot-changed"
  | NetworkChangeRequested => "network-change"
  end.

(* cmd/quipd/src/main.rs:2553-2560 cycle_preparation_label *)
Definition cycle_preparation_label (preparation : CyclePreparation) : string :=
  match preparation with
  | ReloadState => "reload"
  | RefreshState => "refresh"
  | SyncAuthoritySnapshot => "sync-authority-snapshot"
  | ReprobeNetwork => "reprobe-network"
  end.

(* cmd/quipd/src/main.rs:2991-2997 reconcile_disposition_label *)
Definition reconcile_disposition_label (disposition : SessionReconcileDisposition) : string :=
  match disposition with
  | Unchanged => "unchanged" | Upgraded => "upgraded" | Closed => "closed"
  end.

(* cmd/quipd/src/main.rs:2562-2567 reconcile_summary_line *)
Definition reconcile_summary_line (report : SessionReconcileReport) : string :=
  "examined=" +:+ pretty (rc_examined report) +:+ " upgraded=" +:+ pretty (rc_upgraded report) +:+
  " closed=" +:+ pretty (rc_closed report) +:+ " unchanged=" +:+ pretty (rc_unchanged report).

(* cmd/quipd/src/main.rs:2569-2578 reprobe_summary_line *)
Definition reprobe_summary_line (report : NetcheckReprobeReport) : string :=
  "udp=" +:+ bool_text (rp_udp_reachable report) +:+
  " ipv6=" +:+ bool_text (rp_ipv6_reachable report) +:+
  " relay_required=" +:+ bool_text (rp_relay_required report) +:+
  " probes=" +:+ pretty (rp_probe_observations report) +:+
  " paths=" +:+ pretty (rp_path_candidates report).

(* cmd/quipd/src/main.rs:2580-2600 authority_reevaluation_summary_line *)
Definition authority_reevaluation_summary_line (report : AuthorityReevaluationReport) : string :=
  "reevaluated=" +:+ pretty (rv_reevaluated_sessions report) +:+
  " closed=" +:+ pretty (rv_closed_sessions report) +:+
  " degraded=" +:+ pretty (rv_degraded_sessions report) +:+
  " migrated=" +:+ pretty (rv_migrated_sessions report) +:+
  " unchanged=" +:+ pretty (rv_unchanged_sessions report) +:+
  " listeners_reevaluated=" +:+ pretty (rv_reevaluated_listeners report) +:+
  " listeners_suppressed=" +:+ pretty (rv_suppressed_listeners report) +:+
  " listeners_restored=" +:+ pretty (rv_restored_listeners report) +:+
  " suppressed_added=" +:+ pretty (rv_reconnect_suppressions_added report) +:+
  " suppressed_cleared=" +:+ pretty (rv_reconnect_suppressions_cleared report) +:+
  " local_policy_denied=" +:+ bool_text (rv_local_policy_denied report) +:+
  " subject_mismatch=" +:+ bool_text (rv_authority_subject_mismatch report) +:+
  " local_membership_denied=" +:+ pretty (rv_local_membership_denied_sessions report) +:+
  " peer_membership_denied=" +:+ pretty (rv_peer_membership_denied_sessions report) +:+
  " capability_denied=" +:+ pretty (rv_capability_denied_sessions report) +:+
  " reason=" +:+ default "none" (rv_local_policy_reason report).

(* cmd/quipd/src/main.rs:2536-2541 hex_session_id *)
Definition hex_session_id (session_id : bytes) : string := hex_string session_id.

Section print.
Context `{Blake3, Varint, Base32, Curves, ArtifactJson}.

(* cmd/quipd/src/main.rs:534-546 emit_cycle_report (reconcile entry) *)
Definition reconcile_entry_line (entry : SessionReconcileEntry) : string :=
  "quipd reconcile session_id=" +:+ hex_session_id (re_session_id entry) +:+
  " peer=" +:+ PeerId_to_text (re_peer entry) +:+
  " disposition=" +:+ reconcile_disposition_label (re_disposition entry) +:+
  " path=" +:+ match re_path_kind entry with Some path => PathKind_debug path | None => "none" end +:+
  " reason=" +:+ re_reason entry.

(** The lines it prints. *)
(* cmd/quipd/src/main.rs:531-589 emit_cycle_report *)
Definition emit_cycle_report (args : Args) (report : DaemonCycleReport) : list string :=
  let verbose :=
    match cy_reconcile_report report with
    | Some reconcile_report =>
        if arg_reconcile_verbose args
        then reconcile_entry_line <$> rc_entries reconcile_report else []
    | None => []
    end in
  let selected_path :=
    match
      peer ← first_peer (cy_state report);
      best_path (cy_state report) (snap_peer (insp_snapshot peer)) Interactive
    with
    | Some decision => ex_summary (dec_explanation decision)
    | None => "no routing candidates"
    end in
  verbose ++ ["quipd active: " +:+ daemon_status_line (cy_state report) +:+
    " selected_path=" +:+ selected_path +:+
    " active_session=" +:+
      match cy_active_session report with
      | Some session =>
          hex_session_id (ss_session_id session) +:+ "@" +:+ PeerId_to_text (ss_peer session)
      | None => "none"
      end +:+
    " preparation=" +:+ cycle_preparation_label (cy_preparation report) +:+
    " reprobe=" +:+ default "none" (reprobe_summary_line <$> cy_reprobe_report report) +:+
    " authority_reevaluation=" +:+
      default "none" (authority_reevaluation_summary_line <$>
        cy_authority_reevaluation_report report) +:+
    " reconcile=" +:+ default "disabled" (reconcile_summary_line <$> cy_reconcile_report report) +:+
    " connect=" +:+ cy_connect_status report +:+
    " trigger=" +:+ cycle_trigger_label (cy_trigger report) +:+
    " state_path=" +:+ arg_state_path args].
End print.

(** ** The process *)

Section process.
Context `{Blake3, Varint, Base32, Curves, ArtifactJson, JsonBytes SessionCredentialUnsigned}.
Context {C : Type} `{StateFormat C} {Body : Type} `{ControlJson Body}.
Context {R : Type} `{RelayControl R} (clock : nat → Z) (rng : nat → nat → bytes).
Variable args : Args.

(* cmd/quipd/src/main.rs:600-608 daemon_transport *)
Definition daemon_transport (instance_id : string) (local_identity : IdentityKeypair)
    : QuicTransportAdapter :=
  with_identity instance_id (NetworkId_derive (as_bytes (arg_network args))) local_identity.

(** What the outside does around one cycle: the authority's answers during it,
    the metadata and the clock after it, the polls of the wait, and what control
    requests and other processes do to the node meanwhile. *)
Record CycleInput := {
  ci_web : string → HttpReply Body;
  ci_metadata : Metadata;
  ci_start : Z;
  ci_polls : list Poll;
  ci_meanwhile : Node C (World R) → Node C (World R);
}.

(** How the process goes on after the inputs: it has ended, with an error or
    without, or with a panic, or it goes on waiting or with another cycle. *)
Inductive RunOutcome :=
| RunStopped
| RunPanics
| RunFailed (error : DaemonStateError)
| RunSignalError (err : string)
| RunGoesOn.

(* cmd/quipd/src/main.rs:190-214 run (loop) *)
Fixpoint run_loop (local_identity : IdentityKeypair) (inputs : list CycleInput)
    (trigger : CycleTrigger) (trigger_monitor : DaemonTriggerMonitor) (n : Node C (World R))
    : RunOutcome * list string * Node C (World R) :=
  match inputs with
  | [] => (RunGoesOn, [], n)
  | input :: inputs =>
      match run_cycle clock rng args (ci_web input) local_identity trigger n with
      | (Err error, n) => (RunFailed error, [], n)
      | (Ok report, n) =>
          let printed := emit_cycle_report args report in
          if arg_one_shot args then (RunStopped, printed, n)
          else
            let trigger_monitor := refresh_baseline (ci_metadata input) trigger_monitor in
            match wait_for_next_cycle args (ci_start input) trigger_monitor (ci_polls input) with
            | None => (RunGoesOn, printed, n)
            | Some Panics => (RunPanics, printed, n)
            | Some (Returns (Err Interrupted, _)) =>
                (RunStopped, printed ++ ["quipd stopping: received interrupt"], n)
            | Some (Returns (Err (SignalError error), _)) => (RunSignalError error, printed, n)
            | Some (Returns (Ok trigger, trigger_monitor)) =>
                let '(outcome, more, n) := run_loop local_identity inputs trigger trigger_monitor
                  (ci_meanwhile input n) in
                (outcome, printed ++ more, n)
            end
      end
  end.

(** From the loaded identity and the new adapter on. *)
(* cmd/quipd/src/main.rs:169-216 run *)
Definition run (local_identity : IdentityKeypair) (web : string → HttpReply Body)
    (metadata : Metadata) (inputs : list CycleInput) (n : Node C (World R))
    : RunOutcome * list string * Node C (World R) :=
  match on_files (_ ← initialize_state web args local_identity;
                  ensure_identity_bound_state (args_config args) local_identity) n with
  | (Err error, n) => (RunFailed error, [], n)
  | (Ok _, n) =>
      let trigger_monitor := monitor_new metadata args in
      let trigger :=
        if arg_force_network_reprobe args then NetworkChangeRequested else Startup in
      run_loop local_identity inputs trigger trigger_monitor n
  end.
End process.
