(* ===== verification/DaemonApi.v ===== *)
(** crates/daemonapi: the messages of the daemon's control socket.

    A result is the value its handler builds; [serde_json] writes it into the
    envelope. *)
From stdpp Require Import base list strings.
From Stdlib Require Import ZArith.
From S2P Require Import Prelude Text External.

(* crates/daemonapi/src/lib.rs:4-10 AuthKind *)
Inductive AuthKind := LocalSocketPeer | LocalProcess | TestHarness.

(* crates/daemonapi/src/lib.rs:12-15 RequestAuth *)
Record RequestAuth := {
  rqa_kind : AuthKind;
}.

(* crates/daemonapi/src/lib.rs:17-23 RequestEnvelope *)
Record RequestEnvelope := {
  rqe_request_id : string;
  rqe_operation : string;
  rqe_auth : RequestAuth;
  rqe_payload : Json;
}.

(* crates/daemonapi/src/lib.rs:85-94 DaemonEndpointDiscovery *)
Record DaemonEndpointDiscovery := {
  ded_endpoint : string;
  ded_network : string;
  ded_state_path : string;
  ded_identity_path : string;
  ded_runtime_instance_id : string;
  ded_pid : Z;
  ded_started_at_unix_secs : Z;
}.

(* crates/daemonapi/src/lib.rs:106-111 IdentityStatus *)
Record IdentityStatus := {
  ids_status : string;
  ids_path : string;
  ids_node_id : string;
}.

(* crates/daemonapi/src/lib.rs:215-220 DurableStateStatus *)
Record DurableStateStatus := {
  dst_status : string;
  dst_path : string;
  dst_schema_version : Z;
}.

(* crates/daemonapi/src/lib.rs:222-240 AuthoritySyncStatus *)
Record AuthoritySyncStatus := {
  ast_sync_status : string;
  ast_last_accepted_revision : string;
  ast_health : string;
  ast_local_policy_denied : bool;
  ast_authority_subject_mismatch : bool;
  ast_reevaluated_sessions : Z;
  ast_closed_sessions : Z;
  ast_degraded_sessions : Z;
  ast_migrated_sessions : Z;
  ast_unchanged_sessions : Z;
  ast_reevaluated_listeners : Z;
  ast_suppressed_listeners : Z;
  ast_restored_listeners : Z;
  ast_reconnect_suppressions_added : Z;
  ast_reconnect_suppressions_cleared : Z;
  ast_local_policy_reason : option string;
}.

(* crates/daemonapi/src/lib.rs:242-247 RuntimeSummary *)
Record RuntimeSummary := {
  rsm_session_count : Z;
  rsm_active_path_count : Z;
  rsm_reconnect_state : string;
}.

(* crates/daemonapi/src/lib.rs:96-104 RuntimeStatusResult *)
Record RuntimeStatusResult := {
  rst_truth_kind : string;
  rst_daemon_health : string;
  rst_identity : IdentityStatus;
  rst_durable_state : DurableStateStatus;
  rst_authority : AuthoritySyncStatus;
  rst_runtime_summary : RuntimeSummary;
}.

(* crates/daemonapi/src/lib.rs:113-123 IdentityShowResult *)
Record IdentityShowResult := {
  ish_truth_kind : string;
  ish_status : string;
  ish_identity_path : string;
  ish_node_id : string;
  ish_public_key_hex : string;
  ish_durable_state_peer_id : option string;
  ish_authority_subject_peer_id : option string;
  ish_state_binding_status : string;
}.

(* crates/daemonapi/src/lib.rs:125-134 IdentityVerifyResult *)
Record IdentityVerifyResult := {
  ivr_truth_kind : string;
  ivr_identity_path : string;
  ivr_expected_node_id : option string;
  ivr_loaded_node_id : string;
  ivr_authority_subject_peer_id : option string;
  ivr_match_result : string;
  ivr_mismatch_reasons : list string;
}.

(* crates/daemonapi/src/lib.rs:136-140 DurableStateViolationEntry *)
Record DurableStateViolationEntry := {
  dve_path : string;
  dve_message : string;
}.

(* crates/daemonapi/src/lib.rs:142-154 DurableStateSummaryResult *)
Record DurableStateSummaryResult := {
  dsr_network : string;
  dsr_local_peer_id : string;
  dsr_roles : list string;
  dsr_bootstrap_hints : Z;
  dsr_relays : Z;
  dsr_peers : Z;
  dsr_capability_grants : Z;
  dsr_revocations : Z;
  dsr_denied_peers : Z;
  dsr_path_candidates : Z;
}.

(* crates/daemonapi/src/lib.rs:156-165 StateShowResult *)
Record StateShowResult := {
  ssh_truth_kind : string;
  ssh_state_path : string;
  ssh_present : bool;
  ssh_schema_version : option Z;
  ssh_valid : bool;
  ssh_violations : list DurableStateViolationEntry;
  ssh_summary : option DurableStateSummaryResult;
}.

(* crates/daemonapi/src/lib.rs:167-175 StateValidateResult *)
Record StateValidateResult := {
  svr_truth_kind : string;
  svr_state_path : string;
  svr_present : bool;
  svr_schema_version : option Z;
  svr_valid : bool;
  svr_violations : list DurableStateViolationEntry;
}.

(* crates/daemonapi/src/lib.rs:177-181 StateResetPayload *)
Record StateResetPayload := {
  srp_scope : string;
  srp_confirmation : string;
}.

(* crates/daemonapi/src/lib.rs:183-191 StateExportPayload *)
Record StateExportPayload := {
  sep_output_path : string;
  sep_passphrase : string;
  sep_hostname : string;
  sep_environment : string;
  sep_overwrite : option bool;
}.

(* crates/daemonapi/src/lib.rs:193-199 StateResetResult *)
Record StateResetResult := {
  srr_truth_kind : string;
  srr_identity_preserved : bool;
  srr_network_state_reset : bool;
  srr_next_action : string;
}.

(* crates/daemonapi/src/lib.rs:201-213 StateExportResult *)
Record StateExportResult := {
  ser_truth_kind : string;
  ser_bundle_path : string;
  ser_created_at_unix_secs : Z;
  ser_hostname : string;
  ser_environment : string;
  ser_network : string;
  ser_identity_sha256_hex : string;
  ser_state_sha256_hex : string;
  ser_durable_state_present : bool;
  ser_durable_state_valid : bool;
}.

(* crates/daemonapi/src/lib.rs:335-345 RuntimeSessionEntry *)
Record RuntimeSessionEntry := {
  rse_session_id : string;
  rse_peer_id : string;
  rse_state : string;
  rse_closure_reason : option string;
  rse_state_reason : option string;
  rse_active_path_class : string;
  rse_age_seconds : Z;
  rse_last_activity_seconds : Z;
}.

(* crates/daemonapi/src/lib.rs:249-253 RuntimeSessionsListResult *)
Record RuntimeSessionsListResult := {
  rsl_truth_kind : string;
  rsl_sessions : list RuntimeSessionEntry;
}.

(* crates/daemonapi/src/lib.rs:255-258 RuntimeDiagnosePayload *)
Record RuntimeDiagnosePayload := {
  rdp_event_limit : option Z;
}.

(* crates/daemonapi/src/lib.rs:276-282 RuntimeDiagnosisIssue *)
Record RuntimeDiagnosisIssue := {
  rdi_code : string;
  rdi_severity : string;
  rdi_layer : string;
  rdi_summary : string;
}.

(* crates/daemonapi/src/lib.rs:364-382 RuntimeHealthResult *)
Record RuntimeHealthResult := {
  rhr_truth_kind : string;
  rhr_daemon_readiness : string;
  rhr_authority_sync_health : string;
  rhr_authority_subject_status : string;
  rhr_authority_deny_reason : option string;
  rhr_runtime_registry_health : string;
  rhr_path_manager_health : string;
  rhr_reconnect_subsystem_health : string;
  rhr_active_sessions : Z;
  rhr_active_paths : Z;
  rhr_active_listeners : Z;
  rhr_reconnect_state : string;
  rhr_reconnect_attempt_count : Z;
  rhr_reconnect_next_attempt_unix_secs : option Z;
  rhr_reconnect_suppression_count : Z;
  rhr_runtime_event_buffer_depth : Z;
}.

(* crates/daemonapi/src/lib.rs:384-402 AuthorityShowResult *)
Record AuthorityShowResult := {
  ash_truth_kind : string;
  ash_configured_origin : option string;
  ash_configured_subject : option string;
  ash_configured_snapshot : option string;
  ash_network : string;
  ash_local_peer_id : string;
  ash_membership_subject_peer_id : string;
  ash_membership_issuer_peer_id : string;
  ash_membership_roles : list string;
  ash_grants : Z;
  ash_revocations : Z;
  ash_denied_peers : Z;
  ash_bootstrap_hints : Z;
  ash_relays : Z;
  ash_schema_version : Z;
  ash_authority : AuthoritySyncStatus;
}.

(* crates/daemonapi/src/lib.rs:290-300 RuntimeListenerEntry *)
Record RuntimeListenerEntry := {
  rle_listener_id : string;
  rle_transport : string;
  rle_bind_summary : string;
  rle_protocol : string;
  rle_advertise : bool;
  rle_state : string;
  rle_state_reason : option string;
  rle_age_seconds : Z;
}.

(* crates/daemonapi/src/lib.rs:326-333 RuntimePathAlternativeEntry *)
Record RuntimePathAlternativeEntry := {
  rpa_path_class : string;
  rpa_source : string;
  rpa_relay_peer_id : option string;
  rpa_score : Z;
  rpa_summary : string;
}.

(* crates/daemonapi/src/lib.rs:308-324 RuntimePathEntry *)
Record RuntimePathEntry := {
  rpe_session_id : option string;
  rpe_peer_id : string;
  rpe_protocol : option string;
  rpe_class : string;
  rpe_state : string;
  rpe_path_class : string;
  rpe_source : string;
  rpe_relay_peer_id : option string;
  rpe_endpoint_summary : string;
  rpe_score : option Z;
  rpe_state_reason : option string;
  rpe_decision_reason : option string;
  rpe_summary : string;
  rpe_alternatives : list RuntimePathAlternativeEntry;
}.

(* crates/daemonapi/src/lib.rs:353-362 RuntimeEventEntry *)
Record RuntimeEventEntry := {
  ree_event_id : string;
  ree_event_type : string;
  ree_emitted_at : string;
  ree_truth_kind : string;
  ree_subject_kind : string;
  ree_subject_id : string;
  ree_details : Json;
}.

(* crates/daemonapi/src/lib.rs:260-274 RuntimeDiagnoseResult *)
Record RuntimeDiagnoseResult := {
  rdr_truth_kind : string;
  rdr_primary_classification : string;
  rdr_issues : list RuntimeDiagnosisIssue;
  rdr_status : RuntimeStatusResult;
  rdr_health : RuntimeHealthResult;
  rdr_state : StateShowResult;
  rdr_identity : IdentityVerifyResult;
  rdr_authority_show : AuthorityShowResult;
  rdr_sessions : list RuntimeSessionEntry;
  rdr_listeners : list RuntimeListenerEntry;
  rdr_paths : list RuntimePathEntry;
  rdr_events : list RuntimeEventEntry;
}.

(* crates/daemonapi/src/lib.rs:284-288 RuntimeListenersListResult *)
Record RuntimeListenersListResult := {
  rll_truth_kind : string;
  rll_listeners : list RuntimeListenerEntry;
}.

(* crates/daemonapi/src/lib.rs:302-306 RuntimePathsListResult *)
Record RuntimePathsListResult := {
  rpl_truth_kind : string;
  rpl_paths : list RuntimePathEntry;
}.

(* crates/daemonapi/src/lib.rs:347-351 RuntimeEventsListResult *)
Record RuntimeEventsListResult := {
  rel_truth_kind : string;
  rel_events : list RuntimeEventEntry;
}.

(* crates/daemonapi/src/lib.rs:404-414 AuthorityMembershipResult *)
Record AuthorityMembershipResult := {
  amr_truth_kind : string;
  amr_network : string;
  amr_subject_peer_id : string;
  amr_issuer_peer_id : string;
  amr_issued_at : Z;
  amr_expires_at : Z;
  amr_roles : list string;
  amr_schema_version : Z;
}.

(* crates/daemonapi/src/lib.rs:425-438 AuthorityCapabilityGrantEntry *)
Record AuthorityCapabilityGrantEntry := {
  ace_subject_peer_id : string;
  ace_issuer_peer_id : string;
  ace_sequence : Z;
  ace_not_before : Z;
  ace_expires_at : Z;
  ace_capabilities : list string;
  ace_protocols : list string;
  ace_bandwidth_bps : option Z;
  ace_concurrent_streams : option Z;
  ace_max_object_bytes : option Z;
  ace_constraints : list string;
}.

(* crates/daemonapi/src/lib.rs:416-423 AuthorityCapabilitiesResult *)
Record AuthorityCapabilitiesResult := {
  acr_truth_kind : string;
  acr_network : string;
  acr_subject_peer_id : string;
  acr_schema_version : Z;
  acr_grants : list AuthorityCapabilityGrantEntry;
}.

(* crates/daemonapi/src/lib.rs:448-456 AuthorityRevocationEntry *)
Record AuthorityRevocationEntry := {
  are_sequence : Z;
  are_issuer_peer_id : string;
  are_effective_at : Z;
  are_reason : string;
  are_target : string;
  are_note : option string;
}.

(* crates/daemonapi/src/lib.rs:440-446 AuthorityRevocationsResult *)
Record AuthorityRevocationsResult := {
  arr_truth_kind : string;
  arr_network : string;
  arr_schema_version : Z;
  arr_revocations : list AuthorityRevocationEntry;
}.

(* crates/daemonapi/src/lib.rs:458-461 AuthoritySyncSnapshotPayload *)
Record AuthoritySyncSnapshotPayload := {
  asp_authority_snapshot : string;
}.

(* crates/daemonapi/src/lib.rs:463-468 AuthoritySyncOriginPayload *)
Record AuthoritySyncOriginPayload := {
  aop_authority_origin : string;
  aop_authority_subject : option string;
}.

(* crates/daemonapi/src/lib.rs:470-473 AuthoritySyncRevocationsOriginPayload *)
Record AuthoritySyncRevocationsOriginPayload := {
  arp_authority_origin : string;
}.

(* crates/daemonapi/src/lib.rs:475-492 AuthoritySyncResult *)
Record AuthoritySyncResult := {
  asr_truth_kind : string;
  asr_authority_source : string;
  asr_authority_origin : option string;
  asr_authority_subject : option string;
  asr_authority_snapshot : option string;
  asr_network : string;
  asr_local_peer_id : string;
  asr_grants_added : Z;
  asr_grants_removed : Z;
  asr_revocations_added : Z;
  asr_bootstrap_hints_added : Z;
  asr_bootstrap_hints_removed : Z;
  asr_relay_announcements_added : Z;
  asr_membership_changed : bool;
  asr_authority : AuthoritySyncStatus;
}.

(* crates/daemonapi/src/lib.rs:494-502 SessionConnectPayload *)
Record SessionConnectPayload := {
  scp_peer_id : string;
  scp_protocol : string;
  scp_class : option string;
  scp_path_preference : option string;
}.

(* crates/daemonapi/src/lib.rs:510-516 SessionConnectSummary *)
Record SessionConnectSummary := {
  scs_session_id : string;
  scs_state : string;
  scs_initial_path_class : string;
  scs_state_reason : option string;
}.

(* crates/daemonapi/src/lib.rs:504-508 SessionConnectResult *)
Record SessionConnectResult := {
  scr_truth_kind : string;
  scr_session : SessionConnectSummary;
}.

(* crates/daemonapi/src/lib.rs:518-523 SessionClosePayload *)
Record SessionClosePayload := {
  scl_session_id : string;
  scl_reason : option string;
}.

(* crates/daemonapi/src/lib.rs:525-532 SessionCloseResult *)
Record SessionCloseResult := {
  slr_truth_kind : string;
  slr_closed_session_id : string;
  slr_final_state : string;
  slr_closure_reason : option string;
}.

(* crates/daemonapi/src/lib.rs:534-537 SessionUpgradePayload *)
Record SessionUpgradePayload := {
  sgp_session_id : string;
}.

(* crates/daemonapi/src/lib.rs:539-546 SessionUpgradeResult *)
Record SessionUpgradeResult := {
  sur_truth_kind : string;
  sur_session_id : string;
  sur_prior_path_class : string;
  sur_resulting_path_class : string;
  sur_state : string;
}.

(* crates/daemonapi/src/lib.rs:548-552 SessionReconcilePayload *)
Record SessionReconcilePayload := {
  srq_session_id : option string;
}.

(* crates/daemonapi/src/lib.rs:564-571 SessionReconcileEntry *)
Record ApiSessionReconcileEntry := {
  sre_session_id : string;
  sre_peer_id : string;
  sre_disposition : string;
  sre_reason : string;
  sre_path_class : string;
}.

(* crates/daemonapi/src/lib.rs:554-562 SessionReconcileResult *)
Record SessionReconcileResult := {
  srs_truth_kind : string;
  srs_examined : Z;
  srs_unchanged : Z;
  srs_upgraded : Z;
  srs_closed : Z;
  srs_entries : list ApiSessionReconcileEntry;
}.

(* crates/daemonapi/src/lib.rs:25-38 ErrorCode *)
Inductive ErrorCode :=
| InvalidRequest | Unauthorized | NotFound | RuntimeUnavailable | StaleRuntimeReference
| PolicyRejectedCode | AuthorityMismatch | StateValidationFailed | UnsupportedOperation
| InternalError.

#[export] Instance ErrorCode_eq_dec : EqDecision ErrorCode.
Proof. solve_decision. Defined.

(* crates/daemonapi/src/lib.rs:40-46 ErrorObject *)
Record ErrorObject := {
  err_code : ErrorCode;
  err_message : string;
  err_details : option Json;
}.

(** What a handler answers with: one of the result types, which the envelope
    holds as a JSON value. *)
Inductive DaemonResult :=
| ResStatus (r : RuntimeStatusResult)
| ResSessions (r : RuntimeSessionsListResult)
| ResDiagnose (r : RuntimeDiagnoseResult)
| ResListeners (r : RuntimeListenersListResult)
| ResPaths (r : RuntimePathsListResult)
| ResHealth (r : RuntimeHealthResult)
| ResEvents (r : RuntimeEventsListResult)
| ResAuthorityShow (r : AuthorityShowResult)
| ResMembership (r : AuthorityMembershipResult)
| ResCapabilities (r : AuthorityCapabilitiesResult)
| ResRevocations (r : AuthorityRevocationsResult)
| ResIdentityShow (r : IdentityShowResult)
| ResIdentityVerify (r : IdentityVerifyResult)
| ResStateShow (r : StateShowResult)
| ResStateValidate (r : StateValidateResult)
| ResStateExport (r : StateExportResult)
| ResStateReset (r : StateResetResult)
| ResAuthoritySync (r : AuthoritySyncResult)
| ResConnect (r : SessionConnectResult)
| ResClose (r : SessionCloseResult)
| ResUpgrade (r : SessionUpgradeResult)
| ResReconcile (r : SessionReconcileResult).

(* crates/daemonapi/src/lib.rs:48-54 ResponseEnvelope *)
Record ResponseEnvelope := {
  rsp_ok : bool;
  rsp_request_id : string;
  rsp_result : option DaemonResult;
  rsp_error : option ErrorObject;
}.

(* crates/daemonapi/src/lib.rs:57-64 ResponseEnvelope::success *)
Definition envelope_success (request_id : string) (result : DaemonResult) : ResponseEnvelope := {|
  rsp_ok := true;
  rsp_request_id := request_id;
  rsp_result := Some result;
  rsp_error := None |}.

(* crates/daemonapi/src/lib.rs:66-82 ResponseEnvelope::error *)
Definition envelope_error (request_id : string) (code : ErrorCode) (message : string)
    (details : option Json) : ResponseEnvelope := {|
  rsp_ok := false;
  rsp_request_id := request_id;
  rsp_result := None;
  rsp_error := Some {| err_code := code; err_message := message; err_details := details |} |}.

(** [serde_json::from_slice] and [serde_json::from_value] at the types the
    daemon reads, with the text of their errors. *)
Class DaemonJson := {
  json_envelope : bytes → result string RequestEnvelope;
  json_diagnose : Json → result string RuntimeDiagnosePayload;
  json_export : Json → result string StateExportPayload;
  json_reset : Json → result string StateResetPayload;
  json_sync_snapshot : Json → result string AuthoritySyncSnapshotPayload;
  json_sync_origin : Json → result string AuthoritySyncOriginPayload;
  json_sync_revocations : Json → result string AuthoritySyncRevocationsOriginPayload;
  json_connect : Json → result string SessionConnectPayload;
  json_close : Json → result string SessionClosePayload;
  json_upgrade : Json → result string SessionUpgradePayload;
  json_reconcile : Json → result string SessionReconcilePayload;
}.
