(* ===== verification/QuipdApi.v ===== *)
(** cmd/quipd: what the control handlers answer with: the results built from
    the daemon's reports, their labels and texts, and the errors. *)
From stdpp Require Import countable option base list strings gmap pretty.
From Stdlib Require Import ZArith Lia Strings.Byte Strings.Ascii.
From S2P Require Import Prelude Text BTree F32 External Model Crypto Records Identity Netcheck Scheduler PeerStore Policy Routing RelayWire Relay Transport Membership Calendar Quic Control ControlFetch Fabric FabricPaths Durable Backup FabricPlane FabricRuntime FabricQuic Quipd DaemonApi.

(** ** Labels *)

(* cmd/quipd/src/main.rs:2343-2348 path_class_label *)
Definition path_class_label (path_kind : PathKind) : string :=
  match path_kind with Relay => "relay" | _ => "direct" end.

(* cmd/quipd/src/main.rs:2350-2356 path_source_label *)
Definition path_source_label (source : PathSource) : string :=
  match source with
  | Observed => "observed" | Bootstrap => "bootstrap" | AuthorityRelay => "authority_relay"
  end.

(* cmd/quipd/src/main.rs:2358-2365 class_label *)
Definition class_label (class : TrafficClass) : string :=
  match class with
  | Control => "control" | Interactive => "interactive" | Bulk => "bulk" | Background => "background"
  end.

(* cmd/quipd/src/main.rs:2367-2379 runtime_state_label *)
Definition runtime_state_label (state : RuntimeSessionState) : string :=
  match state with
  | StPending => "pending" | StConnecting => "connecting" | StActive => "active"
  | StDegraded => "degraded" | StMigrating => "migrating" | StReconciling => "reconciling"
  | StClosing => "closing" | StClosed => "closed" | StFailed => "failed"
  end.

(* cmd/quipd/src/main.rs:2381-2390 runtime_path_state_label *)
Definition runtime_path_state_label (state : RuntimePathState) : string :=
  match state with
  | PathCandidateState => "candidate" | PathActive => "active" | PathDegraded => "degraded"
  | PathMigrating => "migrating" | PathFailed => "failed" | PathSuppressed => "suppressed"
  end.

(* cmd/quipd/src/main.rs:2392-2398 runtime_listener_state_label *)
Definition runtime_listener_state_label (state : RuntimeListenerState) : string :=
  match state with
  | ListenerActive => "active" | ListenerFailed => "failed" | ListenerSuppressed => "suppressed"
  end.

(* cmd/quipd/src/main.rs:2400-2407 runtime_health_level_label *)
Definition runtime_health_level_label (level : RuntimeHealthLevel) : string :=
  match level with
  | HealthReady => "ready" | HealthDegraded => "degraded"
  | HealthFailed => "failed" | HealthSuppressed => "suppressed"
  end.

(* cmd/quipd/src/main.rs:2409-2416 runtime_reconnect_state_label *)
Definition runtime_reconnect_state_label (state : RuntimeReconnectState) : string :=
  match state with
  | ReconnectIdle => "idle" | ReconnectActive => "active"
  | ReconnectSuppressed => "suppressed" | ReconnectFailed => "failed"
  end.

(* cmd/quipd/src/main.rs:2418-2427 closure_reason_label *)
Definition closure_reason_label (reason : SessionClosureReason) : string :=
  match reason with
  | OperatorRequested => "operator_requested"
  | LocalRuntimeFailure => "local_runtime_failure"
  | RemoteFailure => "remote_failure"
  | PolicyRejected => "policy_rejected"
  | PathExhaustion => "path_exhaustion"
  | DaemonShutdown => "daemon_shutdown"
  end.

(* cmd/quipd/src/main.rs:2887-2892 hex_bytes *)
Definition hex_bytes (l : bytes) : string := hex_string l.

(* cmd/quipd/src/main.rs:2429-2436 hex_public_key *)
Definition hex_public_key `{Curves} (identity : IdentityKeypair) : string :=
  hex_string (pk_bytes (public_key identity)).

(* cmd/quipd/src/main.rs:2861-2868 render_revocation_reason *)
Definition render_revocation_reason (reason : RevocationReason) : string :=
  match reason with
  | Administrative => "administrative" | KeyCompromise => "key_compromise"
  | Superseded => "superseded" | Unspecified => "unspecified"
  end.

(** ** Errors *)

Section texts.
Context `{Blake3, Varint, Base32}.

(* cmd/quipd/src/main.rs:2870-2885 render_revocation_target *)
Definition render_revocation_target (target : RevocationTarget) : string :=
  match target with
  | TargetEnrollmentToken token_id => "enrollment_token:" +:+ hex_bytes token_id
  | TargetMembershipCertificate subject_peer_id issued_at =>
      "membership_certificate:" +:+ PeerId_to_text subject_peer_id +:+ ":" +:+ pretty issued_at
  | TargetCapabilityGrant subject_peer_id sequence =>
      "capability_grant:" +:+ PeerId_to_text subject_peer_id +:+ ":" +:+ pretty sequence
  | TargetPeer peer_id => "peer:" +:+ PeerId_to_text peer_id
  end.

(* cmd/quipd/src/main.rs:2295-2311 daemon_error_response (code) *)
Definition daemon_error_code (error : DaemonStateError) : ErrorCode * option Json :=
  match error with
  | DsPeerNotFound peer => (NotFound, Some (JObj [("peer_id", JStr peer)]))
  | DsSessionNotFound session_id =>
      (StaleRuntimeReference, Some (JObj [("session_id", JStr session_id)]))
  | DsPolicyDenied _ => (PolicyRejectedCode, None)
  | DsNetworkMismatch => (AuthorityMismatch, None)
  | DsMissingSchemaVersion | DsUnsupportedSchemaVersion _ _ | DsUnsupportedDurableField _ =>
      (StateValidationFailed, None)
  | _ => (InternalError, None)
  end.

(* cmd/quipd/src/main.rs:2291-2313 daemon_error_response *)
Definition daemon_error_response (request_id : string) (error : DaemonStateError)
    : ResponseEnvelope :=
  let '(code, details) := daemon_error_code error in
  envelope_error request_id code (DaemonStateError_text error) details.

(* cmd/quipd/src/main.rs:2315-2328 map_error_status *)
Definition map_error_status (response : ResponseEnvelope) : Z :=
  match err_code <$> rsp_error response with
  | Some InvalidRequest => 400
  | Some Unauthorized => 401
  | Some NotFound => 404
  | Some RuntimeUnavailable => 503
  | Some StaleRuntimeReference => 409
  | Some PolicyRejectedCode => 403
  | Some AuthorityMismatch => 409
  | Some StateValidationFailed => 422
  | Some UnsupportedOperation => 404
  | Some InternalError | None => 500
  end.

End texts.

(** A string that cuts a character in two panics, as [parse_session_id] of the
    relay does. *)
(* cmd/quipd/src/main.rs:2438-2452 parse_hex_session_id *)
Definition parse_hex_session_id (value : string) : outcome (result string bytes) :=
  if decide (str_len value ≠ 32%Z) then
    Returns (Err "session ids supplied to daemon API must be 32 hex characters")
  else
    match parse_session_bytes value 0 16 with
    | Panics => Panics
    | Returns (Some session_id) => Returns (Ok session_id)
    | Returns None => Returns (Err "session ids supplied to daemon API must be valid hex")
    end.

(** ** Entries *)

Section entries.
Context `{Blake3, Varint, Base32}.

(** [now] is the clock as the entry is built. *)
(* cmd/quipd/src/main.rs:2195-2207 runtime_session_entry *)
Definition runtime_session_entry (now : Z) (session : SessionSnapshot) : RuntimeSessionEntry := {|
  rse_session_id := Quipd.hex_session_id (ss_session_id session);
  rse_peer_id := PeerId_to_text (ss_peer session);
  rse_state := runtime_state_label (ss_state session);
  rse_closure_reason := closure_reason_label <$> ss_closure_reason session;
  rse_state_reason := ss_state_reason session;
  rse_active_path_class := path_class_label (ss_path_kind session);
  rse_age_seconds := sat_sub now (ss_created_at_unix_secs session);
  rse_last_activity_seconds := sat_sub now (ss_last_activity_unix_secs session) |}.

(* cmd/quipd/src/main.rs:2209-2220 runtime_listener_entry *)
Definition runtime_listener_entry (now : Z) (listener : RuntimeListenerSnapshot)
    : RuntimeListenerEntry := {|
  rle_listener_id := ls_listener_id listener;
  rle_transport := ls_transport listener;
  rle_bind_summary := ls_bind_summary listener;
  rle_protocol := protocol_text (ls_protocol listener);
  rle_advertise := ls_advertise listener;
  rle_state := runtime_listener_state_label (ls_state listener);
  rle_state_reason := ls_state_reason listener;
  rle_age_seconds := sat_sub now (ls_started_at_unix_secs listener) |}.

(* cmd/quipd/src/main.rs:2256-2266 runtime_path_alternative_entry *)
Definition runtime_path_alternative_entry (alternative : RuntimePathAlternative)
    : RuntimePathAlternativeEntry := {|
  rpa_path_class := path_class_label (alt_path_kind alternative);
  rpa_source := path_source_label (alt_source alternative);
  rpa_relay_peer_id := PeerId_to_text <$> alt_relay_peer alternative;
  rpa_score := alt_score alternative;
  rpa_summary := alt_summary alternative |}.

(* cmd/quipd/src/main.rs:2222-2254 runtime_path_entry *)
Definition runtime_path_entry (path : RuntimePathSnapshot) : RuntimePathEntry := {|
  rpe_session_id := Quipd.hex_session_id <$> ps_session_id path;
  rpe_peer_id := PeerId_to_text (ps_peer path);
  rpe_protocol := protocol_text <$> ps_protocol path;
  rpe_class := class_label (ps_class path);
  rpe_state := runtime_path_state_label (ps_state path);
  rpe_path_class := default "unknown" (path_class_label <$> ps_path_kind path);
  rpe_source := default "runtime" (path_source_label <$> ps_source path);
  rpe_relay_peer_id := PeerId_to_text <$> ps_relay_peer path;
  rpe_endpoint_summary := ps_endpoint_summary path;
  rpe_score := ps_score path;
  rpe_state_reason := ps_state_reason path;
  rpe_decision_reason := ps_decision_reason path;
  rpe_summary := ps_summary path;
  rpe_alternatives := runtime_path_alternative_entry <$> ps_alternatives path |}.

(* cmd/quipd/src/main.rs:2268-2278 runtime_event_entry *)
Definition runtime_event_entry (event : RuntimeEvent) : RuntimeEventEntry := {|
  ree_event_id := ev_event_id event;
  ree_event_type := ev_event_type event;
  ree_emitted_at := ev_emitted_at event;
  ree_truth_kind := ev_truth_kind event;
  ree_subject_kind := sub_kind (ev_subject event);
  ree_subject_id := sub_id (ev_subject event);
  ree_details := ev_details event |}.

(* cmd/quipd/src/main.rs:2280-2289 authority_revision *)
Definition authority_revision (state : DaemonState) : string :=
  let sequence := default 0%Z (max_revocation_sequence state) in
  "membership:" +:+ PeerId_to_text (mc_subject_peer_id (ds_membership state)) +:+
  ":grants:" +:+ len_text (ds_capability_grants state) +:+
  ":revocations:" +:+ len_text (ds_revocations state) +:+
  ":max_seq:" +:+ pretty sequence.

(* cmd/quipd/src/main.rs:1496-1503 durable_state_violation_entry *)
Definition durable_state_violation_entry (violation : DurableStateViolation)
    : DurableStateViolationEntry := {|
  dve_path := dv_path violation; dve_message := dv_message violation |}.

(** [format!("{role:?}").to_lowercase()]. *)
Definition role_label (role : DaemonRole) : string :=
  match role with
  | RoleBootstrap => "bootstrap" | RoleRelay => "relay"
  | RoleObserver => "observer" | RoleEdge => "edge"
  end.

(* cmd/quipd/src/main.rs:1505-1522 durable_state_summary_result *)
Definition durable_state_summary_result (summary : DurableStateSummary)
    : DurableStateSummaryResult := {|
  dsr_network := dsum_network summary;
  dsr_local_peer_id := PeerId_to_text (dsum_local_peer_id summary);
  dsr_roles := role_label <$> dsum_roles summary;
  dsr_bootstrap_hints := dsum_bootstrap_hints summary;
  dsr_relays := dsum_relays summary;
  dsr_peers := dsum_peers summary;
  dsr_capability_grants := dsum_capability_grants summary;
  dsr_revocations := dsum_revocations summary;
  dsr_denied_peers := dsum_denied_peers summary;
  dsr_path_candidates := dsum_path_candidates summary |}.

(* cmd/quipd/src/main.rs:965-980 runtime_session_inventory (sort) *)
Definition inventory_le (left right : SessionSnapshot) : bool :=
  if (ss_last_activity_unix_secs right <? ss_last_activity_unix_secs left)%Z then true
  else if (ss_last_activity_unix_secs left <? ss_last_activity_unix_secs right)%Z then false
  else lex_le (string_codes (PeerId_to_text (ss_peer left)))
              (string_codes (PeerId_to_text (ss_peer right))).

(* cmd/quipd/src/main.rs:2851-2859 state_sync_requires_reevaluation *)
Definition state_sync_requires_reevaluation (report : StateSyncReport) : bool :=
  sy_membership_changed report || (0 <? sy_grants_added report)%Z ||
  (0 <? sy_grants_removed report)%Z || (0 <? sy_revocations_added report)%Z ||
  (0 <? sy_bootstrap_hints_added report)%Z || (0 <? sy_bootstrap_hints_removed report)%Z ||
  (0 <? sy_relay_announcements_added report)%Z.
End entries.

(** ** Diagnosis *)

Definition issue (code severity layer summary : string) : RuntimeDiagnosisIssue := {|
  rdi_code := code; rdi_severity := severity; rdi_layer := layer; rdi_summary := summary |}.

(** An issue that is pushed under a condition. *)
Definition push_if (b : bool) (i : RuntimeDiagnosisIssue) : list RuntimeDiagnosisIssue :=
  if b then [i] else [].

Definition some_state (sessions : list RuntimeSessionEntry) (state : string) : bool :=
  any (λ session, String.eqb (rse_state session) state) sessions.

(* cmd/quipd/src/main.rs:1183-1334 runtime_diagnosis_issues *)
Definition runtime_diagnosis_issues (status : RuntimeStatusResult) (health : RuntimeHealthResult)
    (durable_state : StateShowResult) (identity : IdentityVerifyResult)
    (sessions : list RuntimeSessionEntry) (paths : list RuntimePathEntry)
    : list RuntimeDiagnosisIssue :=
  let authority := rst_authority status in
  (if negb (ssh_present durable_state) then
     [issue "durable_state_missing" "error" "durable" "durable network state file is missing"]
   else push_if (negb (ssh_valid durable_state))
     (issue "durable_state_invalid" "error" "durable" "durable network state failed validation")) ++
  push_if (negb (String.eqb (ivr_match_result identity) "match"))
    (issue "identity_mismatch" "error" "durable"
       ("identity verification returned " +:+ ivr_match_result identity)) ++
  push_if (ast_authority_subject_mismatch authority)
    (issue "authority_subject_mismatch" "error" "authority"
       "authority subject does not match the local runtime identity") ++
  (if ast_local_policy_denied authority then
     [issue "authority_policy_denied" "error" "authority"
        (default "authority policy denied local runtime behavior"
           (ast_local_policy_reason authority))]
   else push_if (negb (String.eqb (ast_sync_status authority) "in_sync") ||
                 negb (String.eqb (ast_health authority) "ready"))
     (issue "authority_not_ready"
        (if String.eqb (ast_health authority) "failed" then "error" else "warn") "authority"
        ("authority reports sync_status=" +:+ ast_sync_status authority +:+
         " health=" +:+ ast_health authority))) ++
  push_if (negb (String.eqb (rhr_daemon_readiness health) "ready"))
    (issue "daemon_not_ready"
       (if String.eqb (rhr_daemon_readiness health) "failed" then "error" else "warn") "runtime"
       ("daemon readiness is " +:+ rhr_daemon_readiness health)) ++
  push_if (String.eqb (rhr_reconnect_state health) "suppressed")
    (issue "reconnect_suppressed" "warn" "runtime"
       ("reconnect is suppressed with " +:+ pretty (rhr_reconnect_suppression_count health) +:+
        " active suppression entries")) ++
  push_if (String.eqb (rhr_reconnect_state health) "failed")
    (issue "reconnect_failed" "error" "runtime"
       ("reconnect has failed after " +:+ pretty (rhr_reconnect_attempt_count health) +:+
        " tracked attempts")) ++
  push_if (some_state sessions "failed")
    (issue "failed_sessions_present" "error" "runtime"
       "one or more runtime sessions are in failed state") ++
  push_if (some_state sessions "degraded")
    (issue "degraded_sessions_present" "warn" "runtime"
       "one or more runtime sessions are degraded") ++
  push_if (some_state sessions "closed")
    (issue "recently_closed_sessions_present" "warn" "runtime"
       "recently closed runtime sessions are present in terminal history") ++
  push_if (some_state sessions "closing")
    (issue "closing_sessions_present" "warn" "runtime"
       "one or more runtime sessions are closing") ++
  push_if (match sessions with [] => false | _ => (rhr_active_paths health =? 0)%Z end)
    (issue "sessions_without_active_paths" "error" "runtime"
       "runtime has sessions but no active paths") ++
  push_if (any (λ path, String.eqb (rpe_state path) "failed") paths)
    (issue "failed_paths_present" "warn" "runtime"
       "one or more runtime paths are in failed state").

(* cmd/quipd/src/main.rs:1336-1349 runtime_primary_classification *)
Definition runtime_primary_classification (issues : list RuntimeDiagnosisIssue) : string :=
  match issues with
  | [] => "healthy"
  | _ =>
      let has layer := any (λ issue, String.eqb (rdi_layer issue) layer) issues in
      match has "runtime", has "authority", has "durable" with
      | true, false, false => "runtime_only"
      | false, true, false => "authority_driven"
      | false, false, true => "durable_state_only"
      | _, _, _ => "mixed"
      end
  end.
