(* ===== verification/QuipdControl.v ===== *)
(** cmd/quipd: the control server: what it does with one request, on the node
    the daemon's cycle works on.

    A handler answers with an envelope or panics; a panic ends the thread that
    serves requests. *)
From stdpp Require Import countable option base list strings gmap pretty.
From Stdlib Require Import ZArith Lia Strings.Byte Strings.Ascii.
From S2P Require Import Prelude Text BTree F32 External Model Crypto Records Identity Netcheck Scheduler PeerStore Policy Routing RelayWire Relay Transport Membership Calendar Quic Control ControlFetch Fabric FabricPaths Durable Backup FabricPlane FabricRuntime FabricQuic Quipd DaemonApi QuipdApi.

(** [export_backup_bundle] on files of this kind; the salt and the nonce are
    drawn for every call. *)
Class BackupStore (C : Type) :=
  backup_export : Z → bytes → bytes → DurableBackupExportRequest → Files C →
    result DaemonStateError (DurableBackupExportReport * Files C).

#[export] Instance bytes_backup_store
    `{Blake3, Varint, Base32, Sealing, Sha256, BackupFormat, StateFormat bytes} : BackupStore bytes :=
  export_backup_bundle.

(* cmd/quipd/src/main.rs:834-872 read_request_body *)
Definition read_request_body (request : HttpRequest) : result (Z * ResponseEnvelope) bytes :=
  match req_body_length request with
  | None => Err (411, envelope_error "unknown" InvalidRequest
      "daemon control requests must include Content-Length" None)%Z
  | Some limit =>
      if (64 * 1024 <? limit)%Z then
        Err (413, envelope_error "unknown" InvalidRequest
          "daemon control request body exceeds 65536 bytes" None)%Z
      else
        match req_read request with
        | Ok body => Ok body
        | Err error => Err (400, envelope_error "unknown" InvalidRequest
            ("daemon control request body could not be read: " +:+ error) None)%Z
        end
  end.

Section control.
Context `{Blake3, Varint, Base32, Curves, ArtifactJson, JsonBytes SessionCredentialUnsigned}.
Context {C : Type} `{StateFormat C} `{BackupStore C} {Body : Type} `{ControlJson Body}.
Context `{DaemonJson}.
Context {R : Type} `{RelayControl R} (clock : nat → Z) (rng : nat → nat → bytes).
Variable web : string → HttpReply Body.
Variable args : Args.
Variable local_identity : IdentityKeypair.

#[local] Instance control_transport : LifecycleTransport (World R) := quic_transport clock rng.
Local Notation config := (args_config args).
Local Notation M := (NodeM C (World R)).

(** A handler, from the request that was read to its answer. *)
Definition Handler : Type := RequestEnvelope → Node C (World R) → outcome ResponseEnvelope * Node C (World R).

(** The answer to an operation: its result, or its error. *)
Definition respond (request_id : string) (m : M DaemonResult) (n : Node C (World R))
    : outcome ResponseEnvelope * Node C (World R) :=
  match m n with
  | (Ok result, n) => (Returns (envelope_success request_id result), n)
  | (Err error, n) => (Returns (daemon_error_response request_id error), n)
  end.

(** A refusal that touches nothing. *)
Definition refuse (request_id : string) (code : ErrorCode) (message : string)
    (details : option Json) (n : Node C (World R)) : outcome ResponseEnvelope * Node C (World R) :=
  (Returns (envelope_error request_id code message details), n).

(** A handler behind the decoding of its payload. *)
Definition with_payload {P : Type} (decode : Json → result string P) (what : string)
    (k : P → Handler) : Handler := λ envelope,
  match decode (rqe_payload envelope) with
  | Ok payload => k payload envelope
  | Err error => refuse (rqe_request_id envelope) InvalidRequest
      ("invalid " +:+ what +:+ " payload: " +:+ error) None
  end.

Definition now_secs : M Z := on_transport (current_unix_secs clock).

(** ** Status *)

Definition event_field (event : RuntimeEvent) (key : string) : option Json :=
  object ← as_object (ev_details event); json_get key object.
Definition as_bool (v : Json) : option bool := match v with JBool b => Some b | _ => None end.
Definition as_str (v : Json) : option string := match v with JStr s => Some s | _ => None end.

(** The status before the last reevaluation's event is looked at. *)
(* cmd/quipd/src/main.rs:2613-2636 latest_authority_status (status) *)
Definition base_authority_status (state : DaemonState) (health : RuntimeHealthReport)
    : AuthoritySyncStatus :=
  let mismatched := String.eqb (hr_authority_subject_status health) "mismatched" in
  let denied := bool_decide (is_Some (hr_authority_deny_reason health)) in {|
    ast_sync_status :=
      if mismatched then "subject_mismatch" else if denied then "policy_enforced" else "in_sync";
    ast_last_accepted_revision := authority_revision state;
    ast_health := runtime_health_level_label (hr_authority_sync_health health);
    ast_local_policy_denied := denied;
    ast_authority_subject_mismatch := mismatched;
    ast_reevaluated_sessions := 0; ast_closed_sessions := 0; ast_degraded_sessions := 0;
    ast_migrated_sessions := 0; ast_unchanged_sessions := 0; ast_reevaluated_listeners := 0;
    ast_suppressed_listeners := 0; ast_restored_listeners := 0;
    ast_reconnect_suppressions_added := 0; ast_reconnect_suppressions_cleared := 0;
    ast_local_policy_reason := hr_authority_deny_reason health |}.

(** The status with what that event tells. *)
(* cmd/quipd/src/main.rs:2638-2705 latest_authority_status (event) *)
Definition authority_status_from_event (event : RuntimeEvent) (status : AuthoritySyncStatus)
    : AuthoritySyncStatus :=
  let flag key fallback := default fallback (v ← event_field event key; as_bool v) in
  let number key := default 0%Z (v ← event_field event key; as_u64 v) in {|
    ast_sync_status := ast_sync_status status;
    ast_last_accepted_revision := ast_last_accepted_revision status;
    ast_health := ast_health status;
    ast_local_policy_denied := flag "local_policy_denied" (ast_local_policy_denied status);
    ast_authority_subject_mismatch :=
      flag "authority_subject_mismatch" (ast_authority_subject_mismatch status);
    ast_reevaluated_sessions := number "reevaluated_sessions";
    ast_closed_sessions := number "closed_sessions";
    ast_degraded_sessions := number "degraded_sessions";
    ast_migrated_sessions := number "migrated_sessions";
    ast_unchanged_sessions := number "unchanged_sessions";
    ast_reevaluated_listeners := number "reevaluated_listeners";
    ast_suppressed_listeners := number "suppressed_listeners";
    ast_restored_listeners := number "restored_listeners";
    ast_reconnect_suppressions_added := number "reconnect_suppressions_added";
    ast_reconnect_suppressions_cleared := number "reconnect_suppressions_cleared";
    ast_local_policy_reason :=
      or_else (v ← event_field event "local_policy_reason"; as_str v)
        (ast_local_policy_reason status) |}.

(* cmd/quipd/src/main.rs:2602-2708 latest_authority_status *)
Definition latest_authority_status (state : DaemonState) (health : RuntimeHealthReport)
    : M AuthoritySyncStatus :=
  events ← on_transport (recent_events 64);
  let latest := find_first
    (λ event, String.eqb (ev_event_type event) "authority.reevaluation_completed")
    (reverse events) in
  let status := base_authority_status state health in
  mret match latest with
       | Some event => authority_status_from_event event status
       | None => status
       end.

(* cmd/quipd/src/main.rs:1039-1068 runtime_status_result *)
Definition runtime_status_result : M RuntimeStatusResult :=
  state ← sync_runtime_sessions config;
  health ← runtime_health config;
  authority ← latest_authority_status state health;
  mret {|
    rst_truth_kind := "runtime";
    rst_daemon_health := runtime_health_level_label (hr_daemon_readiness health);
    rst_identity := {| ids_status := "loaded"; ids_path := arg_identity_path args;
                       ids_node_id := PeerId_to_text (peer_id local_identity) |};
    rst_durable_state := {| dst_status := "loaded"; dst_path := arg_state_path args;
                            dst_schema_version := ds_schema_version state |};
    rst_authority := authority;
    rst_runtime_summary := {|
      rsm_session_count := list_len (ds_active_sessions state);
      rsm_active_path_count := hr_active_paths health;
      rsm_reconnect_state := runtime_reconnect_state_label (hr_reconnect_state health) |} |}.

(* cmd/quipd/src/main.rs:874-913 runtime_status_response *)
Definition runtime_status_response : Handler := λ envelope,
  respond (rqe_request_id envelope) (result ← runtime_status_result; mret (ResStatus result)).

(* cmd/quipd/src/main.rs:1070-1096 runtime_health_result *)
Definition runtime_health_result : M RuntimeHealthResult :=
  health ← runtime_health config;
  mret {|
    rhr_truth_kind := "runtime";
    rhr_daemon_readiness := runtime_health_level_label (hr_daemon_readiness health);
    rhr_authority_sync_health := runtime_health_level_label (hr_authority_sync_health health);
    rhr_authority_subject_status := hr_authority_subject_status health;
    rhr_authority_deny_reason := hr_authority_deny_reason health;
    rhr_runtime_registry_health := runtime_health_level_label (hr_runtime_registry_health health);
    rhr_path_manager_health := runtime_health_level_label (hr_path_manager_health health);
    rhr_reconnect_subsystem_health :=
      runtime_health_level_label (hr_reconnect_subsystem_health health);
    rhr_active_sessions := hr_active_sessions health;
    rhr_active_paths := hr_active_paths health;
    rhr_active_listeners := hr_active_listeners health;
    rhr_reconnect_state := runtime_reconnect_state_label (hr_reconnect_state health);
    rhr_reconnect_attempt_count := hr_reconnect_attempt_count health;
    rhr_reconnect_next_attempt_unix_secs := hr_reconnect_next_attempt_unix_secs health;
    rhr_reconnect_suppression_count := hr_reconnect_suppression_count health;
    rhr_runtime_event_buffer_depth := hr_runtime_event_buffer_depth health |}.

(* cmd/quipd/src/main.rs:1793-1830 runtime_health_response *)
Definition runtime_health_response : Handler := λ envelope,
  respond (rqe_request_id envelope) (result ← runtime_health_result; mret (ResHealth result)).

(** ** Sessions, listeners, paths and events *)

(* cmd/quipd/src/main.rs:965-980 runtime_session_inventory *)
Definition runtime_session_inventory (state : DaemonState) : M (list SessionSnapshot) :=
  terminal ← try_transport (recent_terminal_sessions 16);
  mret (stable_sort inventory_le (ds_active_sessions state ++
    match terminal with Ok terminal => terminal | Err _ => [] end)).

(** Every entry reads the clock. *)
Definition session_entries (sessions : list SessionSnapshot) : M (list RuntimeSessionEntry) :=
  mapM (λ session, now ← now_secs; mret (runtime_session_entry now session)) sessions.
Definition listener_entries (listeners : list RuntimeListenerSnapshot)
    : M (list RuntimeListenerEntry) :=
  mapM (λ listener, now ← now_secs; mret (runtime_listener_entry now listener)) listeners.

(* cmd/quipd/src/main.rs:945-963 runtime_sessions_response *)
Definition runtime_sessions_response : Handler := λ envelope,
  respond (rqe_request_id envelope)
    (state ← sync_runtime_sessions config;
     sessions ← runtime_session_inventory state;
     entries ← session_entries sessions;
     mret (ResSessions {| rsl_truth_kind := "runtime"; rsl_sessions := entries |})).

(* cmd/quipd/src/main.rs:1759-1774 runtime_listeners_response *)
Definition runtime_listeners_response : Handler := λ envelope,
  respond (rqe_request_id envelope)
    (listeners ← runtime_listeners config;
     entries ← listener_entries listeners;
     mret (ResListeners {| rll_truth_kind := "runtime"; rll_listeners := entries |})).

(* cmd/quipd/src/main.rs:1776-1791 runtime_paths_response *)
Definition runtime_paths_response : Handler := λ envelope,
  respond (rqe_request_id envelope)
    (paths ← runtime_paths config;
     mret (ResPaths {| rpl_truth_kind := "runtime"; rpl_paths := runtime_path_entry <$> paths |})).

(* cmd/quipd/src/main.rs:1351-1382 runtime_events_response *)
Definition runtime_events_response : Handler := λ envelope,
  let limit := default 32%Z
    (object ← as_object (rqe_payload envelope); v ← json_get "limit" object; as_u64 v) in
  respond (rqe_request_id envelope)
    (events ← runtime_events (Z.to_nat limit);
     mret (ResEvents {| rel_truth_kind := "runtime"; rel_events := runtime_event_entry <$> events |})).

(** ** Authority and identity *)

(* cmd/quipd/src/main.rs:1098-1124 authority_show_result *)
Definition authority_show_result : M AuthorityShowResult :=
  state ← sync_runtime_sessions config;
  health ← runtime_health config;
  authority ← latest_authority_status state health;
  mret {|
    ash_truth_kind := "runtime";
    ash_configured_origin := arg_authority_origin args;
    ash_configured_subject := arg_authority_subject args;
    ash_configured_snapshot := arg_authority_snapshot args;
    ash_network := ds_network state;
    ash_local_peer_id := PeerId_to_text (ds_local_peer_id state);
    ash_membership_subject_peer_id := PeerId_to_text (mc_subject_peer_id (ds_membership state));
    ash_membership_issuer_peer_id := PeerId_to_text (mc_issuer_peer_id (ds_membership state));
    ash_membership_roles := mc_roles (ds_membership state);
    ash_grants := list_len (ds_capability_grants state);
    ash_revocations := list_len (ds_revocations state);
    ash_denied_peers := list_len (ds_denied_peers state);
    ash_bootstrap_hints := list_len (ds_bootstrap state);
    ash_relays := relay_count state;
    ash_schema_version := ds_schema_version state;
    ash_authority := authority |}.

(* cmd/quipd/src/main.rs:1384-1419 authority_show_response *)
Definition authority_show_response : Handler := λ envelope,
  respond (rqe_request_id envelope) (result ← authority_show_result; mret (ResAuthorityShow result)).

(* cmd/quipd/src/main.rs:1669-1689 authority_membership_response *)
Definition authority_membership_response : Handler := λ envelope,
  respond (rqe_request_id envelope)
    (state ← on_files (ensure_state config);
     mret (ResMembership {|
       amr_truth_kind := "runtime";
       amr_network := ds_network state;
       amr_subject_peer_id := PeerId_to_text (mc_subject_peer_id (ds_membership state));
       amr_issuer_peer_id := PeerId_to_text (mc_issuer_peer_id (ds_membership state));
       amr_issued_at := mc_issued_at (ds_membership state);
       amr_expires_at := mc_expires_at (ds_membership state);
       amr_roles := mc_roles (ds_membership state);
       amr_schema_version := ds_schema_version state |})).

(* cmd/quipd/src/main.rs:1706-1722 authority_capabilities_response (entry) *)
Definition capability_entry (grant : CapabilityGrant) : AuthorityCapabilityGrantEntry := {|
  ace_subject_peer_id := PeerId_to_text (cg_subject_peer_id grant);
  ace_issuer_peer_id := PeerId_to_text (cg_issuer_peer_id grant);
  ace_sequence := cg_sequence grant;
  ace_not_before := cg_not_before grant;
  ace_expires_at := cg_expires_at grant;
  ace_capabilities := cg_capabilities grant;
  ace_protocols := protocol_text <$> cg_protocol_scopes grant;
  ace_bandwidth_bps := rl_bandwidth_bps (cg_resource_limits grant);
  ace_concurrent_streams := rl_concurrent_streams (cg_resource_limits grant);
  ace_max_object_bytes := rl_max_object_bytes (cg_resource_limits grant);
  ace_constraints := cg_constraints grant |}.

(* cmd/quipd/src/main.rs:1691-1728 authority_capabilities_response *)
Definition authority_capabilities_response : Handler := λ envelope,
  respond (rqe_request_id envelope)
    (state ← on_files (ensure_state config);
     mret (ResCapabilities {|
       acr_truth_kind := "runtime";
       acr_network := ds_network state;
       acr_subject_peer_id := PeerId_to_text (ds_local_peer_id state);
       acr_schema_version := ds_schema_version state;
       acr_grants := capability_entry <$> grants_for_peer state (ds_local_peer_id state) |})).

(* cmd/quipd/src/main.rs:1744-1751 authority_revocations_response (entry) *)
Definition revocation_entry (revocation : RevocationRecord) : AuthorityRevocationEntry := {|
  are_sequence := rr_sequence revocation;
  are_issuer_peer_id := PeerId_to_text (rr_issuer_peer_id revocation);
  are_effective_at := rr_effective_at revocation;
  are_reason := render_revocation_reason (rr_reason revocation);
  are_target := render_revocation_target (rr_target revocation);
  are_note := rr_note revocation |}.

(* cmd/quipd/src/main.rs:1730-1757 authority_revocations_response *)
Definition authority_revocations_response : Handler := λ envelope,
  respond (rqe_request_id envelope)
    (state ← on_files (ensure_state config);
     mret (ResRevocations {|
       arr_truth_kind := "runtime";
       arr_network := ds_network state;
       arr_schema_version := ds_schema_version state;
       arr_revocations := revocation_entry <$> ds_revocations state |})).

(* cmd/quipd/src/main.rs:1421-1449 identity_show_response *)
Definition identity_show_response : Handler := λ envelope,
  respond (rqe_request_id envelope)
    (state ← on_files (ensure_state config);
     mret (ResIdentityShow {|
       ish_truth_kind := "runtime_and_durable";
       ish_status := "loaded";
       ish_identity_path := arg_identity_path args;
       ish_node_id := PeerId_to_text (peer_id local_identity);
       ish_public_key_hex := hex_public_key local_identity;
       ish_durable_state_peer_id := Some (PeerId_to_text (ds_local_peer_id state));
       ish_authority_subject_peer_id :=
         Some (PeerId_to_text (mc_subject_peer_id (ds_membership state)));
       ish_state_binding_status :=
         if bool_decide (ds_local_peer_id state = peer_id local_identity) &&
            bool_decide (mc_subject_peer_id (ds_membership state) = peer_id local_identity)
         then "matched" else "mismatched" |})).

(* cmd/quipd/src/main.rs:1126-1161 identity_verify_result *)
Definition identity_verify_result : M IdentityVerifyResult :=
  state ← on_files (ensure_state config);
  let loaded_node_id := PeerId_to_text (peer_id local_identity) in
  let expected_node_id := PeerId_to_text (ds_local_peer_id state) in
  let authority_subject_peer_id := PeerId_to_text (mc_subject_peer_id (ds_membership state)) in
  let mismatch_reasons :=
    (if negb (String.eqb loaded_node_id expected_node_id)
     then ["durable state expects " +:+ expected_node_id +:+ " but daemon loaded " +:+ loaded_node_id]
     else []) ++
    (if negb (String.eqb loaded_node_id authority_subject_peer_id)
     then ["authority membership expects " +:+ authority_subject_peer_id +:+ " but daemon loaded " +:+
           loaded_node_id]
     else []) in
  mret {|
    ivr_truth_kind := "runtime_and_durable";
    ivr_identity_path := arg_identity_path args;
    ivr_expected_node_id := Some expected_node_id;
    ivr_loaded_node_id := loaded_node_id;
    ivr_authority_subject_peer_id := Some authority_subject_peer_id;
    ivr_match_result := match mismatch_reasons with [] => "match" | _ => "mismatch" end;
    ivr_mismatch_reasons := mismatch_reasons |}.

(* cmd/quipd/src/main.rs:1451-1494 identity_verify_response *)
Definition identity_verify_response : Handler := λ envelope,
  respond (rqe_request_id envelope)
    (result ← identity_verify_result; mret (ResIdentityVerify result)).

(** ** The state file *)

(* cmd/quipd/src/main.rs:1163-1181 state_show_result *)
Definition state_show_result : M StateShowResult :=
  report ← on_files (inspect_state_file config);
  mret {|
    ssh_truth_kind := "durable";
    ssh_state_path := arg_state_path args;
    ssh_present := ir_present report;
    ssh_schema_version := ir_schema_version report;
    ssh_valid := ir_valid report;
    ssh_violations := durable_state_violation_entry <$> ir_violations report;
    ssh_summary := durable_state_summary_result <$> ir_summary report |}.

(* cmd/quipd/src/main.rs:1524-1548 state_show_response *)
Definition state_show_response : Handler := λ envelope,
  respond (rqe_request_id envelope) (result ← state_show_result; mret (ResStateShow result)).

(* cmd/quipd/src/main.rs:1550-1573 state_validate_response *)
Definition state_validate_response : Handler := λ envelope,
  respond (rqe_request_id envelope)
    (report ← on_files (validate_state_file config);
     mret (ResStateValidate {|
       svr_truth_kind := "durable";
       svr_state_path := arg_state_path args;
       svr_present := ir_present report;
       svr_schema_version := ir_schema_version report;
       svr_valid := ir_valid report;
       svr_violations := durable_state_violation_entry <$> ir_violations report |})).

Definition export_files (now : Z) (salt nonce : bytes) (request : DurableBackupExportRequest)
    : M DurableBackupExportReport := λ n,
  match backup_export now salt nonce request (node_files n) with
  | Ok (report, fs) => (Ok report, mk_Node fs (node_transport n))
  | Err error => (Err error, n)
  end.

(* cmd/quipd/src/main.rs:1575-1621 state_export_response *)
Definition state_export_response : Handler :=
  with_payload json_export "state export" (λ payload envelope,
    respond (rqe_request_id envelope)
      (now ← now_secs;
       salt ← on_transport (fill_bytes rng 16);
       nonce ← on_transport (fill_bytes rng 12);
       report ← export_files now salt nonce {|
         ex_output_path := sep_output_path payload;
         ex_passphrase := sep_passphrase payload;
         ex_hostname := sep_hostname payload;
         ex_environment := sep_environment payload;
         ex_identity_path := arg_identity_path args;
         ex_state_path := arg_state_path args;
         ex_network := arg_network args;
         ex_authority_origin := arg_authority_origin args;
         ex_authority_subject := arg_authority_subject args;
         ex_authority_snapshot := arg_authority_snapshot args;
         ex_overwrite := default false (sep_overwrite payload) |};
       mret (ResStateExport {|
         ser_truth_kind := "durable";
         ser_bundle_path := er_bundle_path report;
         ser_created_at_unix_secs := er_created_at_unix_secs report;
         ser_hostname := er_hostname report;
         ser_environment := er_environment report;
         ser_network := er_network report;
         ser_identity_sha256_hex := er_identity_sha256_hex report;
         ser_state_sha256_hex := er_state_sha256_hex report;
         ser_durable_state_present := er_durable_state_present report;
         ser_durable_state_valid := er_durable_state_valid report |}))).

(* cmd/quipd/src/main.rs:1623-1667 state_reset_response *)
Definition state_reset_response : Handler :=
  with_payload json_reset "state reset" (λ payload envelope,
    if negb (String.eqb (srp_scope payload) "network_state_only") then
      refuse (rqe_request_id envelope) InvalidRequest
        "state reset scope must be network_state_only" None
    else if negb (String.eqb (srp_confirmation payload) "preserve-identity-reset-network-state") then
      refuse (rqe_request_id envelope) InvalidRequest
        "state reset confirmation token did not match required guard" None
    else
      respond (rqe_request_id envelope)
        (network_state_reset ← on_files (reset_network_state config);
         mret (ResStateReset {|
           srr_truth_kind := "durable";
           srr_identity_preserved := true;
           srr_network_state_reset := network_state_reset;
           srr_next_action := "daemon_restart_required" |}))).

(** ** Authority synchronization *)

(** Where a synchronization gets its artifacts. *)
Record SyncSource := {
  src_source : string;
  src_snapshot : option string;
  src_origin : option string;
  src_subject : option string;
}.

Definition source_fields (source : SyncSource) : list (string * Json) :=
  [("authority_source", JStr (src_source source));
   ("authority_origin", json_option JStr (src_origin source));
   ("authority_subject", json_option JStr (src_subject source));
   ("authority_snapshot", json_option JStr (src_snapshot source))].

Definition authority_event (event_type : string) (details : list (string * Json))
    : Quic.M R () :=
  record_runtime_event clock event_type
    {| sub_kind := "authority"; sub_id := PeerId_to_text (peer_id local_identity) |} (JObj details).

(** A step whose failure is recorded before it is reported. *)
Definition or_sync_failed {A : Type} (source : SyncSource) (more : list (string * Json)) (m : M A)
    : M A :=
  r ← node_try m;
  match r with
  | Ok a => mret a
  | Err error =>
      _ ← try_transport (authority_event "authority.sync_failed"
        (source_fields source ++ [("error", JStr (DaemonStateError_text error))] ++ more));
      node_throw error
  end.

(* cmd/quipd/src/main.rs:2710-2849 authority_sync_response *)
Definition authority_sync_response (request_id : string) (source : SyncSource)
    (sync_fn : FileM C (DaemonState * StateSyncReport)) (n : Node C (World R))
    : outcome ResponseEnvelope * Node C (World R) :=
  respond request_id
    (_ ← on_transport (authority_event "authority.sync_started" (source_fields source));
     '(state, report) ← or_sync_failed source [] (on_files sync_fn);
     reevaluated ←
       (if state_sync_requires_reevaluation report then
          report ← or_sync_failed source [("phase", JStr "reevaluation")]
            (reevaluate_runtime_authority config local_identity);
          mret (Some report)
        else mret None);
     health ← runtime_health config;
     authority ← latest_authority_status state health;
     _ ← on_transport (authority_event "authority.sync_completed" (source_fields source ++
       [("membership_changed", JBool (sy_membership_changed report));
        ("grants_added", JNum (sy_grants_added report));
        ("grants_removed", JNum (sy_grants_removed report));
        ("revocations_added", JNum (sy_revocations_added report));
        ("bootstrap_hints_added", JNum (sy_bootstrap_hints_added report));
        ("bootstrap_hints_removed", JNum (sy_bootstrap_hints_removed report));
        ("relay_announcements_added", JNum (sy_relay_announcements_added report));
        ("reevaluation_triggered", JBool (bool_decide (is_Some reevaluated)))]));
     mret (ResAuthoritySync {|
       asr_truth_kind := "runtime";
       asr_authority_source := src_source source;
       asr_authority_origin := src_origin source;
       asr_authority_subject := src_subject source;
       asr_authority_snapshot := src_snapshot source;
       asr_network := ds_network state;
       asr_local_peer_id := PeerId_to_text (ds_local_peer_id state);
       asr_grants_added := sy_grants_added report;
       asr_grants_removed := sy_grants_removed report;
       asr_revocations_added := sy_revocations_added report;
       asr_bootstrap_hints_added := sy_bootstrap_hints_added report;
       asr_bootstrap_hints_removed := sy_bootstrap_hints_removed report;
       asr_relay_announcements_added := sy_relay_announcements_added report;
       asr_membership_changed := sy_membership_changed report;
       asr_authority := authority |})) n.

(* cmd/quipd/src/main.rs:1832-1864 authority_sync_snapshot_response *)
Definition authority_sync_snapshot_response : Handler :=
  with_payload json_sync_snapshot "authority.sync_snapshot" (λ payload envelope,
    authority_sync_response (rqe_request_id envelope)
      {| src_source := "snapshot"; src_snapshot := Some (asp_authority_snapshot payload);
         src_origin := None; src_subject := None |}
      (plane_sync_snapshot config (asp_authority_snapshot payload))).

(* cmd/quipd/src/main.rs:1866-1903 authority_sync_origin_response *)
Definition authority_sync_origin_response : Handler :=
  with_payload json_sync_origin "authority.sync_origin" (λ payload envelope,
    authority_sync_response (rqe_request_id envelope)
      {| src_source := "origin"; src_snapshot := None;
         src_origin := Some (aop_authority_origin payload);
         src_subject := aop_authority_subject payload |}
      (sync_authority_origin web config (aop_authority_origin payload)
         (aop_authority_subject payload))).

(* cmd/quipd/src/main.rs:1941-1949 authority_sync_revocations_origin_response (report) *)
Definition revocations_report (revocations_added : Z) : StateSyncReport := {|
  sy_membership_changed := false; sy_grants_added := 0; sy_grants_removed := 0;
  sy_revocations_added := revocations_added; sy_bootstrap_hints_added := 0;
  sy_bootstrap_hints_removed := 0; sy_relay_announcements_added := 0 |}.

(* cmd/quipd/src/main.rs:1905-1955 authority_sync_revocations_origin_response *)
Definition authority_sync_revocations_origin_response : Handler :=
  with_payload json_sync_revocations "authority.sync_revocations_origin" (λ payload envelope,
    authority_sync_response (rqe_request_id envelope)
      {| src_source := "revocations_origin"; src_snapshot := None;
         src_origin := Some (arp_authority_origin payload); src_subject := None |}
      ('(state, revocations_added) ←
         sync_authority_revocations_origin web config (arp_authority_origin payload);
       mret (state, revocations_report revocations_added))).

(** ** Session control *)

(* cmd/quipd/src/main.rs:1957-2026 session_connect_response *)
Definition session_connect_response : Handler :=
  with_payload json_connect "session.connect" (λ payload envelope n,
    let id := rqe_request_id envelope in
    match on_files (ensure_identity_bound_state config local_identity) n with
    | (Err error, n) => (Returns (daemon_error_response id error), n)
    | (Ok _, n) =>
        match PeerId_from_str (scp_peer_id payload) with
        | Err _ => refuse id InvalidRequest
            "session.connect peer_id must parse as a peer identifier" None n
        | Ok peer =>
            match ProtocolId_new (scp_protocol payload) with
            | Err error => refuse id InvalidRequest (type_error_text error) None n
            | Ok protocol =>
                let class := default Interactive (parse_class <$> scp_class payload) in
                respond id
                  (session ← realize_best_path config peer protocol class;
                   mret (ResConnect {|
                     scr_truth_kind := "runtime";
                     scr_session := {|
                       scs_session_id := Quipd.hex_session_id (ss_session_id session);
                       scs_state := runtime_state_label (ss_state session);
                       scs_initial_path_class := path_class_label (ss_path_kind session);
                       scs_state_reason := ss_state_reason session |} |})) n
            end
        end
    end).

(** A handler of the session its payload names. *)
Definition with_session (value : string) (k : bytes → Handler) : Handler := λ envelope n,
  match parse_hex_session_id value with
  | Panics => (Panics, n)
  | Returns (Err error) => refuse (rqe_request_id envelope) InvalidRequest error None n
  | Returns (Ok session_id) => k session_id envelope n
  end.

(* cmd/quipd/src/main.rs:2028-2084 session_close_response *)
Definition session_close_response : Handler :=
  with_payload json_close "session.close" (λ payload,
    with_session (scl_session_id payload) (λ session_id envelope,
      respond (rqe_request_id envelope)
        (_ ← fabric_close_session config session_id;
         terminal ← try_transport (terminal_session_snapshot session_id);
         let terminal := match terminal with Ok o => o | Err _ => None end in
         mret (ResClose {|
           slr_truth_kind := "runtime";
           slr_closed_session_id := scl_session_id payload;
           slr_final_state :=
             default "closed" ((λ session, runtime_state_label (ss_state session)) <$> terminal);
           slr_closure_reason :=
             or_else (session ← terminal; closure_reason_label <$> ss_closure_reason session)
               (or_else (scl_reason payload) (Some "operator_requested")) |})))).

(* cmd/quipd/src/main.rs:2086-2146 session_upgrade_response *)
Definition session_upgrade_response : Handler :=
  with_payload json_upgrade "session.upgrade" (λ payload,
    with_session (sgp_session_id payload) (λ session_id envelope n,
      let id := rqe_request_id envelope in
      match sync_runtime_sessions config n with
      | (Err error, n) => (Returns (daemon_error_response id error), n)
      | (Ok prior_state, n) =>
          match find_first (λ session, bool_decide (ss_session_id session = session_id))
                  (ds_active_sessions prior_state) with
          | None => refuse id StaleRuntimeReference
              "session id is no longer owned by this daemon run"
              (Some (JObj [("session_id", JStr (sgp_session_id payload))])) n
          | Some prior =>
              respond id
                (session ← upgrade_session config session_id;
                 mret (ResUpgrade {|
                   sur_truth_kind := "runtime";
                   sur_session_id := sgp_session_id payload;
                   sur_prior_path_class := path_class_label (ss_path_kind prior);
                   sur_resulting_path_class := path_class_label (ss_path_kind session);
                   sur_state := runtime_state_label (ss_state session) |})) n
          end
      end)).

(* cmd/quipd/src/main.rs:2177-2187 session_reconcile_response (entry) *)
Definition api_reconcile_entry (entry : SessionReconcileEntry) : ApiSessionReconcileEntry := {|
  sre_session_id := Quipd.hex_session_id (re_session_id entry);
  sre_peer_id := PeerId_to_text (re_peer entry);
  sre_disposition := reconcile_disposition_label (re_disposition entry);
  sre_reason := re_reason entry;
  sre_path_class := default "unknown" (path_class_label <$> re_path_kind entry) |}.

(* cmd/quipd/src/main.rs:2148-2193 session_reconcile_response *)
Definition session_reconcile_response : Handler :=
  with_payload json_reconcile "session.reconcile" (λ _ envelope,
    respond (rqe_request_id envelope)
      (report ← reconcile_sessions config;
       mret (ResReconcile {|
         srs_truth_kind := "runtime";
         srs_examined := rc_examined report;
         srs_unchanged := rc_unchanged report;
         srs_upgraded := rc_upgraded report;
         srs_closed := rc_closed report;
         srs_entries := api_reconcile_entry <$> rc_entries report |}))).

(** ** Diagnosis *)

(* cmd/quipd/src/main.rs:982-1037 runtime_diagnose_result *)
Definition runtime_diagnose_result (event_limit : Z) : M RuntimeDiagnoseResult :=
  state ← sync_runtime_sessions config;
  status ← runtime_status_result;
  health ← runtime_health_result;
  durable_state ← state_show_result;
  identity ← identity_verify_result;
  authority_show ← authority_show_result;
  inventory ← runtime_session_inventory state;
  sessions ← session_entries inventory;
  listeners ← runtime_listeners config;
  listeners ← listener_entries listeners;
  paths ← runtime_paths config;
  let paths := runtime_path_entry <$> paths in
  events ← runtime_events (Z.to_nat (Z.max event_limit 1));
  let events := runtime_event_entry <$> events in
  let issues := runtime_diagnosis_issues status health durable_state identity sessions paths in
  mret {|
    rdr_truth_kind := "runtime";
    rdr_primary_classification := runtime_primary_classification issues;
    rdr_issues := issues;
    rdr_status := status;
    rdr_health := health;
    rdr_state := durable_state;
    rdr_identity := identity;
    rdr_authority_show := authority_show;
    rdr_sessions := sessions;
    rdr_listeners := listeners;
    rdr_paths := paths;
    rdr_events := events |}.

(* cmd/quipd/src/main.rs:915-943 runtime_diagnose_response *)
Definition runtime_diagnose_response : Handler :=
  with_payload json_diagnose "runtime.diagnose" (λ payload envelope,
    respond (rqe_request_id envelope)
      (result ← runtime_diagnose_result (default 16%Z (rdp_event_limit payload));
       mret (ResDiagnose result))).

(** ** Requests *)

Definition operations : list (string * Handler) := [
  ("runtime.status", runtime_status_response);
  ("runtime.sessions.list", runtime_sessions_response);
  ("runtime.diagnose", runtime_diagnose_response);
  ("runtime.listeners.list", runtime_listeners_response);
  ("runtime.paths.list", runtime_paths_response);
  ("runtime.health", runtime_health_response);
  ("runtime.events.list", runtime_events_response);
  ("authority.show", authority_show_response);
  ("authority.membership", authority_membership_response);
  ("authority.capabilities", authority_capabilities_response);
  ("authority.revocations", authority_revocations_response);
  ("identity.show", identity_show_response);
  ("identity.verify", identity_verify_response);
  ("state.show", state_show_response);
  ("state.validate", state_validate_response);
  ("state.export", state_export_response);
  ("state.reset", state_reset_response);
  ("authority.sync_snapshot", authority_sync_snapshot_response);
  ("authority.sync_origin", authority_sync_origin_response);
  ("authority.sync_revocations_origin", authority_sync_revocations_origin_response);
  ("session.connect", session_connect_response);
  ("session.close", session_close_response);
  ("session.upgrade", session_upgrade_response);
  ("session.reconcile", session_reconcile_response)].

(* cmd/quipd/src/main.rs:760-824 route_control_request (operation) *)
Definition route_operation : Handler := λ envelope,
  match find_first (λ op, String.eqb op.1 (rqe_operation envelope)) operations with
  | Some (_, handler) => handler envelope
  | None => refuse (rqe_request_id envelope) UnsupportedOperation
      ("unsupported daemon operation " +:+ rqe_operation envelope) None
  end.

(* cmd/quipd/src/main.rs:826-831 route_control_request (status) *)
Definition response_status (response : ResponseEnvelope) : Z :=
  if rsp_ok response then 200 else map_error_status response.

(** The status and the body of the answer. *)
(* cmd/quipd/src/main.rs:717-832 route_control_request *)
Definition route_control_request (request : HttpRequest) (n : Node C (World R))
    : outcome (Z * ResponseEnvelope) * Node C (World R) :=
  if negb (String.eqb (req_method request) "POST") || negb (String.eqb (req_url request) "/rpc") then
    (Returns (404, envelope_error "unknown" NotFound
       ("no daemon control route for " +:+ req_method request +:+ " " +:+ req_url request) None)%Z, n)
  else
    match read_request_body request with
    | Err (status, response) => (Returns (status, response), n)
    | Ok body =>
        match json_envelope body with
        | Err error => (Returns (400, envelope_error "unknown" InvalidRequest
            ("invalid daemon control request: " +:+ error) None)%Z, n)
        | Ok envelope =>
            match route_operation envelope n with
            | (Panics, n) => (Panics, n)
            | (Returns response, n) => (Returns (response_status response, response), n)
            end
        end
    end.
End control.
