(* ===== verification/QuipdServer.v ===== *)
(** cmd/quipd: the control server as a process part: the discovery file through
    which clients find it, the thread that serves requests one at a time, and
    the guard that takes the file away. *)
From stdpp Require Import countable option base list strings gmap pretty.
From Stdlib Require Import ZArith Lia Strings.Byte Strings.Ascii.
From S2P Require Import Prelude Text BTree F32 External Model Crypto Records Identity Netcheck Scheduler PeerStore Policy Routing RelayWire Relay Transport Membership Calendar Quic Control ControlFetch Fabric FabricPaths Durable Backup FabricPlane FabricRuntime FabricQuic Quipd DaemonApi QuipdApi QuipdControl.

(** The file [serde_json::to_vec_pretty] makes of a discovery. *)
Class DiscoveryFormat (C : Type) := discovery_text : DaemonEndpointDiscovery → C.

(** The world of a daemon and whether the thread of its control server still
    runs: the listener goes with the thread. *)
Record Served (R : Type) := mk_Served { sv_world : World R; sv_alive : bool }.
Arguments mk_Served {R} sv_world sv_alive.
Arguments sv_world {R} s.
Arguments sv_alive {R} s.
Definition inside {C R : Type} (n : Node C (Served R)) : Node C (World R) :=
  mk_Node (node_files n) (sv_world (node_transport n)).
Definition served {C R : Type} (alive : bool) (n : Node C (World R)) : Node C (Served R) :=
  mk_Node (node_files n) (mk_Served (node_transport n) alive).
Definition listening {C R : Type} (n : Node C (Served R)) : bool := sv_alive (node_transport n).

Lemma served_inside {C R : Type} (n : Node C (Served R)) : served (listening n) (inside n) = n.
Proof. by destruct n as [? []]. Qed.

Section server.
Context `{Blake3, Varint, Base32, Curves, ArtifactJson, JsonBytes SessionCredentialUnsigned}.
Context {C : Type} `{StateFormat C} `{BackupStore C} `{DiscoveryFormat C} {Body : Type} `{ControlJson Body}.
Context `{DaemonJson}.
Context {R : Type} `{RelayControl R} (clock : nat → Z) (rng : nat → nat → bytes).
Variable web : string → HttpReply Body.
Variable args : Args.
Variable local_identity : IdentityKeypair.

(* cmd/quipd/src/main.rs:630-634 ControlServerGuard *)
Record ControlServerGuard := { csg_discovery_path : string }.

(* cmd/quipd/src/main.rs:636-640 ControlServerGuard::drop *)
Definition guard_drop (guard : ControlServerGuard) (fs : Files C) : Files C :=
  delete (csg_discovery_path guard) (fs : gmap string C).

(** [directory] is the failure to create the directory of the file, and [fault]
    what happens to the write of the file. *)
(* cmd/quipd/src/main.rs:703-715 write_control_discovery *)
Definition write_control_discovery (directory : option string) (fault : option (WriteFault C))
    (path : string) (discovery : DaemonEndpointDiscovery) (fs : Files C)
    : result string () * Files C :=
  match directory with
  | Some error => (Err error, fs)
  | None => fs_write fault path (discovery_text discovery) fs
  end.

(** [bind] gives the address a listener on a text gets, or the error. *)
(* cmd/quipd/src/main.rs:642-701 start_control_server *)
Definition start_control_server (bind : string → result string string)
    (directory : option string) (fault : option (WriteFault C)) (pid now : Z)
    (adapter : QuicTransportAdapter) (fs : Files C)
    : result string (ControlServerGuard * string) * Files C :=
  match bind (arg_control_bind args) with
  | Err error => (Err error, fs)
  | Ok local_addr =>
      let endpoint := "http://" +:+ local_addr +:+ "/rpc" in
      let discovery_path := arg_control_discovery_path args in
      let '(written, fs) := write_control_discovery directory fault discovery_path {|
        ded_endpoint := endpoint;
        ded_network := arg_network args;
        ded_state_path := arg_state_path args;
        ded_identity_path := arg_identity_path args;
        ded_runtime_instance_id := runtime_instance_id adapter;
        ded_pid := pid;
        ded_started_at_unix_secs := now |} fs in
      (match written with
       | Ok _ => Ok ({| csg_discovery_path := discovery_path |},
           "quipd control ready endpoint=" +:+ endpoint +:+ " discovery_path=" +:+ discovery_path)
       | Err error => Err error
       end, fs)
  end.

(** A request that reaches the thread; a panic ends it, and nobody answers
    what comes later. *)
(* cmd/quipd/src/main.rs:676-688 start_control_server (thread) *)
Definition serve_request (request : HttpRequest) (n : Node C (Served R))
    : option (outcome (Z * ResponseEnvelope)) * Node C (Served R) :=
  if listening n then
    match route_control_request clock rng web args local_identity request (inside n) with
    | (Panics, n) => (Some Panics, served false n)
    | (Returns answer, n) => (Some (Returns answer), served true n)
    end
  else (None, n).

(** The whole of [run] from the loaded identity and the new adapter on: the
    server starts before the state is read, and its guard is dropped however
    the loop ends. *)
(* cmd/quipd/src/main.rs:169-216 run (server) *)
Definition run_served (bind : string → result string string)
    (directory : option string) (fault : option (WriteFault C)) (pid now : Z) (metadata : Metadata)
    (inputs : list CycleInput) (n : Node C (World R))
    : result string RunOutcome * list string * Node C (World R) :=
  match start_control_server bind directory fault pid now (adapter (node_transport n)) (node_files n) with
  | (Err error, fs) => (Err error, [], mk_Node fs (node_transport n))
  | (Ok (guard, ready), fs) =>
      let '(outcome, printed, n) :=
        run clock rng args local_identity web metadata inputs (mk_Node fs (node_transport n)) in
      (Ok outcome, ready :: printed, mk_Node (guard_drop guard (node_files n)) (node_transport n))
  end.
End server.
