(* ===== verification/QuipdProps.v ===== *)
(** The daemon process: the wait between two cycles ends, the identity it
    starts with, how often it tries to reach its target, and what a cycle
    enforces. *)
From stdpp Require Import countable option base list strings gmap pretty.
From Stdlib Require Import ZArith Lia Strings.Byte Strings.Ascii.
From S2P Require Import Prelude Text BTree F32 External Model Crypto Records Identity Netcheck Scheduler PeerStore Policy Routing RelayWire Relay Transport Membership Calendar Quic QuicProps Control ControlFetch Authority AuthorityProps Fabric FabricProps FabricPaths Durable FabricPlane FabricRuntime DurableProps FabricPathsProps FabricPlaneProps FabricRuntimeProps EndToEnd FabricQuic Quipd.

(** ** The wait *)

(** The clock between two polls has moved by the sleep between them, unless a
    signal ended it. *)
Definition sleeps (deadline interval : Z) (p q : Poll) : Prop :=
  poll_signal p = None → (poll_now p + sleep_duration deadline interval p <= poll_now q)%Z.
Definition paced (deadline interval : Z) (polls : list Poll) : Prop :=
  ∀ i p q, polls !! i = Some p → polls !! S i = Some q → sleeps deadline interval p q.

(** How many polls a wait can take: one per interval, one for the rest and one
    after the deadline. *)
Definition wait_bound (args : Args) : nat := Z.to_nat (cycle_interval args / poll_interval args) + 2.

Lemma wait_loop_ends deadline interval polls monitor n start :
  (0 < interval)%Z → paced deadline interval polls →
  (∀ p, head polls = Some p → (start <= poll_now p)%Z) →
  (deadline <= start + interval * Z.of_nat n)%Z → n < length polls →
  is_Some (wait_loop deadline interval monitor polls).
Proof.
  intros Hi. revert polls monitor start.
  induction n as [|n IH]; intros [|p polls] monitor start Hp Hhd Hn Hlen;
    simpl in Hlen; try lia; cbn [wait_loop]; specialize (Hhd p eq_refl);
    destruct (detect_trigger (poll_metadata p) monitor) as [[t|] m]; try by eexists.
  - rewrite (proj2 (Z.leb_le _ _)) by lia. by eexists.
  - destruct (Z.leb_spec deadline (poll_now p)); [by eexists|].
    destruct (poll_signal p) as [[|]|] eqn:Hs; try by eexists.
    apply (IH polls m (poll_now p + sleep_duration deadline interval p)%Z);
      [| |unfold sleep_duration; lia|lia].
    + intros i x y Hx Hy. by apply (Hp (S i)).
    + intros q Hq. destruct polls as [|q' polls]; [done|]. injection Hq as ->.
      by apply (Hp 0 p q).
Qed.

(** What ends a wait: a change of a watched file, a signal or the deadline. *)
Lemma wait_loop_outcome deadline interval polls monitor r m :
  wait_loop deadline interval monitor polls = Some (r, m) →
  ∃ p, p ∈ polls ∧
    match r with
    | Ok IntervalElapsed => (deadline <= poll_now p)%Z
    | Ok trigger => ∃ m0, (detect_trigger (poll_metadata p) m0).1 = Some trigger
    | Err _ => is_Some (poll_signal p)
    end.
Proof.
  revert monitor. induction polls as [|p polls IH]; intros monitor; [done|]. cbn [wait_loop].
  destruct (detect_trigger (poll_metadata p) monitor) as [[t|] m'] eqn:Ht.
  - intros [= <- <-]. exists p. split; [apply list_elem_of_here|].
    assert (∃ m0, (detect_trigger (poll_metadata p) m0).1 = Some t) as Hm by (exists monitor; by rewrite Ht).
    destruct t; try exact Hm. exfalso. revert Ht. unfold detect_trigger.
    destruct (changed _ _ _); [done|]. destruct (negb _); [done|]. by destruct (changed _ _ _).
  - destruct (Z.leb_spec deadline (poll_now p)).
    + intros [= <- <-]. exists p. split; [apply list_elem_of_here|done].
    + destruct (poll_signal p) as [[|]|] eqn:Hs.
      * intros [= <- <-]. exists p. split; [apply list_elem_of_here|]. by eexists.
      * intros [= <- <-]. exists p. split; [apply list_elem_of_here|]. by eexists.
      * intros (q & Hq & Hr)%IH. exists q. split; [by apply list_elem_of_further|exact Hr].
Qed.

(** C24.  The wait between two cycles ends after a bounded number of polls, as
    long as each sleep lasts at least as long as it was asked to; it ends with
    a trigger whose file had changed, a signal that arrived, or a deadline that
    has passed.  Only an interval that takes the deadline past the last instant
    panics before the first poll. *)
Theorem wait_terminates args start monitor polls
    (Hstart : ∀ p, head polls = Some p → (start <= poll_now p)%Z)
    (Hpaced : paced (start + cycle_interval args) (poll_interval args) polls)
    (Hlen : wait_bound args <= length polls) :
  if (instant_max <? start + cycle_interval args)%Z
  then wait_for_next_cycle args start monitor polls = Some Panics
  else ∃ r m, wait_for_next_cycle args start monitor polls = Some (Returns (r, m)) ∧
    ∃ p, p ∈ polls ∧
      match r with
      | Ok IntervalElapsed => (start + cycle_interval args <= poll_now p)%Z
      | Ok trigger => ∃ m0, (detect_trigger (poll_metadata p) m0).1 = Some trigger
      | Err _ => is_Some (poll_signal p)
      end.
Proof.
  unfold wait_for_next_cycle. cbv zeta. destruct (_ <? _)%Z; [reflexivity|].
  assert (0 < poll_interval args)%Z as Hi by (unfold poll_interval; lia).
  assert (0 < cycle_interval args)%Z as Hc by (unfold cycle_interval; lia).
  pose proof (Z.div_pos (cycle_interval args) (poll_interval args) ltac:(lia) Hi) as Hd.
  destruct (wait_loop_ends (start + cycle_interval args) (poll_interval args) polls monitor
    (S (Z.to_nat (cycle_interval args / poll_interval args))) start Hi Hpaced Hstart)
    as [[r m] Hw]; [|unfold wait_bound in Hlen; lia|].
  - pose proof (Z.mod_pos_bound (cycle_interval args) (poll_interval args) Hi).
    pose proof (Z.div_mod (cycle_interval args) (poll_interval args) ltac:(lia)). nia.
  - exists r, m. rewrite Hw. split; [reflexivity|]. by eapply wait_loop_outcome.
Qed.

(** ** The identity *)

Section identity.
Context `{Blake3, Varint, Curves, CurveLaws, Sealing, SealingLaws, KeyFileJson, KeyFileJsonLaws}.

(** C26.  The daemon runs under the key its file holds when the passphrase
    opens it, and leaves the file alone; whenever it cannot open the file, a
    wrong passphrase included, it replaces it by a newly generated key.  The
    identity it starts with is the one any later start finds, and no other file
    is touched.  A start that fails leaves the file as it was, unless its write
    broke off half way. *)
Theorem load_or_init_identity_spec env directory fault salt nonce random path penv (fs : Identity.files)
    (Hlen : length random = 32) :
  let '(r, fs') := load_or_init_identity env directory fault salt nonce random path penv fs in
  (∀ other, other ≠ path → (fs' : gmap string bytes) !! other = (fs : gmap string bytes) !! other) ∧
  (env penv = None → fs' = fs ∧ ∃ e, r = Err e) ∧
  (∀ pass k, env penv = Some pass → keystore_load path pass fs = Ok k → r = Ok k ∧ fs' = fs) ∧
  (∀ pass e k, env penv = Some pass → keystore_load path pass fs = Err e → r = Ok k →
     k = keypair_generate random ∧ keystore_load path pass fs' = Ok k) ∧
  (∀ k directory' fault' salt' nonce' random', r = Ok k →
     load_or_init_identity env directory' fault' salt' nonce' random' path penv fs' = (Ok k, fs')) ∧
  (∀ e, r = Err e → fs' = fs ∨ ∃ written err, fault = Some (BrokenOff written err) ∧
     fs' = <[path := written]> (fs : gmap string bytes)).
Proof.
  assert (length (signing_key (keypair_generate random)) = 32) as Hk.
  { done. }
  unfold load_or_init_identity. destruct (env penv) as [pass|] eqn:Henv; [|split_and!; try (by intros); [intros _; split; [done|by eexists]|by left]].
  destruct (keystore_load path pass fs) as [k|e] eqn:Hl.
  - split; [by intros|]. split; [by intros|]. split.
    { intros pass' k' [= <-] Hk'. rewrite Hl in Hk'. by injection Hk' as <-. }
    split; [intros pass' e k' [= <-] He; by rewrite Hl in He|].
    split; [|by intros e]. intros k' ? ? ? ? ? [= <-]. by rewrite Hl.
  - destruct directory as [error|].
    { split_and!; try done; [intros pass' k' [= <-] Hk'; by rewrite Hl in Hk'|by left]. }
    destruct (keystore_store fault salt nonce path _ pass fs) as [stored fs'] eqn:Hs.
    destruct (keystore_store_effect _ _ _ _ _ _ _ _ _ Hk Hs) as (Hok & Herr & Hother).
    split; [exact Hother|]. split; [by intros|].
    split; [intros pass' k' [= <-] Hk'; by rewrite Hl in Hk'|]. split.
    { intros pass' e' k' [= <-] _ Hr. destruct stored as [[]|]; [|done]. injection Hr as <-.
      split; [done|by apply Hok]. }
    split.
    { intros k' ? ? ? ? ? Hr. destruct stored as [[]|]; [|done]. injection Hr as <-.
      by rewrite (Hok eq_refl). }
    intros e' Hr. destruct stored as [|]; [done|]. by apply Herr.
Qed.
End identity.

(** ** Trying to reach the target *)

Section target.
Context `{Blake3, Varint, Base32, Curves, ArtifactJson, JsonBytes SessionCredentialUnsigned}.
Context {C : Type} `{StateFormat C}.
Context {R : Type} `{RelayControl R} (clock : nat → Z) (rng : nat → nat → bytes).
Variable args : Args.

#[local] Instance process_transport : LifecycleTransport (World R) := daemon_transport_instance clock rng.
Local Notation M := (NodeM C (World R)).
Local Notation registry n := (adapter (node_transport n)).

(** An operation of the node that keeps a predicate of the adapter. *)
Definition node_keeps {A : Type} (P : QuicTransportAdapter → Prop) (m : M A) : Prop :=
  ∀ n, P (registry n) → P (registry (m n).2).

Lemma node_keeps_bind {A B : Type} P (m : M A) (f : A → M B) :
  node_keeps P m → (∀ a, node_keeps P (f a)) → node_keeps P (m ≫= f).
Proof.
  intros Hm Hf n Hn. specialize (Hm n Hn). unfold mbind, node_bind.
  destruct (m n) as [[a|e] n']; [by apply Hf|done].
Qed.
Lemma node_keeps_ret {A : Type} P (a : A) : node_keeps P (mret a).
Proof. by intros n Hn. Qed.
Lemma node_keeps_lift {A : Type} P (r : result DaemonStateError A) : node_keeps P (node_lift r).
Proof. by intros n Hn. Qed.
Lemma node_keeps_throw {A : Type} P e : node_keeps P (node_throw e : M A).
Proof. by intros n Hn. Qed.
Lemma node_keeps_files {A : Type} P (m : FileM C A) : node_keeps P (on_files m).
Proof. intros n Hn. unfold on_files. by destruct (m (node_files n)). Qed.
Lemma node_keeps_transport {A : Type} P (m : Quic.M R A) : keeps P m → node_keeps P (on_transport m).
Proof.
  intros Hm n Hn. specialize (Hm _ Hn). unfold on_transport.
  destruct (m (node_transport n)) as [[a|e] w]; exact Hm.
Qed.
Lemma node_keeps_try {A : Type} P (m : M A) : node_keeps P m → node_keeps P (node_try m).
Proof. intros Hm n Hn. specialize (Hm n Hn). unfold node_try. by destruct (m n) as [r n']. Qed.

(** Connecting leaves the reconnect attempts alone. *)
Lemma connect_keeps_attempts l route :
  keeps (R:=R) (λ a, reconnect_attempts a = l) (connect clock rng route).
Proof.
  assert (event_free (λ a, reconnect_attempts a = l)) as He by by intros a e Ha _.
  unfold connect, upsert_runtime_session. apply keeps_bind; [apply keeps_reading|intros [s|]].
  - apply keeps_bind; [by apply hoare_emit|intros _; apply keeps_throw].
  - apply keeps_bind; [apply keeps_snapshot_for_route|intros s].
    apply keeps_bind; [|intros _; apply keeps_ret].
    apply keeps_bind; [apply keeps_reading|intros [prev|]];
      (apply keeps_bind; [by apply keeps_updating|intros _]);
      (apply keeps_bind; [|intros _; by apply hoare_emit]); [|by apply hoare_emit].
    destruct (leaves_relay _ _); [apply hoare_relay_close|apply keeps_ret].
Qed.

Lemma realize_keeps_attempts l p q c :
  node_keeps (λ a, reconnect_attempts a = l) (realize_best_path (args_config args) p q c).
Proof.
  unfold realize_best_path, save_sessions.
  apply node_keeps_bind; [apply node_keeps_files|intros state].
  destruct (negb _); [apply node_keeps_throw|].
  apply node_keeps_bind; [apply node_keeps_lift|intros route].
  apply node_keeps_bind; [apply node_keeps_transport|intros session].
  { apply keeps_bind; [apply connect_keeps_attempts|intros h; apply keeps_ret]. }
  apply node_keeps_bind; [|intros _; apply node_keeps_ret].
  apply node_keeps_bind; [apply node_keeps_transport, keeps_reading|intros l'].
  apply node_keeps_files.
Qed.

(** ** The attempts of one peer, protocol and class *)

Definition tries (a : QuicTransportAdapter) p q c : Z :=
  match find_first (attempt_matches p (Some q) c) (reconnect_attempts a) with
  | Some r => at_attempt_count (rr_snapshot r)
  | None => 0
  end.

(** Every attempt has been counted up to at most the limit, at which it fails. *)
Definition attempt_ok (r : RuntimeReconnectRecord) : Prop :=
  (1 <= at_attempt_count (rr_snapshot r) <= RECONNECT_MAX_ATTEMPTS)%Z ∧
  (at_state (rr_snapshot r) = AttemptFailed ↔
     at_attempt_count (rr_snapshot r) = RECONNECT_MAX_ATTEMPTS).
Definition attempts_ok (a : QuicTransportAdapter) : Prop := ∀ r, r ∈ reconnect_attempts a → attempt_ok r.

Lemma clear_attempt_effect p q c o (w : World R) :
  let '(out, w') := clear_reconnect_attempt clock p q c o w in
  out = Ok () ∧ reconnect_attempts (adapter w') =
    retain (λ e, negb (attempt_matches p q c e)) (reconnect_attempts (adapter w)).
Proof.
  unfold clear_reconnect_attempt, reading, updating, mbind, M_bind, mret, M_ret.
  cbn -[emit_runtime_event attempt_matches].
  destruct (find_first _ _); [rewrite emit_eq|]; done.
Qed.

(** A cleared attempt. *)
Lemma cleared_tries p q c a a' :
  reconnect_attempts a' = retain (λ e, negb (attempt_matches p (Some q) c e)) (reconnect_attempts a) →
  tries a' p q c = 0%Z ∧ (attempts_ok a → attempts_ok a').
Proof.
  intros Ha. split.
  - unfold tries. by rewrite Ha, find_first_retain_none.
  - intros Hok r Hr. rewrite Ha in Hr. apply elem_of_retain in Hr as [Hr _]. by apply Hok.
Qed.
(** One more failed attempt. *)
Lemma next_attempt_ok now reason r :
  attempt_ok r → (at_attempt_count (rr_snapshot r) < RECONNECT_MAX_ATTEMPTS)%Z →
  let r' := {| rr_snapshot := next_attempt now reason RECONNECT_MAX_ATTEMPTS
    RECONNECT_BASE_BACKOFF_SECS RECONNECT_MAX_BACKOFF_SECS (rr_snapshot r) |} in
  attempt_ok r' ∧ at_attempt_count (rr_snapshot r') = (at_attempt_count (rr_snapshot r) + 1)%Z.
Proof.
  intros [Hr _] Hlt. unfold attempt_ok, RECONNECT_MAX_ATTEMPTS in *. simpl.
  assert (u32_add (at_attempt_count (rr_snapshot r)) 1 = at_attempt_count (rr_snapshot r) + 1)%Z
    as -> by (unfold u32_add; rewrite u32_wrap_id; [done|unfold in_u32, u32_max; lia]).
  destruct (Z.leb_spec 5 (at_attempt_count (rr_snapshot r) + 1)); split_and!; try lia; split; try done; lia.
Qed.

Lemma update_first_found {A : Type} (p : A → bool) f l x :
  x ∈ update_first p f l → x ∈ l ∨ ∃ y, find_first p l = Some y ∧ x = f y.
Proof.
  induction l as [|y l IH]; simpl; [auto|]. destruct (p y).
  - intros [->|Hx]%elem_of_cons; [eauto|]. left. by apply list_elem_of_further.
  - intros [->|Hx]%elem_of_cons; [left; apply list_elem_of_here|].
    destruct (IH Hx) as [?|?]; [left; by apply list_elem_of_further|auto].
Qed.

Lemma first_attempt_tries now p q c reason :
  let r := {| rr_snapshot := first_attempt now p (Some q) c reason RECONNECT_MAX_ATTEMPTS
    RECONNECT_BASE_BACKOFF_SECS RECONNECT_MAX_BACKOFF_SECS |} in
  attempt_ok r ∧ attempt_matches p (Some q) c r = true ∧ at_attempt_count (rr_snapshot r) = 1%Z.
Proof. split_and!; [split; [done|split; done]|by apply bool_decide_eq_true|done]. Qed.

Lemma schedule_tries p q c reason (w : World R) :
  attempts_ok (adapter w) → (tries (adapter w) p q c < RECONNECT_MAX_ATTEMPTS)%Z →
  let '(out, w') := schedule_reconnect clock p (Some q) c reason RECONNECT_MAX_ATTEMPTS
    RECONNECT_BASE_BACKOFF_SECS RECONNECT_MAX_BACKOFF_SECS w in
  (∃ e, out = Ok e) ∧ attempts_ok (adapter w') ∧
  tries (adapter w') p q c = (tries (adapter w) p q c + 1)%Z.
Proof.
  intros Hok Hlt. pose proof (schedule_effect clock p (Some q) c reason RECONNECT_MAX_ATTEMPTS
    RECONNECT_BASE_BACKOFF_SECS RECONNECT_MAX_BACKOFF_SECS w) as He.
  destruct (schedule_reconnect clock _ _ _ _ _ _ _ w) as [out w']. destruct He as [-> Ha].
  split; [by eexists|]. unfold tries in *. set (now := (clock (ticks w) / 10 ^ 9)%Z) in Ha.
  destruct (find_first (attempt_matches p (Some q) c) (reconnect_attempts (adapter w)))
    as [r|] eqn:Hf.
  - destruct (find_first_Some _ _ _ Hf) as [Hin Hm].
    destruct (next_attempt_ok now reason r (Hok r Hin) Hlt) as [Hr Hcount]. split.
    + intros x. rewrite Ha. intros [Hx|(y & Hy & ->)]%update_first_found; [by apply Hok|].
      rewrite Hf in Hy. injection Hy as <-. exact Hr.
    + rewrite Ha. erewrite find_first_update_first; [exact Hcount| |exact Hf].
      intros y Hy. exact Hy.
  - destruct (first_attempt_tries now p q c reason) as (Hr & Hm & Hc). split.
    + intros x. rewrite Ha. intros [Hx|Hx%list_elem_of_singleton]%elem_of_app; [by apply Hok|].
      by subst.
    + rewrite Ha, find_first_app, Hf. cbn [find_first]. by rewrite Hm, Hc.
Qed.

Lemma attempt_target_tries p q c now n :
  attempts_ok (registry n) → (tries (registry n) p q c < RECONNECT_MAX_ATTEMPTS)%Z →
  let '(r, n') := attempt_target clock rng args p q c now n in
  attempts_ok (registry n') ∧
  match r with
  | Ok (TargetActive _) => tries (registry n') p q c = 0%Z
  | Ok (TargetBackingOff _ | TargetFailed _) =>
      tries (registry n') p q c = (tries (registry n) p q c + 1)%Z
  | _ => False
  end.
Proof.
  intros Hok Hlt. unfold attempt_target. unfold mbind at 1, node_bind at 1, on_transport at 1.
  unfold record_runtime_event. rewrite emit_eq. cbn [map_err].
  match goal with |- context [mk_Node (node_files n) ?w] => set (w1 := w) end.
  assert (reconnect_attempts (adapter w1) = reconnect_attempts (registry n)) as Hw1 by done.
  pose proof (realize_keeps_attempts (reconnect_attempts (registry n)) p q c
    (mk_Node (node_files n) w1) Hw1) as Hreal.
  unfold mbind at 1, node_bind at 1, node_try at 1.
  change (@realize_best_path _ _ _ _ _ C _ (World R) (daemon_transport_instance clock rng))
    with (@realize_best_path _ _ _ _ _ C _ (World R) process_transport).
  destruct (realize_best_path (args_config args) p q c (mk_Node (node_files n) w1)) as [r n2].
  cbn [snd] in Hreal.
  assert (attempts_ok (registry n2) ∧ tries (registry n2) p q c = tries (registry n) p q c)
    as [Hok2 Ht2] by (unfold attempts_ok, tries; by rewrite Hreal).
  destruct r as [s|e]; unfold mbind, node_bind, on_transport.
  - pose proof (clear_attempt_effect p (Some q) c (Some "reconnect succeeded") (node_transport n2)) as Hc.
    destruct (clear_reconnect_attempt _ _ _ _ _ _) as [out w3]. destruct Hc as [-> Hc].
    apply cleared_tries in Hc as [Hz Hok3]. cbn. auto.
  - pose proof (schedule_tries p q c (DaemonStateError_text e) (node_transport n2) Hok2) as Hs.
    destruct (schedule_reconnect _ _ _ _ _ _ _ _ _) as [out w3].
    destruct Hs as ((x & ->) & Hok3 & Ht3); [lia|]. cbn.
    destruct (at_state x); (split; [exact Hok3|lia]).
Qed.
Lemma find_listed_attempt p q c (l : list RuntimeReconnectRecord) :
  find_first (λ e, attempt_matches p q c {| rr_snapshot := e |}) (rr_snapshot <$> l) =
  rr_snapshot <$> find_first (attempt_matches p q c) l.
Proof.
  induction l as [|[r] l IH]; [done|]. cbn [fmap list_fmap find_first rr_snapshot].
  destruct (attempt_matches p q c {| rr_snapshot := r |}); [done|exact IH].
Qed.

Lemma node_eta (n : Node C (World R)) : mk_Node (node_files n) (node_transport n) = n.
Proof. by destruct n. Qed.

Lemma bind_lift_Ok {A B : Type} (a : A) (f : A → M B) n : (node_lift (Ok a) ≫= f) n = f a n.
Proof. done. Qed.
Lemma bind_reading {A B : Type} (f : QuicTransportAdapter → A) (k : A → M B) n :
  (on_transport (reading f) ≫= k) n = k (f (registry n)) n.
Proof. by destruct n as [fs [a r t d]]. Qed.
Lemma bind_secs {B : Type} (k : Z → M B) n :
  (on_transport (current_unix_secs clock) ≫= k) n =
  k (clock (ticks (node_transport n)) / 10 ^ 9)%Z (mk_Node (node_files n)
    (mk_World (registry n) (relays (node_transport n)) (S (ticks (node_transport n)))
       (draws (node_transport n)))).
Proof. by destruct n as [fs [a r t d]]. Qed.

(** The node of [n'] is that of [n] but for the reading of its clock. *)
Definition only_clock (n n' : Node C (World R)) : Prop :=
  node_files n' = node_files n ∧ registry n' = registry n ∧
  relays (node_transport n') = relays (node_transport n).

Lemma existing_target_key state a protocol s p q :
  existing_target_session args state a protocol = Some s →
  target_peer args state = Some p → ProtocolId_new protocol = Ok q →
  ss_peer s = p ∧ ss_protocol s = Some q ∧ ss_class s = parse_class (arg_connect_class args).
Proof.
  unfold existing_target_session. intros Hs Htarget Hprotocol. rewrite Htarget in Hs. cbn in Hs.
  apply find_first_Some in Hs as [_ Hs]. rewrite !andb_true_iff in Hs.
  destruct Hs as [[[Hp%bool_decide_eq_true Hc%bool_decide_eq_true] _] Hq].
  split; [exact Hp|split; [|exact Hc]]. destruct (ss_protocol s) as [[t]|]; [|done].
  apply String.eqb_eq in Hq. simpl in Hq. subst t. revert Hprotocol. unfold ProtocolId_new.
  destruct (_ || _); [done|]. by intros [= <-].
Qed.

(** An outcome reported after the attempts have been cleared. *)
Lemma clearing_resets p q c why outcome (n : Node C (World R)) :
  attempts_ok (registry n) →
  match outcome with TargetBackingOff _ | TargetFailed _ => False | _ => True end →
  let '(r, n') := (_ ← on_transport (clear_reconnect_attempt clock p (Some q) c why);
                   mret outcome : M _) n in
  attempts_ok (registry n') ∧
  match r with
  | Ok (TargetBackingOff _ | TargetFailed _) =>
      only_clock n n' ∨
      (tries (registry n) p q c < tries (registry n') p q c <= RECONNECT_MAX_ATTEMPTS)%Z
  | Ok _ => tries (registry n') p q c = 0%Z
  | Err _ => False
  end.
Proof.
  intros Hok Ho. unfold mbind, node_bind, on_transport.
  pose proof (clear_attempt_effect p (Some q) c why (node_transport n)) as Hc.
  destruct (clear_reconnect_attempt _ _ _ _ _ _) as [out w']. destruct Hc as [-> Hc].
  apply cleared_tries in Hc as [Hz Hok']. cbn. split; [by apply Hok'|]. by destruct outcome.
Qed.

(** C25.  The daemon tries to reach its target at most five times in a row: a
    cycle that finds it backing off or given up either leaves everything but
    the clock alone or counts one more attempt, never past five; a session or
    a suppression resets the count. *)
Theorem retries_terminate state protocol p q (n : Node C (World R))
    (Hok : attempts_ok (registry n))
    (Htarget : target_peer args state = Some p) (Hprotocol : ProtocolId_new protocol = Ok q) :
  let c := parse_class (arg_connect_class args) in
  let '(r, n') := ensure_target_session clock rng args state protocol n in
  attempts_ok (registry n') ∧
  match r with
  | Ok (TargetBackingOff _ | TargetFailed _) =>
      only_clock n n' ∨
      (tries (registry n) p q c < tries (registry n') p q c <= RECONNECT_MAX_ATTEMPTS)%Z
  | Ok _ => tries (registry n') p q c = 0%Z
  | Err _ => False
  end.
Proof.
  cbv zeta. set (c := parse_class (arg_connect_class args)). unfold ensure_target_session.
  rewrite bind_reading.
  destruct (existing_target_session args state (registry n) protocol) as [s|] eqn:Hs.
  - destruct (existing_target_key state _ protocol s p q Hs Htarget Hprotocol) as (-> & -> & ->).
    by apply clearing_resets.
  - rewrite Htarget, Hprotocol. cbn [ok_or map_err]. rewrite !bind_lift_Ok.
    fold c. unfold list_reconnect_suppressions. rewrite bind_reading.
    destruct (find_first _ _) as [sup|].
    + by apply clearing_resets.
    + rewrite bind_secs. set (now := (clock _ / 10 ^ 9)%Z).
      match goal with |- context [mk_Node (node_files n) ?w] => set (n1 := mk_Node (node_files n) w) end.
      assert (only_clock n n1) as Hclock by done.
      unfold list_reconnect_attempts. rewrite bind_reading, find_listed_attempt.
      change (registry n1) with (registry n).
      assert (∀ r, find_first (attempt_matches p (Some q) c) (reconnect_attempts (registry n)) = Some r →
        tries (registry n) p q c = at_attempt_count (rr_snapshot r) ∧ attempt_ok r) as Hfound.
      { intros r Hf. split; [unfold tries; by rewrite Hf|]. by apply Hok, (find_first_Some _ _ _ Hf). }
      assert ((tries (registry n) p q c < RECONNECT_MAX_ATTEMPTS)%Z →
        let '(r, n') := attempt_target clock rng args p q c now n1 in
        attempts_ok (registry n') ∧
        match r with
        | Ok (TargetBackingOff _ | TargetFailed _) =>
            only_clock n n' ∨
            (tries (registry n) p q c < tries (registry n') p q c <= RECONNECT_MAX_ATTEMPTS)%Z
        | Ok _ => tries (registry n') p q c = 0%Z
        | Err _ => False
        end) as Hattempt.
      { intros Hlt. pose proof (attempt_target_tries p q c now n1 Hok Hlt) as Ha.
        destruct (attempt_target _ _ _ _ _ _ _ _) as [[[]|] n']; try (exfalso; exact (proj2 Ha));
          destruct Ha as [Hok' Ht]; change (registry n1) with (registry n) in Ht; split; try done;
          right; lia. }
      destruct (find_first _ (reconnect_attempts _)) as [r|] eqn:Hf; cbn [fmap option_fmap option_map].
      * destruct (Hfound r eq_refl) as [Ht [Hr Hfail]].
        destruct (at_state (rr_snapshot r)) eqn:Hst.
        -- destruct (now <? _)%Z; [split; [exact Hok|by left]|].
           apply Hattempt. rewrite Ht.
           destruct (decide (at_attempt_count (rr_snapshot r) = RECONNECT_MAX_ATTEMPTS)) as [He|He];
             [by apply Hfail in He|lia].
        -- split; [exact Hok|by left].
      * apply Hattempt. unfold tries. by rewrite Hf.
Qed.
End target.

Section witnesses.
Import External.Demo DemoFiles.
#[local] Existing Instances demo_authority_json demo_keyfile_json demo_keyfile_json_laws.
#[local] Existing Instances demo_session_json demo_relays.

Definition demo_args (peer protocol : option string) : Args := {|
  arg_network := "net"; arg_state_path := "state.json"; arg_identity_path := "node.json";
  arg_control_discovery_path := "control.json"; arg_control_bind := "127.0.0.1:0";
  arg_identity_passphrase_env := "QUIP_IDENTITY_PASSPHRASE"; arg_authority_snapshot := None;
  arg_authority_origin := None; arg_authority_subject := None; arg_sync := false;
  arg_revocation_sync := false; arg_disable_reconcile := false; arg_reconcile_verbose := false;
  arg_reconcile_interval_seconds := 3; arg_change_watch_interval_ms := 1000;
  arg_network_change_trigger_path := None; arg_force_network_reprobe := false;
  arg_one_shot := false; arg_connect_protocol := protocol; arg_connect_peer := peer;
  arg_connect_class := "bulk" |}.

(** Polls a second and a millisecond apart. *)
Definition demo_poll (i : nat) : Poll := {|
  poll_metadata := λ _, None; poll_now := Z.of_nat i * 1001 * 10 ^ 6; poll_signal := None |}.

Lemma wait_terminates_witness :
  ∃ m, wait_for_next_cycle (demo_args None None) 0 (monitor_new (λ _, None) (demo_args None None))
    (demo_poll <$> seq 0 5) = Some (Returns (Ok IntervalElapsed, m)).
Proof.
  pose proof (wait_terminates (demo_args None None) 0 (monitor_new (λ _, None) (demo_args None None))
    (demo_poll <$> seq 0 5)) as Hwait.
  change (instant_max <? _)%Z with false in Hwait. cbv iota in Hwait.
  destruct Hwait as (r & m & Hw & _).
  - intros p [= <-]. vm_compute. discriminate.
  - intros i p q Hp Hq _. apply list_lookup_fmap_Some in Hp as (x & -> & [-> _]%lookup_seq).
    apply list_lookup_fmap_Some in Hq as (y & -> & [-> _]%lookup_seq).
    unfold sleep_duration, demo_poll, cycle_interval, poll_interval. simpl. lia.
  - vm_compute. lia.
  - exists m. rewrite Hw. do 3 f_equal.
    assert (match wait_for_next_cycle (demo_args None None) 0 (monitor_new (λ _, None) (demo_args None None))
      (demo_poll <$> seq 0 5) with Some (Returns (r, _)) => Some r | _ => None end = Some (Ok IntervalElapsed))
      as Hr by (vm_compute; reflexivity).
    rewrite Hw in Hr. by injection Hr.
Defined.

(** A second start with a wrong passphrase destroys the key of the first. *)
Lemma load_or_init_identity_spec_witness :
  let start pass random := load_or_init_identity (λ _, Some pass) None None (replicate 16 x01)
    (replicate 12 x02) (replicate 32 random) "node.json" "QUIP_IDENTITY_PASSPHRASE" in
  let '(first, fs1) := start "secret" x07 ∅ in
  let '(second, fs2) := start "wrong" x08 fs1 in
  first = Ok (keypair_generate (replicate 32 x07)) ∧
  second = Ok (keypair_generate (replicate 32 x08)) ∧
  keystore_load "node.json" "secret" fs1 = Ok (keypair_generate (replicate 32 x07)) ∧
  keystore_load "node.json" "secret" fs2 ≠ Ok (keypair_generate (replicate 32 x07)).
Proof.
  intros start.
  pose proof (load_or_init_identity_spec (λ _, Some "secret") None None (replicate 16 x01) (replicate 12 x02)
    (replicate 32 x07) "node.json" "QUIP_IDENTITY_PASSPHRASE" ∅ eq_refl) as Hspec.
  unfold start. destruct (load_or_init_identity (λ _, Some "secret") _ _ _ _ _ _ _ ∅)
    as [first fs1] eqn:Hfirst.
  assert (first = Ok (keypair_generate (replicate 32 x07))) as ->.
  { transitivity (load_or_init_identity (λ _, Some "secret") None None (replicate 16 x01) (replicate 12 x02)
      (replicate 32 x07) "node.json" "QUIP_IDENTITY_PASSPHRASE" ∅).1; [by rewrite Hfirst|].
    vm_compute. reflexivity. }
  destruct Hspec as (_ & _ & _ & Hload & _).
  destruct (Hload "secret" missing _ eq_refl eq_refl eq_refl) as [_ Hkey].
  assert (fs1 = (load_or_init_identity (λ _, Some "secret") None None (replicate 16 x01) (replicate 12 x02)
    (replicate 32 x07) "node.json" "QUIP_IDENTITY_PASSPHRASE" ∅).2) as -> by by rewrite Hfirst.
  destruct (load_or_init_identity (λ _, Some "wrong") _ _ _ _ _ _ _ _) as [second fs2] eqn:Hsecond.
  pose proof (f_equal fst Hsecond) as Hr. pose proof (f_equal snd Hsecond) as Hfs.
  cbn [fst snd] in Hr, Hfs. rewrite <-Hr, <-Hfs.
  split; [reflexivity|]. split; [vm_compute; reflexivity|]. split; [exact Hkey|].
  vm_compute. discriminate.
Defined.

Definition demo_daemon_state : DaemonState := fixture_daemon_state "net".

Lemma demo_attempts_ok : attempts_ok (adapter (node_transport (demo_node demo_record))).
Proof.
  assert (reconnect_attempts (adapter (node_transport (demo_node demo_record))) = []) as Hnil
    by reflexivity.
  intros r Hr. rewrite Hnil in Hr. by apply elem_of_nil in Hr.
Qed.

Lemma retries_terminate_witness :
  ∃ p, target_peer (demo_args None None) demo_daemon_state = Some p ∧
    let '(r, n') := ensure_target_session (C := Contents) demo_clock demo_rng (demo_args None None)
      demo_daemon_state "/app/1" (demo_node demo_record) in
    (∃ status, r = Ok (TargetBackingOff status)) ∧
    tries (adapter (node_transport n')) p (mk_ProtocolId "/app/1") Bulk = 1%Z ∧
    attempts_ok (adapter (node_transport n')).
Proof.
  destruct (target_peer (demo_args None None) demo_daemon_state) as [p|] eqn:Hp.
  2: { exfalso. assert (bool_decide (is_Some (target_peer (demo_args None None) demo_daemon_state)) = true)
         as Hs by (vm_compute; reflexivity). rewrite Hp in Hs. discriminate Hs. }
  exists p. split; [reflexivity|].
  pose proof (retries_terminate demo_clock demo_rng (demo_args None None) demo_daemon_state "/app/1" p
    (mk_ProtocolId "/app/1") (demo_node demo_record) demo_attempts_ok Hp eq_refl) as Ht.
  cbv zeta in Ht.
  assert (match (ensure_target_session (C := Contents) demo_clock demo_rng (demo_args None None)
      demo_daemon_state "/app/1" (demo_node demo_record)).1 with Ok (TargetBackingOff _) => true | _ => false end
    = true) as Hr by (vm_compute; reflexivity).
  assert (match target_peer (demo_args None None) demo_daemon_state with
    | Some p => tries (adapter (node_transport (ensure_target_session (C := Contents) demo_clock demo_rng
        (demo_args None None) demo_daemon_state "/app/1" (demo_node demo_record)).2)) p
        (mk_ProtocolId "/app/1") Bulk
    | None => 0%Z end = 1%Z) as Hone by (vm_compute; reflexivity).
  rewrite Hp in Hone.
  destruct (ensure_target_session _ _ _ _ _ _) as [r n'].
  destruct Ht as [Hok' _].
  cbn [fst snd] in *. split_and!; [|exact Hone|exact Hok'].
  destruct r as [[]|]; try discriminate Hr. by eexists.
Defined.
End witnesses.
