(* ===== verification/QuipdSafety.v ===== *)
(** The daemon process as a whole: whatever cycles it runs and whatever its
    control server is asked, the transport stays well formed and the state file
    only goes forward, unless a request discards it. *)
From stdpp Require Import countable option base relations list strings gmap pretty.
From Stdlib Require Import ZArith Lia Strings.Byte Strings.Ascii.
From S2P Require Import Prelude Text BTree F32 External Model Crypto Records Identity Netcheck Scheduler PeerStore Policy Routing RelayWire Relay Transport Membership Calendar Quic QuicProps Control ControlFetch Authority AuthorityProps Fabric FabricProps FabricPaths Durable Backup FabricPlane FabricRuntime DurableProps FabricPathsProps FabricPlaneProps FabricRuntimeProps EndToEnd FabricQuic Quipd DaemonApi QuipdApi QuipdControl QuipdProps.

(** ** Revoked peers *)

Definition revokes (s : DaemonState) (p : PeerId) : Prop :=
  ∃ r, r ∈ ds_revocations s ∧ rr_target r = TargetPeer p.

Lemma revokes_steps `{Blake3, Varint, Base32} s s' p : rtc daemon_step s s' → revokes s p → revokes s' p.
Proof.
  intros Hst (r & Hr & Ht). exists r. split; [|exact Ht].
  destruct (adv_revocations _ _ (daemon_steps_advance _ _ Hst)) as [l ->]. apply elem_of_app. by left.
Qed.

Lemma revokes_denied `{Blake3, Varint, Base32} s p q :
  daemon_wf s → revokes s p → allowed (explain_policy s p q) = false.
Proof. intros Hs (r & Hr & Ht). by eapply revoked_peer_denied. Qed.

(** No session is with the peer. *)
Definition absent (p : PeerId) (k : Who) : Prop := ∀ id x, k !! id = Some x → x.1 ≠ p.

Lemma absent_delete p id k : absent p k → absent p (delete id k).
Proof. intros Hk id' x [_ Hid]%lookup_delete_Some. by eapply Hk. Qed.
Lemma absent_insert p id x k : absent p k → x.1 ≠ p → absent p (<[id := x]> k).
Proof.
  intros Hk Hx id' x'. rewrite lookup_insert. case_decide; [by intros [= <-]|apply Hk].
Qed.

(** ** Operations that advance a node *)

Section advancing.
Context `{Blake3, Varint, Base32, Curves, ArtifactJson} {C : Type} `{StateFormatLaws C}.
Context {W : Type} `{LifecycleLaws W}.
Variable config : DaemonConfig.

Local Notation M := (NodeM C W).

(** A call that keeps the transport well formed and, but for sessions with the
    peer [who], every peer without sessions so. *)
Definition admits (who : PeerId → Prop) {A : Type} (m : TransportM W A) : Prop := ∀ w, lt_ok w →
  lt_ok (m w).2 ∧ ∀ p, ¬ who p → absent p (lt_who w) → absent p (lt_who (m w).2).
Definition okay {A : Type} (m : TransportM W A) : Prop := admits (λ _, False) m.

Lemma quiet_okay {A : Type} (m : TransportM W A) : quiet m → okay m.
Proof. intros Hm w Hok. destruct (Hm w Hok) as [Hok' Hw]. split; [exact Hok'|]. by rewrite Hw. Qed.
Lemma connect_admits route : admits (λ p, p = rt_peer route) (lt_connect route).
Proof.
  intros w Hok. pose proof (lt_connect_who route w Hok) as Hc.
  destruct (lt_connect route w) as [r w']. destruct Hc as [Hok' Hw]. split; [exact Hok'|].
  intros p Hp Hk. cbn [snd]. destruct Hw as [->|[id ->]]; [exact Hk|].
  apply absent_insert; [exact Hk|]. cbn. congruence.
Qed.
Lemma migrate_admits s route : admits (λ p, p = rt_peer route) (lt_migrate s route).
Proof.
  intros w Hok. pose proof (lt_migrate_who s route w Hok) as Hc.
  destruct (lt_migrate s route w) as [r w']. destruct Hc as [Hok' Hw]. split; [exact Hok'|].
  intros p Hp Hk. cbn [snd]. destruct Hw as [->| ->]; [exact Hk|].
  apply absent_insert; [exact Hk|]. cbn. congruence.
Qed.
Lemma close_okay s : okay (lt_close_session s).
Proof.
  intros w Hok. pose proof (lt_close_who s w Hok) as Hc.
  destruct (lt_close_session s w) as [r w']. destruct Hc as [Hok' Hw]. split; [exact Hok'|].
  intros p _ Hk. cbn [snd]. destruct Hw as [->|[_ ->]]; [by apply absent_delete|exact Hk].
Qed.

(** A node that is well formed; one that has gone on from another: its state
    file has gone forward, and a peer that the file revokes and that has no
    session still has none. *)
Definition node_inv (n : Node C W) : Prop :=
  lt_ok (node_transport n) ∧ plane_inv config (node_files n).
Definition file_revokes (fs : Files C) (p : PeerId) : Prop :=
  ∃ s, daemon_load (cfg_state_path config) fs = Ok s ∧ revokes s p.
Definition keeps_out (n n' : Node C W) : Prop := ∀ p, file_revokes (node_files n) p →
  absent p (lt_who (node_transport n)) → absent p (lt_who (node_transport n')).
Definition advances (n n' : Node C W) : Prop :=
  lt_ok (node_transport n') ∧ plane_advances config (node_files n) (node_files n') ∧ keeps_out n n'.
Definition advancing {A : Type} (m : M A) : Prop := ∀ n, node_inv n → advances n (m n).2.

Lemma file_revokes_advances fs fs' p :
  plane_advances config fs fs' → file_revokes fs p → file_revokes fs' p.
Proof.
  intros [_ Hl] (s & Hs & Hr). destruct (Hl s Hs) as (s' & Hs' & Hst). exists s'.
  split; [exact Hs'|by eapply revokes_steps].
Qed.

Lemma advances_refl n : node_inv n → advances n n.
Proof. intros [Hok Hi]. split; [exact Hok|]. by split; [apply plane_advances_refl|intros p]. Qed.
Lemma advances_trans n1 n2 n3 : advances n1 n2 → advances n2 n3 → advances n1 n3.
Proof.
  intros (_ & H12 & Ho12) (Hok & H23 & Ho23). split; [exact Hok|].
  split; [by eapply plane_advances_trans|]. intros p Hr Hk.
  apply Ho23; [by eapply file_revokes_advances|by apply Ho12].
Qed.
Lemma advances_inv n n' : advances n n' → node_inv n'.
Proof. intros (Hok & [Hi _] & _). by split. Qed.

(** The transport is as it was. *)
Lemma advances_files n fs :
  lt_ok (node_transport n) → plane_advances config (node_files n) fs →
  advances n (mk_Node fs (node_transport n)).
Proof. intros Hok Ha. split; [exact Hok|]. by split; [exact Ha|intros p]. Qed.
(** The files are as they were. *)
Lemma advances_transport who {A : Type} (m : TransportM W A) n :
  admits who m → node_inv n → (∀ p, file_revokes (node_files n) p → ¬ who p) →
  advances n (mk_Node (node_files n) (m (node_transport n)).2).
Proof.
  intros Hm [Hok Hi] Hwho. destruct (Hm _ Hok) as [Hok' Hk]. split; [exact Hok'|].
  split; [by apply plane_advances_refl|]. intros p Hr. apply Hk. by apply Hwho.
Qed.

Lemma advancing_bind {A B : Type} (m : M A) (f : A → M B) :
  advancing m → (∀ a, advancing (f a)) → advancing (m ≫= f).
Proof.
  intros Hm Hf n Hn. specialize (Hm n Hn). unfold mbind, node_bind.
  destruct (m n) as [[a|e] n']; [|exact Hm].
  eapply advances_trans; [exact Hm|]. by eapply Hf, advances_inv.
Qed.
Lemma advancing_ret {A : Type} (a : A) : advancing (mret a).
Proof. intros n. apply advances_refl. Qed.
Lemma advancing_lift {A : Type} (r : result DaemonStateError A) : advancing (node_lift r).
Proof. intros n. apply advances_refl. Qed.
Lemma advancing_throw {A : Type} e : advancing (node_throw e : M A).
Proof. intros n. apply advances_refl. Qed.
Lemma advancing_try {A : Type} (m : M A) : advancing m → advancing (node_try m).
Proof. intros Hm n Hn. specialize (Hm n Hn). unfold node_try. by destruct (m n). Qed.

Lemma advancing_transport {A : Type} (m : TransportM W A) : okay m → advancing (on_transport m).
Proof.
  intros Hm n Hn. pose proof (advances_transport _ m n Hm Hn (λ _ _ f, f)) as Ha. unfold on_transport.
  by destruct (m (node_transport n)).
Qed.
Lemma advancing_try_transport {A : Type} (m : TransportM W A) : okay m → advancing (try_transport m).
Proof.
  intros Hm n Hn. pose proof (advances_transport _ m n Hm Hn (λ _ _ f, f)) as Ha. unfold try_transport.
  by destruct (m (node_transport n)).
Qed.
Lemma advancing_files {A : Type} (m : FileM C A) :
  (∀ fs, plane_inv config fs → safe config m fs) → advancing (on_files m).
Proof.
  intros Hm n [Hok Hi]. specialize (Hm _ Hi). unfold on_files, safe in *.
  destruct (m (node_files n)) as [r fs]. by apply advances_files.
Qed.
Lemma advancing_ensure : advancing (on_files (ensure_state config)).
Proof. apply advancing_files. intros fs Hi. by apply ensure_state_held. Qed.

Lemma advancing_for {A B : Type} (l : list A) (body : A → B → M B) b :
  (∀ a b, advancing (body a b)) → advancing (node_for l body b).
Proof.
  intros Hbody. revert b. induction l as [|a l IH]; intros b; cbn [node_for].
  - apply advancing_ret.
  - apply advancing_bind; [apply Hbody|exact IH].
Qed.

(** ** Operations that save the state they started with

    [s] is a state the file goes on to; the operation keeps it so, and its
    value satisfies [Q]. *)
Definition holding {A : Type} (s : DaemonState) (m : M A) (Q : A → Prop) : Prop :=
  ∀ n, node_inv n → held config (node_files n) s →
    advances n (m n).2 ∧ held config (node_files (m n).2) s ∧ ∀ a, (m n).1 = Ok a → Q a.

Lemma holding_bind {A B : Type} s (m : M A) (f : A → M B) Q Q' :
  holding s m Q → (∀ a, Q a → holding s (f a) Q') → holding s (m ≫= f) Q'.
Proof.
  intros Hm Hf n Hn Hs. destruct (Hm n Hn Hs) as (Hadv & Hs' & HQ). unfold mbind, node_bind.
  destruct (m n) as [[a|e] n']; cbn [fst snd] in *; [|done].
  destruct (Hf a (HQ a eq_refl) n' (advances_inv _ _ Hadv) Hs') as (Hadv' & Hs'' & HQ').
  split_and!; [by eapply advances_trans|done|done].
Qed.
Lemma holding_ret {A : Type} s (a : A) (Q : A → Prop) : Q a → holding s (mret a) Q.
Proof. intros Ha n Hn Hs. split_and!; [by apply advances_refl|done|by intros ? [= <-]]. Qed.
Lemma holding_lift {A : Type} s (r : result DaemonStateError A) (Q : A → Prop) :
  (∀ a, r = Ok a → Q a) → holding s (node_lift r) Q.
Proof. intros Hr n Hn Hs. split_and!; [by apply advances_refl|done|exact Hr]. Qed.
Lemma holding_throw {A : Type} s e (Q : A → Prop) : holding s (node_throw e : M A) Q.
Proof. intros n Hn Hs. split_and!; [by apply advances_refl|done|done]. Qed.

(** Only peers that the policy of [s] allows something are admitted. *)
Definition granted (s : DaemonState) (p : PeerId) : Prop := ∃ q, allowed (explain_policy s p q) = true.

Lemma held_unrevoked fs s p : held config fs s → file_revokes fs p → ¬ granted s p.
Proof.
  intros [[Hwf _] Hst] (s0 & Hl & Hr) [q Hq].
  rewrite revokes_denied in Hq; [done|exact Hwf|by eapply revokes_steps; [apply Hst|]].
Qed.

Lemma holding_admits {A : Type} s (m : TransportM W A) :
  admits (granted s) m → holding s (on_transport m) (λ _, True) ∧ holding s (try_transport m) (λ _, True).
Proof.
  intros Hm. unfold holding, on_transport, try_transport.
  split; intros n Hn Hs; pose proof (advances_transport _ m n Hm Hn (λ p, held_unrevoked _ s p Hs)) as Ha;
    by destruct (m (node_transport n)).
Qed.
Lemma admits_weaken (P Q : PeerId → Prop) {A : Type} (m : TransportM W A) :
  (∀ p, P p → Q p) → admits P m → admits Q m.
Proof. intros HPQ Hm w Hok. destruct (Hm w Hok) as [Hok' Hk]. split; [exact Hok'|]. eauto. Qed.

Lemma holding_transport {A : Type} s (m : TransportM W A) :
  okay m → holding s (on_transport m) (λ _, True).
Proof. intros Hm. apply holding_admits. by eapply admits_weaken, Hm. Qed.
Lemma holding_try_transport {A : Type} s (m : TransportM W A) :
  okay m → holding s (try_transport m) (λ _, True).
Proof. intros Hm. apply holding_admits. by eapply admits_weaken, Hm. Qed.
Lemma holding_connect s route :
  granted s (rt_peer route) → holding s (on_transport (lt_connect route)) (λ _, True).
Proof. intros Hg. apply holding_admits. eapply admits_weaken, connect_admits. by intros p ->. Qed.
Lemma migrate_granted s session route :
  granted s (rt_peer route) → admits (granted s) (lt_migrate session route).
Proof. intros Hg. eapply admits_weaken, migrate_admits. by intros p ->. Qed.
Lemma holding_migrate s session route :
  granted s (rt_peer route) → holding s (on_transport (lt_migrate session route)) (λ _, True).
Proof. intros Hg. by apply holding_admits, migrate_granted. Qed.
Lemma holding_try_migrate s session route :
  granted s (rt_peer route) → holding s (try_transport (lt_migrate session route)) (λ _, True).
Proof. intros Hg. by apply holding_admits, migrate_granted. Qed.

(** A call whose value does not matter, and the rest. *)
Lemma holding_next {A B : Type} s (m : TransportM W A) (f : A → M B) Q :
  okay m → (∀ a, holding s (f a) Q) → holding s (on_transport m ≫= f) Q.
Proof. intros Hm Hf. eapply holding_bind; [by apply holding_transport|intros a _; apply Hf]. Qed.

Lemma holding_for {A B : Type} s (l : list A) (body : A → B → M B) b (Q : B → Prop) :
  Q b → (∀ a b, Q b → holding s (body a b) Q) → holding s (node_for l body b) Q.
Proof.
  intros Hb Hbody. revert b Hb. induction l as [|a l IH]; intros b Hb; cbn [node_for].
  - by apply holding_ret.
  - eapply holding_bind; [by apply Hbody|exact IH].
Qed.

(** Only the sessions differ, which are not written. *)
Definition same_but_sessions (s s' : DaemonState) : Prop := with_sessions [] s' = with_sessions [] s.

Lemma holding_save s s' : same_but_sessions s s' → holding s (save_sessions config s') (λ _, True).
Proof.
  intros Hs. unfold save_sessions. apply holding_next; [apply quiet_okay, lt_active_quiet|intros l].
  intros n [Hok Hi] Hheld. unfold on_files, plane_save, filem_write. cbn [fst snd node_files node_transport].
  set (fs' := daemon_save _ _ _).
  assert (daemon_load (cfg_state_path config) fs' = Ok (with_sessions [] s)) as Hl.
  { unfold fs'. rewrite load_save.
    2: { change (finite_losses (with_sessions [] s')). unfold same_but_sessions in Hs. rewrite Hs.
         exact (dw_finite s (proj1 (proj1 Hheld))). }
    f_equal. change (with_schema_version DAEMON_STATE_SCHEMA_VERSION (with_sessions [] s') =
      with_sessions [] s). unfold same_but_sessions in Hs. rewrite Hs.
    destruct Hheld as [[_ Hv] _]. rewrite <-Hv. by destruct s. }
  destruct Hheld as [Hc Hsteps].
  assert (current (with_sessions [] s)) as Hc'.
  { eapply current_step; [exact Hc|apply step_sessions, NoDup_nil_2|done]. }
  assert (daemon_step s (with_sessions [] s)) as Hstep by apply step_sessions, NoDup_nil_2.
  assert (daemon_step (with_sessions [] s) s) as Hback.
  { replace s with (with_sessions (ds_active_sessions s) (with_sessions [] s)) at 2
      by (by destruct s). apply step_sessions, Hc. }
  split_and!; [apply advances_files; [exact Hok|split]|split|done].
  - intros s0 Hs0. assert (Ok (with_sessions [] s) = Ok s0) as [= <-] by (rewrite <-Hl; exact Hs0).
    exact Hc'.
  - intros s0 Hs0. eexists. split; [exact Hl|]. eapply rtc_r; [by apply Hsteps|exact Hstep].
  - exact Hc.
  - intros s0 Hs0. assert (Ok (with_sessions [] s) = Ok s0) as [= <-] by (rewrite <-Hl; exact Hs0).
    by apply rtc_once.
Qed.

(** It starts from the state of the file. *)
Lemma advancing_holding {B : Type} (f : DaemonState → M B) Q :
  (∀ s, holding s (f s) Q) → advancing (on_files (ensure_state config) ≫= f).
Proof.
  intros Hf n [Hok Hi]. pose proof (ensure_state_held config (node_files n) Hi) as [Hadv Hheld].
  unfold mbind, node_bind, on_files, safe in *.
  destruct (ensure_state config (node_files n)) as [[s|e] fs]; cbn [fst snd] in *; [|by apply advances_files].
  eapply (advances_trans _ (mk_Node fs (node_transport n))); [by apply advances_files|].
  apply (Hf s); [split; [exact Hok|apply Hadv]|by apply Hheld].
Qed.

(** ** The operations of the fabric *)

#[local] Hint Resolve quiet_okay close_okay lt_active_quiet lt_snapshot_quiet
  lt_terminal_quiet lt_update_quiet lt_events_quiet lt_suppress_quiet lt_clear_quiet
  lt_suppressions_quiet lt_listeners_quiet lt_update_listener_quiet lt_health_quiet
  lt_attempts_quiet lt_record_quiet : okay_db.

Ltac advance :=
  repeat first
    [ apply advancing_ret | apply advancing_lift | apply advancing_throw | apply advancing_ensure
    | apply advancing_transport; solve [auto with okay_db]
    | apply advancing_try_transport; solve [auto with okay_db]
    | apply advancing_try | apply advancing_bind; [|intros ?] | apply advancing_for; intros ? ?
    | case_match ].
Lemma holding_fail_and_close s session cr sr :
  holding s (fail_and_close_session session cr sr) (λ _, True).
Proof.
  unfold fail_and_close_session, record_path_failure_event.
  do 2 (apply holding_next; [auto with okay_db|intros ?]). apply holding_transport, close_okay.
Qed.

Ltac unchanged := solve [exact I | exact eq_refl | intros; exact I | eassumption].
Ltac hold :=
  repeat first
    [ apply holding_throw | apply holding_ret; unchanged | apply holding_lift; unchanged
    | apply holding_save; unchanged
    | eapply holding_bind; [apply holding_save; unchanged|intros ? _]
    | eapply holding_bind; [apply holding_fail_and_close|intros ? _]
    | eapply holding_bind; [apply holding_try_transport; solve [auto with okay_db]|intros ? _]
    | apply holding_next; [solve [auto with okay_db]|intros ?] | case_match ].

Lemma advancing_sync : advancing (sync_runtime_sessions config).
Proof. unfold sync_runtime_sessions. advance. Qed.

Lemma advancing_close id : advancing (fabric_close_session config id).
Proof.
  apply (advancing_holding _ (λ _, True)). intros s. unfold known_session.
  eapply holding_bind with (Q := λ _, True); [hold|intros session _]. hold.
Qed.

(** A route that the policy allows, planned. *)
Lemma holding_route {B : Type} s s' p q c (f : RoutePlan → M B) Q :
  explain_policy s' p q = explain_policy s p q → negb (allowed (explain_policy s' p q)) = false →
  (∀ route, granted s (rt_peer route) → holding s (f route) Q) →
  holding s (node_lift (route_plan s' p (Some q) c) ≫= f) Q.
Proof.
  intros Heq Ha%negb_false_iff Hf. rewrite Heq in Ha.
  eapply holding_bind with (Q := λ route, rt_peer route = p).
  - apply holding_lift. intros route Hr. by apply route_plan_of in Hr as [-> _].
  - intros route <-. apply Hf. by exists q.
Qed.

Lemma advancing_upgrade id : advancing (upgrade_session config id).
Proof.
  apply (advancing_holding _ (λ _, True)). intros s. unfold known_session.
  eapply holding_bind with (Q := λ _, True); [hold|intros session _].
  eapply holding_bind with (Q := λ _, True); [hold|intros protocol _].
  cbv zeta. destruct (negb _) eqn:Ha; hold.
  apply holding_route; [done|exact Ha|]. intros route Hr.
  eapply holding_bind; [by apply holding_migrate|intros upgraded _]. hold.
Qed.

Lemma advancing_realize p q c : advancing (realize_best_path config p q c).
Proof.
  apply (advancing_holding _ (λ _, True)). intros s. cbv zeta. destruct (negb _) eqn:Ha; hold.
  apply holding_route; [done|exact Ha|]. intros route Hr.
  eapply holding_bind; [by apply holding_connect|intros session _]. hold.
Qed.

Lemma holding_reroute s session q route cleared x :
  granted s (rt_peer route) → holding s (reroute_session session q route cleared x) (λ _, True).
Proof.
  intros Hr. unfold reroute_session, session_event. case_match; hold.
  eapply holding_bind; [by apply holding_try_migrate|intros migrated _]. hold.
Qed.

Lemma holding_keep s session q x :
  granted s (ss_peer session) → holding s (keep_session s session q x) (λ _, True).
Proof.
  intros Hg. unfold keep_session, session_event.
  hold; try (eapply holding_bind with (Q := λ _, True); [hold|intros ? _; hold]).
  all: apply holding_reroute.
  all: match goal with Hr : route_plan _ _ _ _ = Ok _ |- _ => by apply route_plan_of in Hr as [-> _] end.
Qed.

Lemma holding_reevaluate_session s local_reason mismatch session x :
  holding s (reevaluate_session s local_reason mismatch session x) (λ _, True).
Proof.
  unfold reevaluate_session. destruct (ss_protocol session) as [q|]; [|by apply holding_ret].
  destruct (enforcement _ _ _ _ _) as [enforced|] eqn:He.
  - unfold deny_session. hold.
  - apply enforcement_None in He as [_ Ha]. apply holding_keep. by exists q.
Qed.

Lemma holding_reevaluate_listener s local_reason mismatch listener n :
  holding s (reevaluate_listener s local_reason mismatch listener n) (λ _, True).
Proof. unfold reevaluate_listener. destruct n as [[? ?] ?]. hold. Qed.

Lemma advancing_reevaluate k : advancing (reevaluate_runtime_authority config k).
Proof.
  apply (advancing_holding _ (λ _, True)). intros s. cbv zeta. hold.
  eapply holding_bind with (Q := λ _, True); [|intros x _; hold].
  { apply holding_for; [done|]. intros session x _. apply holding_reevaluate_session. }
  eapply holding_bind with (Q := λ _, True); [|intros m _; hold].
  apply holding_for; [done|]. intros listener m _. apply holding_reevaluate_listener.
Qed.

(** The loop only rewrites the sessions of its state, which its policy does
    not read. *)
Lemma same_sessions_policy s s' p q :
  same_but_sessions s s' → explain_policy s' p q = explain_policy s p q.
Proof.
  intros Hs. change (explain_policy (with_sessions [] s') p q = explain_policy (with_sessions [] s) p q).
  by rewrite Hs.
Qed.

Lemma holding_reconcile_session s listed g :
  same_but_sessions s (rg_state g) →
  holding s (reconcile_session listed g) (λ g', same_but_sessions s (rg_state g')).
Proof.
  intros Hg. unfold reconcile_session. hold.
  eapply holding_bind; [apply holding_try_migrate|intros migrated _; hold].
  match goal with Hr : route_plan _ _ _ _ = Ok _, Ha : negb _ = false |- _ =>
    apply route_plan_of in Hr as [-> _]; apply negb_false_iff in Ha end.
  eexists. rewrite <-(same_sessions_policy s (rg_state g)) by done. eassumption.
Qed.

Lemma advancing_reconcile : advancing (reconcile_sessions config).
Proof.
  apply (advancing_holding _ (λ _, True)). intros s. hold.
  eapply holding_bind with (Q := λ g, same_but_sessions s (rg_state g)); [|intros g Hg; hold].
  apply holding_for; [exact eq_refl|]. intros listed g Hg. by apply holding_reconcile_session.
Qed.

Lemma advancing_runtime_paths : advancing (runtime_paths config).
Proof. unfold runtime_paths. advance. Qed.
Lemma advancing_runtime_listeners : advancing (runtime_listeners config).
Proof. unfold runtime_listeners. advance. Qed.
Lemma advancing_runtime_events limit : advancing (runtime_events limit).
Proof. unfold runtime_events. advance. Qed.

Lemma advancing_health : advancing (runtime_health config).
Proof.
  unfold runtime_health. pose proof advancing_runtime_paths. pose proof advancing_runtime_listeners.
  advance; assumption.
Qed.
End advancing.

(** ** The operations on files *)

Section files.
Context `{Blake3, Varint, Base32, Curves, ArtifactJson} {C : Type} `{StateFormatLaws C}.
Context {Body : Type} `{ControlJson Body} (web : string → HttpReply Body).
Variable args : Args.

Let config : DaemonConfig := args_config args.
Local Notation always m := (∀ fs, plane_inv config fs → safe config m fs).

Lemma always_bind {A B : Type} (m : FileM C A) (f : A → FileM C B) :
  always m → (∀ a, always (f a)) → always (m ≫= f).
Proof.
  intros Hm Hf fs Hi. specialize (Hm fs Hi). unfold safe, mbind, filem_bind in *.
  destruct (m fs) as [[a|e] fs']; [|exact Hm]. cbn [snd] in Hm.
  eapply plane_advances_trans; [exact Hm|]. apply Hf, Hm.
Qed.
Lemma always_ret {A : Type} (a : A) : always (mret a : FileM C A).
Proof. intros fs Hi. by apply plane_advances_refl. Qed.
Lemma always_lift {A : Type} (r : result DaemonStateError A) : always (filem_lift r : FileM C A).
Proof. intros fs Hi. by apply plane_advances_refl. Qed.
Lemma always_read {A : Type} (r : Files C → result DaemonStateError A) : always (filem_read r).
Proof. intros fs Hi. by apply plane_advances_refl. Qed.
Lemma always_ensure : always (ensure_state config).
Proof. intros fs Hi. exact (run_plane_advances config web OpEnsure fs Hi). Qed.
Lemma always_bound k : always (ensure_identity_bound_state config k).
Proof. intros fs Hi. exact (run_plane_advances config web (OpEnsureBound k) fs Hi). Qed.
Lemma always_refresh k : always (refresh_and_persist_for_local_identity config k).
Proof. intros fs Hi. exact (run_plane_advances config web (OpRefreshFor k) fs Hi). Qed.
Lemma always_reprobe why : always (reprobe_network_change config why).
Proof. intros fs Hi. exact (run_plane_advances config web (OpReprobe why) fs Hi). Qed.
Lemma always_sync_snapshot path : always (plane_sync_snapshot config path).
Proof. intros fs Hi. by apply safe_sync_snapshot. Qed.
Lemma always_sync_origin origin subject : always (sync_authority_origin web config origin subject).
Proof. intros fs Hi. by apply safe_sync_origin. Qed.
Lemma always_sync_revocations origin : always (sync_authority_revocations_origin web config origin).
Proof. intros fs Hi. by apply safe_sync_revocations. Qed.

#[local] Hint Resolve always_ret always_lift always_ensure always_refresh always_reprobe
  always_sync_snapshot always_sync_origin always_sync_revocations : always_db.
Ltac always_steps :=
  repeat first [ solve [auto with always_db] | apply always_bind; [|intros ?] | case_match ].

(** Without [--sync], a source replaces the state file. *)
Definition seeds (args : Args) : bool :=
  negb (arg_sync args) &&
  (bool_decide (is_Some (arg_authority_snapshot args)) ||
   bool_decide (is_Some (arg_authority_origin args))).

Lemma always_initialize k : seeds args = false → always (initialize_state web args k).
Proof.
  unfold seeds. intros Hs. unfold initialize_state, sync_revocations, synced.
  destruct (arg_authority_snapshot args), (arg_authority_origin args), (arg_sync args);
    try discriminate Hs; always_steps.
Qed.

Lemma always_prepare k trigger : always (prepare_state_for_trigger web args k trigger).
Proof.
  unfold prepare_state_for_trigger, refresh_state, sync_revocations, synced.
  destruct trigger; always_steps.
Qed.
End files.

(** ** The process *)

(** What an export writes: its output path, nothing else. *)
Class BackupStoreLaws (C : Type) `{BackupStore C} : Prop :=
  backup_export_writes now salt nonce request (fs fs' : Files C) report :
    backup_export now salt nonce request fs = Ok (report, fs') →
    ∀ path, path ≠ ex_output_path request →
      (fs' : gmap string C) !! path = (fs : gmap string C) !! path.

#[export] Instance bytes_backup_store_laws
    `{Blake3, Varint, Base32, Sealing, Sha256, BackupFormat, StateFormat bytes} : BackupStoreLaws bytes.
Proof.
  intros now salt nonce request fs fs' report. unfold backup_export, bytes_backup_store, export_backup_bundle.
  destruct (_ && _); [done|].
  intros (identity & _ & (state & _ & (envelope & _ & [= _ <-])%result_bind_Ok)%result_bind_Ok)%result_bind_Ok
    path Hp. by rewrite lookup_insert_ne.
Qed.

Section process.
Context `{Blake3, Varint, Base32, Curves, ArtifactJson, JsonBytes SessionCredentialUnsigned}.
Context {C : Type} `{StateFormatLaws C} `{BackupStoreLaws C} {Body : Type} `{ControlJson Body}.
Context `{DaemonJson}.
Context {R : Type} `{RelayControl R} (clock : nat → Z) (rng : nat → nat → bytes).
Variable args : Args.
Variable identity : IdentityKeypair.

#[local] Instance safety_transport : LifecycleTransport (World R) := quic_transport clock rng.
#[local] Instance safety_view : LifecycleView (World R) := quic_view.
#[local] Instance safety_laws : LifecycleLaws (World R) := quic_laws clock rng.
Local Notation M := (NodeM C (World R)).
Let config : DaemonConfig := args_config args.
Local Notation well_formed n := (node_inv config n).
Local Notation goes_on n n' := (advances config n n').

(** ** Cycles *)

Lemma okay_record t x d : okay (record_runtime_event (R:=R) clock t x d).
Proof. apply quiet_okay. exact (lt_record_quiet t x d). Qed.
Lemma okay_clear p q c o : okay (clear_reconnect_attempt (R:=R) clock p q c o).
Proof. apply quiet_okay, quiet_clear_attempt. Qed.
Lemma okay_schedule p q c r m b x : okay (schedule_reconnect (R:=R) clock p q c r m b x).
Proof. apply quiet_okay, quiet_schedule. Qed.
Lemma okay_secs : okay (current_unix_secs (R:=R) clock).
Proof. apply quiet_okay, quiet_secs. Qed.
Lemma okay_fill k : okay (fill_bytes (R:=R) rng k).
Proof. by intros w Hok. Qed.
Lemma okay_reading {A : Type} (f : QuicTransportAdapter → A) : okay (reading f : Quic.M R A).
Proof. by intros w Hok. Qed.

Ltac okay_step :=
  first [ apply okay_record | apply okay_clear | apply okay_schedule | apply okay_secs
        | apply okay_fill | apply okay_reading ].
Ltac advance :=
  repeat first
    [ apply advancing_ret | apply advancing_lift | apply advancing_throw | apply advancing_ensure
    | apply advancing_sync | apply advancing_reevaluate | apply advancing_reconcile
    | apply advancing_realize | apply advancing_health | apply advancing_close
    | apply advancing_upgrade | apply advancing_runtime_paths | apply advancing_runtime_listeners
    | apply advancing_runtime_events
    | apply advancing_transport; okay_step | apply advancing_try_transport; okay_step
    | apply advancing_try | apply advancing_bind; [|intros ?] | case_match ].

Lemma advancing_target s protocol : advancing config (ensure_target_session clock rng args s protocol).
Proof. unfold ensure_target_session, attempt_target. advance. Qed.

Ltac cycle_steps := unfold reconcile_step, connect_step; advance; try apply advancing_target.

Lemma advancing_cycle (web : string → HttpReply Body) trigger :
  advancing config (run_cycle clock rng args web identity trigger).
Proof.
  unfold run_cycle. cycle_steps. apply advancing_files. intros fs Hi. by apply always_prepare.
Qed.

(** A cycle that succeeds prepares the file, goes on from it, and leaves a file
    that loads. *)
Lemma cycle_prepares (web : string → HttpReply Body) trigger n report n' :
  lt_ok (node_transport n) → run_cycle clock rng args web identity trigger n = (Ok report, n') →
  ∃ x fs, prepare_state_for_trigger web args identity trigger (node_files n) = (Ok x, fs) ∧
    (plane_inv config fs → goes_on (mk_Node fs (node_transport n)) n' ∧
       ∃ s, daemon_load (cfg_state_path config) (node_files n') = Ok s).
Proof.
  intros Hok (x & fs & Hp & Hrun)%bind_files_Ok. exists x, fs. split; [exact Hp|]. intros Hi.
  destruct x as [[prep rep] s0]. apply bind_Ok in Hrun as (s & n2 & Hsync & Hrun).
  match type of Hsync with ?m _ = _ => assert (advancing config m) as Hadv2 by apply advancing_sync end.
  specialize (Hadv2 (mk_Node fs (node_transport n)) (conj Hok Hi)). rewrite Hsync in Hadv2. cbn [snd] in Hadv2.
  match type of Hrun with ?m _ = _ => assert (advancing config m) as Hm by cycle_steps end.
  specialize (Hm n2 (advances_inv _ _ _ Hadv2)). rewrite Hrun in Hm. cbn [snd] in Hm.
  split; [by eapply advances_trans|].
  apply bind_files_Ok in Hsync as (s1 & fs1 & (s2 & Hl)%ensure_saved & Hrest).
  apply bind_Ok in Hrest as (l & n3 & Hlist & [= _ <-]).
  assert (node_files n3 = fs1) as Hfs.
  { unfold on_transport in Hlist. destruct (lt_active_sessions _) as [[]]; by injection Hlist as _ <-. }
  rewrite <-Hfs in Hl. destruct (proj2 (proj1 (proj2 Hm)) s2 Hl) as (s3 & Hl3 & _). by exists s3.
Qed.

(** ** Requests *)

(** A request that discards the state: a confirmed reset, or an export that
    names the state file as its bundle. *)
Definition discards (envelope : RequestEnvelope) : bool :=
  (String.eqb (rqe_operation envelope) "state.reset" &&
   match json_reset (rqe_payload envelope) with
   | Ok payload => String.eqb (srp_scope payload) "network_state_only" &&
       String.eqb (srp_confirmation payload) "preserve-identity-reset-network-state"
   | Err _ => false
   end) ||
  (String.eqb (rqe_operation envelope) "state.export" &&
   match json_export (rqe_payload envelope) with
   | Ok payload => String.eqb (sep_output_path payload) (arg_state_path args)
   | Err _ => false
   end).
Definition discards_state (request : HttpRequest) : bool :=
  match read_request_body request with
  | Ok body => match json_envelope body with Ok envelope => discards envelope | Err _ => false end
  | Err _ => false
  end.

Definition harmless (h : Handler (C := C) (R := R)) : Prop :=
  ∀ envelope n, well_formed n → goes_on n (h envelope n).2.

Lemma respond_goes_on id (m : M DaemonResult) n :
  advancing config m → well_formed n → goes_on n (respond id m n).2.
Proof. intros Hm Hn. specialize (Hm n Hn). unfold respond. by destruct (m n) as [[]]. Qed.

Lemma harmless_payload {P : Type} (decode : Json → result string P) what k :
  (∀ payload, harmless (k payload)) → harmless (with_payload decode what k).
Proof.
  intros Hk envelope n Hn. unfold with_payload. destruct (decode _); [by apply Hk|by apply advances_refl].
Qed.

Lemma harmless_session value k : (∀ id, harmless (k id)) → harmless (with_session value k).
Proof.
  intros Hk envelope n Hn. unfold with_session.
  destruct (parse_hex_session_id value) as [[id|e]|]; [by apply Hk|by apply advances_refl..].
Qed.

Lemma harmless_respond (m : M DaemonResult) :
  advancing config m → harmless (λ envelope, respond (rqe_request_id envelope) m).
Proof. intros Hm envelope n. by apply respond_goes_on. Qed.

(** *** Reports *)

Lemma advancing_authority_status s h : advancing config (latest_authority_status (C := C) (R := R) s h).
Proof. unfold latest_authority_status. advance. Qed.
Lemma advancing_inventory s : advancing config (runtime_session_inventory (C := C) (R := R) s).
Proof. unfold runtime_session_inventory. advance. Qed.

Lemma advancing_mapM {A B : Type} (f : A → M B) l :
  (∀ a, advancing config (f a)) → advancing config (mapM f l).
Proof.
  intros Hf. induction l as [|a l IH]; cbn [mapM].
  - apply advancing_ret.
  - apply advancing_bind; [apply Hf|intros b]. apply advancing_bind; [exact IH|intros k].
    apply advancing_ret.
Qed.

Lemma advancing_read {A : Type} (f : Files C → result DaemonStateError A) :
  advancing config (on_files (filem_read f) : M A).
Proof. apply advancing_files. intros fs Hi. by apply plane_advances_refl. Qed.

Ltac report :=
  repeat first
    [ apply advancing_authority_status | apply advancing_inventory
    | apply advancing_mapM; intros ? | apply advancing_read
    | progress advance ].

Lemma advancing_status_result : advancing config (runtime_status_result (C := C) clock rng args identity).
Proof. unfold runtime_status_result. report. Qed.
Lemma advancing_health_result : advancing config (runtime_health_result (C := C) clock rng args).
Proof. unfold runtime_health_result. report. Qed.
Lemma advancing_show_result : advancing config (authority_show_result (C := C) clock rng args).
Proof. unfold authority_show_result. report. Qed.
Lemma advancing_verify_result :
  advancing config (identity_verify_result (C := C) (R := R) args identity).
Proof. unfold identity_verify_result. report. Qed.
Lemma advancing_state_result : advancing config (state_show_result (C := C) (R := R) args).
Proof. unfold state_show_result, inspect_state_file. report. Qed.
(** *** Handlers *)

Lemma harmless_export envelope n :
  discards envelope = false → rqe_operation envelope = "state.export" → well_formed n →
  goes_on n (state_export_response (C := C) clock rng args envelope n).2.
Proof.
  unfold discards. intros Hd Hop Hn. rewrite Hop in Hd. cbn [orb andb String.eqb Ascii.eqb Bool.eqb] in Hd.
  unfold state_export_response, with_payload. destruct (json_export _) as [payload|e]; [|by apply advances_refl].
  apply respond_goes_on; [|exact Hn]. report.
  intros n1 [Hok Hi]. unfold export_files. destruct (backup_export _ _ _ _ _) as [[report fs]|e] eqn:He.
  2: { by apply advances_refl. }
  apply advances_files; [exact Hok|].
  assert (daemon_load (cfg_state_path config) fs = daemon_load (cfg_state_path config) (node_files n1)) as Hl.
  { unfold daemon_load, file_read. erewrite backup_export_writes; [done|exact He|].
    cbn [ex_output_path]. intros Heq. apply String.eqb_neq in Hd. by apply Hd. }
  split; [intros s Hs|intros s Hs; exists s; split; [|reflexivity]].
  - apply Hi. by rewrite <-Hl.
  - by rewrite Hl.
Qed.

Lemma harmless_reset envelope n :
  discards envelope = false → rqe_operation envelope = "state.reset" → well_formed n →
  goes_on n (state_reset_response (C := C) (R := R) args envelope n).2.
Proof.
  unfold discards. intros Hd Hop Hn. rewrite Hop in Hd.
  unfold state_reset_response, with_payload. destruct (json_reset _) as [payload|e]; [|by apply advances_refl].
  cbn [orb andb String.eqb Ascii.eqb Bool.eqb] in Hd. rewrite orb_false_r in Hd.
  destruct (String.eqb (srp_scope payload) _); [|by apply advances_refl].
  cbn [andb negb] in Hd |- *. rewrite Hd. by apply advances_refl.
Qed.

Lemma harmless_sync id source sync_fn n :
  (∀ fs, plane_inv config fs → safe config sync_fn fs) → well_formed n →
  goes_on n (authority_sync_response (C := C) clock rng args identity id source sync_fn n).2.
Proof.
  intros Hs Hn. apply respond_goes_on; [|exact Hn]. unfold or_sync_failed. report.
  by apply advancing_files.
Qed.

Lemma harmless_connect : harmless (session_connect_response (C := C) clock rng args identity).
Proof.
  apply harmless_payload. intros payload envelope n Hn.
  assert (advancing config (on_files (ensure_identity_bound_state config identity) : M _)) as Hb.
  { apply advancing_files. intros fs Hi. exact (run_plane_advances config (λ _, HttpFailed "") (OpEnsureBound identity) fs Hi). }
  specialize (Hb n Hn). cbv zeta. fold config. 
  destruct (on_files (ensure_identity_bound_state config identity) n) as [[s|e] n1]; [|exact Hb].
  cbn [snd] in Hb. apply advances_inv in Hb as Hn1.
  destruct (PeerId_from_str _) as [peer|]; [|exact Hb].
  destruct (ProtocolId_new _) as [protocol|]; [|exact Hb].
  eapply advances_trans; [exact Hb|]. apply respond_goes_on; [|exact Hn1]. report.
Qed.

Lemma harmless_upgrade : harmless (session_upgrade_response (C := C) clock rng args).
Proof.
  apply harmless_payload. intros payload. apply harmless_session. intros id envelope n Hn. cbv zeta.
  pose proof (advancing_sync config n Hn) as Hs.
  destruct (sync_runtime_sessions _ n) as [[s|e] n1]; [|exact Hs]. cbn [snd] in Hs.
  destruct (find_first _ _); [|exact Hs].
  eapply advances_trans; [exact Hs|]. apply respond_goes_on; [report|by eapply advances_inv].
Qed.

Lemma route_operation_goes_on (web : string → HttpReply Body) envelope n :
  discards envelope = false → well_formed n →
  goes_on n (route_operation clock rng web args identity envelope n).2.
Proof.
  intros Hd Hn. unfold route_operation.
  destruct (find_first _ _) as [[name handler]|] eqn:Hf; [|by apply advances_refl].
  apply find_first_Some in Hf as [Hin Hop]. cbn [fst] in Hop. apply String.eqb_eq in Hop as ->.
  unfold operations in Hin. rewrite !elem_of_cons, elem_of_nil in Hin.
  pose proof advancing_status_result. pose proof advancing_health_result.
  pose proof advancing_show_result. pose proof advancing_verify_result.
  pose proof advancing_state_result.
  destruct_or! Hin; injection Hin as Hop ->.
  all: try (by apply harmless_export).
  all: try (by apply harmless_reset).
  all: try (by apply harmless_connect).
  all: try (by apply harmless_upgrade).
  all: try (apply harmless_respond; [solve [report; try assumption]|exact Hn]).
  all: eapply harmless_payload; [|exact Hn]; intros payload.
  all: try (apply harmless_session; intros id).
  all: try (apply harmless_respond; solve [report; assumption]).
  - intros e m. apply harmless_sync. intros fs Hi. by apply always_sync_snapshot.
  - intros e m. apply harmless_sync. intros fs Hi. by apply always_sync_origin.
  - intros e m. apply harmless_sync. intros fs Hi.
    apply always_bind; [intros; by apply always_sync_revocations|intros [s added]; by apply always_ret|
      exact Hi].
Qed.

(** ** The process, from its start

    Between two cycles and during them it answers requests, one at a time. *)
Definition answer (web : string → HttpReply Body) (requests : list HttpRequest)
    (n : Node C (World R)) : Node C (World R) :=
  foldl (λ n request, (route_control_request clock rng web args identity request n).2) n requests.

Lemma request_goes_on web request n :
  discards_state request = false → well_formed n →
  goes_on n (route_control_request clock rng web args identity request n).2.
Proof.
  unfold discards_state, route_control_request. intros Hd Hn.
  destruct (_ || _); [by apply advances_refl|].
  destruct (read_request_body request) as [body|[]]; [|by apply advances_refl].
  destruct (json_envelope body) as [envelope|]; [|by apply advances_refl].
  pose proof (route_operation_goes_on web envelope n Hd Hn) as Hadv.
  by destruct (route_operation _ _ _ _ _ _ n) as [[] n'].
Qed.

(** A step of the process: a cycle, which may fail, or a request. *)
Inductive process_step (n : Node C (World R)) : Node C (World R) → Prop :=
| step_cycle web trigger :
    process_step n (run_cycle clock rng args web identity trigger n).2
| step_request web request :
    discards_state request = false →
    process_step n (route_control_request clock rng web args identity request n).2.

Lemma answer_steps web requests n :
  any discards_state requests = false → rtc process_step n (answer web requests n).
Proof.
  revert n. induction requests as [|request requests IH]; intros n Hd; [done|].
  cbn [any] in Hd. apply orb_false_iff in Hd as [Hr Hd].
  exact (rtc_l _ _ _ _ (step_request n web request Hr) (IH _ Hd)).
Qed.

(** What happens between two cycles is requests that do not discard the
    state. *)
Definition meanwhile_answers (input : CycleInput (C := C) (Body := Body) (R := R)) : Prop :=
  ∃ web requests, any discards_state requests = false ∧ ci_meanwhile input = answer web requests.

(** The loop of the process takes such steps. *)
Lemma run_loop_steps inputs trigger monitor n :
  Forall meanwhile_answers inputs →
  rtc process_step n (run_loop clock rng args identity inputs trigger monitor n).2.
Proof.
  intros Hin. revert trigger monitor n.
  induction Hin as [|input inputs (web & requests & Hd & Hmean) _ IH]; intros trigger monitor n;
    cbn [run_loop]; [done|].
  pose proof (rtc_once _ _ (step_cycle n (ci_web input) trigger)) as Hstep.
  destruct (run_cycle _ _ _ _ _ _ n) as [[report|e] n1]; [|exact Hstep]. cbn [snd] in Hstep. cbv zeta.
  destruct (arg_one_shot args); [exact Hstep|].
  destruct (wait_for_next_cycle _ _ _ _) as [[[[t|[]] m]|]|]; try exact Hstep.
  rewrite Hmean. specialize (IH t m (answer web requests n1)).
  destruct (run_loop _ _ _ _ _ _ _ _) as [[]].
  by etrans; [exact Hstep|etrans; [apply answer_steps|]].
Qed.

Lemma process_step_goes_on n n' : process_step n n' → well_formed n → goes_on n n'.
Proof. intros [] Hn; [by apply advancing_cycle|by apply request_goes_on]. Qed.

Lemma process_steps_go_on n n' : rtc process_step n n' → well_formed n → goes_on n n'.
Proof.
  induction 1 as [n|n1 n2 n3 Hstep _ IH]; intros Hn; [by apply advances_refl|].
  pose proof (process_step_goes_on _ _ Hstep Hn) as Hadv.
  eapply advances_trans; [exact Hadv|]. by eapply IH, advances_inv.
Qed.

(** The transport has no session with the peer. *)
Definition no_session_with (p : PeerId) (w : World R) : Prop :=
  ∀ id r, runtime_sessions (adapter w) !! id = Some r → ss_peer (sr_snapshot r) ≠ p.

Lemma absent_no_session p w : absent p (lt_who w) ↔ no_session_with p w.
Proof.
  split.
  - intros Ha id r Hr. apply (Ha id (session_of (sr_snapshot r))). apply who_lookup. eauto.
  - intros Hn id x (r & Hr & <-)%who_lookup. by eapply Hn.
Qed.

(** C14.  A daemon that does not seed its state from a source runs any number
    of cycles, whatever the authority answers, whatever fails and whatever its
    clients ask between them, short of discarding the state: its transport
    stays well formed, a state file that loads keeps loading, and its state has
    gone on from the one at the start by operations of the state, so that no
    revocation is forgotten and neither the membership nor the relay map goes
    back; and a peer that its revocations name and that has no session at the
    start has none at the end. *)
Theorem process_never_rolls_back web metadata inputs (n : Node C (World R)) s
    (Hseeds : seeds args = false)
    (Hok : adapter_inv (adapter (node_transport n)))
    (Hinv : plane_inv (args_config args) (node_files n))
    (Hload : daemon_load (arg_state_path args) (node_files n) = Ok s)
    (Hmeanwhile : Forall meanwhile_answers inputs) :
  let '(_, _, n') := run clock rng args identity web metadata inputs n in
  adapter_inv (adapter (node_transport n')) ∧
  ∃ s', daemon_load (arg_state_path args) (node_files n') = Ok s' ∧ daemon_wf s' ∧
    rtc daemon_step s s' ∧ daemon_advances s s' ∧
    ∀ p, revokes s p → no_session_with p (node_transport n) → no_session_with p (node_transport n').
Proof.
  assert (goes_on n (run clock rng args identity web metadata inputs n).2) as (Hok' & [Hi' Hl] & Hout).
  { unfold run. pose proof (advancing_files config (W := World R)
      (_ ← initialize_state web args identity; ensure_identity_bound_state config identity)) as Hinit.
    specialize (Hinit ltac:(apply always_bind; [intros; by apply always_initialize|
      intros _ fs Hi; exact (run_plane_advances config web (OpEnsureBound identity) fs Hi)])
      n (conj Hok Hinv)).
    fold config. destruct (on_files _ n) as [[s0|e] n1]; [|exact Hinit]. cbn [snd] in Hinit. cbv zeta.
    eapply advances_trans; [exact Hinit|].
    apply process_steps_go_on; [by apply run_loop_steps|by eapply advances_inv]. }
  destruct (run _ _ _ _ _ _ _ n) as [[outcome printed] n']. cbn [snd] in Hok', Hi', Hl, Hout.
  split; [exact Hok'|]. destruct (Hl s Hload) as (s' & Hs' & Hst). exists s'.
  split_and!; [exact Hs'|by apply Hi'|exact Hst|by apply daemon_steps_advance|].
  intros p Hp. rewrite <-!absent_no_session. apply Hout. by exists s.
Qed.
End process.

(** ** A client for the examples

    Its requests are texts: an operation, a space and an argument. *)
Module DemoControl.
Import External.Demo DemoFiles.
Definition demo_envelope (body : bytes) : result string RequestEnvelope :=
  match split_once " "%char (String.string_of_list_byte body) with
  | Some (operation, argument) => Ok {|
      rqe_request_id := "7"; rqe_operation := operation;
      rqe_auth := {| rqa_kind := TestHarness |}; rqe_payload := JStr argument |}
  | None => Err "no operation"
  end.
Definition demo_argument {A : Type} (f : string → A) (payload : Json) : result string A :=
  match payload with JStr text => Ok (f text) | _ => Err "not a text" end.

#[export] Instance demo_daemon_json : DaemonJson := {|
  json_envelope := demo_envelope;
  json_diagnose := demo_argument (λ _, {| rdp_event_limit := None |});
  json_export := demo_argument (λ text, {| sep_output_path := text; sep_passphrase := "secret";
    sep_hostname := "host"; sep_environment := "test"; sep_overwrite := None |});
  json_reset := demo_argument (λ text, {| srp_scope := "network_state_only"; srp_confirmation := text |});
  json_sync_snapshot := demo_argument (λ text, {| asp_authority_snapshot := text |});
  json_sync_origin := demo_argument (λ text,
    {| aop_authority_origin := text; aop_authority_subject := None |});
  json_sync_revocations := demo_argument (λ text, {| arp_authority_origin := text |});
  json_connect := demo_argument (λ text, {| scp_peer_id := text; scp_protocol := "/app/1";
    scp_class := None; scp_path_preference := None |});
  json_close := demo_argument (λ text, {| scl_session_id := text; scl_reason := None |});
  json_upgrade := demo_argument (λ text, {| sgp_session_id := text |});
  json_reconcile := demo_argument (λ _, {| srq_session_id := None |});
|}.

(** Its bundles are copies of the state file. *)
#[export] Instance demo_backup_store : BackupStore Contents := λ now _ _ request fs,
  state ← file_read (ex_state_path request) fs;
  Ok ({| er_bundle_path := ex_output_path request; er_created_at_unix_secs := now;
         er_hostname := ex_hostname request; er_environment := ex_environment request;
         er_network := ex_network request; er_identity_sha256_hex := ""; er_state_sha256_hex := "";
         er_durable_state_present := true; er_durable_state_valid := true |},
      <[ex_output_path request := state]> (fs : gmap string Contents)).
#[export] Instance demo_backup_store_laws : BackupStoreLaws Contents.
Proof.
  intros now salt nonce request fs fs' report (state & _ & [= _ <-])%result_bind_Ok path Hp.
  by rewrite lookup_insert_ne.
Qed.

Definition demo_request (text : string) : HttpRequest := {|
  req_method := "POST"; req_url := "/rpc"; req_body_length := Some (str_len text);
  req_read := Ok (as_bytes text) |}.
End DemoControl.

Section witnesses.
Import External.Demo DemoFiles DemoControl.
#[local] Existing Instances demo_authority_json demo_session_json demo_relays.

Definition demo_down : string → HttpReply AuthorityBody := λ _, HttpFailed "down".

(** A cycle, a wait during which a client asks for a reset it does not confirm
    and for a reconciliation, and another cycle. *)
Definition demo_inputs : list (CycleInput (C := Contents) (Body := AuthorityBody) (R := Registry * nat)) :=
  let input requests := {|
    ci_web := demo_down; ci_metadata := λ _, None; ci_start := 0; ci_polls := demo_poll <$> seq 0 5;
    ci_meanwhile := answer demo_clock demo_rng (demo_args None None) demo_source demo_down requests |} in
  [input [demo_request "state.reset please"; demo_request "session.reconcile all"]; input []].

(** The state file of a first start. *)
Definition demo_own : DaemonState := self_identity_daemon_state "net" [RoleEdge; RoleObserver] demo_source.
Lemma demo_own_current : current demo_own.
Proof. split; [apply self_identity_wf|reflexivity]. Qed.

Lemma process_never_rolls_back_witness :
  let '(outcome, printed, n') := run demo_clock demo_rng (demo_args None None) demo_source demo_down
    (λ _, None) demo_inputs
    (mk_Node (daemon_save demo_own "state.json" ∅) (demo_carrying demo_negotiated)) in
  outcome = RunGoesOn ∧ length printed = 2 ∧
  ∃ s', daemon_load "state.json" (node_files n') = Ok s' ∧
    daemon_advances (with_sessions [] demo_own) s'.
Proof.
  destruct (save_current (C := Contents) demo_config demo_own ∅ demo_own_current) as [Hload Hc].
  assert (plane_inv demo_config (daemon_save demo_own "state.json" ∅ : Files Contents)) as Hinv.
  { intros s Hs. assert (Ok (with_sessions [] demo_own) = Ok s) as [= <-] by (rewrite <-Hload; exact Hs).
    exact Hc. }
  assert (adapter_inv (adapter (demo_carrying demo_negotiated))) as Hok
    by exact (demo_node_ok demo_negotiated eq_refl).
  pose proof (process_never_rolls_back demo_clock demo_rng (demo_args None None) demo_source demo_down
    (λ _, None) demo_inputs
    (mk_Node (daemon_save demo_own "state.json" ∅) (demo_carrying demo_negotiated))
    (with_sessions [] demo_own) eq_refl Hok Hinv Hload) as Hrun.
  assert (let '(outcome, printed, _) := run demo_clock demo_rng (demo_args None None) demo_source
      demo_down (λ _, None) demo_inputs
      (mk_Node (daemon_save demo_own "state.json" ∅) (demo_carrying demo_negotiated)) in
    match outcome with RunGoesOn => length printed | _ => 0 end = 2) as Hout by (vm_compute; reflexivity).
  destruct (run _ _ _ _ _ _ _ _) as [[outcome printed] n'].
  destruct outcome; try discriminate Hout. split; [reflexivity|]. split; [exact Hout|].
  destruct Hrun as (_ & s' & Hl & _ & _ & Hadv & _).
  - repeat constructor; eexists _, _; (split; [|reflexivity]); vm_compute; reflexivity.
  - exists s'. by split.
Defined.
End witnesses.
