(* ===== verification/QuipdCycle.v ===== *)
(** What a cycle of the daemon leaves on its transport: the sessions the policy
    of its state sanctions, whatever the authority answered and whatever the
    connection attempt did. *)
From stdpp Require Import countable option base list strings gmap pretty.
From Stdlib Require Import ZArith Lia Strings.Byte Strings.Ascii.
From S2P Require Import Prelude Text BTree F32 External Model Crypto Records Identity Netcheck Scheduler PeerStore Policy Routing RelayWire Relay Transport Membership Calendar Quic QuicProps Control ControlFetch Authority AuthorityProps Fabric FabricProps FabricPaths Durable FabricPlane FabricRuntime DurableProps FabricPathsProps FabricPlaneProps FabricRuntimeProps EndToEnd FabricQuic Quipd DaemonApi QuipdApi QuipdControl QuipdProps QuipdSafety.

(** ** States with the same policy

    States that differ in the fields the policy does not read. *)
Definition policy_fields (s : DaemonState) :=
  (ds_network s, ds_local_peer_id s, ds_membership s, ds_capability_grants s, ds_revocations s,
   ds_denied_peers s).
Definition same_policy (s s' : DaemonState) : Prop := policy_fields s = policy_fields s'.

#[export] Instance same_policy_equivalence : Equivalence same_policy.
Proof. split; unfold same_policy; [intros ?|intros ? ?|intros ? ? ?]; congruence. Qed.

#[export] Instance deny_reason_proper : Proper (same_policy ==> eq ==> eq) deny_reason.
Proof. intros s s' [= ? ? ? ? ? Hd] p ? <-. unfold deny_reason. by rewrite Hd. Qed.

#[export] Instance explain_policy_proper `{Blake3, Varint, Base32} :
  Proper (same_policy ==> eq ==> eq ==> eq) explain_policy.
Proof.
  intros s s' Hs p ? <- q ? <-. unfold explain_policy. rewrite Hs.
  injection Hs as Hn Hl Hm Hg Hr Hd.
  unfold explain_local_protocol_policy, grants_for_peer, is_capability_revoked.
  by rewrite Hn, Hl, Hg, Hr.
Qed.

Section cycle.
Context `{Blake3, Varint, Base32, Curves, ArtifactJson, JsonBytes SessionCredentialUnsigned}.
Context {C : Type} `{StateFormatLaws C} {Body : Type} `{ControlJson Body}.
Context {R : Type} `{RelayControl R} (clock : nat → Z) (rng : nat → nat → bytes).
Variable args : Args.

#[local] Instance cycle_transport : LifecycleTransport (World R) := daemon_transport_instance clock rng.
#[local] Instance cycle_view : LifecycleView (World R) := quic_view.
#[local] Instance cycle_laws : LifecycleLaws (World R) := quic_laws clock rng.
Local Notation M := (NodeM C (World R)).
Local Notation config := (args_config args).

(** ** The policy of the file *)

(** The file holds a state of this policy, if it loads. *)
Definition on_disk (fs : Files C) (s : DaemonState) : Prop :=
  ∀ s0 fs', ensure_state config fs = (Ok s0, fs') → fs' = fs ∧ same_policy s0 s.

Lemma loaded_on_disk s fs : daemon_load (cfg_state_path config) fs = Ok s → on_disk fs s.
Proof. intros Hl s0 fs'. rewrite (ensure_loads config fs s Hl). by intros [= <- <-]. Qed.

Lemma save_on_disk s fs : on_disk (daemon_save s (cfg_state_path config) fs) s.
Proof.
  destruct (decide (finite_losses s)) as [Hs|Hs].
  - intros s0 fs' He. by apply (loaded_on_disk _ _ (load_save s _ fs Hs)) in He.
  - destruct (load_infinite s (cfg_state_path config) fs Hs) as [e Hl]. intros s0 fs' He.
    assert (file_exists (cfg_state_path config) (daemon_save s (cfg_state_path config) fs) = true) as Hf
      by (unfold file_exists, daemon_save; by rewrite lookup_insert_eq).
    unfold ensure_state, plane_exists, plane_load, mbind, filem_bind, filem_read in He.
    rewrite Hf, Hl in He. discriminate He.
Qed.

Lemma ensure_on_disk fs s fs' : ensure_state config fs = (Ok s, fs') → on_disk fs' s.
Proof.
  intros He. unfold ensure_state, plane_exists, mbind, filem_bind, filem_read in He.
  destruct (file_exists (cfg_state_path config) fs) eqn:Hf.
  - unfold plane_load, filem_read in He. destruct (daemon_load _ fs) as [s0|e] eqn:Hl; [|done].
    injection He as <- <-. intros s1 fs1. rewrite (ensure_loads config _ _ Hl).
    by intros [= <- <-].
  - unfold plane_save, filem_write in He. injection He as <- <-. apply save_on_disk.
Qed.

Lemma on_disk_ensure fs s s' fs' :
  on_disk fs s → ensure_state config fs = (Ok s', fs') → fs' = fs ∧ same_policy s' s.
Proof. intros Hd He. by apply Hd in He. Qed.

(** ** The invariant of the end of a cycle *)

Section sanctioned.
Variables (state : DaemonState) (good : PeerId * option ProtocolId → Prop).
Hypothesis good_allowed : ∀ p q, allowed (explain_policy state p q) = true → good (p, Some q).

(** The file holds the policy and the transport only good sessions. *)
Definition sanctioned_node (n : Node C (World R)) : Prop :=
  lt_ok (node_transport n) ∧ on_disk (node_files n) state ∧
  ∀ id x, lt_who (node_transport n) !! id = Some x → good x.

Definition keeps_node {A : Type} (m : M A) : Prop := ∀ n, sanctioned_node n → sanctioned_node (m n).2.

Lemma keeps_node_bind {A B : Type} (m : M A) (f : A → M B) :
  keeps_node m → (∀ a, keeps_node (f a)) → keeps_node (m ≫= f).
Proof.
  intros Hm Hf n Hn. specialize (Hm n Hn). unfold mbind, node_bind.
  destruct (m n) as [[a|e] n']; [by apply Hf|done].
Qed.
Lemma keeps_node_ret {A : Type} (a : A) : keeps_node (mret a).
Proof. by intros n Hn. Qed.
Lemma keeps_node_lift {A : Type} (r : result DaemonStateError A) : keeps_node (node_lift r).
Proof. by intros n Hn. Qed.
Lemma keeps_node_throw {A : Type} e : keeps_node (node_throw e : M A).
Proof. by intros n Hn. Qed.
Lemma keeps_node_try {A : Type} (m : M A) : keeps_node m → keeps_node (node_try m).
Proof. intros Hm n Hn. specialize (Hm n Hn). unfold node_try. by destruct (m n). Qed.

Lemma keeps_node_quiet {A : Type} (m : Quic.M R A) : quiet m → keeps_node (on_transport m).
Proof.
  intros Hm n (Hok & Hdisk & Hwho). destruct (Hm _ Hok) as [Hok' Hw]. unfold on_transport.
  destruct (m (node_transport n)) as [r w]. cbn [fst snd] in *. split_and!; [done|done|].
  intros id x. cbn [node_transport]. rewrite Hw. apply Hwho.
Qed.

Lemma keeps_node_ensure : keeps_node (on_files (ensure_state config)).
Proof.
  intros n (Hok & Hdisk & Hwho). unfold on_files.
  destruct (ensure_state config (node_files n)) as [r fs] eqn:He.
  assert (fs = node_files n) as ->.
  { destruct r as [s|e]; [by apply Hdisk in He as [-> _]|by apply ensure_fails in He]. }
  by split_and!.
Qed.

Lemma keeps_node_save s : same_policy s state → keeps_node (save_sessions config s).
Proof.
  intros Hs. unfold save_sessions. apply keeps_node_bind; [apply keeps_node_quiet, lt_active_quiet|].
  intros l n (Hok & _ & Hwho). split_and!; [exact Hok| |exact Hwho].
  intros s0 fs' [-> Hs0]%(save_on_disk (with_sessions l s)). split; [done|]. rewrite Hs0. exact Hs.
Qed.

(** Connecting asks the policy of the file first. *)
Lemma keeps_node_realize p q c : keeps_node (realize_best_path config p q c).
Proof.
  intros n Hn. unfold realize_best_path. unfold mbind at 1, node_bind at 1.
  pose proof (keeps_node_ensure n Hn) as Hn1. unfold on_files in *.
  destruct Hn as (_ & Hdisk0 & _).
  destruct (ensure_state config (node_files n)) as [[s0|e] fs0] eqn:He; [|exact Hn1].
  destruct (Hdisk0 _ _ He) as [-> Hs].
  set (n1 := mk_Node (node_files n) (node_transport n)) in *. cbn [snd] in Hn1.
  destruct (allowed (explain_policy s0 p q)) eqn:Hpol; cbn [negb]; [|done].
  destruct (route_plan s0 p (Some q) c) as [route|e] eqn:Hroute; [|done].
  apply route_plan_of in Hroute as [Hp Hq].
  unfold mbind at 1, node_bind at 1. cbn [node_lift]. unfold node_lift.
  unfold mbind at 1, node_bind at 1, on_transport at 1.
  pose proof (lt_connect_who route (node_transport n1)) as Hc.
  destruct Hn1 as (Hok & Hdisk & Hwho). specialize (Hc Hok).
  destruct (lt_connect route (node_transport n1)) as [r w]. destruct Hc as [Hok' Hw].
  assert (sanctioned_node (mk_Node (node_files n1) w)) as Hn2.
  { split_and!; [exact Hok'|exact Hdisk|]. intros id x. cbn [node_transport].
    destruct Hw as [->|[id' ->]]; [apply Hwho|]. rewrite lookup_insert. case_decide.
    - intros [= <-]. rewrite Hp, Hq. apply good_allowed. by rewrite <-Hs.
    - apply Hwho. }
  destruct r as [s|e]; [|exact Hn2]. cbn [map_err].
  revert Hn2. generalize (mk_Node (node_files n1) w). apply keeps_node_bind.
  - apply keeps_node_save. rewrite <-Hs. done.
  - intros _. apply keeps_node_ret.
Qed.

Lemma keeps_node_record t x d : keeps_node (on_transport (record_runtime_event clock t x d)).
Proof. exact (keeps_node_quiet _ (lt_record_quiet t x d)). Qed.

(** Goes through an operation, step by step and branch by branch. *)
Ltac keeps_steps :=
  repeat first
    [ apply keeps_node_ret | apply keeps_node_lift | apply keeps_node_throw
    | apply keeps_node_realize | apply keeps_node_ensure | apply keeps_node_record
    | apply keeps_node_quiet, reads_quiet | apply keeps_node_quiet, quiet_clear_attempt
    | apply keeps_node_quiet, quiet_schedule | apply keeps_node_quiet, quiet_secs
    | apply keeps_node_try | apply keeps_node_bind; [|intros ?] | case_match ].

Lemma keeps_node_target s protocol : keeps_node (ensure_target_session clock rng args s protocol).
Proof. unfold ensure_target_session, attempt_target. keeps_steps. Qed.

Lemma keeps_node_connect s : keeps_node (connect_step clock rng args s).
Proof.
  unfold connect_step. case_match; [|apply keeps_node_ret].
  apply keeps_node_bind; [apply keeps_node_try, keeps_node_target|intros r]. keeps_steps.
Qed.
End sanctioned.

(** ** The cycle *)

Lemma bind_files_inv {A B : Type} (m : FileM C A) (f : A → M B) n b n' :
  (on_files m ≫= f) n = (Ok b, n') →
  ∃ a fs, m (node_files n) = (Ok a, fs) ∧ f a (mk_Node fs (node_transport n)) = (Ok b, n').
Proof. apply bind_files_Ok. Qed.

(** What the policy of [state] has nothing against, on a daemon with these
    arguments: only without reconciliation may a session lack a protocol. *)
Definition good_session (state : DaemonState) (x : PeerId * option ProtocolId) : Prop :=
  match x.2 with
  | Some q => allowed (explain_policy state x.1 q) = true
  | None => arg_disable_reconcile args = true
  end.

Lemma good_session_same s s' x : same_policy s s' → good_session s x → good_session s' x.
Proof. intros Hs. unfold good_session. destruct x.2; [by rewrite Hs|done]. Qed.

Notation good_node state := (sanctioned_node state (good_session state)).

Lemma good_node_same s s' n : same_policy s s' → good_node s n → good_node s' n.
Proof.
  intros Hs (Hok & Hdisk & Hwho). split_and!; [exact Hok| |].
  - intros s0 fs' [-> Hs0]%Hdisk. split; [done|]. by rewrite Hs0.
  - intros id x Hx. eapply good_session_same; [exact Hs|by eapply Hwho].
Qed.

(** A look at the sessions. *)
Lemma sync_effect n state n' :
  lt_ok (node_transport n) → sync_runtime_sessions config n = (Ok state, n') →
  (∃ s, ensure_state config (node_files n) = (Ok s, node_files n') ∧ same_policy s state) ∧
  lt_ok (node_transport n') ∧ lt_who (node_transport n') = lt_who (node_transport n) ∧
  (ds_active_sessions state = [] → lt_who (node_transport n') = ∅).
Proof.
  intros Hok (s & fs & He & Hrun)%bind_files_inv.
  apply bind_Ok in Hrun as (l & n1 & Hl & [= <- <-]).
  pose proof Hl as Hlist. apply quiet_Ok in Hl as (Hl & Hok' & Hw); [|apply lt_active_quiet|exact Hok].
  assert (node_files n1 = fs) as Hfs.
  { unfold on_transport in Hlist. destruct (lt_active_sessions _) as [[]]; by injection Hlist as _ <-. }
  split_and!; [|exact Hok'|exact Hw|].
  - exists s. by rewrite Hfs.
  - cbn [ds_active_sessions with_sessions]. intros ->. apply map_empty. intros id.
    rewrite Hw. cbn [node_transport] in Hl |- *.
    destruct (lt_who (node_transport n) !! id) as [x|] eqn:Hid; [|done].
    eapply (lt_active_lists (W:=World R)) in Hid as (x' & Hin & _); [|exact Hok|exact Hl].
    by apply elem_of_nil in Hin.
Qed.

Lemma reconcile_step_good n state report state' n' :
  lt_ok (node_transport n) → on_disk (node_files n) state →
  (∀ id p q, lt_who (node_transport n) !! id = Some (p, Some q) →
     arg_disable_reconcile args = true → allowed (explain_policy state p q) = true) →
  (ds_active_sessions state = [] → lt_who (node_transport n) = ∅) →
  reconcile_step clock rng args state n = (Ok (report, state'), n') →
  good_node state' n'.
Proof.
  intros Hok Hdisk Hpol Hnone. unfold reconcile_step.
  destruct (arg_disable_reconcile args) eqn:Hdis.
  - intros [= <- <- <-]. split_and!; [done|done|]. intros id [p [q|]] Hid; [by eapply Hpol|exact Hdis].
  - destruct (ds_active_sessions state) as [|a l0] eqn:Hl.
    + intros [= <- <- <-]. split_and!; [done|done|]. intros id x. by rewrite Hnone.
    + intros Hrun. apply bind_Ok in Hrun as (r & n1 & Hrec & Hrun).
      apply bind_files_inv in Hrun as (s & fs & He & [= <- <- <-]).
      apply reconcile_effect in Hrec as (s1 & fs1 & ss & l & He1 & _ & _ & _ & _ & Hwho & Hok1 & Hfs);
        [|exact Hok].
      destruct (on_disk_ensure _ _ _ _ Hdisk He1) as [-> Hs1].
      pose proof (save_on_disk (with_sessions l s1) (node_files n)) as Hsaved.
      rewrite <-Hfs in Hsaved.
      destruct (on_disk_ensure _ _ _ _ Hsaved He) as [-> Hs].
      split_and!; [exact Hok1|by eapply ensure_on_disk|].
      intros id [p q] Hid. destruct (Hwho id p q Hid) as (q' & -> & Ha). unfold good_session.
      cbn [fst snd]. by rewrite Hs.
Qed.

Lemma connect_step_good n state out status state' n' :
  good_node state n → connect_step clock rng args state n = (Ok (out, status, state'), n') →
  good_node state' n'.
Proof.
  intros Hn Hrun. pose proof (keeps_node_connect state (good_session state) (λ p q Ha, Ha) state n Hn) as Hk.
  rewrite Hrun in Hk. cbn [snd] in Hk. eapply good_node_same; [|exact Hk]. revert Hrun. unfold connect_step.
  destruct (arg_connect_protocol args) as [protocol|]; [|by intros [= <- <- <- <-]].
  intros (r & n1 & Ht & Hrun)%bind_Ok. 
  destruct r as [[]|e]; try by injection Hrun as <- <- <- <-.
  apply bind_files_inv in Hrun as (s & fs & He & [= <- <- <- <-]).
  assert (good_node state n1) as (_ & Hdisk & _).
  { pose proof (keeps_node_try _ _ _ (keeps_node_target state (good_session state) (λ p q Ha, Ha) state protocol) n Hn) as Hn1.
    by rewrite Ht in Hn1. }
  destruct (on_disk_ensure _ _ _ _ Hdisk He) as [_ Hs]. by symmetry.
Qed.

Lemma cycle_good (web : string → HttpReply Body) identity trigger
    (n n' : Node C (World R)) report :
  lt_ok (node_transport n) →
  (reevaluating_trigger trigger = true ∨ arg_disable_reconcile args = false) →
  run_cycle clock rng args web identity trigger n = (Ok report, n') →
  good_node (cy_state report) n'.
Proof.
  intros Hok Henforced Hrun.
  apply bind_files_inv in Hrun as ([[prep rep] s0] & fs1 & _ & Hrun).
  apply bind_Ok in Hrun as (s1 & n2 & Hsync1 & Hrun).
  apply sync_effect in Hsync1 as (_ & Hok2 & _); [|exact Hok].
  apply bind_Ok in Hrun as (rv & n3 & Hrv & Hrun).
  apply bind_Ok in Hrun as (s4 & n4 & Hsync2 & Hrun).
  apply bind_Ok in Hrun as ([rc s5] & n5 & Hrec & Hrun).
  apply bind_Ok in Hrun as ([[act st] s6] & n6 & Hcon & [= <- <-]). cbn [cy_state].
  eapply connect_step_good; [|exact Hcon].
  assert (lt_ok (node_transport n3) ∧ (reevaluating_trigger trigger = true →
    ∃ st, on_disk (node_files n3) st ∧
      ∀ id p q, lt_who (node_transport n3) !! id = Some (p, Some q) →
        allowed (explain_policy st p q) = true)) as [Hok3 Hpol].
  { destruct (reevaluating_trigger trigger); [|by injection Hrv as <- <-].
    apply bind_Ok in Hrv as (x & n3' & Hrv & [= <- <-]).
    apply reevaluation_enforces in Hrv as (s & He & Hok3 & Hp); [|exact Hok2].
    split; [exact Hok3|]. intros _. exists s. split; [by eapply ensure_on_disk|].
    intros id p q Hid. by apply (Hp id p q Hid). }
  apply sync_effect in Hsync2 as ((s & He & Hs) & Hok4 & Hw4 & Hnone); [|exact Hok3].
  eapply reconcile_step_good; [exact Hok4| | |exact Hnone|exact Hrec].
  - intros s' fs' [-> Hs']%(ensure_on_disk _ _ _ He). split; [done|]. by rewrite Hs'.
  - intros id p q Hid Hdis. destruct Henforced as [Htr|]; [|congruence].
    destruct (Hpol Htr) as (s' & Hdisk & Hp). rewrite Hw4 in Hid. rewrite <-Hs.
    destruct (on_disk_ensure _ _ _ _ Hdisk He) as [_ ->]. by eapply Hp.
Qed.

(** C16.  A cycle that succeeds, whatever the authority answered meanwhile,
    leaves only sessions that the policy of the state it reports allows, unless
    it neither reevaluates nor reconciles; without reconciliation, sessions
    without a negotiated protocol may remain.  The file, if it loads, holds a
    state of that policy; and it does load when the one at the start was well
    formed or missing. *)
Theorem cycle_enforces_policy (web : string → HttpReply Body) identity trigger
    (n n' : Node C (World R)) report
    (Hok : adapter_inv (adapter (node_transport n)))
    (Henforced : reevaluating_trigger trigger = true ∨ arg_disable_reconcile args = false)
    (Hrun : run_cycle clock rng args web identity trigger n = (Ok report, n')) :
  adapter_inv (adapter (node_transport n')) ∧
  (∀ s fs, ensure_state config (node_files n') = (Ok s, fs) →
     fs = node_files n' ∧ same_policy s (cy_state report)) ∧
  (plane_inv config (node_files n) → ∃ s, ensure_state config (node_files n') = (Ok s, node_files n') ∧
     same_policy s (cy_state report)) ∧
  ∀ id r, runtime_sessions (adapter (node_transport n')) !! id = Some r →
    match ss_protocol (sr_snapshot r) with
    | Some q => allowed (explain_policy (cy_state report) (ss_peer (sr_snapshot r)) q) = true
    | None => arg_disable_reconcile args = true
    end.
Proof.
  destruct (cycle_good _ _ _ _ _ _ Hok Henforced Hrun) as (Hok' & Hdisk & Hwho).
  split; [exact Hok'|]. split; [exact Hdisk|]. split.
  { intros Hi. destruct (cycle_prepares clock rng args identity _ _ _ _ _ Hok Hrun)
      as (x & fs & Hp & Hgoes).
    pose proof (always_prepare web args identity trigger _ Hi) as [Hi' _]. rewrite Hp in Hi'.
    destruct (Hgoes Hi') as [_ [s Hl]]. pose proof (ensure_loads config _ _ Hl) as He.
    destruct (Hdisk _ _ He) as [_ Hs]. by eexists. }
  intros id r Hr. apply (Hwho id (session_of (sr_snapshot r))). apply who_lookup. eauto.
Qed.
End cycle.

Section witnesses.
Import External.Demo DemoFiles.
#[local] Existing Instances demo_authority_json demo_session_json demo_relays.

(** A cycle after a network change closes the session of a peer the policy does
    not know. *)
Lemma cycle_enforces_policy_witness :
  ∃ report n', run_cycle demo_clock demo_rng (demo_args None None)
      (λ _ : string, HttpFailed "down" : HttpReply AuthorityBody) demo_source
      NetworkChangeRequested (demo_node demo_negotiated) = (Ok report, n') ∧
    rc_closed <$> cy_reconcile_report report = Some 1%Z ∧
    ∀ id r, runtime_sessions (adapter (node_transport n')) !! id = Some r →
      is_Some (ss_protocol (sr_snapshot r)).
Proof.
  destruct (succeeds_Ok (run_cycle demo_clock demo_rng (demo_args None None)
      (λ _ : string, HttpFailed "down" : HttpReply AuthorityBody) demo_source
      NetworkChangeRequested) (demo_node demo_negotiated)) as (report & n' & Hrun);
    [vm_compute; reflexivity|].
  destruct (cycle_enforces_policy demo_clock demo_rng (demo_args None None) _ demo_source
    NetworkChangeRequested _ n' report (demo_node_ok demo_negotiated eq_refl)
    (or_intror eq_refl) Hrun) as (_ & _ & _ & Hpol).
  exists report, n'. split; [exact Hrun|]. split.
  - assert (match (run_cycle demo_clock demo_rng (demo_args None None)
      (λ _ : string, HttpFailed "down" : HttpReply AuthorityBody) demo_source
      NetworkChangeRequested (demo_node demo_negotiated)).1 with
      Ok report => rc_closed <$> cy_reconcile_report report | Err _ => None end = Some 1%Z) as Hc
      by (vm_compute; reflexivity).
    rewrite Hrun in Hc. exact Hc.
  - intros id r Hr. specialize (Hpol id r Hr). destruct (ss_protocol (sr_snapshot r)); [by eexists|].
    discriminate Hpol.
Defined.
End witnesses.
