(* ===== verification/Unreadable.v ===== *)
(** A state file that does not load: every operation on it fails and leaves it
    as it is, and so does the daemon, which neither starts nor goes on. *)
From stdpp Require Import countable option base list strings gmap pretty.
From Stdlib Require Import ZArith Lia.
From S2P Require Import Prelude Text BTree F32 External Model Crypto Records Identity Netcheck Scheduler PeerStore Policy Routing RelayWire Relay Transport Membership Calendar Quic QuicProps Control ControlFetch Authority AuthorityProps Fabric FabricProps FabricPaths Durable Backup FabricPlane FabricRuntime DurableProps FabricPathsProps FabricPlaneProps FabricRuntimeProps EndToEnd FabricQuic Quipd DaemonApi QuipdApi QuipdControl QuipdProps QuipdSafety.

(** ** Operations on the file *)

Section refusing.
Context `{Blake3, Varint, Base32, Curves, ArtifactJson} {C : Type} `{StateFormat C}.
Context {Body : Type} `{ControlJson Body} (web : string → HttpReply Body).
Variable args : Args.
Let config : DaemonConfig := args_config args.

(** The file is there and does not load: it is cut short, of another schema, or
    not a state at all. *)
Definition unreadable (fs : Files C) : Prop :=
  file_exists (cfg_state_path config) fs = true ∧ ∃ e, daemon_load (cfg_state_path config) fs = Err e.

(** The operation fails on such files and leaves them alone. *)
Definition refuses {A : Type} (m : FileM C A) : Prop :=
  ∀ fs, unreadable fs → ∃ e, m fs = (Err e, fs).
(** The operation may also succeed, but leaves them alone. *)
Definition leaves {A : Type} (m : FileM C A) : Prop := ∀ fs, unreadable fs → (m fs).2 = fs.

Lemma refuses_bind {A B : Type} (m : FileM C A) (f : A → FileM C B) : refuses m → refuses (m ≫= f).
Proof. intros Hm fs Hfs. destruct (Hm fs Hfs) as [e He]. exists e. unfold mbind, filem_bind. by rewrite He. Qed.
Lemma refuses_after {A B : Type} (m : FileM C A) (f : A → FileM C B) :
  leaves m → (∀ a, refuses (f a)) → refuses (m ≫= f).
Proof.
  intros Hm Hf fs Hfs. specialize (Hm fs Hfs). unfold mbind, filem_bind.
  destruct (m fs) as [[a|e] fs']; cbn [snd] in Hm; subst fs'; [by apply Hf|by exists e].
Qed.
Lemma leaves_lift {A : Type} (r : result DaemonStateError A) : leaves (filem_lift r : FileM C A).
Proof. done. Qed.
Lemma leaves_read {A : Type} (r : Files C → result DaemonStateError A) : leaves (filem_read r).
Proof. done. Qed.
Lemma refuses_error {A : Type} e : refuses (filem_lift (Err e) : FileM C A).
Proof. intros fs _. by exists e. Qed.
Lemma refuses_load : refuses (plane_load config).
Proof. intros fs [_ [e He]]. exists e. unfold plane_load, filem_read. by rewrite He. Qed.
Lemma refuses_exists {A : Type} (m m' : FileM C A) :
  refuses m → refuses (exists_ ← plane_exists config; if (exists_ : bool) then m else m').
Proof.
  intros Hm fs Hfs. unfold plane_exists, mbind, filem_bind, filem_read. rewrite (proj1 Hfs). by apply Hm.
Qed.

Lemma refuses_ensure : refuses (ensure_state config).
Proof. apply refuses_exists, refuses_bind, refuses_load. Qed.
Lemma refuses_ensure_for k : refuses (ensure_state_for_local_identity config k).
Proof. apply refuses_exists, refuses_ensure. Qed.
Lemma refuses_refresh k : refuses (refresh_and_persist_for_local_identity config k).
Proof. apply refuses_bind, refuses_ensure_for. Qed.
Lemma refuses_reprobe why : refuses (reprobe_network_change config why).
Proof. apply refuses_bind, refuses_ensure. Qed.
Lemma refuses_sync_snapshot path : refuses (plane_sync_snapshot config path).
Proof.
  apply refuses_after; [apply leaves_read|]. intros snapshot.
  apply refuses_exists, refuses_bind, refuses_load.
Qed.
Lemma refuses_sync_origin origin subject : refuses (sync_authority_origin web config origin subject).
Proof.
  apply refuses_after; [apply leaves_lift|]. intros snapshot.
  apply refuses_after; [apply leaves_lift|]. intros relay_map.
  apply refuses_exists, refuses_bind, refuses_load.
Qed.
Lemma refuses_synced {A B : Type} (m : FileM C (A * B)) : refuses m → refuses (synced m).
Proof. apply refuses_bind. Qed.

#[local] Hint Resolve refuses_ensure refuses_refresh refuses_reprobe refuses_sync_snapshot
  refuses_sync_origin refuses_synced refuses_error : refuses_db.

(** Preparing a cycle, and a start without a source to seed the state from. *)
Lemma refuses_prepare k trigger : refuses (prepare_state_for_trigger web args k trigger).
Proof.
  unfold prepare_state_for_trigger, refresh_state.
  destruct trigger; repeat first [solve [auto with refuses_db] | apply refuses_bind | case_match].
Qed.
Lemma refuses_initialize k : seeds args = false → refuses (initialize_state web args k).
Proof.
  unfold seeds, initialize_state. intros Hs. apply refuses_bind.
  destruct (arg_authority_snapshot args), (arg_authority_origin args), (arg_sync args);
    try discriminate Hs; auto with refuses_db.
Qed.
End refusing.

(** ** The daemon *)

Section daemon.
Context `{Blake3, Varint, Base32, Curves, ArtifactJson, JsonBytes SessionCredentialUnsigned}.
Context {C : Type} `{StateFormat C} {Body : Type} `{ControlJson Body}.
Context {R : Type} `{RelayControl R} (clock : nat → Z) (rng : nat → nat → bytes).
Variable args : Args.
Variable identity : IdentityKeypair.

Lemma files_refuse {A B : Type} (m : FileM C A) (f : A → NodeM C (World R) B) n :
  refuses args m → unreadable args (node_files n) → ∃ e, (on_files m ≫= f) n = (Err e, n).
Proof.
  intros Hm Hn. destruct (Hm _ Hn) as [e He]. exists e. unfold mbind, node_bind, on_files.
  rewrite He. by destruct n.
Qed.

(** C31.  A daemon whose state file is there but does not load, be it cut short
    by a write that was broken off, of an older schema or no state at all, stops
    with an error: a start that does not seed the state from a source does so
    before the first cycle, and a running daemon at its next cycle, whatever
    triggers it and whatever the authority answers.  Files and transport stay
    as they were. *)
Theorem unreadable_state_stops web metadata inputs (n : Node C (World R))
    (Hfile : unreadable args (node_files n)) :
  (seeds args = false →
    ∃ e, run clock rng args identity web metadata inputs n = (RunFailed e, [], n)) ∧
  (∀ trigger, ∃ e, run_cycle clock rng args web identity trigger n = (Err e, n)) ∧
  (∀ input trigger monitor,
    ∃ e, run_loop clock rng args identity (input :: inputs) trigger monitor n = (RunFailed e, [], n)).
Proof.
  assert (∀ web trigger, ∃ e, run_cycle clock rng args web identity trigger n = (Err e, n)) as Hcycle.
  { intros w trigger. apply files_refuse; [apply refuses_prepare|exact Hfile]. }
  split_and!.
  - intros Hs. destruct (refuses_bind args _ (λ _, ensure_identity_bound_state (args_config args) identity)
      (refuses_initialize web args identity Hs) _ Hfile) as [e He].
    exists e. unfold run, on_files. rewrite He. by destruct n.
  - apply Hcycle.
  - intros input trigger monitor. destruct (Hcycle (ci_web input) trigger) as [e He]. exists e.
    cbn [run_loop]. by rewrite He.
Qed.
End daemon.

Section witnesses.
Import External.Demo DemoFiles.
#[local] Existing Instances demo_authority_json demo_session_json demo_relays.

(** A state file of an older schema. *)
Lemma unreadable_state_stops_witness :
  let fs : Files Contents := {[ "state.json" := inl (JObj [("schema_version", JNum 1)]) ]} in
  let n := mk_Node fs (demo_carrying demo_negotiated) in
  ∃ e, run demo_clock demo_rng (demo_args None None) demo_source demo_down (λ _, None) demo_inputs n =
    (RunFailed e, [], n).
Proof.
  intros fs n.
  apply (unreadable_state_stops demo_clock demo_rng (demo_args None None) demo_source demo_down
    (λ _, None) demo_inputs n); [|reflexivity].
  split; [reflexivity|eexists; reflexivity].
Defined.
End witnesses.
