(* ===== verification/QuipdControlProps.v ===== *)
(** What the control server promises its clients: how it answers every request
    and when it panics, what closing a session does, and that connecting asks
    the policy. *)
From stdpp Require Import countable option base list strings gmap pretty.
From Stdlib Require Import ZArith Lia Strings.Byte Strings.Ascii.
From S2P Require Import Prelude Text BTree F32 External Model Crypto Records Identity Netcheck Scheduler PeerStore Policy Routing RelayWire Relay Transport Membership Calendar Quic QuicProps Control ControlFetch Authority AuthorityProps Fabric FabricProps FabricPaths Durable Backup FabricPlane FabricRuntime DurableProps FabricPathsProps FabricPlaneProps FabricRuntimeProps EndToEnd FabricQuic Quipd DaemonApi QuipdApi QuipdControl QuipdProps QuipdCycle QuipdSafety.

(** ** Session identifiers *)

(** Only a string of 32 bytes that are not all characters panics. *)
Lemma parse_hex_panics s : parse_hex_session_id s = Panics → str_len s = 32%Z ∧ is_ascii s = false.
Proof.
  unfold parse_hex_session_id. destruct (decide _) as [|Hlen%dec_stable]; [done|]. intros Hp.
  split; [exact Hlen|]. destruct (is_ascii s) eqn:Hs; [|done].
  unfold str_len in Hlen. apply (parse_session_bytes_ascii s 0 16) in Hs; [|lia].
  by destruct (parse_session_bytes s 0 16) as [[]|].
Qed.

(** ** Answers *)

Section answers.
Context `{Blake3, Varint, Base32, Curves, ArtifactJson, JsonBytes SessionCredentialUnsigned}.
Context {C : Type} `{StateFormat C} `{BackupStore C} {Body : Type} `{ControlJson Body}.
Context `{DaemonJson}.
Context {R : Type} `{RelayControl R} (clock : nat → Z) (rng : nat → nat → bytes).
Variable web : string → HttpReply Body.
Variable args : Args.
Variable identity : IdentityKeypair.

(** The status of each error. *)
Definition code_status (code : ErrorCode) : Z :=
  response_status (envelope_error "" code "" None).

(** An answer to the request of this identifier. *)
Definition proper (id : string) (response : ResponseEnvelope) : Prop :=
  (∃ result, response = envelope_success id result) ∨
  (∃ code message details, response = envelope_error id code message details).

(** A handler that answers, but for the envelopes it panics on. *)
Definition answers (bad : RequestEnvelope → Prop) (h : Handler (C := C) (R := R)) : Prop :=
  ∀ envelope n,
    match h envelope n with
    | (Returns response, _) => proper (rqe_request_id envelope) response ∧ ¬ bad envelope
    | (Panics, n') => bad envelope ∧ n' = n
    end.

Definition panics (value : string) : Prop := parse_hex_session_id value = Panics.

Lemma proper_error id (error : DaemonStateError) : proper id (daemon_error_response id error).
Proof. right. unfold daemon_error_response. destruct (daemon_error_code error). by eexists _, _, _. Qed.

Lemma respond_proper id (m : NodeM C (World R) DaemonResult) n :
  ∃ response, (respond id m n).1 = Returns response ∧ proper id response.
Proof.
  unfold respond. destruct (m n) as [[result|error] n']; eexists; (split; [reflexivity|]).
  - left. by eexists.
  - apply proper_error.
Qed.

(** An operation that runs on another node than the handler was given. *)
Lemma respond_at (bad : Prop) id (m : NodeM C (World R) DaemonResult) n0 n :
  ¬ bad →
  match respond id m n with
  | (Returns response, _) => proper id response ∧ ¬ bad
  | (Panics, n') => bad ∧ n' = n0
  end.
Proof.
  intros Hb. destruct (respond_proper id m n) as (r & Hr & Hp).
  destruct (respond id m n) as [o n']. cbn [fst] in Hr. by subst o.
Qed.

Lemma answers_respond (m : RequestEnvelope → NodeM C (World R) DaemonResult) :
  answers (λ _, False) (λ envelope, respond (rqe_request_id envelope) (m envelope)).
Proof. intros envelope n. apply respond_at; intros []. Qed.

Ltac refused := split; [right; by eexists _, _, _|intros []].

Lemma answers_refuse code message details :
  answers (λ _, False) (λ envelope, refuse (rqe_request_id envelope) code message details).
Proof. intros envelope n. refused. Qed.

Lemma answers_payload {P : Type} (decode : Json → result string P) what
    (bad : P → RequestEnvelope → Prop) k :
  (∀ payload, answers (bad payload) (k payload)) →
  answers (λ envelope, ∃ payload, decode (rqe_payload envelope) = Ok payload ∧ bad payload envelope)
    (with_payload decode what k).
Proof.
  intros Hk envelope n. unfold with_payload. destruct (decode _) as [payload|e].
  - specialize (Hk payload envelope n). destruct (k payload envelope n) as [[response|] n'].
    + destruct Hk as [Hp Hb]. split; [exact Hp|]. by intros (? & [= <-] & ?).
    + destruct Hk as [Hb ->]. split; [|done]. by exists payload.
  - split; [right; by eexists _, _, _|]. by intros (? & ? & ?).
Qed.

Lemma answers_session value k :
  (∀ id, answers (λ _, False) (k id)) → answers (λ _, panics value) (with_session value k).
Proof.
  intros Hk envelope n. unfold with_session, panics.
  destruct (parse_hex_session_id value) as [[id|e]|] eqn:Hp.
  - specialize (Hk id envelope n). destruct (k id envelope n) as [[response|] n'].
    + split; [apply Hk|done].
    + by destruct Hk.
  - split; [right; by eexists _, _, _|done].
  - done.
Qed.

Lemma answers_ext (bad bad' : RequestEnvelope → Prop) h :
  (∀ envelope, bad envelope ↔ bad' envelope) → answers bad h → answers bad' h.
Proof.
  intros Hb Hh envelope n. specialize (Hh envelope n).
  destruct (h envelope n) as [[response|] n']; by rewrite <-Hb.
Qed.

(** The envelopes that panic the server. *)
Definition cuts_a_character (envelope : RequestEnvelope) : Prop :=
  (rqe_operation envelope = "session.close" ∧
   ∃ payload, json_close (rqe_payload envelope) = Ok payload ∧ panics (scl_session_id payload)) ∨
  (rqe_operation envelope = "session.upgrade" ∧
   ∃ payload, json_upgrade (rqe_payload envelope) = Ok payload ∧ panics (sgp_session_id payload)).

Definition known_operation (operation : string) : bool :=
  any (λ op, String.eqb op.1 operation) (operations (C := C) clock rng web args identity).

Lemma answers_calm {P : Type} (decode : Json → result string P) what k :
  (∀ payload, answers (λ _, False) (k payload)) → answers (λ _, False) (with_payload decode what k).
Proof.
  intros Hk. eapply answers_ext; [|apply (answers_payload decode what (λ _ _, False)), Hk].
  intros envelope. naive_solver.
Qed.

Lemma answers_reset : answers (λ _, False) (state_reset_response (C := C) (R := R) args).
Proof.
  apply answers_calm. intros payload envelope n.
  destruct (negb _); [apply answers_refuse|]. destruct (negb _); [apply answers_refuse|].
  apply (answers_respond (λ _, _)).
Qed.

Lemma answers_connect : answers (λ _, False) (session_connect_response (C := C) clock rng args identity).
Proof.
  apply answers_calm. intros payload envelope n. cbv zeta.
  destruct (on_files _ n) as [[s|e] n1]; [|split; [apply proper_error|intros []]].
  destruct (PeerId_from_str _); [|refused].
  destruct (ProtocolId_new _); [|refused].
  apply respond_at; intros [].
Qed.

Lemma answers_upgrade :
  answers (λ envelope, ∃ payload,
      json_upgrade (rqe_payload envelope) = Ok payload ∧ panics (sgp_session_id payload))
    (session_upgrade_response (C := C) clock rng args).
Proof.
  apply (answers_payload json_upgrade _ (λ payload _, panics (sgp_session_id payload))).
  intros payload. apply answers_session. intros id envelope n. cbv zeta.
  destruct (sync_runtime_sessions _ n) as [[s|e] n1]; [|split; [apply proper_error|intros []]].
  destruct (find_first _ _) as [prior|]; [|refused].
  apply respond_at; intros [].
Qed.

Lemma answers_close :
  answers (λ envelope, ∃ payload,
      json_close (rqe_payload envelope) = Ok payload ∧ panics (scl_session_id payload))
    (session_close_response (C := C) clock rng args).
Proof.
  apply (answers_payload json_close _ (λ payload _, panics (scl_session_id payload))).
  intros payload. apply answers_session. intros id envelope n. apply respond_at; intros [].
Qed.

Lemma answers_at (bad : RequestEnvelope → Prop) (bad' : RequestEnvelope → Prop) h envelope n :
  answers bad h → (bad envelope ↔ bad' envelope) →
  match h envelope n with
  | (Returns response, _) => proper (rqe_request_id envelope) response ∧ ¬ bad' envelope
  | (Panics, n') => bad' envelope ∧ n' = n
  end.
Proof.
  intros Hh Hb. specialize (Hh envelope n).
  destruct (h envelope n) as [[response|] n']; by rewrite <-Hb.
Qed.

(** Every operation answers, and only two of them ever panic. *)
Lemma route_answers : answers cuts_a_character (route_operation clock rng web args identity).
Proof.
  intros envelope n. unfold route_operation.
  destruct (find_first _ _) as [[name handler]|] eqn:Hf.
  2: { split; [right; by eexists _, _, _|]. apply find_first_None in Hf.
       intros [[Hop _]|[Hop _]]; rewrite Hop in Hf; discriminate Hf. }
  apply find_first_Some in Hf as [Hin Hop]. cbn [fst] in Hop. apply String.eqb_eq in Hop as Hop.
  revert Hin. unfold operations. rewrite !elem_of_cons, elem_of_nil. intros Hin.
  destruct_or! Hin; injection Hin as Hname ->; rewrite Hname in Hop; clear Hname name.
  all: first
    [ apply (answers_at (λ _, False));
        [|unfold cuts_a_character; rewrite <-Hop; naive_solver]
    | idtac ].
  all: first
    [ apply answers_connect | apply answers_reset | apply (answers_respond (λ _, _))
    | apply answers_calm; intros payload; apply (answers_respond (λ _, _))
    | apply answers_calm; intros payload envelope' n'; apply respond_at; intros []
    | idtac ].
  all: eapply answers_at; [first [apply answers_close | apply answers_upgrade]|];
    unfold cuts_a_character; rewrite <-Hop; naive_solver.
Qed.

(** The status of an answer is 200 exactly when it is ok. *)
Lemma code_status_error id code message details :
  response_status (envelope_error id code message details) = code_status code ∧
  (400 <= code_status code <= 503)%Z.
Proof. destruct code; (split; [reflexivity|cbv; by split]). Qed.

(** The envelope a request carries, if the server gets as far as reading it. *)
Definition decoded_request (request : HttpRequest) : option RequestEnvelope :=
  if negb (String.eqb (req_method request) "POST") || negb (String.eqb (req_url request) "/rpc")
  then None
  else
    match read_request_body request with
    | Ok body => match json_envelope body with Ok envelope => Some envelope | Err _ => None end
    | Err _ => None
    end.

(** C22.  A request that is not a POST of a readable envelope to /rpc is refused
    with 400, 404, 411 or 413 and touches nothing.  Any other request is
    answered under its own identifier, with status 200 and a result exactly
    when it succeeds and an error of the error's status otherwise, 404 and
    nothing touched for an unknown operation; the server panics, before it
    touches anything, exactly on a request to close or upgrade a session whose
    32 byte identifier has a character cut in two. *)
Theorem control_answers request (n : Node C (World R)) :
  match decoded_request request, route_control_request clock rng web args identity request n with
  | None, (r, n') => n' = n ∧ ∃ status code message,
      r = Returns (status, envelope_error "unknown" code message None) ∧
      status ∈ [400; 404; 411; 413]%Z
  | Some envelope, (Panics, n') =>
      cuts_a_character envelope ∧ n' = n ∧ ∃ value, str_len value = 32%Z ∧ is_ascii value = false
  | Some envelope, (Returns (status, response), n') =>
      ¬ cuts_a_character envelope ∧
      ((∃ result, response = envelope_success (rqe_request_id envelope) result ∧ status = 200%Z) ∨
       (∃ code message details,
          response = envelope_error (rqe_request_id envelope) code message details ∧
          status = code_status code ∧ (400 <= status <= 503)%Z)) ∧
      (known_operation (rqe_operation envelope) = false → status = 404%Z ∧ n' = n)
  end.
Proof.
  unfold decoded_request, route_control_request.
  destruct (_ || _); [split; [done|]; eexists _, _, _; split; [reflexivity|set_solver]|].
  destruct (read_request_body request) as [body|[status response]] eqn:Hbody.
  2: { split; [done|]. unfold read_request_body in Hbody.
       destruct (req_body_length request) as [limit|]; [destruct (_ <? _)%Z; [|destruct (req_read request)]|];
         try discriminate Hbody; injection Hbody as <- <-; eexists _, _, _;
         (split; [reflexivity|set_solver]). }
  destruct (json_envelope body) as [envelope|e];
    [|split; [done|]; eexists _, _, _; split; [reflexivity|set_solver]].
  pose proof (route_answers envelope n) as Hr.
  assert (known_operation (rqe_operation envelope) = false →
    route_operation clock rng web args identity envelope n = refuse (rqe_request_id envelope)
      UnsupportedOperation ("unsupported daemon operation " +:+ rqe_operation envelope) None n) as Hun.
  { intros Hu. unfold route_operation. by rewrite (proj2 (find_first_None _ _) Hu). }
  destruct (route_operation _ _ _ _ _ envelope n) as [[response|] n'].
  - destruct Hr as [Hp Hb]. split; [exact Hb|]. split.
    + destruct Hp as [(result & ->)|(code & message & details & ->)]; [left; by eexists|right].
      eexists _, _, _. split; [reflexivity|]. apply code_status_error.
    + intros [= -> ->]%Hun. by split.
  - destruct Hr as [Hb ->]. split; [exact Hb|]. split; [done|].
    destruct Hb as [(_ & payload & _ & Hp)|(_ & payload & _ & Hp)];
      eexists; by apply parse_hex_panics.
Qed.

(** Who asks makes no difference. *)
Lemma auth_ignored auth envelope (n : Node C (World R)) :
  route_operation clock rng web args identity {|
    rqe_request_id := rqe_request_id envelope; rqe_operation := rqe_operation envelope;
    rqe_auth := auth; rqe_payload := rqe_payload envelope |} n =
  route_operation clock rng web args identity envelope n.
Proof.
  unfold route_operation. cbn [rqe_operation rqe_request_id].
  destruct (find_first _ _) as [[name handler]|] eqn:Hf; [|reflexivity].
  apply find_first_Some in Hf as [Hin _]. revert Hin. unfold operations.
  rewrite !elem_of_cons, elem_of_nil. intros Hin. by destruct_or! Hin; injection Hin as _ ->.
Qed.
End answers.

(** ** Closing a session *)

Section close.
Context `{Blake3, Varint, Base32, Curves, ArtifactJson} {C : Type} `{StateFormatLaws C}.
Context {W : Type} `{LifecycleLaws W}.
Variable config : DaemonConfig.

Local Notation M := (NodeM C W).

(** A close that succeeds was of a session there is, and removes just it; a
    well-formed file then loads. *)
Lemma fabric_close_effect id (n n' : Node C W) :
  lt_ok (node_transport n) → plane_inv config (node_files n) → fabric_close_session config id n = (Ok (), n') →
  lt_ok (node_transport n') ∧ is_Some (lt_who (node_transport n) !! id) ∧
  lt_who (node_transport n') = delete id (lt_who (node_transport n)) ∧
  ∃ s, ensure_state config (node_files n') = (Ok s, node_files n').
Proof.
  intros Hok Hi Hrun. apply bind_files_Ok in Hrun as (state & fs & He & Hrun).
  apply bind_Ok in Hrun as (s & n1 & Hs & Hrun).
  apply bind_Ok in Hs as (o & n1' & Ho & Hs). injection Hs as Hs <-.
  assert ((∀ o, (lt_session_snapshot id (node_transport n)).1 = Ok o →
    session_of <$> o = lt_who (node_transport n) !! id ∧ ∀ s, o = Some s → ss_session_id s = id))
    as Hof by (intros o'; by apply lt_snapshot_of).
  apply quiet_Ok in Ho as (Ho & Hok1 & Hw1); [|apply lt_snapshot_quiet|exact Hok].
  apply Hof in Ho as [Hlook Hid]. destruct o as [s'|]; [|done]. injection Hs as ->.
  specialize (Hid s eq_refl). cbn [fmap option_fmap option_map] in Hlook.
  apply bind_Ok in Hrun as (o & n2 & Hup & Hrun).
  apply quiet_Ok in Hup as (_ & Hok2 & Hw2); [|apply lt_update_quiet|exact Hok1].
  apply bind_Ok in Hrun as ([] & n3 & Hclose & Hrun).
  destruct (triple_run _ _ _ _ _ _ (triple_close s (λ k, k = lt_who (node_transport n))) Hok2
    ltac:(by rewrite Hw2, Hw1) Hclose) as (Hok3 & _ & k0 & -> & Hw3).
  apply bind_Ok in Hrun as (l & n4 & Hl & Hrun).
  apply quiet_Ok in Hl as (_ & Hok4 & Hw4); [|apply lt_active_quiet|exact Hok3].
  injection Hrun as <-. cbn [node_transport node_files].
  split_and!; [exact Hok4|by rewrite <-Hlook|by rewrite Hw4, Hw3, Hid|].
  eexists. apply ensure_loads, load_save.
  pose proof (proj2 (ensure_state_held config _ Hi)) as Hheld. rewrite He in Hheld.
  exact (dw_finite _ (proj1 (proj1 (Hheld state eq_refl)))).
Qed.
End close.

Section sessions.
Context `{Blake3, Varint, Base32, Curves, ArtifactJson, JsonBytes SessionCredentialUnsigned}.
Context {C : Type} `{StateFormatLaws C} `{BackupStore C} {Body : Type} `{ControlJson Body}.
Context `{DaemonJson}.
Context {R : Type} `{RelayControl R} (clock : nat → Z) (rng : nat → nat → bytes).
Variable web : string → HttpReply Body.
Variable args : Args.
Variable identity : IdentityKeypair.

#[local] Instance request_transport : LifecycleTransport (World R) := quic_transport clock rng.
#[local] Instance request_view : LifecycleView (World R) := quic_view.
#[local] Instance request_laws : LifecycleLaws (World R) := quic_laws clock rng.
Local Notation M := (NodeM C (World R)).
Local Notation config := (args_config args).

(** The sessions of a node, by their peer and protocol. *)
Definition sessions (n : Node C (World R)) : Who := who (adapter (node_transport n)).

Lemma route_close envelope n :
  rqe_operation envelope = "session.close" →
  route_operation clock rng web args identity envelope n =
  session_close_response clock rng args envelope n.
Proof. intros Hop. unfold route_operation. by rewrite Hop. Qed.

Lemma route_connect envelope n :
  rqe_operation envelope = "session.connect" →
  route_operation clock rng web args identity envelope n =
  session_connect_response clock rng args identity envelope n.
Proof. intros Hop. unfold route_operation. by rewrite Hop. Qed.

(** The answer about a session there is not. *)
Definition stale (envelope : RequestEnvelope) (id : bytes) : ResponseEnvelope :=
  daemon_error_response (rqe_request_id envelope) (DsSessionNotFound (FabricRuntime.hex_session_id id)).

Lemma bind_Err {A B : Type} (m : M A) (f : A → M B) n e n' :
  m n = (Err e, n') → (m ≫= f) n = (Err e, n').
Proof. unfold mbind, node_bind. by intros ->. Qed.

Lemma bind_files_run {A B : Type} (m : FileM C A) (f : A → M B) n a fs :
  m (node_files n) = (Ok a, fs) → (on_files m ≫= f) n = f a (mk_Node fs (node_transport n)).
Proof. unfold mbind, node_bind, on_files. by intros ->. Qed.

Lemma close_unknown id s fs (n : Node C (World R)) :
  ensure_state config (node_files n) = (Ok s, fs) → sessions n !! id = None →
  fabric_close_session config id n =
    (Err (DsSessionNotFound (FabricRuntime.hex_session_id id)), mk_Node fs (node_transport n)).
Proof.
  intros He Hnone. unfold fabric_close_session. rewrite (bind_files_run _ _ _ _ _ He).
  apply bind_Err. unfold known_session, mbind, node_bind, on_transport.
  cbn [node_transport node_files lt_session_snapshot request_transport quic_transport].
  unfold session_snapshot, reading. cbn [map_err].
  unfold sessions, who in Hnone. rewrite lookup_fmap in Hnone. apply fmap_None in Hnone.
  by rewrite Hnone.
Qed.

Lemma close_stale envelope payload id s fs (n : Node C (World R)) :
  rqe_operation envelope = "session.close" → json_close (rqe_payload envelope) = Ok payload →
  parse_hex_session_id (scl_session_id payload) = Returns (Ok id) →
  ensure_state config (node_files n) = (Ok s, fs) → sessions n !! id = None →
  route_operation clock rng web args identity envelope n =
    (Returns (stale envelope id), mk_Node fs (node_transport n)).
Proof.
  intros Hop Hpay Hid He Hnone. rewrite (route_close _ _ Hop).
  unfold session_close_response, with_payload, with_session. rewrite Hpay, Hid. unfold respond.
  erewrite bind_Err; [reflexivity|]. by eapply close_unknown.
Qed.

Lemma respond_success id result (m : M DaemonResult) n n' :
  respond id m n = (Returns (envelope_success id result), n') → m n = (Ok result, n').
Proof.
  unfold respond. destruct (m n) as [[r|e] n1]; [by intros [= -> ->]|].
  unfold daemon_error_response. by destruct (daemon_error_code e).
Qed.

(** On a well-formed file, closing a session the daemon does not have is refused as a stale
    reference, 409, and leaves the transport alone.  A close that succeeds was
    of a session there was, removes it and no other, and names it; closing it
    again is a stale reference. *)
Lemma close_request envelope payload id (n : Node C (World R))
    (Hok : adapter_inv (adapter (node_transport n)))
    (Hinv : plane_inv config (node_files n))
    (Hop : rqe_operation envelope = "session.close")
    (Hpayload : json_close (rqe_payload envelope) = Ok payload)
    (Hid : parse_hex_session_id (scl_session_id payload) = Returns (Ok id)) :
  let close := route_operation clock rng web args identity envelope in
  response_status (stale envelope id) = 409%Z ∧
  (∀ s fs, ensure_state config (node_files n) = (Ok s, fs) → sessions n !! id = None →
     close n = (Returns (stale envelope id), mk_Node fs (node_transport n))) ∧
  ∀ result n', close n = (Returns (envelope_success (rqe_request_id envelope) result), n') →
    is_Some (sessions n !! id) ∧ sessions n' = delete id (sessions n) ∧
    adapter_inv (adapter (node_transport n')) ∧
    (∃ closed, result = ResClose closed ∧ slr_closed_session_id closed = scl_session_id payload) ∧
    close n' = (Returns (stale envelope id), n').
Proof.
  cbv zeta. split; [reflexivity|].
  split; [intros s fs He Hnone; by eapply close_stale|].
  intros result n' Hrun. pose proof Hrun as Hclose. rewrite (route_close _ _ Hop) in Hclose.
  unfold session_close_response, with_payload, with_session in Hclose. rewrite Hpayload, Hid in Hclose.
  apply respond_success in Hclose. apply bind_Ok in Hclose as ([] & n1 & Hclose & Hrest).
  assert (n' = n1 ∧ ∃ closed, result = ResClose closed ∧
    slr_closed_session_id closed = scl_session_id payload) as [-> Hres].
  { apply bind_Ok in Hrest as (terminal & n2 & Ht & [= <- <-]). split; [|by eexists].
    unfold try_transport in Ht. cbn in Ht. injection Ht as _ <-. by destruct n1. }
  assert (lt_ok (node_transport n)) as Hlt by exact Hok.
  destruct (fabric_close_effect config id n n1 Hlt Hinv Hclose) as (Hok1 & Hsome & Hw & s & He).
  split; [exact Hsome|]. split; [exact Hw|]. split; [exact Hok1|]. split; [exact Hres|].
  rewrite (close_stale envelope payload id s (node_files n1) n1 Hop Hpayload Hid He); [by destruct n1|].
  unfold sessions. change (who (adapter (node_transport n1))) with (lt_who (node_transport n1)).
  rewrite Hw. apply lookup_delete_eq.
Qed.

(** ** Connecting *)

(** The file of an identity-bound state. *)
Lemma bound_on_disk fs s fs' :
  ensure_identity_bound_state config identity fs = (Ok s, fs') →
  (∃ s1, ensure_state config fs' = (Ok s1, fs') ∧ same_policy s1 s) ∧
  ds_local_peer_id s = peer_id identity.
Proof.
  unfold ensure_identity_bound_state. unfold mbind at 1, filem_bind at 1.
  destruct (ensure_state_for_local_identity config identity fs) as [[s0|e] fs0] eqn:He; [|done].
  cbv zeta. destruct (bool_decide (ds_local_peer_id s0 = _)) eqn:Hl; [|done].
  destruct (bool_decide (mc_subject_peer_id _ = _)); [|done]. cbn [negb].
  intros Hr. injection Hr as -> ->. split; [|by apply bool_decide_eq_true in Hl].
  assert (on_disk args fs' s ∧ ∃ s1, daemon_load (cfg_state_path config) fs' = Ok s1)
    as [Hdisk [s1 Hload]].
  2: { pose proof (ensure_loads config _ _ Hload) as He1. apply Hdisk in He1 as He2.
       eexists. split; [exact He1|apply He2]. }
  unfold ensure_state_for_local_identity, plane_exists, mbind, filem_bind, filem_read in He.
  destruct (file_exists _ fs).
  { split; [by eapply ensure_on_disk|by eapply ensure_saved]. }
  unfold plane_save, filem_write in He. injection He as <- <-. split; [apply save_on_disk|].
  eexists. apply load_save. rewrite rebuild_id by apply self_identity_wf. apply dw_finite, self_identity_wf.
Qed.

(** What a connection attempt does to the sessions, given the state of the file. *)
Lemma realize_effect p q c s fs (n : Node C (World R)) :
  adapter_inv (adapter (node_transport n)) → ensure_state config (node_files n) = (Ok s, fs) →
  let '(r, n') := realize_best_path config p q c n in
  adapter_inv (adapter (node_transport n')) ∧
  if allowed (explain_policy s p q)
  then sessions n' = sessions n ∨ ∃ id, sessions n' = <[id := (p, Some q)]> (sessions n)
  else r = Err (DsPolicyDenied (reason (explain_policy s p q))) ∧ sessions n' = sessions n.
Proof.
  intros Hok He. unfold realize_best_path. rewrite (bind_files_run _ _ _ _ _ He). cbv zeta.
  destruct (allowed (explain_policy s p q)) eqn:Hpol; cbn [negb]; [|by split].
  destruct (route_plan s p (Some q) c) as [route|e] eqn:Hroute; [|by split; [|left]].
  apply route_plan_of in Hroute as [Hp Hq].
  assert (lt_ok (node_transport n)) as Hlt by exact Hok.
  pose proof (lt_connect_who route (node_transport n) Hlt) as Hc. rewrite Hp, Hq in Hc.
  unfold mbind at 1, node_bind at 1, node_lift. cbn [map_err].
  unfold mbind at 1, node_bind at 1, on_transport at 1. cbn [node_transport node_files].
  destruct (lt_connect route (node_transport n)) as [[session|e] w]; exact Hc.
Qed.

(** A state of another identity does not bind. *)
Lemma other_identity_refused fs s fs' :
  ensure_state_for_local_identity config identity fs = (Ok s, fs') →
  ds_local_peer_id s ≠ peer_id identity →
  ∃ reason, ensure_identity_bound_state config identity fs = (Err (DsInvalidSession reason), fs').
Proof.
  intros He Hne. unfold ensure_identity_bound_state, mbind, filem_bind. rewrite He. cbv zeta.
  rewrite bool_decide_false by done. by eexists.
Qed.

(** C23.  What a request to connect does and how it is answered.  A payload
    that does not decode, a peer or a protocol that does not parse: 400, and no
    session changes.  A state file that cannot be read or belongs to another
    identity: the answer to its error, which for another identity is 500, and no
    session changes.  A protocol that the policy of the file does not allow
    towards the peer: 403, and no session changes.  Otherwise it adds or
    replaces at most one session, for the peer and the protocol it names, and is
    answered with its success or with the error of the attempt. *)
Theorem connect_request envelope (n : Node C (World R))
    (Hok : adapter_inv (adapter (node_transport n)))
    (Hop : rqe_operation envelope = "session.connect") :
  let id := rqe_request_id envelope in
  let '(r, n') := route_operation clock rng web args identity envelope n in
  adapter_inv (adapter (node_transport n')) ∧
  ∃ response, r = Returns response ∧
  match json_connect (rqe_payload envelope) with
  | Err _ => response_status response = 400%Z ∧ n' = n
  | Ok payload =>
      match (ensure_identity_bound_state config identity (node_files n)).1,
            PeerId_from_str (scp_peer_id payload), ProtocolId_new (scp_protocol payload) with
      | Err e, _, _ => response = daemon_error_response id e ∧ sessions n' = sessions n ∧
          ∀ s fs, ensure_state_for_local_identity config identity (node_files n) = (Ok s, fs) →
            ds_local_peer_id s ≠ peer_id identity → response_status response = 500%Z
      | Ok _, Err _, _ | Ok _, _, Err _ => response_status response = 400%Z ∧ sessions n' = sessions n
      | Ok s, Ok peer, Ok protocol => ds_local_peer_id s = peer_id identity ∧
          if allowed (explain_policy s peer protocol) then
            (sessions n' = sessions n ∨ ∃ id, sessions n' = <[id := (peer, Some protocol)]> (sessions n)) ∧
            ((∃ session, response = envelope_success id (ResConnect session)) ∨
             (∃ e, response = daemon_error_response id e))
          else response_status response = 403%Z ∧ sessions n' = sessions n
      end
  end.
Proof.
  cbv zeta. rewrite (route_connect _ _ Hop). unfold session_connect_response, with_payload.
  destruct (json_connect (rqe_payload envelope)) as [payload|e].
  2: { split; [exact Hok|]. by eexists. }
  cbv zeta. unfold on_files. fold config.
  pose proof (λ s fs', other_identity_refused (node_files n) s fs') as Hother.
  destruct (ensure_identity_bound_state config identity (node_files n)) as [[s|e] fs] eqn:Hbound.
  2: { split; [exact Hok|]. eexists. split; [reflexivity|]. split; [done|]. split; [done|].
       intros s fs' He Hne. by destruct (Hother s fs' He Hne) as [why [= -> _]]. }
  clear Hother. cbn [fst].
  destruct (PeerId_from_str (scp_peer_id payload)) as [peer|e]; [|split; [exact Hok|]; by eexists].
  destruct (ProtocolId_new (scp_protocol payload)) as [protocol|e]; [|split; [exact Hok|]; by eexists].
  destruct (bound_on_disk _ _ _ Hbound) as [(s1 & He & Hs1) Hlocal].
  set (class := default _ _).
  pose proof (realize_effect peer protocol class s1 fs (mk_Node fs (node_transport n)) Hok He) as Hreal.
  assert (explain_policy s1 peer protocol = explain_policy s peer protocol) as Heq by (by rewrite Hs1).
  rewrite Heq in Hreal. unfold respond, mbind at 1, node_bind at 1.
  destruct (realize_best_path config peer protocol class _) as [[session|e] n'];
    destruct Hreal as [Hok' Hpol]; cbn [fst snd]; (split; [exact Hok'|]);
    eexists; (split; [reflexivity|]); (split; [exact Hlocal|]);
    destruct (allowed (explain_policy s peer protocol)).
  - split; [exact Hpol|]. left. by eexists.
  - by destruct Hpol.
  - split; [exact Hpol|]. right. by eexists.
  - by destruct Hpol as [[= ->] Hsame].
Qed.
End sessions.

Section witnesses.
Import External.Demo DemoFiles DemoControl.
#[local] Existing Instances demo_authority_json demo_session_json demo_relays.

Definition demo_ask (operation argument : string) : RequestEnvelope := {|
  rqe_request_id := "7"; rqe_operation := operation; rqe_auth := {| rqa_kind := TestHarness |};
  rqe_payload := JStr argument |}.
Definition demo_answer (envelope : RequestEnvelope) (n : Node Contents (World (Registry * nat))) :=
  route_operation demo_clock demo_rng demo_down (demo_args None None) demo_source envelope n.

(** An identifier with a character of two bytes at the place of its second
    digit. *)
Definition demo_cut_id : string :=
  String "a" (String (ascii_of_N 195) (String (ascii_of_N 169) "00000000000000000000000000000")).
Example close_panics n :
  (demo_answer (demo_ask "session.close" demo_cut_id) n).1 = Panics.
Proof. reflexivity. Qed.

(** The demo session is closed, and then there is none. *)
Lemma close_request_witness :
  ∃ result n', demo_answer (demo_ask "session.close" (hex_string demo_id)) (demo_node demo_negotiated) =
      (Returns (envelope_success "7" result), n') ∧
    demo_answer (demo_ask "session.close" (hex_string demo_id)) n' =
      (Returns (stale (demo_ask "session.close" (hex_string demo_id)) demo_id), n').
Proof.
  destruct (demo_answer (demo_ask "session.close" (hex_string demo_id)) (demo_node demo_negotiated))
    as [[response|] n'] eqn:Hrun.
  2: { assert (match (demo_answer (demo_ask "session.close" (hex_string demo_id))
         (demo_node demo_negotiated)).1 with Panics => true | _ => false end = false) as Hp
         by (vm_compute; reflexivity). rewrite Hrun in Hp. discriminate Hp. }
  assert (match (demo_answer (demo_ask "session.close" (hex_string demo_id))
    (demo_node demo_negotiated)).1 with Returns r => (rsp_ok r, rsp_request_id r, rsp_error r)
    | Panics => (false, "", None) end = (true, "7", None)) as Hr by (vm_compute; reflexivity).
  assert (match (demo_answer (demo_ask "session.close" (hex_string demo_id))
    (demo_node demo_negotiated)).1 with Returns r => bool_decide (is_Some (rsp_result r))
    | Panics => false end = true) as Hres by (vm_compute; reflexivity).
  rewrite Hrun in Hr, Hres. cbn [fst] in Hr, Hres. destruct response as [ok id [result|] error];
    [|discriminate Hres]. cbn [rsp_ok rsp_request_id rsp_error] in Hr. injection Hr as -> -> ->.
  exists result, n'. split; [reflexivity|].
  assert (json_close (JStr (hex_string demo_id)) =
    Ok {| scl_session_id := hex_string demo_id; scl_reason := None |}) as Hpay by reflexivity.
  assert (plane_inv demo_config (node_files (demo_node demo_negotiated))) as Hinv.
  { destruct demo_file as (s & s1 & Hb & Hi & _). unfold demo_node. rewrite Hb. exact Hi. }
  destruct (close_request demo_clock demo_rng demo_down (demo_args None None) demo_source
    (demo_ask "session.close" (hex_string demo_id))
    {| scl_session_id := hex_string demo_id; scl_reason := None |} demo_id (demo_node demo_negotiated)
    (demo_node_ok demo_negotiated eq_refl) Hinv eq_refl Hpay ltac:(vm_compute; reflexivity))
    as (_ & _ & Hclose).
  by destruct (Hclose result n' Hrun) as (_ & _ & _ & _ & Hagain).
Defined.

(** The policy of a fresh file has no grant: the connection is refused. *)
Lemma connect_request_witness :
  let n := mk_Node (daemon_save demo_own "state.json" ∅) (demo_carrying demo_negotiated) in
  let '(r, n') := demo_answer (demo_ask "session.connect" (PeerId_to_text demo_target)) n in
  sessions n' = sessions n ∧ ∃ response, r = Returns response ∧ response_status response = 403%Z.
Proof.
  assert (adapter_inv (adapter (demo_carrying demo_negotiated))) as Hok
    by exact (demo_node_ok demo_negotiated eq_refl).
  assert (json_connect (JStr (PeerId_to_text demo_target)) = Ok {|
    scp_peer_id := PeerId_to_text demo_target; scp_protocol := "/app/1"; scp_class := None;
    scp_path_preference := None |}) as Hpay by reflexivity.
  pose proof (connect_request demo_clock demo_rng demo_down (demo_args None None) demo_source
    (demo_ask "session.connect" (PeerId_to_text demo_target))
    (mk_Node (daemon_save demo_own "state.json" ∅) (demo_carrying demo_negotiated)) Hok eq_refl) as Hcon.
  change (json_connect (rqe_payload _)) with (json_connect (JStr (PeerId_to_text demo_target))) in Hcon.
  rewrite Hpay in Hcon. cbv zeta in Hcon. cbn [scp_peer_id scp_protocol node_files] in Hcon.
  assert (match (ensure_identity_bound_state (args_config (demo_args None None)) demo_source
      (daemon_save demo_own "state.json" ∅ : Files Contents)).1 with
    | Ok s => allowed (explain_policy s demo_target (mk_ProtocolId "/app/1")) | Err _ => true end = false)
    as Hden by (vm_compute; reflexivity).
  destruct (ensure_identity_bound_state (args_config (demo_args None None)) demo_source
    (daemon_save demo_own "state.json" ∅)) as [[s|e] fs] eqn:Hbound; [|discriminate Hden].
  cbv zeta. unfold demo_answer. cbn [fst] in Hden, Hcon. cbv zeta in Hcon.
  rewrite peer_id_text_roundtrip in Hcon.
  assert (ProtocolId_new "/app/1" = Ok (mk_ProtocolId "/app/1")) as Hproto by reflexivity.
  rewrite Hproto, Hden in Hcon.
  destruct (route_operation _ _ _ _ _ _ _) as [r n'].
  destruct Hcon as (_ & response & Hr & _ & Hstatus & Hsame). split; [exact Hsame|].
  exact (ex_intro _ response (conj Hr Hstatus)).
Defined.
End witnesses.
