(* ===== verification/QuipdFiles.v ===== *)
(** cmd/quipd: what the daemon writes: its state file, and a bundle where a
    client asks for one; every other file stays as it is, whatever the daemon
    does and whatever it is asked. *)
From stdpp Require Import countable option base relations list strings gmap pretty.
From Stdlib Require Import ZArith Lia Strings.Byte Strings.Ascii.
From S2P Require Import Prelude Text BTree F32 External Model Crypto Records Identity Netcheck Scheduler PeerStore Policy Routing RelayWire Relay Transport Membership Calendar Quic QuicProps Control ControlFetch Fabric FabricPaths Durable Backup FabricPlane FabricRuntime FabricQuic Quipd DaemonApi QuipdApi QuipdControl QuipdServer QuipdProps QuipdSafety QuipdControlProps.

(** ** Operations that leave a file alone *)

Section kept.
Context `{Blake3, Varint, Base32, Curves, ArtifactJson} {C : Type} `{StateFormat C}.
Context {Body : Type} `{ControlJson Body}.
Context {W : Type} `{LifecycleTransport W}.
Variable web : string → HttpReply Body.
Variable args : Args.
Variable path : string.
Hypothesis not_state : path ≠ arg_state_path args.

Let config : DaemonConfig := args_config args.
Local Notation F := (FileM C).
Local Notation M := (NodeM C W).

Definition at_path (fs : Files C) : option C := (fs : gmap string C) !! path.
Definition spared_file {A : Type} (m : F A) : Prop := ∀ fs, at_path (m fs).2 = at_path fs.
Definition kept {A : Type} (m : M A) : Prop :=
  ∀ n, at_path (node_files (m n).2) = at_path (node_files n).

Lemma spared_ret {A : Type} (a : A) : spared_file (mret a).
Proof. done. Qed.
Lemma spared_lift {A : Type} (r : result DaemonStateError A) : spared_file (filem_lift r).
Proof. done. Qed.
Lemma spared_read {A : Type} (r : Files C → result DaemonStateError A) : spared_file (filem_read r).
Proof. done. Qed.
Lemma spared_save s : spared_file (plane_save config s).
Proof.
  intros fs. unfold at_path, plane_save, filem_write, daemon_save. cbn [snd].
  rewrite lookup_insert_ne; [done|exact (not_eq_sym not_state)].
Qed.
Lemma spared_delete : spared_file (filem_write (delete (cfg_state_path config) : Files C → Files C)).
Proof.
  intros fs. unfold at_path, filem_write. cbn [snd].
  rewrite lookup_delete_ne; [done|exact (not_eq_sym not_state)].
Qed.
Lemma spared_bind {A B : Type} (m : F A) (f : A → F B) :
  spared_file m → (∀ a, spared_file (f a)) → spared_file (m ≫= f).
Proof.
  intros Hm Hf fs. specialize (Hm fs). unfold mbind, filem_bind.
  destruct (m fs) as [[a|e] fs']; [|exact Hm]. cbn [snd] in Hm. rewrite <-Hm. apply Hf.
Qed.

Lemma kept_ret {A : Type} (a : A) : kept (mret a).
Proof. done. Qed.
Lemma kept_lift {A : Type} (r : result DaemonStateError A) : kept (node_lift r).
Proof. done. Qed.
Lemma kept_throw {A : Type} e : kept (node_throw e : M A).
Proof. done. Qed.
Lemma kept_files {A : Type} (m : F A) : spared_file m → kept (on_files m).
Proof. intros Hm n. specialize (Hm (node_files n)). unfold on_files. by destruct (m (node_files n)). Qed.
Lemma kept_transport {A : Type} (m : TransportM W A) : kept (on_transport m).
Proof. intros n. unfold on_transport. by destruct (m (node_transport n)). Qed.
Lemma kept_try_transport {A : Type} (m : TransportM W A) : kept (try_transport m).
Proof. intros n. unfold try_transport. by destruct (m (node_transport n)). Qed.
Lemma kept_try {A : Type} (m : M A) : kept m → kept (node_try m).
Proof. intros Hm n. specialize (Hm n). unfold node_try. by destruct (m n). Qed.
Lemma kept_bind {A B : Type} (m : M A) (f : A → M B) :
  kept m → (∀ a, kept (f a)) → kept (m ≫= f).
Proof.
  intros Hm Hf n. specialize (Hm n). unfold mbind, node_bind.
  destruct (m n) as [[a|e] n']; [|exact Hm]. cbn [snd] in Hm. rewrite <-Hm. apply Hf.
Qed.
Lemma kept_for {A B : Type} (l : list A) (body : A → B → M B) b :
  (∀ a b, kept (body a b)) → kept (node_for l body b).
Proof.
  intros Hbody. revert b. induction l as [|a l IH]; intros b; cbn [node_for]; [done|].
  by apply kept_bind.
Qed.
Lemma kept_mapM {A B : Type} (f : A → M B) l : (∀ a, kept (f a)) → kept (mapM f l).
Proof.
  intros Hf. induction l as [|a l IH]; cbn [mapM]; [done|].
  apply kept_bind; [apply Hf|intros b]. by apply kept_bind.
Qed.

Ltac keep_file :=
  repeat first
    [ apply spared_ret | apply spared_lift | apply spared_read | apply spared_save | apply spared_delete
    | assumption | apply spared_bind; [|intros ?] | case_match ].

(** *** The state file *)

Lemma spared_ensure : spared_file (ensure_state config).
Proof. unfold ensure_state, plane_exists, plane_load. cbv zeta. keep_file. Qed.
Lemma spared_identity k : spared_file (ensure_state_for_local_identity config k).
Proof. pose proof spared_ensure. unfold ensure_state_for_local_identity, plane_exists. cbv zeta. keep_file. Qed.
Lemma spared_bound k : spared_file (ensure_identity_bound_state config k).
Proof. pose proof (spared_identity k). unfold ensure_identity_bound_state. cbv zeta. keep_file. Qed.
Lemma spared_refresh k : spared_file (refresh_and_persist_for_local_identity config k).
Proof. pose proof (spared_identity k). unfold refresh_and_persist_for_local_identity. keep_file. Qed.
Lemma spared_reprobe why : spared_file (reprobe_network_change config why).
Proof. pose proof spared_ensure. unfold reprobe_network_change. cbv zeta. keep_file. Qed.
Lemma spared_seed_snapshot p : spared_file (seed_from_authority_snapshot config p).
Proof. unfold seed_from_authority_snapshot, load_authority_snapshot. cbv zeta. keep_file. Qed.
Lemma spared_sync_snapshot p : spared_file (plane_sync_snapshot config p).
Proof.
  unfold plane_sync_snapshot, load_authority_snapshot, plane_exists, plane_load. cbv zeta. keep_file.
Qed.
Lemma spared_seed_origin origin subject : spared_file (seed_from_authority_origin web config origin subject).
Proof. unfold seed_from_authority_origin, fetched. cbv zeta. keep_file. Qed.
Lemma spared_sync_origin origin subject : spared_file (sync_authority_origin web config origin subject).
Proof. unfold sync_authority_origin, fetched, plane_exists, plane_load. cbv zeta. keep_file. Qed.
Lemma spared_sync_revocations origin : spared_file (sync_authority_revocations_origin web config origin).
Proof. pose proof spared_ensure. unfold sync_authority_revocations_origin, fetched. cbv zeta. keep_file. Qed.
Lemma spared_reset : spared_file (reset_network_state config).
Proof. unfold reset_network_state, plane_exists. keep_file. Qed.

#[local] Hint Resolve spared_ret spared_lift spared_ensure spared_refresh spared_reprobe spared_seed_snapshot
  spared_sync_snapshot spared_seed_origin spared_sync_origin spared_sync_revocations : spared_db.
Ltac spared_steps :=
  repeat first [ solve [auto with spared_db] | apply spared_bind; [|intros ?] | case_match ].

Lemma spared_initialize k : spared_file (initialize_state web args k).
Proof. unfold initialize_state, sync_revocations, synced. spared_steps. Qed.
Lemma spared_prepare k trigger : spared_file (prepare_state_for_trigger web args k trigger).
Proof.
  unfold prepare_state_for_trigger, refresh_state, sync_revocations, synced. destruct trigger; spared_steps.
Qed.

(** *** The fabric *)

Ltac keep :=
  repeat first
    [ apply kept_ret | apply kept_lift | apply kept_throw | apply kept_transport
    | apply kept_try_transport | apply kept_files; first [apply spared_ensure|apply spared_save]
    | assumption | apply kept_try | apply kept_bind; [|intros ?] | apply kept_for; intros ? ?
    | apply kept_mapM; intros ? | case_match ].

Lemma kept_sync : kept (sync_runtime_sessions config).
Proof. unfold sync_runtime_sessions. keep. Qed.
Lemma kept_close id : kept (fabric_close_session config id).
Proof. unfold fabric_close_session, known_session, save_sessions. keep. Qed.
Lemma kept_upgrade id : kept (upgrade_session config id).
Proof. unfold upgrade_session, known_session, save_sessions. cbv zeta. keep. Qed.
Lemma kept_realize p q c : kept (realize_best_path config p q c).
Proof. unfold realize_best_path, save_sessions. cbv zeta. keep. Qed.
Lemma kept_reconcile : kept (reconcile_sessions config).
Proof.
  unfold reconcile_sessions, reconcile_session, save_sessions, fail_and_close_session,
    record_path_failure_event. cbv zeta. keep.
Qed.
Lemma kept_reevaluate k : kept (reevaluate_runtime_authority config k).
Proof.
  unfold reevaluate_runtime_authority, reevaluate_session, reevaluate_listener, deny_session,
    keep_session, reroute_session, session_event, fail_and_close_session, record_path_failure_event.
  cbv zeta. keep.
Qed.
Lemma kept_paths : kept (runtime_paths config).
Proof. unfold runtime_paths. keep. Qed.
Lemma kept_listeners : kept (runtime_listeners config).
Proof. unfold runtime_listeners. cbv zeta. keep. Qed.
Lemma kept_events limit : kept (runtime_events limit).
Proof. apply kept_transport. Qed.
Lemma kept_health : kept (runtime_health config).
Proof.
  pose proof kept_paths. pose proof kept_listeners. unfold runtime_health. cbv zeta. keep.
Qed.
End kept.

(** ** The daemon *)

Section daemon.
Context `{Blake3, Varint, Base32, Curves, ArtifactJson, JsonBytes SessionCredentialUnsigned}.
Context {C : Type} `{StateFormat C} `{BackupStoreLaws C} `{DiscoveryFormat C}.
Context {Body : Type} `{ControlJson Body} `{DaemonJson}.
Context {R : Type} `{RelayControl R} (clock : nat → Z) (rng : nat → nat → bytes).
Variable args : Args.
Variable identity : IdentityKeypair.
Variable path : string.
Hypothesis not_state : path ≠ arg_state_path args.

#[local] Instance files_transport : LifecycleTransport (World R) := quic_transport clock rng.
Local Notation M := (NodeM C (World R)).
Local Notation config := (args_config args).
Local Notation kept := (kept (C := C) (W := World R) path).

Ltac keep :=
  repeat first
    [ apply kept_ret | apply kept_lift | apply kept_throw | apply kept_transport
    | apply kept_try_transport
    | apply kept_sync | apply kept_close | apply kept_upgrade | apply kept_realize | apply kept_reconcile
    | apply kept_reevaluate | apply kept_paths | apply kept_listeners | apply kept_events | apply kept_health
    | apply kept_files; first [apply spared_ensure|apply spared_prepare|apply spared_read|apply spared_reset]
    | assumption | apply kept_try | apply kept_bind; [|intros ?] | apply kept_mapM; intros ? | case_match ].

Lemma kept_cycle (web : string → HttpReply Body) trigger :
  kept (run_cycle clock rng args web identity trigger).
Proof. unfold run_cycle, reconcile_step, connect_step, ensure_target_session, attempt_target. keep. Qed.

(** The start of [run], before the first cycle. *)
Definition startup (web : string → HttpReply Body) : M DaemonState :=
  on_files (_ ← initialize_state web args identity; ensure_identity_bound_state config identity).
Lemma kept_startup web : kept (startup web).
Proof.
  apply kept_files, spared_bind; [by apply spared_initialize|]. intros _. by apply spared_bound.
Qed.

(** *** Requests *)

Definition spares (h : Handler (C := C) (R := R)) : Prop :=
  ∀ envelope n, at_path path (node_files (h envelope n).2) = at_path path (node_files n).

Lemma respond_kept id (m : M DaemonResult) n :
  kept m → at_path path (node_files (respond id m n).2) = at_path path (node_files n).
Proof. intros Hm. specialize (Hm n). unfold respond. by destruct (m n) as [[]]. Qed.
Lemma spares_respond (m : RequestEnvelope → M DaemonResult) :
  (∀ e, kept (m e)) → spares (λ envelope, respond (rqe_request_id envelope) (m envelope)).
Proof. intros Hm envelope n. by apply respond_kept. Qed.
Lemma spares_refuse code message details :
  spares (λ envelope, refuse (rqe_request_id envelope) code message details).
Proof. done. Qed.
Lemma spares_payload {P : Type} (decode : Json → result string P) what k :
  (∀ payload, spares (k payload)) → spares (with_payload decode what k).
Proof. intros Hk envelope n. unfold with_payload. destruct (decode _); [apply Hk|done]. Qed.
Lemma spares_session value k : (∀ id, spares (k id)) → spares (with_session value k).
Proof.
  intros Hk envelope n. unfold with_session.
  destruct (parse_hex_session_id value) as [[id|e]|]; [apply Hk|done..].
Qed.

Lemma spares_sync id source (sync_fn : FileM C (DaemonState * StateSyncReport)) n :
  spared_file path sync_fn →
  at_path path (node_files (authority_sync_response clock rng args identity id source sync_fn n).2) =
    at_path path (node_files n).
Proof.
  intros Hs. apply respond_kept. unfold or_sync_failed, latest_authority_status. keep.
  by apply kept_files.
Qed.

Lemma spares_connect : spares (session_connect_response clock rng args identity).
Proof.
  apply spares_payload. intros payload envelope n. cbv zeta.
  pose proof (kept_files (W := World R) path _ (spared_bound args path not_state identity) n) as Hb.
  destruct (on_files (ensure_identity_bound_state config identity) n) as [[s|e] n1]; [|exact Hb].
  cbn [snd] in Hb. rewrite <-Hb.
  destruct (PeerId_from_str _) as [peer|]; [|done]. destruct (ProtocolId_new _) as [protocol|]; [|done].
  apply respond_kept. keep.
Qed.
Lemma spares_upgrade : spares (session_upgrade_response clock rng args).
Proof.
  apply spares_payload. intros payload. apply spares_session. intros id envelope n. cbv zeta.
  pose proof (kept_sync (W := World R) args path not_state n) as Hs. fold config.
  destruct (sync_runtime_sessions config n) as [[s|e] n1]; [|exact Hs].
  cbn [snd] in Hs. rewrite <-Hs. destruct (find_first _ _); [|done]. apply respond_kept. keep.
Qed.

(** An export onto the file. *)
Definition exports (envelope : RequestEnvelope) : bool :=
  String.eqb (rqe_operation envelope) "state.export" &&
  match json_export (rqe_payload envelope) with
  | Ok payload => String.eqb (sep_output_path payload) path
  | Err _ => false
  end.
Definition exports_onto (request : HttpRequest) : bool :=
  match read_request_body request with
  | Ok body => match json_envelope body with Ok envelope => exports envelope | Err _ => false end
  | Err _ => false
  end.

Lemma spares_export envelope (n : Node C (World R)) :
  exports envelope = false → rqe_operation envelope = "state.export" →
  at_path path (node_files (state_export_response (C := C) clock rng args envelope n).2) =
    at_path path (node_files n).
Proof.
  unfold exports. intros He Hop. rewrite Hop in He. cbn [andb String.eqb Ascii.eqb Bool.eqb] in He.
  unfold state_export_response, with_payload. destruct (json_export _) as [payload|e]; [|done].
  apply respond_kept. unfold now_secs. keep.
  intros n1. unfold export_files. destruct (backup_export _ _ _ _ _) as [[report fs]|e] eqn:Hb; [|done].
  cbn [snd node_files]. unfold at_path. eapply backup_export_writes; [exact Hb|].
  cbn [ex_output_path]. intros Heq. apply String.eqb_neq in He. by apply He.
Qed.

Lemma route_operation_kept (web : string → HttpReply Body) envelope n :
  exports envelope = false →
  at_path path (node_files (route_operation clock rng web args identity envelope n).2) =
    at_path path (node_files n).
Proof.
  intros He. unfold route_operation.
  destruct (find_first _ _) as [[name handler]|] eqn:Hf; [|done].
  apply find_first_Some in Hf as [Hin Hop]. cbn [fst] in Hop. apply String.eqb_eq in Hop as ->.
  unfold operations in Hin. rewrite !elem_of_cons, elem_of_nil in Hin.
  assert (kept (runtime_status_result (C := C) clock rng args identity)) by
    (unfold runtime_status_result, latest_authority_status; keep).
  assert (kept (runtime_health_result (C := C) clock rng args)) by (unfold runtime_health_result; keep).
  assert (kept (authority_show_result (C := C) clock rng args)) by
    (unfold authority_show_result, latest_authority_status; keep).
  assert (kept (identity_verify_result (C := C) (R := R) args identity)) by
    (unfold identity_verify_result; keep).
  assert (kept (state_show_result (C := C) (R := R) args)) by
    (unfold state_show_result, inspect_state_file; keep).
  destruct_or! Hin; injection Hin as Hop ->.
  all: try (by apply spares_export).
  all: try apply spares_connect.
  all: try apply spares_upgrade.
  all: try (apply (spares_respond (λ _, _)); intros _;
    unfold runtime_session_inventory, session_entries, listener_entries, now_secs, validate_state_file;
    solve [keep]).
  all: apply spares_payload; intros payload.
  all: try (apply spares_session; intros id).
  all: try (apply (spares_respond (λ _, _)); intros _;
    unfold runtime_diagnose_result, runtime_session_inventory, session_entries, listener_entries, now_secs;
    solve [keep]).
  - intros e m. destruct (negb _); [done|]. destruct (negb _); [done|]. apply respond_kept. keep.
  - intros e m. by apply spares_sync, spared_sync_snapshot.
  - intros e m. by apply spares_sync, spared_sync_origin.
  - intros e m. apply spares_sync, spared_bind; [by apply spared_sync_revocations|]. by intros [].
Qed.

Lemma request_kept (web : string → HttpReply Body) request n :
  exports_onto request = false →
  at_path path (node_files (route_control_request clock rng web args identity request n).2) =
    at_path path (node_files n).
Proof.
  unfold exports_onto, route_control_request. intros He.
  destruct (_ || _); [done|].
  destruct (read_request_body request) as [body|[]]; [|done].
  destruct (json_envelope body) as [envelope|e]; [|done].
  pose proof (route_operation_kept web envelope n He) as Hk.
  by destruct (route_operation _ _ _ _ _ envelope n) as [[] n'].
Qed.

(** *** While it serves *)

(** A step of a daemon that has started and that is asked these requests: the
    start of its state, a cycle, a request, or a change of the files by others
    that leaves the path alone. *)
Inductive serving (asked : HttpRequest → Prop) (n : Node C (Served R)) : Node C (Served R) → Prop :=
| serving_startup web : serving asked n (served (listening n) (startup web (inside n)).2)
| serving_cycle web trigger :
    serving asked n (served (listening n) (run_cycle clock rng args web identity trigger (inside n)).2)
| serving_request web request :
    asked request → serving asked n (serve_request clock rng web args identity request n).2
| serving_others fs :
    at_path path fs = at_path path (node_files n) → serving asked n (mk_Node fs (node_transport n)).

Section asked.
Variable asked : HttpRequest → Prop.
Hypothesis no_bundle : ∀ request, asked request → exports_onto request = false.

Lemma serving_kept n n' : serving asked n n' → at_path path (node_files n') = at_path path (node_files n).
Proof.
  intros [web|web trigger|web request He%no_bundle|fs Hfs].
  - apply kept_startup.
  - apply kept_cycle.
  - unfold serve_request. destruct (listening n); [|done].
    pose proof (request_kept web request (inside n) He) as Hk.
    by destruct (route_control_request _ _ _ _ _ _ (inside n)) as [[a|] m].
  - exact Hfs.
Qed.
Lemma servings_kept n n' :
  rtc (serving asked) n n' → at_path path (node_files n') = at_path path (node_files n).
Proof.
  induction 1 as [n|n n1 n2 Hstep _ IH]; [done|]. by rewrite IH, (serving_kept _ _ Hstep).
Qed.
End asked.

(** A request whose session identifier has a character cut in two. *)
Definition cutting (request : HttpRequest) : Prop :=
  ∃ body envelope, read_request_body request = Ok body ∧ json_envelope body = Ok envelope ∧
    cuts_a_character envelope.

(** Only such a request ends the listener. *)
Lemma serving_listens asked n n' :
  serving asked n n' → listening n = true →
  listening n' = true ∨ ∃ request, asked request ∧ cutting request.
Proof.
  intros [web|web trigger|web request Ha|fs _] Hl; try (by left).
  unfold serve_request. rewrite Hl. unfold route_control_request.
  destruct (_ || _); [by left|].
  destruct (read_request_body request) as [body|[]] eqn:Hbody; [|by left].
  destruct (json_envelope body) as [envelope|e] eqn:He; [|by left].
  pose proof (route_answers clock rng web args identity envelope (inside n)) as Hr.
  destruct (route_operation _ _ _ _ _ envelope _) as [[response|] m]; [by left|right].
  exists request. split; [exact Ha|]. exists body, envelope. by destruct Hr.
Qed.
Lemma servings_listen asked n n' :
  rtc (serving asked) n n' → listening n = true →
  listening n' = true ∨ ∃ request, asked request ∧ cutting request.
Proof.
  induction 1 as [n|n n1 n2 Hstep _ IH]; intros Hl; [by left|].
  destruct (serving_listens _ _ _ Hstep Hl) as [Hl1|Hc]; [by apply IH|by right].
Qed.
End daemon.
