(* ===== verification/Revocation.v ===== *)
(** From a revocation at the authority to the sessions of a daemon: a daemon
    that synchronizes its revocations ends its cycle without a session of a
    revoked peer, and has none from then on. *)
From stdpp Require Import countable option base relations list strings gmap pretty.
From Stdlib Require Import ZArith Lia Strings.Byte Strings.Ascii.
From S2P Require Import Prelude Text BTree F32 External Model Crypto Records Identity Netcheck Scheduler PeerStore Policy Routing RelayWire Relay Transport Membership Calendar Quic QuicProps Control ControlFetch Authority AuthorityProps Fabric FabricProps FabricPaths Durable Backup FabricPlane FabricRuntime DurableProps FabricPathsProps FabricPlaneProps FabricRuntimeProps EndToEnd FabricQuic Quipd DaemonApi QuipdApi QuipdControl QuipdProps QuipdCycle QuipdSafety.

(** ** What the authority serves *)

Section served.
Context `{Blake3, Varint, Base32, Curves, ArtifactJson}.

Lemma projected_revocations sa subject snapshot :
  projected_snapshot sa subject = Some snapshot → as_revocations snapshot = st_revocations sa.
Proof.
  destruct subject as [seed|].
  - rewrite projected_snapshot_Some. by intros (m & _ & ->)%fmap_Some.
  - rewrite projected_snapshot_None. by intros [= <-].
Qed.

(** Wherever a snapshot is served, it has every revocation. *)
Lemma served_revocations now sa origin url snapshot :
  authority_web now sa origin url = HttpOk (BodySnapshot snapshot) →
  as_revocations snapshot = st_revocations sa.
Proof.
  unfold authority_web. destruct (strip_prefix _ url) as [target|]; [|done].
  unfold route_request. cbn [negb]. destruct (split_request_target target) as [path query]. cbv zeta.
  destruct (String.eqb path "/healthz"); [done|].
  destruct (String.eqb path "/snapshot").
  { destruct (projected_snapshot sa _) as [sn|] eqn:Hp; [|done]. intros [= <-].
    by eapply projected_revocations. }
  destruct (String.eqb path "/bootstrap"); [by destruct (projected_snapshot sa _)|].
  destruct (String.eqb path "/relays"); [done|].
  destruct (String.eqb path "/revoke"); [|done].
  destruct (query_param _ _); [|done]. by destruct (parse_u64_param _).
Qed.

Lemma fetched_revocations now sa origin client subject snapshot :
  fetch_authority_snapshot_for (authority_web now sa origin) client subject = Ok snapshot →
  as_revocations snapshot = st_revocations sa.
Proof.
  unfold fetch_authority_snapshot_for, fetch. intros (sn & Hf & Hs)%result_bind_Ok.
  assert (sn = snapshot) as ->.
  { revert Hs. unfold sync_authority_snapshot. case_decide as Hn; [done|]. by intros [= <-]. }
  destruct (authority_web _ _ _ _) as [body|code text|text] eqn:Hw; [|done..].
  apply map_err_Ok in Hf. destruct body; try discriminate Hf.
  injection Hf as ->. by eapply served_revocations.
Qed.

(** Merging what the authority has into a part of it gives all of it. *)
Lemma merge_all_revocations sa k :
  authority_wf sa →
  (merge_revocations (take k (st_revocations sa)) (st_revocations sa)).1 = st_revocations sa.
Proof.
  intros Hsa. rewrite <-(take_drop k (st_revocations sa)) at 2.
  rewrite merge_revocations_skip by done.
  rewrite merge_revocations_fresh; rewrite take_drop; [done|].
  exact (numbered_NoDup _ _ _ (core_revocations _ Hsa)).
Qed.
End served.

(** ** A daemon that follows an authority *)

Section revocation.
Context `{Blake3, Varint, Base32, Curves, ArtifactJson, JsonBytes SessionCredentialUnsigned}.
Context {C : Type} `{StateFormatLaws C} `{BackupStoreLaws C} `{DaemonJson}.
Context {R : Type} `{RelayControl R} (clock : nat → Z) (rng : nat → nat → bytes).
Variable args : Args.
Variable identity : IdentityKeypair.
Variables (now : Z) (sa : AuthorityState) (origin : string).

#[local] Instance revocation_transport : LifecycleTransport (World R) := quic_transport clock rng.
#[local] Instance revocation_view : LifecycleView (World R) := quic_view.
#[local] Instance revocation_laws : LifecycleLaws (World R) := quic_laws clock rng.
Let config : DaemonConfig := args_config args.
Local Notation web := (authority_web now sa origin).

Hypothesis authority_ok : authority_wf sa.
Hypothesis authority_room : (Z.of_nat (length (st_revocations sa)) <= u64_max)%Z.
Hypothesis follows_origin : arg_authority_origin args = Some origin.
Hypothesis follows_snapshot : arg_authority_snapshot args = None.
Hypothesis follows_revocations : arg_revocation_sync args = true.

(** The file loads, and has the first revocations of the authority. *)
Definition follows (fs : Files C) : Prop :=
  plane_inv config fs ∧ ∃ s k, daemon_load (cfg_state_path config) fs = Ok s ∧
    ds_revocations s = take k (st_revocations sa).

Lemma refresh_follows fs s fs' :
  follows fs → refresh_and_persist_for_local_identity config identity fs = (Ok s, fs') → follows fs'.
Proof.
  intros (Hi & s0 & k & Hl & Hr). unfold refresh_and_persist_for_local_identity.
  unfold ensure_state_for_local_identity, plane_exists, plane_save.
  unfold mbind, filem_bind, filem_read, filem_write. rewrite (load_exists config fs s0 Hl).
  rewrite (ensure_loads config fs s0 Hl). intros [= <- <-].
  set (s' := rebuild _).
  assert (current s') as Hc by exact (proj1 (held_rebuild config fs _ (load_held config fs s0 Hi Hl))).
  destruct (save_current config s' fs Hc) as [Hl' Hc']. split.
  - intros s1 Hs1. assert (Ok (with_sessions [] s') = Ok s1) as [= <-] by (rewrite <-Hl'; exact Hs1).
    exact Hc'.
  - exists (with_sessions [] s'), k. split; [exact Hl'|exact Hr].
Qed.

Lemma sync_origin_follows subject fs x fs' :
  follows fs → sync_authority_origin web config origin subject fs = (Ok x, fs') → follows fs'.
Proof.
  intros (Hi & s0 & k & Hl & Hr) Hrun.
  pose proof (safe_sync_origin config web origin subject fs Hi) as [Hi' _].
  rewrite Hrun in Hi'. cbn [snd] in Hi'. split; [exact Hi'|].
  revert Hrun. unfold sync_authority_origin, fetched, filem_lift, plane_exists, plane_load, plane_save.
  unfold mbind, filem_bind, filem_read, filem_write.
  destruct (fetch_authority_snapshot_for _ _ _) as [snapshot|e] eqn:Hf; [|done].
  apply fetched_revocations in Hf. cbn [map_err].
  destruct (fetch_relay_map _ _) as [relay_map|e]; [|done]. cbn [map_err].
  rewrite (load_exists config fs s0 Hl).
  assert (daemon_load (cfg_state_path config) fs = Ok s0) as -> by exact Hl.
  destruct (daemon_sync_snapshot _ _ _) as [[s1 report]|e] eqn:Hsync; [|done].
  pose proof (held_relay_map config _ _ relay_map
    (held_sync config fs _ _ _ _ _ (load_held config fs s0 Hi Hl) Hsync)) as [[Hwf _] _].
  apply sync_snapshot_effect in Hsync as (_ & Hrevs & _).
  assert (ds_revocations (apply_relay_map s1 relay_map).1 = ds_revocations s1) as Hsame.
  { unfold apply_relay_map. by repeat case_match. }
  destruct (apply_relay_map s1 relay_map) as [s2 added]. cbn [fst] in Hsame, Hwf.
  intros [= <- <-]. eexists _, (length (st_revocations sa)). split; [apply load_save, (dw_finite _ Hwf)|].
  change (ds_revocations s2 = take (length (st_revocations sa)) (st_revocations sa)).
  rewrite take_ge by done. rewrite Hsame, Hrevs, Hf.
  change (ds_revocations (with_roles _ s0)) with (ds_revocations s0). rewrite Hr.
  by apply merge_all_revocations.
Qed.

(** Preparing a cycle leaves every revocation of the authority in the file. *)
Lemma prepare_revokes trigger fs x fs' :
  trigger = Startup ∨ trigger = IntervalElapsed → follows fs →
  prepare_state_for_trigger web args identity trigger fs = (Ok x, fs') →
  plane_inv config fs' ∧ ∃ s, daemon_load (cfg_state_path config) fs' = Ok s ∧
    ds_revocations s = st_revocations sa.
Proof.
  intros Htrigger Hfs.
  assert (∀ r, refresh_state web args identity fs = (Ok r, fs') →
    plane_inv config fs' ∧ ∃ s, daemon_load (cfg_state_path config) fs' = Ok s ∧
      ds_revocations s = st_revocations sa) as Hrefresh.
  { intros r. unfold refresh_state. unfold mbind at 1, filem_bind at 1. fold config.
    rewrite follows_snapshot, follows_origin.
    match goal with |- context [match ?m fs with _ => _ end] => destruct (m fs) as [[s1|e] fs1] eqn:Hm end;
      [|done].
    assert (follows fs1) as (Hi & s0 & k & Hl & Hr).
    { destruct (arg_sync args); [|by eapply refresh_follows].
      revert Hm. unfold synced, mbind, filem_bind.
      destruct (sync_authority_origin _ _ _ _ fs) as [[[s2 report]|e] fs2] eqn:Hs; [|done].
      intros [= <- <-]. by eapply sync_origin_follows. }
    unfold sync_revocations. rewrite follows_revocations, follows_origin. fold config.
    destruct (revocations_synced config now sa origin fs1 s0 k authority_ok authority_room Hi Hl Hr)
      as (s' & s2 & Hsync & Hl2 & Hr2 & _ & _ & _).
    pose proof (safe_sync_revocations config web origin fs1 Hi) as [Hi' _]. 
    unfold synced, mbind, filem_bind. rewrite Hsync in *. intros [= <- <-].
    split; [exact Hi'|]. exists s2. by split. }
  destruct Htrigger as [-> | ->]; unfold prepare_state_for_trigger; unfold mbind, filem_bind;
    destruct (refresh_state web args identity fs) as [[s|e] fs1]; try done;
    intros [= <- <-]; by eapply Hrefresh.
Qed.

(** A node whose file holds a revocation, and whose sessions a policy of that
    file sanctions, has no session with the peer the revocation names. *)
Lemma sanctioned_absent state p (n : Node C (World R)) :
  arg_disable_reconcile args = false → plane_inv config (node_files n) →
  file_revokes config (node_files n) p →
  sanctioned_node args state (good_session args state) n → absent p (lt_who (node_transport n)).
Proof.
  intros Hrec Hi (s & Hl & Hr) (_ & Hdisk & Hwho) id [p' q] Hid Hp. cbn [fst] in Hp. subst p'.
  specialize (Hwho _ _ Hid). unfold good_session in Hwho. cbn [fst snd] in Hwho.
  destruct q as [q|]; [|congruence].
  destruct (on_disk_ensure args _ _ _ _ Hdisk (ensure_loads config _ _ Hl)) as [_ Hsame].
  rewrite <-Hsame in Hwho.
  rewrite (revokes_denied _ p q) in Hwho; [done| |exact Hr].
  apply (held_rebuild config _ _ (load_held config _ _ Hi Hl)).
Qed.

(** C9.  A peer an authority has revoked stays out.  Take a daemon that
    synchronizes its revocations with that authority and whose state file holds
    the first of them, or none, whatever sessions it has.  Once a cycle at its
    start or after its interval succeeds, its file holds a revocation of every
    peer the authority has revoked and its transport has no session with any of
    them; and whatever cycles it runs then, on whatever triggers, whatever they
    fetch and whether or not they fail, and whatever its clients ask, short of
    discarding the state, it never has one again. *)
Theorem revoked_peers_stay_out trigger (n n1 n2 : Node C (World R)) report s k r p
    (Hrec : arg_disable_reconcile args = false)
    (Htrigger : trigger = Startup ∨ trigger = IntervalElapsed)
    (Hok : adapter_inv (adapter (node_transport n)))
    (Hinv : plane_inv (args_config args) (node_files n))
    (Hload : daemon_load (arg_state_path args) (node_files n) = Ok s)
    (Hprefix : ds_revocations s = take k (st_revocations sa))
    (Hcycle : run_cycle clock rng args web identity trigger n = (Ok report, n1))
    (Hlater : rtc (process_step (Body := AuthorityBody) clock rng args identity) n1 n2)
    (Hr : r ∈ st_revocations sa) (Hp : rr_target r = TargetPeer p) :
  (∃ s2, daemon_load (arg_state_path args) (node_files n2) = Ok s2 ∧ r ∈ ds_revocations s2) ∧
  no_session_with p (node_transport n2).
Proof.
  pose proof (cycle_good clock rng args _ _ _ _ _ _ Hok (or_intror Hrec) Hcycle) as Hgood.
  destruct (cycle_prepares clock rng args identity _ _ _ _ _ Hok Hcycle) as (x & fs & Hprep & Hadv).
  apply prepare_revokes in Hprep as (Hi & s1 & Hl1 & Hr1); [|exact Htrigger|split; [exact Hinv|by exists s, k]].
  destruct (Hadv Hi) as [Hadv' _]. clear Hadv. rename Hadv' into Hadv.
  pose proof (process_steps_go_on clock rng args identity _ _ Hlater (advances_inv _ _ _ Hadv)) as Hlast.
  assert (∃ s2, daemon_load (arg_state_path args) (node_files n2) = Ok s2 ∧ rtc daemon_step s1 s2)
    as (s2 & Hl2 & Hst) by exact (proj2 (proj1 (proj2 (advances_trans _ _ _ _ Hadv Hlast))) s1 Hl1).
  split.
  - exists s2. split; [exact Hl2|].
    destruct (adv_revocations _ _ (daemon_steps_advance _ _ Hst)) as [l ->].
    rewrite Hr1. apply elem_of_app. by left.
  - assert (file_revokes config (node_files n1) p) as Hrev.
    { eapply file_revokes_advances; [apply Hadv|]. exists s1. split; [exact Hl1|]. exists r. by rewrite Hr1. }
    apply absent_no_session. apply Hlast; [exact Hrev|].
    eapply sanctioned_absent; [exact Hrec|exact (proj2 (advances_inv _ _ _ Hadv))|exact Hrev|exact Hgood].
Qed.
End revocation.

Section witnesses.
Import External.Demo DemoFiles DemoControl.
#[local] Existing Instances demo_authority_json demo_session_json demo_relays.

(** An authority that revokes the peer of the session the daemon carries. *)
Definition demo_expelling : list (Z * Command) := demo_before ++
  [(130%Z, CmdIssue (Some "state.json") (CmdRevocation {|
     rv_network := "net"; rv_realm := "realm"; rv_peer_id := PeerId_to_text demo_target;
     rv_reason := "superseded"; rv_note := None |}))].

(** The daemon synchronizes its revocations with it. *)
Definition demo_following : Args := {|
  arg_network := "net"; arg_state_path := "state.json"; arg_identity_path := "node.json";
  arg_control_discovery_path := "control.json"; arg_control_bind := "127.0.0.1:0";
  arg_identity_passphrase_env := "QUIP_IDENTITY_PASSPHRASE"; arg_authority_snapshot := None;
  arg_authority_origin := Some "http://a/"; arg_authority_subject := None; arg_sync := false;
  arg_revocation_sync := true; arg_disable_reconcile := false; arg_reconcile_verbose := false;
  arg_reconcile_interval_seconds := 3; arg_change_watch_interval_ms := 1000;
  arg_network_change_trigger_path := None; arg_force_network_reprobe := false;
  arg_one_shot := false; arg_connect_protocol := None; arg_connect_peer := None;
  arg_connect_class := "bulk" |}.

(** The cycle that learns of the revocation, and the cycles after it, with a
    request in between that asks for a session with the peer. *)
Lemma revoked_peers_stay_out_witness :
  ∃ sa report n1,
    demo_state demo_expelling = Some sa ∧
    run_cycle demo_clock demo_rng demo_following (authority_web 7 sa "http://a/") demo_source
      Startup (demo_node demo_negotiated) = (Ok report, n1) ∧
    ¬ no_session_with demo_target (node_transport (demo_node demo_negotiated)) ∧
    let request := demo_request ("session.connect " +:+ PeerId_to_text demo_target) in
    let input requests := {|
      ci_web := demo_down; ci_metadata := λ _, None; ci_start := 0; ci_polls := demo_poll <$> seq 0 5;
      ci_meanwhile := answer demo_clock demo_rng demo_following demo_source demo_down requests |} in
    no_session_with demo_target (node_transport (run_loop demo_clock demo_rng demo_following demo_source
      [input [request]; input []] IntervalElapsed (monitor_new (λ _, None) demo_following) n1).2).
Proof.
  destruct (demo_state_exists demo_expelling) as [sa Hsa]; [by vm_compute|].
  destruct (demo_state_room demo_expelling sa eq_refl Hsa) as [Hwf _].
  assert ((λ sa, rr_target <$> st_revocations sa) <$> demo_state demo_expelling =
    Some [TargetPeer demo_target]) as Ht by (vm_compute; reflexivity).
  rewrite Hsa in Ht. injection Ht as Ht.
  destruct (st_revocations sa) as [|r [|]] eqn:Hrevs; try discriminate Ht. injection Ht as Ht.
  destruct demo_file as (s & s1 & Hs & Hinv & Hload & Hnone).
  assert (node_files (demo_node demo_negotiated) = demo_fs s) as Hfs.
  { unfold demo_node. cbn [node_files]. by rewrite Hs. }
  assert (match demo_state demo_expelling with
    | Some sa => succeeds (run_cycle demo_clock demo_rng demo_following (authority_web 7 sa "http://a/")
        demo_source Startup (demo_node demo_negotiated)).1
    | None => false end = true) as Hrun by (vm_compute; reflexivity).
  rewrite Hsa in Hrun. apply (succeeds_Ok (run_cycle _ _ _ _ _ _)) in Hrun as (report & n1 & Hrun).
  exists sa, report, n1. split; [exact Hsa|]. split; [exact Hrun|]. split.
  { intros Hno. apply (Hno demo_id demo_negotiated); reflexivity. }
  cbv zeta. eapply (revoked_peers_stay_out demo_clock demo_rng demo_following demo_source 7 sa
    "http://a/" Hwf _ eq_refl eq_refl eq_refl Startup (demo_node demo_negotiated) n1 _ report
    (with_sessions [] s) 0 r demo_target eq_refl (or_introl eq_refl)
    (demo_node_ok demo_negotiated eq_refl) _ _ Hnone Hrun _ _ Ht).
Unshelve.
  - rewrite Hrevs. vm_compute. discriminate.
  - rewrite Hfs. exact Hinv.
  - rewrite Hfs. exact Hload.
  - apply run_loop_steps. repeat constructor; eexists _, _; (split; [|reflexivity]); vm_compute; reflexivity.
  - rewrite Hrevs. by left.
Defined.
End witnesses.
