(* ===== verification/Processes.v ===== *)
(** The small processes and crates: the bootstrap service and its process
    (cmd/bootstrap), the lab (cmd/lab), the simulated network of the test kit
    (crates/testkit) and the C interface (crates/ffi). *)
From stdpp Require Import countable option base list strings gmap pretty.
From Stdlib Require Import ZArith Lia Strings.Byte Strings.Ascii.
From S2P Require Import Prelude Text BTree F32 External Model Crypto Membership Netcheck Scheduler PeerStore Discovery Policy Routing RelayWire Transport Control Fabric FabricPlane.

(** ** The bootstrap service *)

(* cmd/bootstrap/src/lib.rs:7-12 BootstrapServiceConfig *)
Record BootstrapServiceConfig := {
  bsc_network_id : NetworkId;
  bsc_bind_addr : string;
  bsc_advertised_origin : string;
}.

(* cmd/bootstrap/src/lib.rs:14-19 BootstrapRealmState *)
Record BootstrapRealmState := {
  brs_realm : string;
  brs_hints : list Membership.BootstrapHint;
  brs_metadata : gmap string string;
}.

(* cmd/bootstrap/src/lib.rs:21-25 BootstrapSnapshot *)
Record BootstrapSnapshot := {
  bsn_config : BootstrapServiceConfig;
  bsn_realms : list BootstrapRealmState;
}.

(* cmd/bootstrap/src/lib.rs:27-31 BootstrapService *)
Record BootstrapService := {
  bsv_config : BootstrapServiceConfig;
  bsv_realms : gmap string BootstrapRealmState;
}.

(* cmd/bootstrap/src/lib.rs:34-39 BootstrapService::new *)
Definition BootstrapService_new (config : BootstrapServiceConfig) : BootstrapService := {|
  bsv_config := config; bsv_realms := ∅ |}.

(* cmd/bootstrap/src/lib.rs:41-52 BootstrapService::stage_hint *)
Definition stage_hint (realm : string) (hint : Membership.BootstrapHint) (self : BootstrapService)
    : BootstrapService :=
  let state := default {| brs_realm := realm; brs_hints := []; brs_metadata := ∅ |}
    (bsv_realms self !! realm) in {|
    bsv_config := bsv_config self;
    bsv_realms := <[realm := {|
      brs_realm := brs_realm state; brs_hints := brs_hints state ++ [hint];
      brs_metadata := brs_metadata state |}]> (bsv_realms self) |}.

(* cmd/bootstrap/src/lib.rs:54-68 BootstrapService::set_realm_metadata *)
Definition set_realm_metadata (realm : string) (metadata : gmap string string)
    (self : BootstrapService) : BootstrapService :=
  let state := match bsv_realms self !! realm with
    | Some state => {| brs_realm := brs_realm state; brs_hints := brs_hints state;
                       brs_metadata := metadata |}
    | None => {| brs_realm := realm; brs_hints := []; brs_metadata := metadata |}
    end in {|
    bsv_config := bsv_config self;
    bsv_realms := <[realm := state]> (bsv_realms self) |}.

(* cmd/bootstrap/src/lib.rs:70-75 BootstrapService::snapshot *)
Definition bootstrap_snapshot (self : BootstrapService) : BootstrapSnapshot := {|
  bsn_config := bsv_config self;
  bsn_realms := bt_values (bsv_realms self) |}.

Section bootstrap.
Context `{Blake3, Varint, Base32}.

(* cmd/bootstrap/src/main.rs:6-12 Args *)
Record BootstrapArgs := { ba_port : Z; ba_realm : string }.

(** The service, and the line printed. *)
(* cmd/bootstrap/src/main.rs:14-41 main *)
Definition bootstrap_main (args : BootstrapArgs) : BootstrapService * string :=
  let port := pretty (ba_port args) in
  let service := BootstrapService_new {|
    bsc_network_id := NetworkId_derive (as_bytes ("bootstrap:" +:+ ba_realm args));
    bsc_bind_addr := "0.0.0.0:" +:+ port;
    bsc_advertised_origin := "https://bootstrap.example.invalid:" +:+ port |} in
  let service := stage_hint (ba_realm args) {|
    hint_peer_id := None;
    hint_addresses := ["quic://127.0.0.1:" +:+ port];
    hint_metadata := {["source" := "bootstrap-service"]} |} service in
  let service := set_realm_metadata (ba_realm args) {["status" := "active"]} service in
  let snapshot := bootstrap_snapshot service in
  (service, "bootstrap listening on " +:+ port +:+ " with " +:+
    pretty (Z.of_nat (length (bsn_realms snapshot))) +:+ " configured realm(s)").

(** ** The lab *)

(* cmd/lab/src/main.rs:16-24 Command *)
Inductive LabCommand := LabStatus | LabNetcheck | LabPathExplain (class : string).

(* cmd/lab/src/main.rs:4-14 Args *)
Record LabArgs := {
  la_experiment : string;
  la_network : string;
  la_json : bool;
  la_command : option LabCommand;
}.

(* cmd/lab/src/main.rs:48-55 parse_class *)
Definition parse_class (value : string) : TrafficClass :=
  if String.eqb value "control" then Control
  else if String.eqb value "bulk" then Bulk
  else if String.eqb value "background" then Background
  else Interactive.

(** [serde_json::to_string_pretty] of a report and of a decision. *)
Variables (report_json : NetcheckReport → string) (decision_json : PathDecision → string).

(* cmd/lab/src/main.rs:57-66 print_output *)
Definition print_output {T : Type} (to_json : T → string) (json : bool) (value : T) (text : string)
    : string := if json then to_json value else text.

(** The line printed. *)
(* cmd/lab/src/main.rs:26-46 main *)
Definition lab_main (args : LabArgs) : outcome string :=
  let node := LocalNode_fixture (la_network args) in
  match default LabStatus (la_command args) with
  | LabStatus => Returns (print_output report_json (la_json args) (ln_netcheck node)
      ("experiment=" +:+ la_experiment args +:+ " " +:+ node_status_line node))
  | LabNetcheck =>
      Returns (print_output report_json (la_json args) (ln_netcheck node) (summary (ln_netcheck node)))
  | LabPathExplain class =>
      decision ← expect_some (best_path_for node (parse_class class));
      Returns (print_output decision_json (la_json args) decision (ex_summary (dec_explanation decision)))
  end.

(** The lab panics for one command and one class: the fixture has no path that
    carries background traffic. *)
Lemma lab_main_panics args :
  lab_main args = Panics ↔ la_command args = Some (LabPathExplain "background").
Proof.
  assert (∀ class, best_path_for (LocalNode_fixture (la_network args)) class = None ↔ class = Background)
    as Hnone.
  { intros class. unfold best_path_for, LocalNode_fixture.
    rewrite (surjective_pairing (ingest_bootstrap _ _ _)). cbn [ln_candidate_paths].
    by destruct class. }
  assert (∀ class, parse_class class = Background ↔ class = "background") as Hclass.
  { intros class. unfold parse_class. destruct (String.eqb_spec class "control") as [->|]; [done|].
    destruct (String.eqb_spec class "bulk") as [->|]; [done|].
    by destruct (String.eqb_spec class "background") as [->|]. }
  unfold lab_main. destruct (la_command args) as [command|]; [|done].
  destruct command as [| |class]; [done..|]. specialize (Hnone (parse_class class)).
  rewrite Hclass in Hnone. cbv beta iota zeta delta [default from_option id].
  destruct (best_path_for _ _) as [decision|]; split; intros Heq.
  - discriminate Heq.
  - injection Heq as ->. destruct Hnone as [_ Hnone]. discriminate (Hnone eq_refl).
  - destruct Hnone as [Hnone _]. by rewrite Hnone.
  - reflexivity.
Qed.
End bootstrap.

(** ** What a bootstrap service answers, from the log of what it was told *)

Inductive BootstrapOp :=
| StageHint (realm : string) (hint : Membership.BootstrapHint)
| SetRealmMetadata (realm : string) (metadata : gmap string string).

Definition bootstrap_op (self : BootstrapService) (op : BootstrapOp) : BootstrapService :=
  match op with
  | StageHint realm hint => stage_hint realm hint self
  | SetRealmMetadata realm metadata => set_realm_metadata realm metadata self
  end.

Definition op_realm (op : BootstrapOp) : string :=
  match op with StageHint realm _ => realm | SetRealmMetadata realm _ => realm end.

(** The hints of a realm, in the order they came, and its last metadata. *)
Definition logged_realm (realm : string) (log : list BootstrapOp) : BootstrapRealmState := {|
  brs_realm := realm;
  brs_hints := omap (λ op, match op with
    | StageHint realm' hint => if decide (realm' = realm) then Some hint else None
    | SetRealmMetadata _ _ => None end) log;
  brs_metadata := default ∅ (last (omap (λ op, match op with
    | StageHint _ _ => None
    | SetRealmMetadata realm' metadata => if decide (realm' = realm) then Some metadata else None
    end) log)) |}.

Lemma logged_realm_untouched realm log :
  realm ∉ op_realm <$> log →
  logged_realm realm log = {| brs_realm := realm; brs_hints := []; brs_metadata := ∅ |}.
Proof.
  intros Hn. unfold logged_realm. f_equal.
  - induction log as [|op log IH]; [done|]. apply not_elem_of_cons in Hn as [Hne Hn].
    cbn. destruct op; cbn in Hne; [|by apply IH]. rewrite decide_False by done. by apply IH.
  - assert (omap (λ op, match op with
      | StageHint _ _ => None
      | SetRealmMetadata realm' metadata => if decide (realm' = realm) then Some metadata else None
      end) log = []) as ->; [|done].
    induction log as [|op log IH]; [done|]. apply not_elem_of_cons in Hn as [Hne Hn].
    cbn. destruct op; cbn in Hne; [by apply IH|]. rewrite decide_False by done. by apply IH.
Qed.

Lemma bootstrap_realm_spec config log realm :
  bsv_realms (foldl bootstrap_op (BootstrapService_new config) log) !! realm =
  if decide (realm ∈ op_realm <$> log) then Some (logged_realm realm log) else None.
Proof.
  induction log as [|op log IH] using rev_ind; [done|].
  rewrite foldl_app. cbn [foldl]. set (self := foldl _ _ _) in *.
  assert (default (logged_realm realm log) (bsv_realms self !! realm) = logged_realm realm log) as Hd.
  { rewrite IH. by destruct (decide _). }
  assert (∀ x, realm ∈ op_realm <$> log ++ [x] ↔ realm ∈ op_realm <$> log ∨ realm = op_realm x) as Hin.
  { intros x. rewrite fmap_app, elem_of_app. cbn. by rewrite list_elem_of_singleton. }
  destruct (decide (op_realm op = realm)) as [<-|Hne].
  - rewrite decide_True by (apply Hin; by right).
    destruct op as [r hint|r metadata]; cbn [op_realm bootstrap_op] in *.
    + unfold stage_hint. cbn. rewrite lookup_insert_eq, IH. f_equal.
      unfold logged_realm. rewrite !omap_app. cbn. rewrite (decide_True (P:=r = r)), app_nil_r by done.
      destruct (decide (r ∈ _)) as [|Hn]; [done|]. cbn.
      apply logged_realm_untouched in Hn. unfold logged_realm in Hn. by injection Hn as -> ->.
    + unfold set_realm_metadata. cbn. rewrite lookup_insert_eq, IH. f_equal.
      unfold logged_realm. rewrite !omap_app. cbn. rewrite (decide_True (P:=r = r)), app_nil_r, last_snoc by done.
      destruct (decide (r ∈ _)) as [|Hn]; [done|]. cbn.
      apply logged_realm_untouched in Hn. unfold logged_realm in Hn. by injection Hn as -> _.
  - transitivity (bsv_realms self !! realm).
    { destruct op; cbn in *; by rewrite lookup_insert_ne. }
    rewrite IH.
    assert (logged_realm realm (log ++ [op]) = logged_realm realm log) as ->.
    { unfold logged_realm. rewrite !omap_app. destruct op; cbn in *; rewrite decide_False by done;
        by rewrite !app_nil_r. }
    destruct (decide (realm ∈ op_realm <$> log)) as [Hl|Hl].
    + rewrite decide_True; [done|]. apply Hin. by left.
    + rewrite decide_False; [done|]. rewrite Hin. intros [|]; [done|congruence].
Qed.

(** A snapshot lists the realms the service was told of, each once and in the
    order of their names, with what its log says of them. *)
Lemma bootstrap_snapshot_spec config log :
  let self := foldl bootstrap_op (BootstrapService_new config) log in
  brs_realm <$> bsn_realms (bootstrap_snapshot self) = bt_keys (bsv_realms self) ∧
  ∀ state, state ∈ bsn_realms (bootstrap_snapshot self) ↔
    brs_realm state ∈ op_realm <$> log ∧ state = logged_realm (brs_realm state) log.
Proof.
  intros self. pose proof (bootstrap_realm_spec config log) as Hs. fold self in Hs.
  unfold bootstrap_snapshot. cbn. split.
  - unfold bt_values, bt_keys. rewrite <-list_fmap_compose. apply list_fmap_ext.
    intros i [k v] Hi%list_elem_of_lookup_2. apply elem_of_bt_entries in Hi.
    rewrite Hs in Hi. destruct (decide _); [|done]. by injection Hi as <-.
  - intros state. rewrite elem_of_bt_values. split.
    + intros (k & Hk). rewrite Hs in Hk. destruct (decide _); [|done]. by injection Hk as <-.
    + intros [Hin Heq]. exists (brs_realm state). rewrite Hs, decide_True by done. by rewrite <-Heq.
Qed.

(** ** The simulated network of the test kit *)

(** A generator and its [gen_range] on inclusive bounds. *)
Class GenRange (G : Type) := gen_range : Z → Z → G → Z * G.
Class GenRangeLaws (G : Type) `{GenRange G} : Prop :=
  gen_range_bounds lo hi g : (lo <= hi)%Z → (lo <= (gen_range lo hi g).1 <= hi)%Z.

(* crates/testkit/src/lib.rs:7-13 LinkProfile *)
Record LinkProfile (F : Type) := {
  lp_latency_ms : Z;
  lp_jitter_ms : Z;
  lp_loss_pct : F;
  lp_bandwidth_mbps : Z;
}.
Arguments lp_latency_ms {F} _.
Arguments lp_jitter_ms {F} _.
Arguments lp_loss_pct {F} _.
Arguments lp_bandwidth_mbps {F} _.

(* crates/testkit/src/lib.rs:15-19 DeterministicNetworkSim *)
Record DeterministicNetworkSim (F G : Type) := {
  sim_rng : G;
  sim_links : gmap (PeerId * PeerId) (LinkProfile F);
}.
Arguments sim_rng {F G} _.
Arguments sim_links {F G} _.

Section testkit.
Context {F G : Type} `{GenRange G} (seed_from_u64 : Z → G).

(* crates/testkit/src/lib.rs:22-27 DeterministicNetworkSim::new *)
Definition sim_new (seed : Z) : DeterministicNetworkSim F G := {|
  sim_rng := seed_from_u64 seed; sim_links := ∅ |}.

(* crates/testkit/src/lib.rs:29-33 DeterministicNetworkSim::add_link *)
Definition add_link (left right : PeerId) (profile : LinkProfile F)
    (self : DeterministicNetworkSim F G) : DeterministicNetworkSim F G := {|
  sim_rng := sim_rng self;
  sim_links := <[(right, left) := profile]> (<[(left, right) := profile]> (sim_links self)) |}.

(* crates/testkit/src/lib.rs:35-39 DeterministicNetworkSim::sample_latency *)
Definition sample_latency (left right : PeerId) (self : DeterministicNetworkSim F G)
    : option Z * DeterministicNetworkSim F G :=
  match sim_links self !! (left, right) with
  | None => (None, self)
  | Some link =>
      let '(jitter, rng) := gen_range 0 (lp_jitter_ms link) (sim_rng self) in
      (Some (u32_add (lp_latency_ms link) jitter), {| sim_rng := rng; sim_links := sim_links self |})
  end.

(** A link answers in both directions with a latency between its own and its
    own plus its jitter, unless that overflows. *)
Lemma sample_latency_bounds `{!GenRangeLaws G} left right profile self :
  (0 <= lp_latency_ms profile)%Z → (0 <= lp_jitter_ms profile)%Z →
  (lp_latency_ms profile + lp_jitter_ms profile < 2 ^ 32)%Z →
  let linked := add_link left right profile self in
  ∀ from to_, (from, to_) = (left, right) ∨ (from, to_) = (right, left) →
  ∃ latency linked', sample_latency from to_ linked = (Some latency, linked') ∧
    sim_links linked' = sim_links linked ∧
    (lp_latency_ms profile <= latency <= lp_latency_ms profile + lp_jitter_ms profile)%Z.
Proof.
  intros Hl Hj Hsum linked from to_ Hft.
  assert (sim_links linked !! (from, to_) = Some profile) as Hlink.
  { unfold linked, add_link. cbn. destruct Hft as [[= -> ->]|[= -> ->]].
    - destruct (decide ((right, left) = (left, right))) as [->|Hne]; [by rewrite lookup_insert_eq|].
      by rewrite lookup_insert_ne, lookup_insert_eq.
    - by rewrite lookup_insert_eq. }
  unfold sample_latency. rewrite Hlink.
  pose proof (gen_range_bounds 0 (lp_jitter_ms profile) (sim_rng linked) Hj) as Hb.
  destruct (gen_range _ _ _) as [jitter rng]. cbn in Hb. eexists _, _. split; [reflexivity|].
  split; [done|]. unfold u32_add, u32_wrap. rewrite Z.mod_small by lia. lia.
Qed.
End testkit.

(** ** The C interface *)

(* crates/ffi/src/lib.rs:1-4 ffi_version *)
Definition ffi_version : Z := 1.
