(* ===== verification/Quip.v ===== *)
(** cmd/quip: the command line client: its commands, the requests it sends to a
    daemon, what it does to the files of a node by itself, and what it prints.

    A command runs on a machine: the files, and whatever listens on the
    daemon's endpoint.  The operating system enters as arguments: environment,
    file metadata, clock, process identifier and random bytes. *)
From stdpp Require Import countable option base list strings gmap pretty.
From Stdlib Require Import ZArith Lia Strings.Byte Strings.Ascii.
From S2P Require Import Prelude Text BTree F32 External Model Crypto Records Identity Netcheck Scheduler PeerStore Policy Routing RelayWire Relay Transport Membership Calendar Quic Control ControlFetch Fabric FabricPaths Durable Backup FabricPlane FabricRuntime DaemonApi.

(** ** Arguments *)

(* cmd/quip/src/main.rs:111-129 PathCommand *)
Inductive PathCommand :=
| PathShow (peer : option string) (class : string)
| PathWatch (peer : option string) (class : string) (interval_ms sample_limit : Z).

(* cmd/quip/src/main.rs:131-146 RuntimeCommand *)
Inductive RuntimeCommand :=
| RuntimeTarget
| RuntimeDiagnose (events_limit : Z)
| RuntimeSessions
| RuntimeListeners
| RuntimePaths
| RuntimeHealth
| RuntimeEvents (limit : Z).

(* cmd/quip/src/main.rs:148-169 SessionCommand *)
Inductive SessionCommand :=
| SessionList
| SessionConnect (protocol : string) (peer : option string) (class path_preference : string)
| SessionCloseCommand (session : option string)
| SessionUpgradeCommand (session : option string)
| SessionReconcileCommand.

(* cmd/quip/src/main.rs:171-217 StateCommand *)
Inductive StateCommand :=
| StateShow
| StateBackup (output : option string) (backup_passphrase_env environment : string)
    (hostname : option string) (overwrite : bool)
| StateExport (output : string) (backup_passphrase_env environment : string)
    (hostname : option string) (overwrite : bool)
| StateValidate
| StateMigrate (confirm : bool)
| StateRestore (input : string) (backup_passphrase_env : string) (confirm overwrite : bool)
| StateReset (confirm : bool).

(* cmd/quip/src/main.rs:219-239 AuthorityCommand *)
Inductive AuthorityCommand :=
| AuthorityShow
| AuthorityMembership
| AuthorityCapabilities
| AuthorityRevocations
| AuthoritySyncSnapshot (authority_snapshot : string)
| AuthoritySyncOrigin (authority_origin : string) (authority_subject : option string)
| AuthoritySyncRevocationsOrigin (authority_origin : string).

(* cmd/quip/src/main.rs:241-250 IdentityCommand *)
Inductive IdentityCommand :=
| IdentityPath
| IdentityShow
| IdentityVerify
| IdentityInit (overwrite : bool).

(* cmd/quip/src/main.rs:44-109 Command *)
Inductive Command :=
| Join (authority_snapshot : string)
| JoinOrigin (authority_origin : string) (authority_subject : option string)
| Status
| Peers
| PeerInspect (peer : option string)
| PolicyExplain (protocol : string) (peer : option string)
| NetcheckCommand
| Runtime (command : RuntimeCommand)
| Session (command : SessionCommand)
| Path (command : PathCommand)
| Connect (protocol : string) (peer : option string) (class : string)
| SessionStatus
| SessionClose (session : option string)
| SessionUpgrade (session : option string)
| SessionReconcile
| State (command : StateCommand)
| AuthorityC (command : AuthorityCommand)
| IdentityC (command : IdentityCommand)
| RelayStatus.

(* cmd/quip/src/main.rs:23-42 Cli *)
Record Cli := {
  cli_network : string;
  cli_state_path : string;
  cli_identity_path : string;
  cli_control_discovery_path : string;
  cli_identity_passphrase_env : string;
  cli_command : option Command;
}.

(** The environment of the process. *)
Definition Env : Type := string → option string.

(* cmd/quip/src/main.rs:1803-1810 expand_home_path *)
Definition expand_home_path (env : Env) (path : string) : string :=
  match strip_prefix "~/" path, env "HOME" with
  | Some suffix, Some home => home +:+ "/" +:+ suffix
  | _, _ => path
  end.

(* cmd/quip/src/main.rs:1797-1801 normalize_cli_paths *)
Definition normalize_cli_paths (env : Env) (cli : Cli) : Cli := {|
  cli_network := cli_network cli;
  cli_state_path := expand_home_path env (cli_state_path cli);
  cli_identity_path := expand_home_path env (cli_identity_path cli);
  cli_control_discovery_path := expand_home_path env (cli_control_discovery_path cli);
  cli_identity_passphrase_env := cli_identity_passphrase_env cli;
  cli_command := cli_command cli |}.

(* cmd/quip/src/main.rs:1812-1816 default_hostname *)
Definition default_hostname (env : Env) : string :=
  default "unknown-host" (or_else (env "HOSTNAME") (env "COMPUTERNAME")).

(** [now] is the clock, in seconds. *)
(* cmd/quip/src/main.rs:1818-1824 default_backup_output_path *)
Definition default_backup_output_path (env : Env) (now : Z) (network : string) : string :=
  expand_home_path env ("~/.quip/backup/" +:+ network +:+ "-" +:+ pretty now +:+ ".qbk").

(* cmd/quip/src/main.rs:1826-1829 required_env_value *)
Definition required_env_value (env : Env) (name : string) : result string string :=
  ok_or ("required environment variable " +:+ name +:+ " is not set") (env name).

(* cmd/quip/src/main.rs:2088-2095 parse_class *)
Definition parse_class (value : string) : TrafficClass :=
  if String.eqb value "control" then Control
  else if String.eqb value "bulk" then Bulk
  else if String.eqb value "background" then Background
  else Interactive.

(* cmd/quip/src/main.rs:1428-1435 class_label *)
Definition class_label (class : TrafficClass) : string :=
  match class with
  | Control => "control" | Interactive => "interactive" | Bulk => "bulk" | Background => "background"
  end.

(** ** Texts *)

(** ["a={} b={}"] over its names and values. *)
Definition fields (l : list (string * string)) : string :=
  join " " ((λ '(name, value), name +:+ "=" +:+ value) <$> l).
Definition number (n : Z) : string := pretty n.
Definition or_none (o : option string) : string := default "none" o.

(* cmd/quip/src/main.rs:1658-1664 render_csv *)
Definition render_csv (values : list string) : string :=
  match values with [] => "none" | _ => join "," values end.

(* cmd/quip/src/main.rs:1654-1656 render_roles *)
Definition render_roles (roles : list string) : string := render_csv roles.

(* cmd/quip/src/main.rs:1666-1676 render_protocols *)
Definition render_protocols (protocols : list ProtocolId) : string :=
  match protocols with [] => "none" | _ => join "," (protocol_text <$> protocols) end.

(* cmd/quip/src/main.rs:1686-1703 render_structured_limits *)
Definition render_structured_limits (bandwidth_bps concurrent_streams max_object_bytes : option Z)
    : string :=
  "bandwidth_bps:" +:+ or_none (number <$> bandwidth_bps) +:+
  "|concurrent_streams:" +:+ or_none (number <$> concurrent_streams) +:+
  "|max_object_bytes:" +:+ or_none (number <$> max_object_bytes).

(* cmd/quip/src/main.rs:1678-1684 render_limits *)
Definition render_limits (limits : ResourceLimits) : string :=
  render_structured_limits (rl_bandwidth_bps limits) (rl_concurrent_streams limits)
    (rl_max_object_bytes limits).

(* cmd/quip/src/main.rs:1722-1727 hex_bytes *)
Definition hex_bytes (l : bytes) : string := hex_string l.

(* cmd/quip/src/main.rs:2079-2086 hex_public_key *)
Definition hex_public_key `{Curves} (identity : IdentityKeypair) : string :=
  hex_string (pk_bytes (public_key identity)).

(* cmd/quip/src/main.rs:1705-1720 render_revocation_target *)
Definition render_revocation_target `{Blake3, Varint, Base32} (target : RevocationTarget) : string :=
  match target with
  | TargetEnrollmentToken token_id => "enrollment_token:" +:+ hex_bytes token_id
  | TargetMembershipCertificate subject_peer_id issued_at =>
      "membership_certificate:" +:+ PeerId_to_text subject_peer_id +:+ ":" +:+ pretty issued_at
  | TargetCapabilityGrant subject_peer_id sequence =>
      "capability_grant:" +:+ PeerId_to_text subject_peer_id +:+ ":" +:+ pretty sequence
  | TargetPeer peer_id => "peer:" +:+ PeerId_to_text peer_id
  end.

(* cmd/quip/src/main.rs:1514-1527 render_runtime_listener_line *)
Definition render_runtime_listener_line (listener : RuntimeListenerEntry) (truth_kind : string)
    : string :=
  fields [("listener_id", rle_listener_id listener); ("transport", rle_transport listener);
    ("protocol", rle_protocol listener); ("advertise", bool_text (rle_advertise listener));
    ("state", rle_state listener); ("state_reason", or_none (rle_state_reason listener));
    ("bind_summary", rle_bind_summary listener); ("age_seconds", number (rle_age_seconds listener));
    ("truth_kind", truth_kind)].

(* cmd/quip/src/main.rs:1574-1592 render_runtime_path_alternatives *)
Definition render_runtime_path_alternatives (alternatives : list RuntimePathAlternativeEntry)
    : string :=
  match alternatives with
  | [] => "none"
  | _ => join ", " ((λ alternative,
      rpa_path_class alternative +:+ "/score=" +:+ number (rpa_score alternative) +:+
      "/source=" +:+ rpa_source alternative +:+
      "/relay=" +:+ default "direct" (rpa_relay_peer_id alternative)) <$> alternatives)
  end.

Definition quoted (s : string) : string := String (ascii_of_nat 34) s +:+ String (ascii_of_nat 34) "".

(* cmd/quip/src/main.rs:1551-1572 render_runtime_path_line *)
Definition render_runtime_path_line (path : RuntimePathEntry) (truth_kind : string) : string :=
  fields [("session_id", or_none (rpe_session_id path)); ("peer", rpe_peer_id path);
    ("protocol", or_none (rpe_protocol path)); ("class", rpe_class path);
    ("state", rpe_state path); ("path", rpe_path_class path); ("source", rpe_source path);
    ("relay_peer", or_none (rpe_relay_peer_id path)); ("endpoint", rpe_endpoint_summary path);
    ("score", or_none (number <$> rpe_score path));
    ("state_reason", or_none (rpe_state_reason path));
    ("decision_reason", or_none (rpe_decision_reason path));
    ("summary", quoted (rpe_summary path));
    ("alternatives", "[" +:+ render_runtime_path_alternatives (rpe_alternatives path) +:+ "]");
    ("truth_kind", truth_kind)].

(* cmd/quip/src/main.rs:1529-1549 render_runtime_path_watch_snapshot *)
Definition render_runtime_path_watch_snapshot (truth_kind : string) (paths : list RuntimePathEntry)
    (peer : option string) (class : TrafficClass) : string :=
  match paths with
  | [] => fields [("peer", default "all" peer); ("class", class_label class);
                  ("truth_kind", truth_kind); ("paths", "0")]
  | _ => join " || " ((λ path, render_runtime_path_line path truth_kind) <$> paths)
  end.

(* cmd/quip/src/main.rs:1497-1512 filter_runtime_paths *)
Definition filter_runtime_paths (paths : list RuntimePathEntry) (peer : option string)
    (class : option TrafficClass) : list RuntimePathEntry :=
  let of_peer path :=
    match peer with Some value => String.eqb (rpe_peer_id path) value | None => true end in
  let of_class path :=
    match class with
    | Some value => String.eqb (rpe_class path) (class_label value) | None => true
    end in
  filter (λ path, of_class path = true) (filter (λ path, of_peer path = true) paths).

(* cmd/quip/src/main.rs:1487-1495 emit_filtered_runtime_paths *)
Definition emit_filtered_runtime_paths (truth_kind : string) (paths : list RuntimePathEntry)
    : list string :=
  match paths with
  | [] => [fields [("truth_kind", truth_kind); ("paths", "0")]]
  | _ => (λ path, render_runtime_path_line path truth_kind) <$> paths
  end.

(* cmd/quip/src/main.rs:1445-1447 emit_runtime_paths *)
Definition emit_runtime_paths (paths : RuntimePathsListResult) : list string :=
  emit_filtered_runtime_paths (rpl_truth_kind paths) (rpl_paths paths).

(* cmd/quip/src/main.rs:1449-1460 emit_runtime_listeners *)
Definition emit_runtime_listeners (listeners : RuntimeListenersListResult) : list string :=
  match rll_listeners listeners with
  | [] => [fields [("truth_kind", rll_truth_kind listeners); ("listeners", "0")]]
  | entries => (λ listener, render_runtime_listener_line listener (rll_truth_kind listeners)) <$> entries
  end.

(* cmd/quip/src/main.rs:1462-1485 emit_runtime_health *)
Definition emit_runtime_health (health : RuntimeHealthResult) : list string :=
  [fields [("daemon_readiness", rhr_daemon_readiness health);
    ("authority_sync_health", rhr_authority_sync_health health);
    ("authority_subject_status", rhr_authority_subject_status health);
    ("authority_deny_reason", or_none (rhr_authority_deny_reason health));
    ("runtime_registry_health", rhr_runtime_registry_health health);
    ("path_manager_health", rhr_path_manager_health health);
    ("reconnect_subsystem_health", rhr_reconnect_subsystem_health health);
    ("active_sessions", number (rhr_active_sessions health));
    ("active_paths", number (rhr_active_paths health));
    ("active_listeners", number (rhr_active_listeners health));
    ("reconnect_state", rhr_reconnect_state health);
    ("reconnect_attempts", number (rhr_reconnect_attempt_count health));
    ("reconnect_next_attempt_unix_secs",
       or_none (number <$> rhr_reconnect_next_attempt_unix_secs health));
    ("reconnect_suppressions", number (rhr_reconnect_suppression_count health));
    ("runtime_event_buffer_depth", number (rhr_runtime_event_buffer_depth health));
    ("truth_kind", rhr_truth_kind health)]].

(* cmd/quip/src/main.rs:1729-1746 resolve_daemon_session_id *)
Definition resolve_daemon_session_id (session : option string) (sessions : list RuntimeSessionEntry)
    : result string string :=
  match session with
  | Some session =>
      if bool_decide (str_len session ≠ 32%Z)
      then Err "session ids supplied to CLI must be 32 hex characters"
      else Ok session
  | None => ok_or "a session id is required or an active session must exist"
              (rse_session_id <$> head sessions)
  end.
