(* ===== verification/QuipCommands.v ===== *)
(** cmd/quip: what a command does: its requests to the daemon, its changes of
    the files of the node, and the lines it prints, in their order. *)
From stdpp Require Import countable option base list strings gmap pretty.
From Stdlib Require Import ZArith Lia Strings.Byte Strings.Ascii.
From S2P Require Import Prelude Text BTree F32 External Model Crypto Records Identity Netcheck Scheduler PeerStore Policy Routing RelayWire Relay Transport Membership Calendar Quic Control ControlFetch Fabric FabricPaths Durable Backup FabricPlane FabricRuntime DaemonApi Quip.

(** ** Messages *)

(* crates/daemonapi/src/lib.rs:25-38 ErrorCode (Debug) *)
Definition ErrorCode_debug (code : ErrorCode) : string :=
  match code with
  | InvalidRequest => "InvalidRequest" | Unauthorized => "Unauthorized" | NotFound => "NotFound"
  | RuntimeUnavailable => "RuntimeUnavailable" | StaleRuntimeReference => "StaleRuntimeReference"
  | PolicyRejectedCode => "PolicyRejected" | AuthorityMismatch => "AuthorityMismatch"
  | StateValidationFailed => "StateValidationFailed" | UnsupportedOperation => "UnsupportedOperation"
  | InternalError => "InternalError"
  end.

(** [serde_json::to_value] of the payloads: an absent field is left out. *)
Definition optional {A : Type} (key : string) (f : A → Json) (o : option A) : list (string * Json) :=
  match o with Some a => [(key, f a)] | None => [] end.
Definition connect_value (p : SessionConnectPayload) : Json :=
  JObj ([("peer_id", JStr (scp_peer_id p)); ("protocol", JStr (scp_protocol p))] ++
    optional "class" JStr (scp_class p) ++ optional "path_preference" JStr (scp_path_preference p)).
Definition close_value (p : SessionClosePayload) : Json :=
  JObj ([("session_id", JStr (scl_session_id p))] ++ optional "reason" JStr (scl_reason p)).
Definition upgrade_value (p : SessionUpgradePayload) : Json :=
  JObj [("session_id", JStr (sgp_session_id p))].
Definition reconcile_value (p : SessionReconcilePayload) : Json :=
  JObj (optional "session_id" JStr (srq_session_id p)).
Definition export_value (p : StateExportPayload) : Json :=
  JObj ([("output_path", JStr (sep_output_path p)); ("passphrase", JStr (sep_passphrase p));
     ("hostname", JStr (sep_hostname p)); ("environment", JStr (sep_environment p))] ++
    optional "overwrite" JBool (sep_overwrite p)).
Definition reset_value (p : StateResetPayload) : Json :=
  JObj [("scope", JStr (srp_scope p)); ("confirmation", JStr (srp_confirmation p))].
Definition sync_snapshot_value (p : AuthoritySyncSnapshotPayload) : Json :=
  JObj [("authority_snapshot", JStr (asp_authority_snapshot p))].
Definition sync_origin_value (p : AuthoritySyncOriginPayload) : Json :=
  JObj ([("authority_origin", JStr (aop_authority_origin p))] ++
    optional "authority_subject" JStr (aop_authority_subject p)).
Definition sync_revocations_value (p : AuthoritySyncRevocationsOriginPayload) : Json :=
  JObj [("authority_origin", JStr (arp_authority_origin p))].
Definition no_payload : Json := JObj [].

(** The requests a command makes of the daemon, by the type of their result:
    their operation, their payload and the results that are of the type. *)
Inductive ClientRequest : Type → Type :=
| AskStatus : ClientRequest RuntimeStatusResult
| AskHealth : ClientRequest RuntimeHealthResult
| AskSessions : ClientRequest RuntimeSessionsListResult
| AskDiagnose (event_limit : Z) : ClientRequest RuntimeDiagnoseResult
| AskListeners : ClientRequest RuntimeListenersListResult
| AskPaths : ClientRequest RuntimePathsListResult
| AskEvents (limit : Z) : ClientRequest RuntimeEventsListResult
| AskAuthority : ClientRequest AuthorityShowResult
| AskMembership : ClientRequest AuthorityMembershipResult
| AskCapabilities : ClientRequest AuthorityCapabilitiesResult
| AskRevocations : ClientRequest AuthorityRevocationsResult
| AskIdentity : ClientRequest IdentityShowResult
| AskVerify : ClientRequest IdentityVerifyResult
| AskState : ClientRequest StateShowResult
| AskValidate : ClientRequest StateValidateResult
| AskExport (p : StateExportPayload) : ClientRequest StateExportResult
| AskReset (p : StateResetPayload) : ClientRequest StateResetResult
| AskSyncSnapshot (p : AuthoritySyncSnapshotPayload) : ClientRequest AuthoritySyncResult
| AskSyncOrigin (p : AuthoritySyncOriginPayload) : ClientRequest AuthoritySyncResult
| AskSyncRevocations (p : AuthoritySyncRevocationsOriginPayload) : ClientRequest AuthoritySyncResult
| AskConnect (p : SessionConnectPayload) : ClientRequest SessionConnectResult
| AskClose (p : SessionClosePayload) : ClientRequest SessionCloseResult
| AskUpgrade (p : SessionUpgradePayload) : ClientRequest SessionUpgradeResult
| AskReconcile (p : SessionReconcilePayload) : ClientRequest SessionReconcileResult.

Definition request_operation {T : Type} (q : ClientRequest T) : string :=
  match q with
  | AskStatus => "runtime.status"
  | AskHealth => "runtime.health"
  | AskSessions => "runtime.sessions.list"
  | AskDiagnose _ => "runtime.diagnose"
  | AskListeners => "runtime.listeners.list"
  | AskPaths => "runtime.paths.list"
  | AskEvents _ => "runtime.events.list"
  | AskAuthority => "authority.show"
  | AskMembership => "authority.membership"
  | AskCapabilities => "authority.capabilities"
  | AskRevocations => "authority.revocations"
  | AskIdentity => "identity.show"
  | AskVerify => "identity.verify"
  | AskState => "state.show"
  | AskValidate => "state.validate"
  | AskExport _ => "state.export"
  | AskReset _ => "state.reset"
  | AskSyncSnapshot _ => "authority.sync_snapshot"
  | AskSyncOrigin _ => "authority.sync_origin"
  | AskSyncRevocations _ => "authority.sync_revocations_origin"
  | AskConnect _ => "session.connect"
  | AskClose _ => "session.close"
  | AskUpgrade _ => "session.upgrade"
  | AskReconcile _ => "session.reconcile"
  end.
Definition request_payload {T : Type} (q : ClientRequest T) : Json :=
  match q with
  | AskDiagnose event_limit => JObj [("event_limit", JNum event_limit)]
  | AskEvents limit => JObj [("limit", JNum limit)]
  | AskExport p => export_value p
  | AskReset p => reset_value p
  | AskSyncSnapshot p => sync_snapshot_value p
  | AskSyncOrigin p => sync_origin_value p
  | AskSyncRevocations p => sync_revocations_value p
  | AskConnect p => connect_value p
  | AskClose p => close_value p
  | AskUpgrade p => upgrade_value p
  | AskReconcile p => reconcile_value p
  | _ => no_payload
  end.
Definition request_own {T : Type} (q : ClientRequest T) : DaemonResult → option T :=
  match q in ClientRequest T return DaemonResult → option T with
  | AskStatus => λ r, match r with ResStatus r => Some r | _ => None end
  | AskHealth => λ r, match r with ResHealth r => Some r | _ => None end
  | AskSessions => λ r, match r with ResSessions r => Some r | _ => None end
  | AskDiagnose _ => λ r, match r with ResDiagnose r => Some r | _ => None end
  | AskListeners => λ r, match r with ResListeners r => Some r | _ => None end
  | AskPaths => λ r, match r with ResPaths r => Some r | _ => None end
  | AskEvents _ => λ r, match r with ResEvents r => Some r | _ => None end
  | AskAuthority => λ r, match r with ResAuthorityShow r => Some r | _ => None end
  | AskMembership => λ r, match r with ResMembership r => Some r | _ => None end
  | AskCapabilities => λ r, match r with ResCapabilities r => Some r | _ => None end
  | AskRevocations => λ r, match r with ResRevocations r => Some r | _ => None end
  | AskIdentity => λ r, match r with ResIdentityShow r => Some r | _ => None end
  | AskVerify => λ r, match r with ResIdentityVerify r => Some r | _ => None end
  | AskState => λ r, match r with ResStateShow r => Some r | _ => None end
  | AskValidate => λ r, match r with ResStateValidate r => Some r | _ => None end
  | AskExport _ => λ r, match r with ResStateExport r => Some r | _ => None end
  | AskReset _ => λ r, match r with ResStateReset r => Some r | _ => None end
  | AskSyncSnapshot _ => λ r, match r with ResAuthoritySync r => Some r | _ => None end
  | AskSyncOrigin _ => λ r, match r with ResAuthoritySync r => Some r | _ => None end
  | AskSyncRevocations _ => λ r, match r with ResAuthoritySync r => Some r | _ => None end
  | AskConnect _ => λ r, match r with ResConnect r => Some r | _ => None end
  | AskClose _ => λ r, match r with ResClose r => Some r | _ => None end
  | AskUpgrade _ => λ r, match r with ResUpgrade r => Some r | _ => None end
  | AskReconcile _ => λ r, match r with ResReconcile r => Some r | _ => None end
  end.

(** What the HTTP library makes of a POST: a response below 400 or from 400
    on, with the envelope its body decodes to, or no response. *)
Inductive PostReply :=
| PostOk (body : result string ResponseEnvelope)
| PostStatus (body : result string ResponseEnvelope)
| PostFailed (err : string).

(** [serde_json::from_value] at a result type, given the results that are of
    this type. *)
Class FromValue := from_value : ∀ T : Type, (DaemonResult → option T) → DaemonResult → result string T.
Arguments from_value {_ T} _ _.
Class FromValueLaws `{FromValue} : Prop :=
  from_value_own : ∀ (T : Type) (own : DaemonResult → option T) r t,
    own r = Some t → from_value own r = Ok t.

(** ** The machine *)

(** What the client does with files besides the control plane's operations: it
    reads the daemon's discovery file, restores a bundle, and stores a key
    under a salt and a nonce. *)
Class ClientFiles (C : Type) := {
  read_discovery : C → result string DaemonEndpointDiscovery;
  files_restore : DurableBackupRestoreRequest → Files C →
    result DaemonStateError (DurableBackupRestoreReport * Files C);
  files_store_key : bytes → bytes → string → IdentityKeypair → string → Files C →
    result IdentityError () * Files C;
}.

(** On files of bytes these are the operations of their crates; [fault] is what
    happens to the write of a key. *)
Definition bytes_client_files
    `{Blake3, Varint, Base32, Curves, Sealing, Sha256, BackupFormat, KeyFileJson, StateFormat bytes}
    (fault : option (WriteFault bytes)) (discovery : bytes → result string DaemonEndpointDiscovery) : ClientFiles bytes := {|
  read_discovery := discovery;
  files_restore := restore_backup_bundle;
  files_store_key := keystore_store fault |}.

(** What [fs::metadata] tells of a path. *)
Record PathMetadata := {
  pm_is_file : bool;
  pm_is_dir : bool;
  pm_len : Z;
  pm_mode : Z;
}.

(** The machine, and the lines printed on it so far. *)
Record Shell (C W : Type) := mk_Shell { sh_node : Node C W; sh_out : list string }.
Arguments mk_Shell {C W} _ _.
Arguments sh_node {C W} _.
Arguments sh_out {C W} _.

Definition CliM (C W A : Type) : Type := Shell C W → result string A * Shell C W.
#[export] Instance cli_ret {C W} : MRet (CliM C W) := λ A a sh, (Ok a, sh).
#[export] Instance cli_bind {C W} : MBind (CliM C W) := λ A B f m sh,
  match m sh with (Ok a, sh') => f a sh' | (Err e, sh') => (Err e, sh') end.
Definition cli_lift {C W A} (r : result string A) : CliM C W A := λ sh, (r, sh).
Definition cli_fail {C W A} (e : string) : CliM C W A := λ sh, (Err e, sh).
(** [println!], line by line. *)
Definition print {C W} (lines : list string) : CliM C W () := λ sh,
  (Ok (), mk_Shell (sh_node sh) (sh_out sh ++ lines)).
(** A match on a [Result]. *)
Definition cli_try {C W A} (m : CliM C W A) : CliM C W (result string A) := λ sh,
  let '(r, sh) := m sh in (Ok r, sh).

Section client.
Context `{Blake3, Varint, Base32, Curves, ArtifactJson, JsonText} {C : Type} `{StateFormat C}.
Context `{ClientFiles C} {Body : Type} `{ControlJson Body} `{FromValue} {W : Type}.

Variable env : Env.
(** The clock in seconds, the process identifier, and random bytes. *)
Variables (now pid : Z) (salt nonce random : bytes).
(** [fs::metadata], the Debug text of a string, and what happens on the machine
    while the client sleeps for the n-th time. *)
Variables (metadata : string → option PathMetadata) (debug_text : string → string)
  (asleep : nat → Node C W → Node C W).
(** The authority, and what a POST to an endpoint does. *)
Variable web : string → HttpReply Body.
Variable post : string → RequestEnvelope → Node C W → PostReply * Node C W.
Variable cli : Cli.

Local Notation M := (CliM C W).

(* cmd/quip/src/main.rs:264-267 run (control) *)
Definition cli_config : DaemonConfig := DaemonConfig_new (cli_network cli) (cli_state_path cli).

(** An operation of the control plane, and one on the files alone. *)
Definition on_control {A : Type} (m : FileM C A) : M A := λ sh,
  let '(r, fs) := m (node_files (sh_node sh)) in
  (map_err DaemonStateError_text r, mk_Shell (mk_Node fs (node_transport (sh_node sh))) (sh_out sh)).
Definition changing_files {A : Type} (m : Files C → result DaemonStateError (A * Files C)) : M A :=
  on_control (λ fs, match m fs with Ok (a, fs') => (Ok a, fs') | Err e => (Err e, fs) end).

(* cmd/quip/src/main.rs:1899-1901 load_daemon_discovery *)
Definition load_daemon_discovery (path : string) : M DaemonEndpointDiscovery := λ sh,
  (match (node_files (sh_node sh) : gmap string C) !! path with
   | Some contents => read_discovery contents
   | None => Err "No such file or directory (os error 2)"
   end, sh).

Definition cli_post (endpoint : string) (request : RequestEnvelope) : M PostReply := λ sh,
  let '(reply, n) := post endpoint request (sh_node sh) in (Ok reply, mk_Shell n (sh_out sh)).

(** The envelope of a request of this process. *)
Definition request_envelope (prefix operation : string) (payload : Json) : RequestEnvelope := {|
  rqe_request_id := prefix +:+ "-" +:+ pretty pid;
  rqe_operation := operation;
  rqe_auth := {| rqa_kind := LocalProcess |};
  rqe_payload := payload |}.

(* cmd/quip/src/main.rs:1831-1852 daemon_endpoint_is_live *)
Definition daemon_endpoint_is_live : M bool :=
  discovery ← cli_try (load_daemon_discovery (cli_control_discovery_path cli));
  match discovery with
  | Err _ => mret false
  | Ok discovery =>
      reply ← cli_post (ded_endpoint discovery) (request_envelope "probe" "runtime.health" no_payload);
      mret match reply with PostOk _ | PostStatus _ => true | PostFailed _ => false end
  end.

(* cmd/quip/src/main.rs:1880-1884 daemon_request (error) *)
Definition request_error (envelope : ResponseEnvelope) : string :=
  match rsp_error envelope with
  | Some error => ErrorCode_debug (err_code error) +:+ ": " +:+ err_message error
  | None => "daemon request failed"
  end.

(* cmd/quip/src/main.rs:1854-1897 daemon_request *)
Definition daemon_request {T : Type} (own : DaemonResult → option T) (operation : string)
    (payload : Json) : M T :=
  discovery ← load_daemon_discovery (cli_control_discovery_path cli);
  reply ← cli_post (ded_endpoint discovery) (request_envelope "req" operation payload);
  match reply with
  | PostOk body =>
      envelope ← cli_lift body;
      if negb (rsp_ok envelope) then cli_fail (request_error envelope)
      else
        result ← cli_lift (ok_or "daemon response did not include a result" (rsp_result envelope));
        cli_lift (from_value own result)
  | PostStatus body => envelope ← cli_lift body; cli_fail (request_error envelope)
  | PostFailed err => cli_fail err
  end.

Definition ask {T : Type} (q : ClientRequest T) : M T :=
  daemon_request (request_own q) (request_operation q) (request_payload q).

(* cmd/quip/src/main.rs:1437-1443 resolve_peer *)
Definition resolve_peer (peer : option string) (state : DaemonState) : result string PeerId :=
  ok_or "a peer is required or daemon state must contain at least one peer"
    (or_else (value ← peer; match PeerId_from_str value with Ok p => Some p | Err _ => None end)
       ((λ entry, snap_peer (insp_snapshot entry)) <$> first_peer state)).

(** ** Joining and looking at the state *)

Definition ensured : M DaemonState := on_control (ensure_state cli_config).

(* cmd/quip/src/main.rs:269-278 run (Join) *)
Definition join_command (authority_snapshot : string) : M () :=
  state ← on_control (seed_from_authority_snapshot cli_config authority_snapshot);
  print ["joined " +:+ fields [("network", ds_network state);
    ("local_peer", PeerId_to_text (ds_local_peer_id state));
    ("bootstrap", number (list_len (ds_bootstrap state))); ("state_path", cli_state_path cli)]].

(* cmd/quip/src/main.rs:279-294 run (JoinOrigin) *)
Definition join_origin_command (authority_origin : string) (authority_subject : option string) : M () :=
  state ← on_control (seed_from_authority_origin web cli_config authority_origin authority_subject);
  print ["joined " +:+ fields [("network", ds_network state);
    ("local_peer", PeerId_to_text (ds_local_peer_id state));
    ("bootstrap", number (list_len (ds_bootstrap state))); ("state_path", cli_state_path cli);
    ("authority_origin", authority_origin);
    ("authority_subject", default "active" authority_subject)]].

(** The fields of a report that tell of the authority's reevaluation. *)
Definition reevaluation_fields (a : AuthoritySyncStatus) : list (string * string) := [
  ("authority_subject_mismatch", bool_text (ast_authority_subject_mismatch a));
  ("authority_local_policy_denied", bool_text (ast_local_policy_denied a));
  ("authority_reason", or_none (ast_local_policy_reason a));
  ("authority_reevaluated_sessions", number (ast_reevaluated_sessions a));
  ("authority_closed_sessions", number (ast_closed_sessions a));
  ("authority_degraded_sessions", number (ast_degraded_sessions a));
  ("authority_migrated_sessions", number (ast_migrated_sessions a));
  ("authority_unchanged_sessions", number (ast_unchanged_sessions a));
  ("authority_reevaluated_listeners", number (ast_reevaluated_listeners a));
  ("authority_suppressed_listeners", number (ast_suppressed_listeners a));
  ("authority_restored_listeners", number (ast_restored_listeners a));
  ("authority_reconnect_suppressions_added", number (ast_reconnect_suppressions_added a));
  ("authority_reconnect_suppressions_cleared", number (ast_reconnect_suppressions_cleared a));
  ("authority_revision", ast_last_accepted_revision a)].

(* cmd/quip/src/main.rs:295-335 run (Status) *)
Definition status_command : M () :=
  status ← cli_try (ask AskStatus);
  match status with
  | Ok status =>
      let a := rst_authority status in
      print [fields ([("daemon_health", rst_daemon_health status);
        ("identity_status", ids_status (rst_identity status));
        ("identity_peer", ids_node_id (rst_identity status));
        ("durable_state_status", dst_status (rst_durable_state status));
        ("schema_version", number (dst_schema_version (rst_durable_state status)));
        ("authority_sync", ast_sync_status a); ("authority_health", ast_health a)] ++
        reevaluation_fields a ++
       [("runtime_sessions", number (rsm_session_count (rst_runtime_summary status)));
        ("active_paths", number (rsm_active_path_count (rst_runtime_summary status)));
        ("reconnect_state", rsm_reconnect_state (rst_runtime_summary status));
        ("truth_kind", rst_truth_kind status)])]
  | Err _ =>
      state ← ensured;
      print [daemon_status_line state +:+ " daemon_health=unavailable truth_kind=durable"]
  end.

Definition debug_list (l : list string) : string := "[" +:+ join ", " (debug_text <$> l) +:+ "]".
Definition PeerSource_debug (source : PeerSource) : string :=
  match source with
  | SourceBootstrap => "Bootstrap" | SourceRelayMap => "RelayMap" | SourceDiscovery => "Discovery"
  | SourceManual => "Manual" | SourceObserved => "Observed"
  end.
Definition PeerReachability_debug (reachability : PeerReachability) : string :=
  match reachability with
  | Unknown => "Unknown" | Direct => "Direct" | Relayed => "Relayed"
  | PeerStore.Unreachable => "Unreachable"
  end.
Definition peer_line (peer : PeerInspection) : string :=
  PeerId_to_text (snap_peer (insp_snapshot peer)) +:+ " " +:+
  PeerSource_debug (st_source (insp_status peer)) +:+ " " +:+
  PeerReachability_debug (st_reachability (insp_status peer)) +:+ " " +:+
  debug_list (snap_addresses (insp_snapshot peer)).

(* cmd/quip/src/main.rs:336-352 run (Peers) *)
Definition peers_command : M () :=
  state ← ensured;
  print ((λ peer, peer_line peer +:+
    match deny_reason state (snap_peer (insp_snapshot peer)) with
    | Some reason => " denied=" +:+ reason | None => "" end) <$> ds_peers state).

(* cmd/quip/src/main.rs:353-371 run (PeerInspect) *)
Definition peer_inspect_command (peer : option string) : M () :=
  state ← ensured;
  target ← cli_lift (resolve_peer peer state);
  '(inspection, best_path) ← on_control (inspect_peer cli_config target);
  _ ← print [peer_line inspection +:+ " records=" +:+ number (insp_record_count inspection)];
  _ ← (match deny_reason state (snap_peer (insp_snapshot inspection)) with
       | Some reason => print ["denied: " +:+ reason]
       | None => mret ()
       end);
  match best_path with
  | Some best_path => print [ex_summary (dec_explanation best_path)]
  | None => mret ()
  end.

(* cmd/quip/src/main.rs:372-382 run (PolicyExplain) *)
Definition policy_explain_command (protocol : string) (peer : option string) : M () :=
  state ← ensured;
  target ← cli_lift (resolve_peer peer state);
  protocol ← cli_lift (map_err type_error_text (ProtocolId_new protocol));
  decision ← on_control (plane_explain_policy cli_config target protocol);
  print [fields [("peer", PeerId_to_text target); ("protocol", protocol_text protocol);
    ("allowed", bool_text (allowed decision)); ("reason", reason decision)]].

(* cmd/quip/src/main.rs:383-389 run (Netcheck) *)
Definition netcheck_command : M () :=
  state ← ensured;
  _ ← print [summary (ds_netcheck state)];
  print ((λ warning, "warning: " +:+ warning) <$> warnings (ds_netcheck state)).

(* cmd/quip/src/main.rs:1404-1423 run (RelayStatus) *)
Definition relay_status_command : M () :=
  state ← ensured;
  print match relay_announcements state with
        | [] => ["no relay announcements available"]
        | relays => (λ relay, fields [("peer", PeerId_to_text (ra_peer_id relay));
            ("region", ra_region relay); ("endpoints", debug_list (ra_advertised_endpoints relay));
            ("control_endpoint", ra_control_endpoint relay);
            ("max_bandwidth_bps", number (ra_max_bandwidth_bps relay));
            ("datagrams", bool_text (ra_supports_quic_datagrams relay));
            ("migration", bool_text (ra_supports_path_migration relay));
            ("classes", join "," (ra_traffic_classes relay))]) <$> relays
        end.

(** ** The runtime *)

Definition session_line (truth_kind : string) (session : RuntimeSessionEntry) : string :=
  fields [("session_id", rse_session_id session); ("peer", rse_peer_id session);
    ("state", rse_state session); ("closure_reason", or_none (rse_closure_reason session));
    ("state_reason", or_none (rse_state_reason session)); ("path", rse_active_path_class session);
    ("age_seconds", number (rse_age_seconds session));
    ("last_activity_seconds", number (rse_last_activity_seconds session));
    ("truth_kind", truth_kind)].
Definition event_line (truth_kind : string) (event : RuntimeEventEntry) : string :=
  fields [("event_id", ree_event_id event); ("event_type", ree_event_type event);
    ("emitted_at", ree_emitted_at event); ("event_truth_kind", ree_truth_kind event);
    ("subject_kind", ree_subject_kind event); ("subject_id", ree_subject_id event);
    ("details", json_text (ree_details event)); ("truth_kind", truth_kind)].

(* cmd/quip/src/main.rs:391-404 run (Runtime Target) *)
Definition runtime_target_command : M () :=
  discovery ← load_daemon_discovery (cli_control_discovery_path cli);
  print [fields [("endpoint", ded_endpoint discovery);
    ("discovery_path", cli_control_discovery_path cli); ("network", ded_network discovery);
    ("state_path", ded_state_path discovery); ("identity_path", ded_identity_path discovery);
    ("runtime_instance_id", ded_runtime_instance_id discovery); ("pid", number (ded_pid discovery));
    ("started_at_unix_secs", number (ded_started_at_unix_secs discovery))]].

(* cmd/quip/src/main.rs:412-434 run (Runtime Diagnose, summary) *)
Definition diagnose_line (discovery : DaemonEndpointDiscovery) (diagnose : RuntimeDiagnoseResult)
    : string :=
  fields [("classification", rdr_primary_classification diagnose);
    ("issues", number (list_len (rdr_issues diagnose))); ("endpoint", ded_endpoint discovery);
    ("runtime_instance_id", ded_runtime_instance_id discovery); ("pid", number (ded_pid discovery));
    ("discovery_network", ded_network discovery);
    ("discovery_state_path", ded_state_path discovery);
    ("discovery_identity_path", ded_identity_path discovery);
    ("daemon_health", rst_daemon_health (rdr_status diagnose));
    ("durable_state_valid", bool_text (ssh_valid (rdr_state diagnose)));
    ("identity_match", ivr_match_result (rdr_identity diagnose));
    ("authority_sync", ast_sync_status (ash_authority (rdr_authority_show diagnose)));
    ("authority_health", ast_health (ash_authority (rdr_authority_show diagnose)));
    ("reconnect_state", rhr_reconnect_state (rdr_health diagnose));
    ("sessions", number (list_len (rdr_sessions diagnose)));
    ("paths", number (list_len (rdr_paths diagnose)));
    ("listeners", number (list_len (rdr_listeners diagnose)));
    ("events", number (list_len (rdr_events diagnose)));
    ("truth_kind", rdr_truth_kind diagnose)].

(* cmd/quip/src/main.rs:405-480 run (Runtime Diagnose) *)
Definition runtime_diagnose_command (events_limit : Z) : M () :=
  discovery ← load_daemon_discovery (cli_control_discovery_path cli);
  diagnose ← ask (AskDiagnose events_limit);
  let kind := rdr_truth_kind diagnose in
  print ([diagnose_line discovery diagnose] ++
    ((λ issue, fields [("issue_code", rdi_code issue); ("severity", rdi_severity issue);
       ("layer", rdi_layer issue); ("summary", rdi_summary issue)]) <$> rdr_issues diagnose) ++
    (session_line kind <$> rdr_sessions diagnose) ++
    emit_runtime_listeners {| rll_truth_kind := kind; rll_listeners := rdr_listeners diagnose |} ++
    emit_runtime_paths {| rpl_truth_kind := kind; rpl_paths := rdr_paths diagnose |} ++
    emit_runtime_health (rdr_health diagnose) ++
    match rdr_events diagnose with
    | [] => [fields [("event_truth_kind", kind); ("events", "0")]]
    | events => event_line kind <$> events
    end).

(* cmd/quip/src/main.rs:481-505 run (Runtime Sessions) *)
Definition sessions_command : M () :=
  sessions ← ask AskSessions;
  print match rsl_sessions sessions with
        | [] => [fields [("truth_kind", rsl_truth_kind sessions); ("sessions", "0")]]
        | entries => session_line (rsl_truth_kind sessions) <$> entries
        end.

(* cmd/quip/src/main.rs:553-577 run (Session List) *)
Definition session_list_command : M () := sessions_command.

(* cmd/quip/src/main.rs:744-768 run (SessionStatus) *)
Definition session_status_command : M () := sessions_command.

(* cmd/quip/src/main.rs:506-513 run (Runtime Listeners) *)
Definition runtime_listeners_command : M () :=
  listeners ← ask AskListeners;
  print (emit_runtime_listeners listeners).

(* cmd/quip/src/main.rs:514-521 run (Runtime Paths) *)
Definition runtime_paths_command : M () := paths ← ask AskPaths; print (emit_runtime_paths paths).

(* cmd/quip/src/main.rs:522-526 run (Runtime Health) *)
Definition runtime_health_command : M () :=
  health ← ask AskHealth;
  print (emit_runtime_health health).

(* cmd/quip/src/main.rs:527-550 run (Runtime Events) *)
Definition runtime_events_command (limit : Z) : M () :=
  events ← ask (AskEvents limit);
  print match rel_events events with
        | [] => [fields [("truth_kind", rel_truth_kind events); ("events", "0")]]
        | entries => event_line (rel_truth_kind events) <$> entries
        end.

(** ** Sessions *)

Definition connect_line (result : SessionConnectResult) : string :=
  let session := scr_session result in
  fields [("session_id", scs_session_id session); ("state", scs_state session);
    ("state_reason", or_none (scs_state_reason session)); ("path", scs_initial_path_class session);
    ("truth_kind", scr_truth_kind result)].

(* cmd/quip/src/main.rs:578-604 run (Session Connect) *)
Definition session_connect_command (protocol : string) (peer : option string)
    (class path_preference : string) : M () :=
  state ← ensured;
  target ← cli_lift (resolve_peer peer state);
  result ← ask (AskConnect {| scp_peer_id := PeerId_to_text target; scp_protocol := protocol;
    scp_class := Some class; scp_path_preference := Some path_preference |});
  print [connect_line result].

(* cmd/quip/src/main.rs:718-743 run (Connect) *)
Definition connect_command (protocol : string) (peer : option string) (class : string) : M () :=
  session_connect_command protocol peer class "direct_preferred".

(* cmd/quip/src/main.rs:605-627 run (Session Close) *)
Definition session_close_command (session : option string) : M () :=
  sessions ← ask AskSessions;
  session_id ← cli_lift (resolve_daemon_session_id session (rsl_sessions sessions));
  result ← ask (AskClose {| scl_session_id := session_id; scl_reason := Some "operator_requested" |});
  print [fields [("session_id", slr_closed_session_id result);
    ("final_state", slr_final_state result);
    ("closure_reason", or_none (slr_closure_reason result)); ("truth_kind", slr_truth_kind result)]].

(* cmd/quip/src/main.rs:628-648 run (Session Upgrade) *)
Definition session_upgrade_command (session : option string) : M () :=
  sessions ← ask AskSessions;
  session_id ← cli_lift (resolve_daemon_session_id session (rsl_sessions sessions));
  result ← ask (AskUpgrade {| sgp_session_id := session_id |});
  print [fields [("session_id", sur_session_id result); ("prior_path", sur_prior_path_class result);
    ("resulting_path", sur_resulting_path_class result); ("state", sur_state result);
    ("truth_kind", sur_truth_kind result)]].

(* cmd/quip/src/main.rs:649-673 run (Session Reconcile) *)
Definition session_reconcile_command : M () :=
  result ← ask (AskReconcile {| srq_session_id := None |});
  print (fields [("examined", number (srs_examined result));
      ("unchanged", number (srs_unchanged result)); ("upgraded", number (srs_upgraded result));
      ("closed", number (srs_closed result)); ("truth_kind", srs_truth_kind result)] ::
    ((λ entry, fields [("session_id", sre_session_id entry); ("peer", sre_peer_id entry);
       ("disposition", sre_disposition entry); ("path", sre_path_class entry);
       ("reason", sre_reason entry)]) <$> srs_entries result)).

(** The top-level commands of the same meaning. *)
(* cmd/quip/src/main.rs:769-791 run (SessionClose) *)
Definition close_command (session : option string) : M () := session_close_command session.

(* cmd/quip/src/main.rs:792-812 run (SessionUpgrade) *)
Definition upgrade_command (session : option string) : M () := session_upgrade_command session.

(* cmd/quip/src/main.rs:813-837 run (SessionReconcile) *)
Definition reconcile_command : M () := session_reconcile_command.

(** ** Paths *)

(* cmd/quip/src/main.rs:676-685 run (Path Show) *)
Definition path_show_command (peer : option string) (class : string) : M () :=
  paths ← ask AskPaths;
  print (emit_filtered_runtime_paths (rpl_truth_kind paths)
    (filter_runtime_paths (rpl_paths paths) peer (Some (parse_class class)))).

(** The samples from [index] on, [remaining] of them; a sample is printed when it
    differs from the last one printed. *)
(* cmd/quip/src/main.rs:695-715 run (Path Watch, loop) *)
Fixpoint watch_loop (peer : option string) (class : TrafficClass) (remaining index : nat)
    (previous : option string) : M () :=
  match remaining with
  | 0 => mret ()
  | S remaining =>
      paths ← ask AskPaths;
      let snapshot := render_runtime_path_watch_snapshot (rpl_truth_kind paths)
        (filter_runtime_paths (rpl_paths paths) peer (Some class)) peer class in
      _ ← (if bool_decide (previous = Some snapshot) then mret ()
           else print ["sample=" +:+ number (Z.of_nat (S index)) +:+ " " +:+ snapshot]);
      _ ← (match remaining with
           | 0 => mret ()
           | S _ => λ sh, (Ok (), mk_Shell (asleep index (sh_node sh)) (sh_out sh))
           end : M ());
      watch_loop peer class remaining (S index) (Some snapshot)
  end.

(* cmd/quip/src/main.rs:686-716 run (Path Watch) *)
Definition path_watch_command (peer : option string) (class : string) (interval_ms sample_limit : Z)
    : M () :=
  watch_loop peer (parse_class class) (Z.to_nat (Z.max sample_limit 1)) 0 None.

(** ** The state file *)

Definition violations_text (violations : list DurableStateViolationEntry) : string :=
  match violations with
  | [] => "none"
  | _ => join ";" ((λ v, dve_path v +:+ "=" +:+ dve_message v) <$> violations)
  end.

(* cmd/quip/src/main.rs:839-912 run (State Show) *)
Definition state_show_command : M () :=
  result ← ask AskState;
  let summary := ssh_summary result in
  let text f := or_none (f <$> summary) in
  let count f := default "0" (number ∘ f <$> summary) in
  print [fields [("state_path", ssh_state_path result); ("present", bool_text (ssh_present result));
    ("schema_version", or_none (number <$> ssh_schema_version result));
    ("valid", bool_text (ssh_valid result)); ("summary_network", text dsr_network);
    ("summary_local_peer", text dsr_local_peer_id);
    ("summary_roles", text (λ s, join "," (dsr_roles s)));
    ("summary_bootstrap", count dsr_bootstrap_hints); ("summary_relays", count dsr_relays);
    ("summary_peers", count dsr_peers); ("summary_grants", count dsr_capability_grants);
    ("summary_revocations", count dsr_revocations); ("summary_denied", count dsr_denied_peers);
    ("summary_path_candidates", count dsr_path_candidates);
    ("violations", violations_text (ssh_violations result)); ("truth_kind", ssh_truth_kind result)]].

Definition export_line (result : StateExportResult) : string :=
  fields [("bundle_path", ser_bundle_path result);
    ("created_at_unix_secs", number (ser_created_at_unix_secs result));
    ("hostname", ser_hostname result); ("environment", ser_environment result);
    ("network", ser_network result); ("identity_sha256", ser_identity_sha256_hex result);
    ("state_sha256", ser_state_sha256_hex result);
    ("durable_state_present", bool_text (ser_durable_state_present result));
    ("durable_state_valid", bool_text (ser_durable_state_valid result));
    ("truth_kind", ser_truth_kind result)].

(* cmd/quip/src/main.rs:949-981 run (State Export) *)
Definition state_export_command (output backup_passphrase_env environment : string)
    (hostname : option string) (overwrite : bool) : M () :=
  passphrase ← cli_lift (required_env_value env backup_passphrase_env);
  result ← ask (AskExport {| sep_output_path := expand_home_path env output;
    sep_passphrase := passphrase; sep_hostname := default (default_hostname env) hostname;
    sep_environment := environment; sep_overwrite := Some overwrite |});
  print [export_line result].

(* cmd/quip/src/main.rs:913-948 run (State Backup) *)
Definition state_backup_command (output : option string)
    (backup_passphrase_env environment : string) (hostname : option string) (overwrite : bool) : M () :=
  let output_path := default (default_backup_output_path env now (cli_network cli))
    (expand_home_path env <$> output) in
  passphrase ← cli_lift (required_env_value env backup_passphrase_env);
  result ← ask (AskExport {| sep_output_path := output_path;
    sep_passphrase := passphrase; sep_hostname := default (default_hostname env) hostname;
    sep_environment := environment; sep_overwrite := Some overwrite |});
  print [export_line result].

(* cmd/quip/src/main.rs:982-1006 run (State Validate) *)
Definition state_validate_command : M () :=
  report ← ask AskValidate;
  print [fields [("state_path", svr_state_path report); ("present", bool_text (svr_present report));
    ("schema_version", or_none (number <$> svr_schema_version report));
    ("valid", bool_text (svr_valid report)); ("violations", violations_text (svr_violations report));
    ("truth_kind", svr_truth_kind report)]].

(** What a command that rewrites the files of a stopped daemon asks first. *)
Definition offline (confirm : bool) (unconfirmed running : string) : M () :=
  if negb confirm then cli_fail unconfirmed
  else
    live ← daemon_endpoint_is_live;
    if (live : bool) then cli_fail running else mret ().

(* cmd/quip/src/main.rs:1007-1032 run (State Migrate) *)
Definition state_migrate_command (confirm : bool) : M () :=
  _ ← offline confirm
    "state migrate is destructive; rerun with --confirm after stopping quipd to rewrite durable network state to the current schema"
    "state migrate requires quipd to be stopped before durable state is rewritten in place";
  report ← changing_files (migrate_durable_state_file (cli_state_path cli));
  print [fields [("state_path", mr_state_path report);
    ("from_schema_version", number (mr_from_schema_version report));
    ("to_schema_version", number (mr_to_schema_version report));
    ("migrated_fields", render_csv (mr_migrated_fields report))]].

(* cmd/quip/src/main.rs:1033-1071 run (State Restore) *)
Definition state_restore_command (input backup_passphrase_env : string) (confirm overwrite : bool)
    : M () :=
  _ ← offline confirm
    "state restore is destructive; rerun with --confirm after stopping quipd to restore the same logical node"
    "state restore requires quipd to be stopped before identity and durable state are replaced";
  passphrase ← cli_lift (required_env_value env backup_passphrase_env);
  report ← changing_files (files_restore {| rs_input_path := expand_home_path env input;
    rs_passphrase := passphrase; rs_identity_path := cli_identity_path cli;
    rs_state_path := cli_state_path cli; rs_overwrite := overwrite |});
  print [fields [("bundle_path", rst_input_path report);
    ("restored_identity_path", rst_restored_identity_path report);
    ("restored_state_path", rst_restored_state_path report);
    ("created_at_unix_secs", number (rst_created_at_unix_secs report));
    ("hostname", rst_hostname report); ("environment", rst_environment report);
    ("network", rst_network report); ("identity_sha256", rst_identity_sha256_hex report);
    ("state_sha256", rst_state_sha256_hex report); ("next_action", "daemon_start_required");
    ("truth_kind", "durable")]].

(* cmd/quip/src/main.rs:1072-1095 run (State Reset) *)
Definition state_reset_command (confirm : bool) : M () :=
  if negb confirm then cli_fail
    "state reset is destructive; rerun with --confirm to preserve identity and remove only durable network state"
  else
    result ← ask (AskReset {| srp_scope := "network_state_only";
      srp_confirmation := "preserve-identity-reset-network-state" |});
    print [fields [("state_path", cli_state_path cli);
      ("identity_preserved", bool_text (srr_identity_preserved result));
      ("network_state_reset", bool_text (srr_network_state_reset result));
      ("next_action", srr_next_action result); ("truth_kind", srr_truth_kind result)]].

(** ** The authority *)

(* cmd/quip/src/main.rs:1098-1139 run (Authority Show) *)
Definition authority_show_command : M () :=
  authority ← ask AskAuthority;
  print [fields ([("network", ash_network authority); ("local_peer", ash_local_peer_id authority);
      ("membership_subject", ash_membership_subject_peer_id authority);
      ("membership_issuer", ash_membership_issuer_peer_id authority);
      ("roles", render_csv (ash_membership_roles authority));
      ("grants", number (ash_grants authority)); ("revocations", number (ash_revocations authority));
      ("denied", number (ash_denied_peers authority));
      ("bootstrap", number (ash_bootstrap_hints authority));
      ("relays", number (ash_relays authority));
      ("schema_version", number (ash_schema_version authority));
      ("authority_sync", ast_sync_status (ash_authority authority));
      ("authority_health", ast_health (ash_authority authority))] ++
    reevaluation_fields (ash_authority authority) ++
     [("configured_origin", or_none (ash_configured_origin authority));
      ("configured_subject", or_none (ash_configured_subject authority));
      ("configured_snapshot", or_none (ash_configured_snapshot authority));
      ("truth_kind", ash_truth_kind authority)])].

(* cmd/quip/src/main.rs:1140-1157 run (Authority Membership) *)
Definition authority_membership_command : M () :=
  membership ← ask AskMembership;
  print [fields [("network", amr_network membership); ("subject_peer", amr_subject_peer_id membership);
    ("issuer_peer", amr_issuer_peer_id membership); ("issued_at", number (amr_issued_at membership));
    ("expires_at", number (amr_expires_at membership)); ("roles", render_roles (amr_roles membership));
    ("schema_version", number (amr_schema_version membership));
    ("truth_kind", amr_truth_kind membership)]].

(* cmd/quip/src/main.rs:1158-1195 run (Authority Capabilities) *)
Definition authority_capabilities_command : M () :=
  capabilities ← ask AskCapabilities;
  let ending := [("schema_version", number (acr_schema_version capabilities));
                 ("truth_kind", acr_truth_kind capabilities)] in
  print match acr_grants capabilities with
        | [] => [fields ([("network", acr_network capabilities);
            ("subject_peer", acr_subject_peer_id capabilities); ("active_grants", "0")] ++ ending)]
        | grants => (λ grant, fields ([("network", acr_network capabilities);
            ("subject_peer", ace_subject_peer_id grant); ("issuer_peer", ace_issuer_peer_id grant);
            ("sequence", number (ace_sequence grant)); ("not_before", number (ace_not_before grant));
            ("expires_at", number (ace_expires_at grant));
            ("capabilities", render_csv (ace_capabilities grant));
            ("protocols", render_csv (ace_protocols grant));
            ("limits", render_structured_limits (ace_bandwidth_bps grant)
               (ace_concurrent_streams grant) (ace_max_object_bytes grant));
            ("constraints", render_csv (ace_constraints grant))] ++ ending)) <$> grants
        end.

(* cmd/quip/src/main.rs:1196-1223 run (Authority Revocations) *)
Definition authority_revocations_command : M () :=
  revocations ← ask AskRevocations;
  let ending := [("schema_version", number (arr_schema_version revocations));
                 ("truth_kind", arr_truth_kind revocations)] in
  print match arr_revocations revocations with
        | [] => [fields ([("network", arr_network revocations); ("revocations", "0")] ++ ending)]
        | records => (λ revocation, fields ([("network", arr_network revocations);
            ("sequence", number (are_sequence revocation));
            ("issuer_peer", are_issuer_peer_id revocation);
            ("effective_at", number (are_effective_at revocation)); ("reason", are_reason revocation);
            ("target", are_target revocation); ("note", or_none (are_note revocation))] ++ ending))
            <$> records
        end.

(** The parts of the lines of the three synchronizations. *)
Definition sync_delta (r : AuthoritySyncResult) : list (string * string) := [
  ("grants_added", number (asr_grants_added r)); ("grants_removed", number (asr_grants_removed r));
  ("revocations_added", number (asr_revocations_added r));
  ("bootstrap_hints_added", number (asr_bootstrap_hints_added r));
  ("bootstrap_hints_removed", number (asr_bootstrap_hints_removed r));
  ("relay_announcements_added", number (asr_relay_announcements_added r))].
Definition sync_ending (r : AuthoritySyncResult) : list (string * string) :=
  let a := asr_authority r in [
  ("authority_revision", ast_last_accepted_revision a); ("authority_sync", ast_sync_status a);
  ("authority_health", ast_health a);
  ("authority_reevaluated_sessions", number (ast_reevaluated_sessions a));
  ("authority_closed_sessions", number (ast_closed_sessions a));
  ("authority_degraded_sessions", number (ast_degraded_sessions a));
  ("authority_migrated_sessions", number (ast_migrated_sessions a));
  ("authority_reconnect_suppressions_added", number (ast_reconnect_suppressions_added a));
  ("truth_kind", asr_truth_kind r)].

(* cmd/quip/src/main.rs:1224-1252 run (Authority SyncSnapshot) *)
Definition sync_snapshot_command (authority_snapshot : string) : M () :=
  r ← ask (AskSyncSnapshot {| asp_authority_snapshot := authority_snapshot |});
  print ["synced " +:+ fields ([("network", asr_network r); ("local_peer", asr_local_peer_id r)] ++
    sync_delta r ++ [("membership_changed", bool_text (asr_membership_changed r));
      ("authority_source", asr_authority_source r)] ++ sync_ending r)].

(* cmd/quip/src/main.rs:1253-1289 run (Authority SyncOrigin) *)
Definition sync_origin_command (authority_origin : string) (authority_subject : option string) : M () :=
  r ← ask (AskSyncOrigin {|
    aop_authority_origin := authority_origin; aop_authority_subject := authority_subject |});
  print ["synced " +:+ fields ([("network", asr_network r); ("local_peer", asr_local_peer_id r)] ++
    sync_delta r ++ [("membership_changed", bool_text (asr_membership_changed r));
      ("authority_source", asr_authority_source r);
      ("authority_origin", or_none (asr_authority_origin r));
      ("authority_subject", default "active" (asr_authority_subject r))] ++ sync_ending r)].

(* cmd/quip/src/main.rs:1290-1316 run (Authority SyncRevocationsOrigin) *)
Definition sync_revocations_command (authority_origin : string) : M () :=
  r ← ask (AskSyncRevocations {| arp_authority_origin := authority_origin |});
  print ["synced-revocations " +:+ fields ([("network", asr_network r);
      ("local_peer", asr_local_peer_id r); ("revocations_added", number (asr_revocations_added r));
      ("membership_changed", bool_text (asr_membership_changed r));
      ("authority_source", asr_authority_source r);
      ("authority_origin", or_none (asr_authority_origin r))] ++ sync_ending r)].

(** ** The identity *)

(** ["{:o}"] of a number below 512. *)
Definition octal (n : Z) : string :=
  let digit d := String (ascii_of_N (48 + Z.to_N d)) "" in
  if (n <? 8)%Z then digit n
  else if (n <? 64)%Z then digit (n / 8)%Z +:+ digit (n mod 8)%Z
  else digit (n / 64)%Z +:+ digit ((n / 8) mod 8)%Z +:+ digit (n mod 8)%Z.

(* cmd/quip/src/main.rs:1319-1359 run (Identity Path) *)
Definition identity_path_command : M () :=
  let found := metadata (cli_identity_path cli) in
  print [fields [("identity_path", cli_identity_path cli);
    ("exists", bool_text (bool_decide (is_Some found)));
    ("kind", match found with
             | Some m => if pm_is_file m then "file" else if pm_is_dir m then "dir" else "other"
             | None => "missing" end);
    ("bytes", number (default 0%Z (pm_len <$> found)));
    ("mode", or_none ((λ m, octal (Z.land (pm_mode m) 511)) <$> found));
    ("passphrase_env", cli_identity_passphrase_env cli);
    ("control_discovery_path", cli_control_discovery_path cli)]].

(* cmd/quip/src/main.rs:1360-1374 run (Identity Show) *)
Definition identity_show_command : M () :=
  identity ← ask AskIdentity;
  print [fields [("identity_path", ish_identity_path identity); ("load_status", ish_status identity);
    ("peer", ish_node_id identity); ("public_key_hex", ish_public_key_hex identity);
    ("durable_state_peer", or_none (ish_durable_state_peer_id identity));
    ("authority_subject_peer", or_none (ish_authority_subject_peer_id identity));
    ("state_binding", ish_state_binding_status identity); ("truth_kind", ish_truth_kind identity)]].

(* cmd/quip/src/main.rs:1375-1392 run (Identity Verify) *)
Definition identity_verify_command : M () :=
  identity ← ask AskVerify;
  print [fields [("identity_path", ivr_identity_path identity);
    ("expected_peer", or_none (ivr_expected_node_id identity));
    ("loaded_peer", ivr_loaded_node_id identity);
    ("authority_subject_peer", or_none (ivr_authority_subject_peer_id identity));
    ("match_result", ivr_match_result identity);
    ("mismatch_reasons", match ivr_mismatch_reasons identity with
                         | [] => "none" | reasons => join "|" reasons end);
    ("truth_kind", ivr_truth_kind identity)]].

(* cmd/quip/src/main.rs:1764-1786 init_identity *)
Definition init_identity (identity_path passphrase_env : string) (overwrite : bool)
    : M IdentityKeypair := λ sh,
  if file_exists identity_path (node_files (sh_node sh)) && negb overwrite
  then (Err "identity path already exists; rerun with --overwrite to replace it", sh)
  else
    match env passphrase_env with
    | None => (Err ("identity passphrase env var " +:+ passphrase_env +:+ " must be set"), sh)
    | Some passphrase =>
        let identity := keypair_generate random in
        let '(stored, fs) := files_store_key salt nonce identity_path identity passphrase
          (node_files (sh_node sh)) in
        (match stored with Ok _ => Ok identity | Err error => Err (identity_error_text error) end,
         mk_Shell (mk_Node fs (node_transport (sh_node sh))) (sh_out sh))
    end.

(* cmd/quip/src/main.rs:1393-1402 run (Identity Init) *)
Definition identity_init_command (overwrite : bool) : M () :=
  identity ← init_identity (cli_identity_path cli) (cli_identity_passphrase_env cli) overwrite;
  print [fields [("identity_path", cli_identity_path cli);
    ("peer", PeerId_to_text (peer_id identity)); ("public_key_hex", hex_public_key identity)]].

(** ** The program *)

(* cmd/quip/src/main.rs:390-551 run (Runtime) *)
Definition run_runtime (command : RuntimeCommand) : M () :=
  match command with
  | RuntimeTarget => runtime_target_command
  | RuntimeDiagnose events_limit => runtime_diagnose_command events_limit
  | RuntimeSessions => sessions_command
  | RuntimeListeners => runtime_listeners_command
  | RuntimePaths => runtime_paths_command
  | RuntimeHealth => runtime_health_command
  | RuntimeEvents limit => runtime_events_command limit
  end.

(* cmd/quip/src/main.rs:552-674 run (Session) *)
Definition run_session (command : SessionCommand) : M () :=
  match command with
  | SessionList => session_list_command
  | SessionConnect protocol peer class path_preference =>
      session_connect_command protocol peer class path_preference
  | SessionCloseCommand session => session_close_command session
  | SessionUpgradeCommand session => session_upgrade_command session
  | SessionReconcileCommand => session_reconcile_command
  end.

(* cmd/quip/src/main.rs:675-717 run (Path) *)
Definition run_path (command : PathCommand) : M () :=
  match command with
  | PathShow peer class => path_show_command peer class
  | PathWatch peer class interval_ms sample_limit =>
      path_watch_command peer class interval_ms sample_limit
  end.

Definition run_state (command : StateCommand) : M () :=
  match command with
  | StateShow => state_show_command
  | StateBackup output passphrase_env environment hostname overwrite =>
      state_backup_command output passphrase_env environment hostname overwrite
  | StateExport output passphrase_env environment hostname overwrite =>
      state_export_command output passphrase_env environment hostname overwrite
  | StateValidate => state_validate_command
  | StateMigrate confirm => state_migrate_command confirm
  | StateRestore input passphrase_env confirm overwrite =>
      state_restore_command input passphrase_env confirm overwrite
  | StateReset confirm => state_reset_command confirm
  end.

Definition run_authority (command : AuthorityCommand) : M () :=
  match command with
  | AuthorityShow => authority_show_command
  | AuthorityMembership => authority_membership_command
  | AuthorityCapabilities => authority_capabilities_command
  | AuthorityRevocations => authority_revocations_command
  | AuthoritySyncSnapshot authority_snapshot => sync_snapshot_command authority_snapshot
  | AuthoritySyncOrigin authority_origin authority_subject =>
      sync_origin_command authority_origin authority_subject
  | AuthoritySyncRevocationsOrigin authority_origin => sync_revocations_command authority_origin
  end.

Definition run_identity (command : IdentityCommand) : M () :=
  match command with
  | IdentityPath => identity_path_command
  | IdentityShow => identity_show_command
  | IdentityVerify => identity_verify_command
  | IdentityInit overwrite => identity_init_command overwrite
  end.

(** The paths of [cli] are those [normalize_cli_paths] gives. *)
(* cmd/quip/src/main.rs:260-1426 run *)
Definition run_cli : M () :=
  match default Status (cli_command cli) with
  | Join authority_snapshot => join_command authority_snapshot
  | JoinOrigin authority_origin authority_subject =>
      join_origin_command authority_origin authority_subject
  | Status => status_command
  | Peers => peers_command
  | PeerInspect peer => peer_inspect_command peer
  | PolicyExplain protocol peer => policy_explain_command protocol peer
  | NetcheckCommand => netcheck_command
  | Runtime command => run_runtime command
  | Session command => run_session command
  | Path command => run_path command
  | Connect protocol peer class => connect_command protocol peer class
  | SessionStatus => session_status_command
  | SessionClose session => close_command session
  | SessionUpgrade session => upgrade_command session
  | SessionReconcile => reconcile_command
  | State command => run_state command
  | AuthorityC command => run_authority command
  | IdentityC command => run_identity command
  | RelayStatus => relay_status_command
  end.
End client.
