(* ===== verification/QuipProps.v ===== *)
(** The client and the daemon together: how a request of the client is
    answered, that its commands do not set the daemon's state back, and what
    stands before the commands that rewrite the files of a stopped daemon. *)
From stdpp Require Import countable option base list strings gmap pretty.
From Stdlib Require Import ZArith Lia Strings.Byte Strings.Ascii.
From S2P Require Import Prelude Text BTree F32 External Model Crypto Records Identity Netcheck Scheduler PeerStore Policy Routing RelayWire Relay Transport Membership Calendar Quic QuicProps Control ControlFetch Authority AuthorityProps Fabric FabricProps FabricPaths Durable Backup FabricPlane FabricRuntime DurableProps FabricPathsProps FabricPlaneProps FabricRuntimeProps EndToEnd FabricQuic Quipd DaemonApi QuipdApi QuipdControl QuipdServer QuipdProps QuipdCycle QuipdSafety QuipdControlProps Quip QuipCommands.

(** ** The wire *)

(** [serde_json::to_vec] of an envelope. *)
Class EnvelopeText := envelope_text : RequestEnvelope → bytes.

(** What the daemon reads is what the client wrote. *)
Class WireLaws `{DaemonJson, EnvelopeText} : Prop := {
  wire_envelope e : json_envelope (envelope_text e) = Ok e;
  wire_diagnose n : (0 <= n <= u64_max)%Z →
    json_diagnose (JObj [("event_limit", JNum n)]) = Ok {| rdp_event_limit := Some n |};
  wire_export p : json_export (export_value p) = Ok p;
  wire_reset p : json_reset (reset_value p) = Ok p;
  wire_sync_snapshot p : json_sync_snapshot (sync_snapshot_value p) = Ok p;
  wire_sync_origin p : json_sync_origin (sync_origin_value p) = Ok p;
  wire_sync_revocations p : json_sync_revocations (sync_revocations_value p) = Ok p;
  wire_connect p : json_connect (connect_value p) = Ok p;
  wire_close p : json_close (close_value p) = Ok p;
  wire_upgrade p : json_upgrade (upgrade_value p) = Ok p;
  wire_reconcile p : json_reconcile (reconcile_value p) = Ok p;
}.

(** What storing a key writes: its path, nothing else. *)
Class ClientFilesLaws (C : Type) `{ClientFiles C} : Prop :=
  store_key_writes salt nonce path identity passphrase (fs : Files C) p :
    p ≠ path →
    ((files_store_key salt nonce path identity passphrase fs).2 : gmap string C) !! p =
      (fs : gmap string C) !! p.

#[export] Instance bytes_client_files_laws
    `{Blake3, Varint, Base32, Curves, Sealing, Sha256, BackupFormat, KeyFileJson, StateFormat bytes} fault discovery :
  ClientFilesLaws bytes (H := bytes_client_files fault discovery).
Proof.
  intros salt nonce path identity passphrase fs p Hp. cbn [files_store_key bytes_client_files].
  unfold keystore_store. destruct (_ ≫= _) as [blob|e]; [|done].
  pose proof (fs_write_other fault path (keyfile_to_json blob) fs p Hp) as Hw.
  by destruct (fs_write _ _ _ _).
Qed.

(** ** Results have the type the client asks for *)

Section types.
Context `{Blake3, Varint, Base32, Curves, ArtifactJson, JsonBytes SessionCredentialUnsigned}.
Context {C : Type} `{StateFormat C} `{BackupStore C} {Body : Type} `{ControlJson Body}.
Context `{DaemonJson}.
Context {R : Type} `{RelayControl R} (clock : nat → Z) (rng : nat → nat → bytes).
Variable web : string → HttpReply Body.
Variable args : Args.
Variable identity : IdentityKeypair.
Local Notation M := (NodeM C (World R)).

Context {T : Type} (own : DaemonResult → option T).

(** An operation whose values the client can read, and a handler whose
    successful answers it can. *)
Definition yields (m : M DaemonResult) : Prop :=
  ∀ n a n', m n = (Ok a, n') → is_Some (own a).
Definition readable (h : Handler (C := C) (R := R)) : Prop :=
  ∀ envelope n response n' result,
    h envelope n = (Returns response, n') → rsp_result response = Some result → is_Some (own result).

Lemma yields_bind {A : Type} (m : M A) f : (∀ a, yields (f a)) → yields (m ≫= f).
Proof.
  intros Hf n a n'. unfold mbind, node_bind. destruct (m n) as [[b|e] n1]; [apply Hf|done].
Qed.
Lemma yields_ret a : is_Some (own a) → yields (mret a).
Proof. by intros Ha n b n' [= <- <-]. Qed.

Lemma error_no_result id error result :
  rsp_result (daemon_error_response id error) = Some result → is_Some (own result).
Proof. unfold daemon_error_response. by destruct (daemon_error_code error). Qed.

Lemma respond_readable id m n response n' result :
  yields m → respond id m n = (Returns response, n') → rsp_result response = Some result →
  is_Some (own result).
Proof.
  intros Hm. unfold respond. destruct (m n) as [[a|e] n1] eqn:Hr; intros [= <- <-].
  - intros [= <-]. by eapply Hm.
  - apply error_no_result.
Qed.

Lemma readable_respond (m : RequestEnvelope → M DaemonResult) :
  (∀ envelope, yields (m envelope)) →
  readable (λ envelope, respond (rqe_request_id envelope) (m envelope)).
Proof. intros Hm envelope n response n' result. by apply respond_readable. Qed.

Lemma readable_refuse code message details :
  readable (λ envelope, refuse (rqe_request_id envelope) code message details).
Proof. by intros envelope n response n' result [= <- <-]. Qed.

Lemma readable_payload {P : Type} (decode : Json → result string P) what k :
  (∀ payload, readable (k payload)) → readable (with_payload decode what k).
Proof.
  intros Hk envelope n response n' result. unfold with_payload. destruct (decode _) as [payload|e].
  - apply Hk.
  - by intros [= <- <-].
Qed.

Lemma readable_session value k : (∀ id, readable (k id)) → readable (with_session value k).
Proof.
  intros Hk envelope n response n' result. unfold with_session.
  destruct (parse_hex_session_id value) as [[id|e]|]; [apply Hk|by intros [= <- <-]|done].
Qed.
End types.

(** ** A request and its answer *)

Section answers.
Context `{Blake3, Varint, Base32, Curves, ArtifactJson, JsonBytes SessionCredentialUnsigned}.
Context {C : Type} `{StateFormat C} `{BackupStore C} {Body : Type} `{ControlJson Body}.
Context `{WireLaws}.
Context {R : Type} `{RelayControl R} (clock : nat → Z) (rng : nat → nat → bytes).
Variable web : string → HttpReply Body.
Variable args : Args.
Variable identity : IdentityKeypair.
Context `{ClientFiles C} `{FromValueLaws} (pid : Z).
Variable cli : Cli.
(** The daemon's endpoint, and the text of a connection it drops. *)
Variables (here lost : string).

Lemma readable_connect p :
  readable (request_own (AskConnect p)) (session_connect_response (C := C) clock rng args identity).
Proof.
  apply readable_payload. intros payload envelope n response n' result. cbv zeta.
  destruct (on_files _ n) as [[s|e] n1]; [|intros [= <- <-]; apply error_no_result].
  destruct (PeerId_from_str _); [|by intros [= <- <-]].
  destruct (ProtocolId_new _); [|by intros [= <- <-]].
  apply respond_readable. repeat first [apply yields_ret; by eexists|apply yields_bind; intros ?].
Qed.

Lemma readable_upgrade p :
  readable (request_own (AskUpgrade p)) (session_upgrade_response (C := C) clock rng args).
Proof.
  apply readable_payload. intros payload. apply readable_session. intros id envelope n response n' result.
  cbv zeta. destruct (sync_runtime_sessions _ n) as [[s|e] n1]; [|intros [= <- <-]; apply error_no_result].
  destruct (find_first _ _) as [prior|]; [|by intros [= <- <-]].
  apply respond_readable. repeat first [apply yields_ret; by eexists|apply yields_bind; intros ?].
Qed.

Ltac readable_step :=
  first
    [ apply readable_refuse | apply (readable_respond _ (λ _, _)); intros ?
    | apply readable_payload; intros ? | apply readable_session; intros ?
    | apply yields_ret; eexists; reflexivity | apply yields_bind; intros ? | case_match ].

(** A request of the client is answered by a result of the type it asks for. *)
Lemma route_readable {T : Type} (q : ClientRequest T) envelope n response n' result :
  rqe_operation envelope = request_operation q →
  route_operation (C := C) clock rng web args identity envelope n = (Returns response, n') →
  rsp_result response = Some result → is_Some (request_own q result).
Proof.
  intros Hop. unfold route_operation. rewrite Hop. revert envelope n response n' result Hop.
  assert (∀ h : Handler (C := C) (R := R), readable (request_own q) h →
    ∀ envelope n response n' result, rqe_operation envelope = request_operation q →
    h envelope n = (Returns response, n') → rsp_result response = Some result →
    is_Some (request_own q result)) as Hr by (intros h Hh; intros; by eapply Hh).
  destruct q; cbn [request_operation request_own] in *; apply Hr; clear Hr.
  all: try solve [repeat readable_step].
  - apply (readable_connect p).
  - apply (readable_upgrade p).
Qed.

(** What a POST of an envelope does when the daemon's listener is on [here] and
    answers one request at a time; a panic of its server drops the connection,
    and the listener with it. *)
Definition http_post (body : bytes) : HttpRequest := {|
  req_method := "POST"; req_url := "/rpc"; req_body_length := Some (list_len body);
  req_read := Ok body |}.
Definition daemon_post (endpoint : string) (request : RequestEnvelope) (n : Node C (Served R))
    : PostReply * Node C (Served R) :=
  if String.eqb endpoint here then
    match serve_request clock rng web args identity (http_post (envelope_text request)) n with
    | (Some (Returns (status, response)), n') =>
        (if (status <? 400)%Z then PostOk (Ok response) else PostStatus (Ok response), n')
    | (Some Panics, n') => (PostFailed lost, n')
    | (None, n') => (PostFailed "connection refused", n')
    end
  else (PostFailed "connection refused", n).

(** The discovery file of the client names the daemon's endpoint; the client
    finds the daemon when it also listens there. *)
Definition discovers (fs : Files C) : Prop :=
  ∃ contents d, (fs : gmap string C) !! cli_control_discovery_path cli = Some contents ∧
    read_discovery contents = Ok d ∧ ded_endpoint d = here.
Definition finds_daemon (sh : Shell C (Served R)) : Prop :=
  discovers (node_files (sh_node sh)) ∧ listening (sh_node sh) = true.

Definition too_long (request : RequestEnvelope) : bool :=
  (64 * 1024 <? list_len (envelope_text request))%Z.

Lemma route_post e n :
  route_control_request (C := C) clock rng web args identity (http_post (envelope_text e)) n =
  if too_long e then
    (Returns (413%Z, envelope_error "unknown" InvalidRequest
       "daemon control request body exceeds 65536 bytes" None), n)
  else
    match route_operation clock rng web args identity e n with
    | (Panics, n) => (Panics, n)
    | (Returns response, n) => (Returns (response_status response, response), n)
    end.
Proof.
  unfold route_control_request, http_post, read_request_body, too_long.
  cbn [req_method req_url req_body_length req_read].
  change (negb (String.eqb "POST" "POST") || negb (String.eqb "/rpc" "/rpc")) with false. cbv iota.
  destruct (64 * 1024 <? _)%Z; [reflexivity|]. by rewrite wire_envelope.
Qed.

Local Notation ask q := (ask (C := C) pid daemon_post cli q).

Lemma finds_request {T : Type} (q : ClientRequest T) sh :
  discovers (node_files (sh_node sh)) →
  ask q sh =
  let '(reply, n) := daemon_post here (request_envelope pid "req" (request_operation q) (request_payload q))
    (sh_node sh) in
  match reply with
  | PostOk (Ok envelope) =>
      (if negb (rsp_ok envelope) then Err (request_error envelope)
       else match rsp_result envelope with
            | Some result => from_value (request_own q) result
            | None => Err "daemon response did not include a result" end, mk_Shell n (sh_out sh))
  | PostStatus (Ok envelope) => (Err (request_error envelope), mk_Shell n (sh_out sh))
  | PostOk (Err e) | PostStatus (Err e) | PostFailed e => (Err e, mk_Shell n (sh_out sh))
  end.
Proof.
  intros (contents & d & Hf & Hd & He). unfold QuipCommands.ask, daemon_request.
  unfold mbind at 1, cli_bind at 1. unfold load_daemon_discovery at 1. rewrite Hf, Hd.
  unfold mbind at 1, cli_bind at 1, cli_post. rewrite He.
  destruct (daemon_post here _ (sh_node sh)) as [reply n].
  destruct reply as [[envelope|e]|[envelope|e]|e]; try reflexivity.
  unfold mbind at 1, cli_bind at 1, cli_lift at 1.
  destruct (rsp_ok envelope); cbn [negb]; [|reflexivity].
  by destruct (rsp_result envelope).
Qed.

(** C11.  A request of a client whose discovery file names a daemon that listens
    is answered: within the 64 KiB the server reads, the client gets the result
    of the operation, at the type it asked for, or the code and message of the
    error, and the operation is the only thing that happens to the node; the
    operation is one the daemon has, and only a request to close or upgrade a
    session by an identifier with a character cut in two is left unanswered.
    That request ends the listener: from then on the client is refused the
    connection. *)
Theorem client_request_answered {T : Type} (q : ClientRequest T) sh
    (Hfinds : discovers (node_files (sh_node sh))) :
  let envelope := request_envelope pid "req" (request_operation q) (request_payload q) in
  let '(r, sh') := ask q sh in
  sh_out sh' = sh_out sh ∧
  known_operation (C := C) clock rng web args identity (request_operation q) = true ∧
  if negb (listening (sh_node sh)) then sh_node sh' = sh_node sh ∧ r = Err "connection refused"
  else if too_long envelope then
    sh_node sh' = sh_node sh ∧ r = Err "InvalidRequest: daemon control request body exceeds 65536 bytes"
  else
    match route_operation clock rng web args identity envelope (inside (sh_node sh)) with
    | (Returns response, n') => sh_node sh' = served true n' ∧
        ((∃ result t, response = envelope_success (rqe_request_id envelope) result ∧
            request_own q result = Some t ∧ r = Ok t) ∨
         (∃ code message details,
            response = envelope_error (rqe_request_id envelope) code message details ∧
            r = Err (ErrorCode_debug code +:+ ": " +:+ message)))
    | (Panics, n') => n' = inside (sh_node sh) ∧ sh_node sh' = served false n' ∧ r = Err lost ∧
        cuts_a_character envelope
    end.
Proof.
  cbv zeta. rewrite (finds_request q sh Hfinds). unfold daemon_post. rewrite String.eqb_refl.
  unfold serve_request. rewrite route_post.
  set (e := request_envelope _ _ _ _).
  assert (known_operation (C := C) clock rng web args identity (request_operation q) = true) as Hk
    by (by destruct q).
  destruct (listening (sh_node sh)) eqn:Hl; cbn [negb]; [|by split_and!].
  destruct (too_long e).
  { split_and!; [done|exact Hk| |done]. cbn [sh_node]. rewrite <-Hl. apply served_inside. }
  pose proof (route_answers clock rng web args identity e (inside (sh_node sh))) as Hr.
  pose proof (λ response n' result, route_readable q e (inside (sh_node sh)) response n' result eq_refl) as Ht.
  destruct (route_operation _ _ _ _ _ e _) as [[response|] n']; cbv iota beta.
  - destruct Hr as [[(result & ->)|(code & message & details & ->)] _].
    + destruct (Ht _ _ _ eq_refl eq_refl) as [t Hown].
      pose proof (from_value_own _ _ _ _ Hown) as Hread.
      change (response_status _) with 200%Z. cbn [Z.ltb Z.compare Pos.compare Pos.compare_cont negb
        rsp_ok rsp_result envelope_success sh_out sh_node]. cbv iota beta. rewrite Hread.
      split; [done|]. split; [exact Hk|]. split; [done|]. left. by exists result, t.
    + destruct (code_status_error e.(rqe_request_id) code message details) as [-> Hs].
      rewrite (proj2 (Z.ltb_ge _ _)) by lia.
      split; [done|]. split; [exact Hk|]. split; [done|]. right. by exists code, message, details.
  - destruct Hr as [Hcut ->]. by split_and!.
Qed.
(** ** Commands for a stopped daemon *)

Local Notation live := (daemon_endpoint_is_live (C := C) pid daemon_post cli).

Definition probe : RequestEnvelope := request_envelope pid "probe" "runtime.health" no_payload.

(** A daemon that listens answers the probe, whatever it answers. *)
Lemma probe_answered n :
  listening n = true →
  ∃ reply n', daemon_post here probe n = (reply, n') ∧ ∀ e, reply ≠ PostFailed e.
Proof.
  intros Hl. unfold daemon_post, serve_request. rewrite String.eqb_refl, Hl, route_post.
  destruct (too_long probe); [by eexists _, _|].
  pose proof (route_answers clock rng web args identity probe (inside n)) as Hr.
  destruct (route_operation _ _ _ _ _ probe (inside n)) as [[response|] n'].
  - eexists _, _. split; [reflexivity|]. intros e. by destruct (_ <? _)%Z.
  - destruct Hr as [[[Hop _]|[Hop _]] _]; discriminate Hop.
Qed.

Lemma live_found sh : finds_daemon sh → live sh = (Ok true, mk_Shell (daemon_post here probe (sh_node sh)).2 (sh_out sh)).
Proof.
  intros [(contents & d & Hf & Hd & He) Hl]. unfold daemon_endpoint_is_live.
  unfold mbind at 1, cli_bind at 1, cli_try, load_daemon_discovery. rewrite Hf, Hd.
  unfold mbind, cli_bind, cli_post. rewrite He. fold probe.
  destruct (probe_answered (sh_node sh) Hl) as (reply & n' & -> & Hreply).
  destruct reply; [done..|]. by destruct (Hreply err).
Qed.

Lemma live_lost sh : ¬ finds_daemon sh → live sh = (Ok false, sh).
Proof.
  intros Hno. unfold daemon_endpoint_is_live.
  unfold mbind at 1, cli_bind at 1, cli_try, load_daemon_discovery.
  destruct (_ !! cli_control_discovery_path cli) as [contents|] eqn:Hf; [|reflexivity].
  destruct (read_discovery contents) as [d|e] eqn:Hd; [|reflexivity].
  unfold mbind, cli_bind, cli_post, daemon_post, serve_request.
  destruct (String.eqb (ded_endpoint d) here) eqn:He; [|by destruct sh].
  destruct (listening (sh_node sh)) eqn:Hl; [|by destruct sh].
  apply String.eqb_eq in He. destruct Hno. split; [by exists contents, d|exact Hl].
Qed.

(** A change of the files, and the line about it. *)
Lemma change_run {A : Type} (m : Files C → result DaemonStateError (A * Files C)) (line : A → string) sh :
  ((report ← changing_files m; print [line report]) : CliM C (Served R) ()) sh =
  match m (node_files (sh_node sh)) with
  | Ok (report, fs) => (Ok (), mk_Shell (mk_Node fs (node_transport (sh_node sh))) (sh_out sh ++ [line report]))
  | Err e => (Err (DaemonStateError_text e), sh)
  end.
Proof.
  unfold mbind, cli_bind, changing_files, on_control.
  destruct (m (node_files (sh_node sh))) as [[report fs]|e]; [reflexivity|]. by destruct sh as [[]].
Qed.
(** An operation on the files behind the questions of [offline]. *)
Lemma offline_refused confirm unconfirmed running sh :
  (confirm = false ∨ finds_daemon sh) →
  ∃ e, offline (C := C) pid daemon_post cli confirm unconfirmed running sh =
    (Err e, if confirm then mk_Shell (daemon_post here probe (sh_node sh)).2 (sh_out sh) else sh).
Proof.
  unfold offline. intros Hstop. destruct confirm; cbn [negb]; [|by eexists].
  destruct Hstop as [|Hf]; [done|]. unfold mbind, cli_bind. rewrite (live_found sh Hf). by eexists.
Qed.
Lemma offline_passed unconfirmed running sh :
  ¬ finds_daemon sh → offline (C := C) pid daemon_post cli true unconfirmed running sh = (Ok (), sh).
Proof.
  intros Hno. unfold offline. cbn [negb]. unfold mbind, cli_bind. by rewrite (live_lost sh Hno).
Qed.

Lemma cli_bind_Err {A B : Type} (m : CliM C (Served R) A) (f : A → CliM C (Served R) B) sh e sh' :
  m sh = (Err e, sh') → (m ≫= f) sh = (Err e, sh').
Proof. unfold mbind, cli_bind. by intros ->. Qed.
Lemma cli_bind_Ok {A B : Type} (m : CliM C (Served R) A) (f : A → CliM C (Served R) B) sh a sh' :
  m sh = (Ok a, sh') → (m ≫= f) sh = f a sh'.
Proof. unfold mbind, cli_bind. by intros ->. Qed.

(** What a change of the files comes to. *)
Definition changes {A : Type} (m : Files C → result DaemonStateError (A * Files C))
    (run : result string () * Shell C (Served R)) (sh : Shell C (Served R)) : Prop :=
  match m (node_files (sh_node sh)) with
  | Ok (_, fs) => ∃ line,
      run = (Ok (), mk_Shell (mk_Node fs (node_transport (sh_node sh))) (sh_out sh ++ [line]))
  | Err e => run = (Err (DaemonStateError_text e), sh)
  end.

(** C12.  A migration or a restoration that is not confirmed is refused and
    touches nothing; a confirmed one is refused while the client finds the
    daemon, and then only the probe reaches the node.  Otherwise a migration
    is that of the state file and a restoration that of the bundle, under the
    passphrase of the environment: when it succeeds the files are what it
    leaves and one line is printed, and when it fails nothing is touched. *)
Theorem offline_commands_guarded env input passphrase_env confirm overwrite sh :
  let migrate := state_migrate_command (C := C) pid daemon_post cli confirm sh in
  let restore := state_restore_command env pid daemon_post cli input passphrase_env confirm overwrite sh in
  let probed := mk_Shell (daemon_post here probe (sh_node sh)).2 (sh_out sh) in
  (confirm = false → ∃ e e', migrate = (Err e, sh) ∧ restore = (Err e', sh)) ∧
  (confirm = true → finds_daemon sh → ∃ e e', migrate = (Err e, probed) ∧ restore = (Err e', probed)) ∧
  (confirm = true → ¬ finds_daemon sh →
     changes (migrate_durable_state_file (cli_state_path cli)) migrate sh ∧
     match env passphrase_env with
     | None => ∃ e, restore = (Err e, sh)
     | Some passphrase => changes (files_restore {| rs_input_path := expand_home_path env input;
         rs_passphrase := passphrase; rs_identity_path := cli_identity_path cli;
         rs_state_path := cli_state_path cli; rs_overwrite := overwrite |}) restore sh
     end).
Proof.
  cbv zeta. unfold state_migrate_command, state_restore_command, changes. split_and!.
  - intros ->.
    do 2 match goal with |- context [offline _ _ _ _ ?u ?r] =>
      destruct (offline_refused false u r sh (or_introl eq_refl)) as [? Hu]; revert Hu end.
    intros Hr Hm. do 2 eexists. by split; eapply cli_bind_Err.
  - intros -> Hf.
    destruct (offline_refused true
      "state migrate is destructive; rerun with --confirm after stopping quipd to rewrite durable network state to the current schema"
      "state migrate requires quipd to be stopped before durable state is rewritten in place"
      sh (or_intror Hf)) as [e Hm].
    destruct (offline_refused true
      "state restore is destructive; rerun with --confirm after stopping quipd to restore the same logical node"
      "state restore requires quipd to be stopped before identity and durable state are replaced"
      sh (or_intror Hf)) as [e' Hr].
    exists e, e'. by split; eapply cli_bind_Err.
  - intros -> Hno. split.
    + erewrite cli_bind_Ok by by apply offline_passed. rewrite change_run.
      destruct (migrate_durable_state_file _ _) as [[report fs]|e]; [by eexists|done].
    + erewrite cli_bind_Ok by by apply offline_passed. unfold required_env_value.
      destruct (env passphrase_env) as [passphrase|]; [|by eexists].
      erewrite cli_bind_Ok by reflexivity. rewrite change_run.
      destruct (files_restore _ _) as [[report fs]|e]; [by eexists|done].
Qed.
End answers.

(** ** The client does not set the daemon's state back *)

Section safety.
Context `{Blake3, Varint, Base32, Curves, ArtifactJson, JsonText, JsonBytes SessionCredentialUnsigned}.
Context {C : Type} `{StateFormatLaws C} `{BackupStoreLaws C} {Body : Type} `{ControlJson Body}.
Context `{WireLaws}.
Context {R : Type} `{RelayControl R} (clock : nat → Z) (rng : nat → nat → bytes).
Variable web : string → HttpReply Body.
Variable args : Args.
Variable identity : IdentityKeypair.
Context `{ClientFilesLaws C} `{FromValue}.
Variable env : Env.
Variables (now pid : Z) (salt nonce random : bytes).
Variables (metadata : string → option PathMetadata) (debug_text : string → string)
  (asleep : nat → Node C (Served R) → Node C (Served R)).
Variable client_web : string → HttpReply Body.
Variable cli : Cli.
Variables (here lost : string).

#[local] Instance client_transport : LifecycleTransport (World R) := quic_transport clock rng.
#[local] Instance client_view : LifecycleView (World R) := quic_view.
#[local] Instance client_laws : LifecycleLaws (World R) := quic_laws clock rng.
Local Notation M := (CliM C (Served R)).
Local Notation config := (args_config args).
Local Notation post := (daemon_post clock rng web args identity here lost).
Local Notation ask q := (ask (C := C) pid post cli q).

Hypothesis same_state : cli_state_path cli = arg_state_path args.
Hypothesis key_elsewhere : cli_identity_path cli ≠ cli_state_path cli.
Hypothesis asleep_goes_on : ∀ i n,
  node_inv config (inside n) → advances config (inside n) (inside (asleep i n)).

(** A part of a command that only advances the node. *)
Definition keeping {A : Type} (m : M A) : Prop :=
  ∀ sh, node_inv config (inside (sh_node sh)) →
    advances config (inside (sh_node sh)) (inside (sh_node (m sh).2)).

Lemma keeping_same {A : Type} (m : M A) : (∀ sh, sh_node (m sh).2 = sh_node sh) → keeping m.
Proof. intros Hm sh Hn. rewrite Hm. by apply advances_refl. Qed.
Lemma keeping_ret {A : Type} (a : A) : keeping (mret a).
Proof. by apply keeping_same. Qed.
Lemma keeping_lift {A : Type} (r : result string A) : keeping (cli_lift r).
Proof. by apply keeping_same. Qed.
Lemma keeping_fail {A : Type} e : keeping (cli_fail e : M A).
Proof. by apply keeping_same. Qed.
Lemma keeping_print lines : keeping (print lines).
Proof. by apply keeping_same. Qed.
Lemma keeping_discovery path : keeping (load_daemon_discovery path).
Proof. by apply keeping_same. Qed.
Lemma keeping_bind {A B : Type} (m : M A) (f : A → M B) :
  keeping m → (∀ a, keeping (f a)) → keeping (m ≫= f).
Proof.
  intros Hm Hf sh Hn. specialize (Hm sh Hn). unfold mbind, cli_bind.
  destruct (m sh) as [[a|e] sh']; [|exact Hm].
  eapply advances_trans; [exact Hm|]. by eapply Hf, advances_inv.
Qed.
Lemma keeping_try {A : Type} (m : M A) : keeping m → keeping (cli_try m).
Proof. intros Hm sh Hn. specialize (Hm sh Hn). unfold cli_try. by destruct (m sh). Qed.
Lemma keeping_asleep i : keeping ((λ sh, (Ok (), mk_Shell (asleep i (sh_node sh)) (sh_out sh))) : M ()).
Proof. intros sh Hn. by apply asleep_goes_on. Qed.

Lemma keeping_control {A : Type} (m : FileM C A) :
  (∀ fs, plane_inv config fs → plane_advances config fs (m fs).2) → keeping (on_control m).
Proof.
  intros Hm sh [Hok Hi]. specialize (Hm (node_files (sh_node sh)) Hi). unfold on_control.
  destruct (m (node_files (sh_node sh))) as [r fs]. by apply (advances_files config (inside (sh_node sh))).
Qed.

(** The client's control plane works on the daemon's state file. *)
Lemma plane_same fs fs' :
  plane_inv config fs → plane_advances (cli_config cli) fs fs' → plane_advances config fs fs'.
Proof.
  unfold plane_advances, plane_inv. cbn [cfg_state_path cli_config DaemonConfig_new].
  by rewrite same_state.
Qed.
Lemma keeping_plane (op : PlaneOp) {A : Type} (m : FileM C A) :
  (∀ fs, (m fs).2 = run_plane (cli_config cli) (λ _, HttpFailed "") op fs) → keeping (on_control m).
Proof.
  intros Hm. apply keeping_control. intros fs Hi. rewrite Hm. apply plane_same; [exact Hi|].
  apply run_plane_advances. revert Hi. unfold plane_inv. cbn [cfg_state_path cli_config DaemonConfig_new].
  by rewrite same_state.
Qed.
Lemma keeping_ensured : keeping (ensured cli).
Proof. by apply (keeping_plane OpEnsure). Qed.
Lemma keeping_inspect peer : keeping (on_control (inspect_peer (cli_config cli) peer)).
Proof. by apply (keeping_plane (OpInspectPeer peer)). Qed.
Lemma keeping_explain peer protocol :
  keeping (on_control (plane_explain_policy (cli_config cli) peer protocol)).
Proof. by apply (keeping_plane (OpExplainPolicy peer protocol)). Qed.

(** ** Requests *)

Lemma keeping_post endpoint e : discards args e = false → keeping (cli_post post endpoint e).
Proof.
  intros Hd sh Hn. unfold cli_post, daemon_post, serve_request. destruct (String.eqb endpoint here).
  2: { by apply advances_refl. }
  destruct (listening (sh_node sh)); [|by apply advances_refl].
  assert (discards_state args (http_post (envelope_text e)) = false) as Hds.
  { unfold discards_state, read_request_body, http_post. cbn [req_body_length req_read].
    destruct (_ <? _)%Z; [done|]. by rewrite wire_envelope. }
  pose proof (request_goes_on clock rng args identity web _ (inside (sh_node sh)) Hds Hn) as Hg.
  by destruct (route_control_request _ _ _ _ _ _ (inside (sh_node sh))) as [[[status response]|] n].
Qed.

Lemma keeping_daemon_request {T : Type} (own : DaemonResult → option T) operation payload :
  discards args (request_envelope pid "req" operation payload) = false →
  keeping (daemon_request pid post cli own operation payload).
Proof.
  intros Hd. unfold daemon_request. apply keeping_bind; [apply keeping_discovery|intros d].
  apply keeping_bind; [by apply keeping_post|intros [body|body|e]].
  - apply keeping_bind; [apply keeping_lift|intros envelope].
    destruct (negb _); [apply keeping_fail|].
    apply keeping_bind; [apply keeping_lift|intros r; apply keeping_lift].
  - apply keeping_bind; [apply keeping_lift|intros envelope; apply keeping_fail].
  - apply keeping_fail.
Qed.

(** The requests that discard the state are a reset and an export onto it. *)
Definition harmful {T : Type} (q : ClientRequest T) : bool :=
  match q with
  | AskReset _ => true
  | AskExport p => String.eqb (sep_output_path p) (arg_state_path args)
  | _ => false
  end.
Lemma keeping_ask {T : Type} (q : ClientRequest T) : harmful q = false → keeping (ask q).
Proof.
  intros Hq. apply keeping_daemon_request. unfold discards.
  destruct q; try reflexivity; cbn [harmful] in Hq; [|done].
  cbn [request_envelope rqe_operation rqe_payload request_operation request_payload].
  rewrite wire_export. exact Hq.
Qed.
(** ** Commands *)

Ltac keep :=
  repeat first
    [ apply keeping_ret | apply keeping_lift | apply keeping_fail | apply keeping_print
    | apply keeping_discovery | apply keeping_ensured | apply keeping_inspect
    | apply keeping_explain | apply keeping_ask; reflexivity | apply keeping_asleep
    | apply keeping_try | apply keeping_bind; [|intros ?] | case_match ].

Lemma keeping_watch peer class remaining index previous :
  keeping (watch_loop pid asleep post cli peer class remaining index previous).
Proof.
  revert index previous. induction remaining as [|remaining IH]; intros index previous;
    cbn [watch_loop]; [apply keeping_ret|].
  apply keeping_bind; [keep|intros paths]. cbv zeta.
  apply keeping_bind; [keep|intros _]. apply keeping_bind; [keep|intros _]. apply IH.
Qed.

(** A command that may set the state back by design: joining, resetting, and
    exporting onto the state file. *)
Definition may_discard (command : Command) : bool :=
  match command with
  | Join _ | JoinOrigin _ _ => true
  | State (StateReset confirm) => confirm
  | State (StateExport output _ _ _ _) =>
      String.eqb (expand_home_path env output) (arg_state_path args)
  | State (StateBackup output _ _ _ _) =>
      String.eqb (default (default_backup_output_path env now (cli_network cli))
        (expand_home_path env <$> output)) (arg_state_path args)
  | _ => false
  end.
Definition rewrites_files (command : Command) : bool :=
  match command with State (StateMigrate _ | StateRestore _ _ _ _) => true | _ => false end.

Lemma keeping_init overwrite :
  keeping (init_identity env salt nonce random (cli_identity_path cli)
    (cli_identity_passphrase_env cli) overwrite : M IdentityKeypair).
Proof.
  intros sh Hn. unfold init_identity. destruct (_ && _); [by apply advances_refl|].
  destruct (env _) as [passphrase|]; [|by apply advances_refl].
  destruct (files_store_key _ _ _ _ _ _) as [stored fs] eqn:Hs. cbn [snd sh_node].
  assert (daemon_load (arg_state_path args) fs =
    daemon_load (arg_state_path args) (node_files (sh_node sh))) as Hl.
  { unfold daemon_load, file_read. rewrite <-same_state.
    pose proof (store_key_writes salt nonce (cli_identity_path cli) (keypair_generate random) passphrase
      (node_files (sh_node sh)) (cli_state_path cli) ltac:(congruence)) as Hw.
    rewrite Hs in Hw. cbn [snd] in Hw. by rewrite Hw. }
  destruct Hn as [Hok Hi]. apply advances_files; [exact Hok|].
  split; [intros s Hs'; apply Hi, (eq_trans (eq_sym Hl) Hs')|intros s Hs'; exists s; split; [|reflexivity]].
  exact (eq_trans Hl Hs').
Qed.

Lemma keeping_commands :
  may_discard (default Status (cli_command cli)) = false →
  rewrites_files (default Status (cli_command cli)) = false →
  keeping (run_cli env now pid salt nonce random metadata debug_text asleep client_web post cli).
Proof.
  unfold run_cli. intros Hd Hr.
  destruct (default Status (cli_command cli)) as [| | | | | | |c|c|c| | | | | |c|c|c|];
    try discriminate Hd; try (destruct c; try discriminate Hr).
  all: try solve [keep].
  all: try apply keeping_watch.
  all: try (apply keeping_bind; [apply keeping_init|intros; apply keeping_print]).
  all: cbn [run_state]; unfold state_export_command, state_backup_command, state_reset_command;
    cbn [may_discard] in Hd; cbv zeta.
  - apply keeping_bind; [keep|intros passphrase].
    apply keeping_bind; [by apply keeping_ask|intros r; apply keeping_print].
  - apply keeping_bind; [keep|intros passphrase].
    apply keeping_bind; [by apply keeping_ask|intros r; apply keeping_print].
  - subst. apply keeping_fail.
Qed.

(** With the daemon at its endpoint a migration or a restoration is refused. *)
Lemma keeping_offline sh confirm unconfirmed running {A : Type} (m : M A) :
  finds_daemon cli here sh → node_inv config (inside (sh_node sh)) →
  advances config (inside (sh_node sh))
    (inside (sh_node ((_ ← offline (C := C) pid post cli confirm unconfirmed running; m) sh).2)).
Proof.
  intros Hf Hn.
  destruct (offline_refused clock rng web args identity pid cli here lost confirm unconfirmed running sh
    (or_intror Hf)) as [e Ho].
  rewrite (cli_bind_Err _ _ _ _ _ Ho). destruct confirm; [|by apply advances_refl].
  pose proof (keeping_post here (probe pid) ltac:(reflexivity) sh Hn) as Hp. revert Hp.
  unfold cli_post. by destruct (daemon_post _ _ _ _ _ _ _ _ _ _) as [reply n].
Qed.

(** C15.  Whatever command the client runs beside a daemon it shares the state
    path with, other than joining, a confirmed reset and an export onto the
    state file, whether it succeeds or fails: the transport of the daemon stays
    well formed, a state file that loads keeps loading, and its state has gone
    on from the one before by operations of the state.  A migration or a
    restoration needs that the client finds the daemon. *)
Theorem client_never_rolls_back sh s
    (Hkeeps : may_discard (default Status (cli_command cli)) = false)
    (Hfound : rewrites_files (default Status (cli_command cli)) = true → finds_daemon cli here sh)
    (Hok : adapter_inv (adapter (sv_world (node_transport (sh_node sh)))))
    (Hinv : plane_inv config (node_files (sh_node sh)))
    (Hload : daemon_load (arg_state_path args) (node_files (sh_node sh)) = Ok s) :
  let '(_, sh') := run_cli env now pid salt nonce random metadata debug_text asleep client_web post cli sh in
  adapter_inv (adapter (sv_world (node_transport (sh_node sh')))) ∧
  ∃ s', daemon_load (arg_state_path args) (node_files (sh_node sh')) = Ok s' ∧ daemon_wf s' ∧
    rtc daemon_step s s' ∧ daemon_advances s s'.
Proof.
  assert (advances config (inside (sh_node sh)) (inside (sh_node (run_cli env now pid salt nonce random
    metadata debug_text asleep client_web post cli sh).2))) as (Hok' & [Hi' Hl] & _).
  { assert (node_inv config (inside (sh_node sh))) as Hn by by split.
    destruct (rewrites_files (default Status (cli_command cli))) eqn:Hr.
    2: { by apply keeping_commands. }
    specialize (Hfound eq_refl). unfold run_cli.
    destruct (default Status (cli_command cli)) as [| | | | | | | | | | | | | | |[]| | |];
      try discriminate Hr; by apply keeping_offline. }
  destruct (run_cli _ _ _ _ _ _ _ _ _ _ _ _ sh) as [r sh']. cbn [snd] in *.
  split; [exact Hok'|]. destruct (Hl s Hload) as (s' & Hs' & Hst). exists s'.
  split_and!; [exact Hs'|by apply Hi'|exact Hst|]. by apply daemon_steps_advance.
Qed.
End safety.

(** ** A wire for the examples

    An envelope is written as the bits of its number in an enumeration of all
    envelopes; payloads are read field by field. *)
Module DemoWire.
Import External.Demo.
Definition Wire : Type := string * string * nat * gen_tree (bool + Z + string).
Definition kind_number (k : AuthKind) : nat :=
  match k with LocalSocketPeer => 0 | LocalProcess => 1 | TestHarness => 2 end.
Definition number_kind (n : nat) : AuthKind :=
  match n with 0 => LocalSocketPeer | 1 => LocalProcess | _ => TestHarness end.
#[export] Instance demo_text : EnvelopeText := λ e,
  pack ((rqe_request_id e, rqe_operation e, kind_number (rqa_kind (rqe_auth e)),
    json_tree (rqe_payload e)) : Wire).
Definition demo_read (body : bytes) : result string RequestEnvelope :=
  match unpack body : option Wire with
  | Some (id, operation, kind, payload) => Ok {|
      rqe_request_id := id; rqe_operation := operation;
      rqe_auth := {| rqa_kind := number_kind kind |}; rqe_payload := tree_json payload |}
  | None => Err "no envelope"
  end.

Definition field (key : string) (payload : Json) : option Json :=
  fields ← as_object payload; json_get key fields.
Definition text_field (key : string) (payload : Json) : option string :=
  v ← field key payload; match v with JStr t => Some t | _ => None end.
Definition need {A : Type} (o : option A) : result string A := ok_or "missing field" o.

#[export] Instance demo_wire : DaemonJson := {|
  json_envelope := demo_read;
  json_diagnose v := Ok {| rdp_event_limit := n ← field "event_limit" v; as_u64 n |};
  json_export v :=
    path ← need (text_field "output_path" v); secret ← need (text_field "passphrase" v);
    host ← need (text_field "hostname" v); where_ ← need (text_field "environment" v);
    Ok {| sep_output_path := path; sep_passphrase := secret; sep_hostname := host;
          sep_environment := where_;
          sep_overwrite := b ← field "overwrite" v; match b with JBool b => Some b | _ => None end |};
  json_reset v :=
    scope ← need (text_field "scope" v); confirmation ← need (text_field "confirmation" v);
    Ok {| srp_scope := scope; srp_confirmation := confirmation |};
  json_sync_snapshot v :=
    path ← need (text_field "authority_snapshot" v); Ok {| asp_authority_snapshot := path |};
  json_sync_origin v :=
    origin ← need (text_field "authority_origin" v);
    Ok {| aop_authority_origin := origin; aop_authority_subject := text_field "authority_subject" v |};
  json_sync_revocations v :=
    origin ← need (text_field "authority_origin" v); Ok {| arp_authority_origin := origin |};
  json_connect v :=
    peer ← need (text_field "peer_id" v); protocol ← need (text_field "protocol" v);
    Ok {| scp_peer_id := peer; scp_protocol := protocol; scp_class := text_field "class" v;
          scp_path_preference := text_field "path_preference" v |};
  json_close v :=
    id ← need (text_field "session_id" v);
    Ok {| scl_session_id := id; scl_reason := text_field "reason" v |};
  json_upgrade v := id ← need (text_field "session_id" v); Ok {| sgp_session_id := id |};
  json_reconcile v := Ok {| srq_session_id := text_field "session_id" v |};
|}.

#[export] Instance demo_wire_laws : WireLaws.
Proof.
  split.
  - intros [id operation [kind] payload]. unfold json_envelope, demo_wire, demo_read, envelope_text, demo_text.
    rewrite unpack_pack, tree_json_tree. by destruct kind.
  - intros n Hn. cbn. by rewrite (proj2 (andb_true_iff _ _)) by (split; apply Z.leb_le; lia).
  - by intros [? ? ? ? []].
  - by intros [? ?].
  - by intros [?].
  - by intros [? []].
  - by intros [?].
  - by intros [? ? [] []].
  - by intros [? []].
  - by intros [?].
  - by intros [[]].
Qed.

#[export] Instance demo_from_value : FromValue := λ T own r, ok_or "wrong type" (own r).
#[export] Instance demo_from_value_laws : FromValueLaws.
Proof. intros T own r t Ht. unfold from_value, demo_from_value. by rewrite Ht. Qed.

(** The object of a discovery. *)
Definition discovery_object (d : DaemonEndpointDiscovery) : Json := JObj [
  ("endpoint", JStr (ded_endpoint d)); ("network", JStr (ded_network d));
  ("state_path", JStr (ded_state_path d)); ("identity_path", JStr (ded_identity_path d));
  ("runtime_instance_id", JStr (ded_runtime_instance_id d)); ("pid", JNum (ded_pid d));
  ("started_at_unix_secs", JNum (ded_started_at_unix_secs d))].
Definition number_field (key : string) (payload : Json) : option Z :=
  v ← field key payload; match v with JNum n => Some n | _ => None end.
Definition object_discovery (v : Json) : result string DaemonEndpointDiscovery :=
  endpoint ← need (text_field "endpoint" v); network ← need (text_field "network" v);
  state ← need (text_field "state_path" v); identity ← need (text_field "identity_path" v);
  instance ← need (text_field "runtime_instance_id" v); pid ← need (number_field "pid" v);
  started ← need (number_field "started_at_unix_secs" v);
  Ok {| ded_endpoint := endpoint; ded_network := network; ded_state_path := state;
        ded_identity_path := identity; ded_runtime_instance_id := instance; ded_pid := pid;
        ded_started_at_unix_secs := started |}.
Lemma object_discovery_object d : object_discovery (discovery_object d) = Ok d.
Proof. by destruct d. Qed.

(** A discovery file of JSON, bundles that are copies of the state file, and
    keys that are not stored. *)
Import DemoFiles.
#[export] Instance demo_client_files : ClientFiles Contents := {|
  read_discovery c := match c with
    | inl v => object_discovery v
    | inr _ => Err "no discovery" end;
  files_restore request fs :=
    bundle ← file_read (rs_input_path request) fs;
    Ok ({| rst_input_path := rs_input_path request;
           rst_restored_identity_path := rs_identity_path request;
           rst_restored_state_path := rs_state_path request; rst_created_at_unix_secs := 0;
           rst_hostname := ""; rst_environment := ""; rst_network := "";
           rst_identity_sha256_hex := ""; rst_state_sha256_hex := "" |},
        <[rs_state_path request := bundle]> (fs : gmap string Contents));
  files_store_key _ _ _ _ _ fs := (Err InvalidKeystore, fs) |}.
#[export] Instance demo_client_files_laws : ClientFilesLaws Contents.
Proof. by intros salt nonce path identity passphrase fs p Hp. Qed.

#[export] Instance demo_json_text : JsonText := λ _, "{}".
Definition demo_cli (command : Command) : Cli := {|
  cli_network := "net"; cli_state_path := "state.json"; cli_identity_path := "node.json";
  cli_control_discovery_path := "control.json";
  cli_identity_passphrase_env := "QUIP_IDENTITY_PASSPHRASE"; cli_command := Some command |}.
Definition demo_here : string := "http://127.0.0.1:4000/rpc".
Definition demo_discovery : Contents := inl (discovery_object {|
  ded_endpoint := demo_here; ded_network := "net"; ded_state_path := "state.json";
  ded_identity_path := "node.json"; ded_runtime_instance_id := "1"; ded_pid := 1;
  ded_started_at_unix_secs := 0 |}).
End DemoWire.

Section witnesses.
Import External.Demo DemoFiles DemoWire.
#[local] Existing Instances demo_authority_json demo_session_json demo_relays.
#[local] Existing Instances DemoControl.demo_backup_store DemoControl.demo_backup_store_laws.

Local Notation demo_machine := (Served (Registry * nat)).
Definition demo_post : string → RequestEnvelope → Node Contents demo_machine → PostReply * Node Contents demo_machine :=
  daemon_post demo_clock demo_rng demo_down (demo_args None None) demo_source demo_here "lost".
(** The daemon of the examples, with a state file and its discovery file. *)
Definition demo_shell : Shell Contents demo_machine :=
  mk_Shell (mk_Node (<["control.json" := demo_discovery]> (daemon_save demo_own "state.json" ∅ : gmap string Contents))
    (mk_Served (demo_carrying demo_negotiated) true)) [].

Lemma demo_found command : finds_daemon (demo_cli command) demo_here demo_shell.
Proof. split; [|done]. eexists _, _. by split_and!. Qed.

Definition demo_env : Env := λ name, if String.eqb name "QUIP_BACKUP_PASSPHRASE" then Some "secret" else None.
Definition demo_quip (command : Command) (sh : Shell Contents demo_machine) : result string () * Shell Contents demo_machine :=
  run_cli demo_env 1000 7 [] [] [] (λ _, None) id (λ _ n, n) demo_down demo_post (demo_cli command) sh.

(** The client reads the one session of the daemon. *)
Lemma client_request_answered_witness :
  ∃ result t, request_own AskSessions result = Some t ∧
    (QuipCommands.ask 7 demo_post (demo_cli Status) AskSessions demo_shell).1 = Ok t ∧
    length (rsl_sessions t) = 1.
Proof.
  pose proof (client_request_answered demo_clock demo_rng demo_down (demo_args None None) demo_source 7
    (demo_cli Status) demo_here "lost" AskSessions demo_shell (proj1 (demo_found Status))) as Hq.
  cbv zeta in Hq. fold demo_post in Hq.
  assert (match (QuipCommands.ask 7 demo_post (demo_cli Status) AskSessions demo_shell).1 with
    | Ok t => length (rsl_sessions t) | Err _ => 0 end = 1) as Hone by (vm_compute; reflexivity).
  destruct (QuipCommands.ask 7 demo_post (demo_cli Status) AskSessions demo_shell) as [[t|e] sh'];
    cbn [fst] in *; [|discriminate Hone].
  destruct Hq as (_ & _ & Hq). revert Hq. change (negb (listening (sh_node demo_shell))) with false.
  cbv iota. destruct (too_long _); [by intros [_ [=]]|].
  destruct (route_operation _ _ _ _ _ _ _) as [[response|] n']; [|by intros (_ & _ & [=] & _)].
  intros (_ & [(result & t' & _ & Hown & [= <-])|(? & ? & ? & _ & [=])]).
  exists result, t. by split_and!.
Defined.

(** The same node once the daemon has stopped. *)
Definition demo_stopped : Shell Contents demo_machine :=
  mk_Shell (mk_Node (daemon_save demo_own "state.json" ∅) (mk_Served (demo_carrying demo_negotiated) false)) [].

(** A restoration beside the daemon, without confirmation, and at last of a
    bundle that is a copy of the state file. *)
Lemma offline_commands_guarded_witness :
  let restore := state_restore_command demo_env 7 demo_post (demo_cli Status) "state.json" "QUIP_BACKUP_PASSPHRASE" in
  (∃ e, restore true true demo_shell = (Err e, mk_Shell
    (demo_post demo_here (probe 7) (sh_node demo_shell)).2 [])) ∧
  (∃ e, restore false true demo_shell = (Err e, demo_shell)) ∧
  ∃ fs line, restore true true demo_stopped = (Ok (), mk_Shell (mk_Node fs (node_transport (sh_node demo_stopped))) [line]) ∧
    (fs : gmap string Contents) !! "state.json" = (node_files (sh_node demo_shell) : gmap string Contents) !! "state.json".
Proof.
  cbv zeta.
  pose proof (offline_commands_guarded demo_clock demo_rng demo_down (demo_args None None) demo_source 7
    (demo_cli Status) demo_here "lost" demo_env "state.json" "QUIP_BACKUP_PASSPHRASE") as Hg.
  cbv zeta in Hg. fold demo_post in Hg. split_and!.
  - destruct (proj1 (proj2 (Hg true true demo_shell)) eq_refl (demo_found Status)) as (_ & e & _ & He).
    by exists e.
  - destruct (proj1 (Hg false true demo_shell) eq_refl) as (_ & e & _ & He). by exists e.
  - assert (¬ finds_daemon (demo_cli Status) demo_here demo_stopped) as Hno.
    { by intros [_ [=]]. }
    destruct (proj2 (proj2 (Hg true true demo_stopped)) eq_refl Hno) as [_ Hr].
    cbn [demo_env String.eqb Ascii.eqb Bool.eqb] in Hr. unfold changes in Hr.
    unfold files_restore, demo_client_files in Hr. cbn in Hr.
    destruct Hr as [line Hr]. eexists _, line. split; [exact Hr|]. reflexivity.
Defined.

(** A client that closes the session it finds, and asks for a restoration. *)
Lemma client_never_rolls_back_witness :
  let '(r, sh) := demo_quip (SessionClose None) demo_shell in
  let '(r', _) := demo_quip (State (StateRestore "state.json" "QUIP_BACKUP_PASSPHRASE" true true)) demo_shell in
  r = Ok () ∧ is_ok r' = false ∧
  ∃ s, daemon_load "state.json" (node_files (sh_node sh)) = Ok s ∧ daemon_advances (with_sessions [] demo_own) s.
Proof.
  destruct (save_current (C := Contents) demo_config demo_own ∅ demo_own_current) as [Hload Hc].
  assert (daemon_load "state.json" (node_files (sh_node demo_shell)) = Ok (with_sessions [] demo_own)) as Hl
    by exact Hload.
  assert (plane_inv (args_config (demo_args None None)) (node_files (sh_node demo_shell))) as Hinv.
  { intros s Hs. assert (Ok (with_sessions [] demo_own) = Ok s) as [= <-] by (rewrite <-Hl; exact Hs).
    exact Hc. }
  assert (adapter_inv (adapter (demo_carrying demo_negotiated))) as Hok
    by exact (demo_node_ok demo_negotiated eq_refl).
  pose proof (client_never_rolls_back demo_clock demo_rng demo_down (demo_args None None) demo_source
    demo_env 1000 7 [] [] [] (λ _, None) id (λ _ n, n) demo_down (demo_cli (SessionClose None)) demo_here
    "lost" eq_refl ltac:(discriminate) (λ i n Hn, advances_refl _ (inside n) Hn) demo_shell _ eq_refl
    ltac:(discriminate) Hok Hinv Hl) as Hrun.
  assert ((demo_quip (SessionClose None) demo_shell).1 = Ok ()) as Hclosed by (vm_compute; reflexivity).
  assert (is_ok (demo_quip (State (StateRestore "state.json" "QUIP_BACKUP_PASSPHRASE" true true)) demo_shell).1
    = false) as Hno by (vm_compute; reflexivity).
  destruct (demo_quip (State _) demo_shell) as [r' sh1].
  fold demo_post in Hrun. change (run_cli _ _ _ _ _ _ _ _ _ _ _ _ demo_shell) with
    (demo_quip (SessionClose None) demo_shell) in Hrun.
  destruct (demo_quip (SessionClose None) demo_shell) as [r sh]. cbn [fst] in *.
  split; [exact Hclosed|]. split; [exact Hno|]. destruct Hrun as (_ & s & Hs & _ & _ & Hadv).
  exists s. exact (conj Hs Hadv).
Defined.

(** Closing without an argument twice: the second close picks the session that
    the first one ended, although it says it wants an active one. *)
Example close_picks_ended_session :
  let '(r, sh) := demo_quip (SessionClose None) demo_shell in
  r = Ok () ∧ sessions (inside (sh_node sh)) = ∅ ∧
  (demo_quip (SessionClose None) sh).1 =
    Err ("StaleRuntimeReference: session " +:+ hex_string demo_id +:+ " was not found").
Proof. vm_compute. by split_and!. Qed.
End witnesses.
