(* ===== verification/ClientServer.v ===== *)
(** A daemon and its clients find each other through the discovery file. *)
From stdpp Require Import countable option base relations list strings gmap pretty.
From Stdlib Require Import ZArith Lia Strings.Byte Strings.Ascii.
From S2P Require Import Prelude Text BTree F32 External Model Crypto Records Identity Netcheck Scheduler PeerStore Policy Routing RelayWire Relay Transport Membership Calendar Quic QuicProps Control ControlFetch Authority AuthorityProps Fabric FabricProps FabricPaths Durable Backup FabricPlane FabricRuntime DurableProps FabricPathsProps FabricPlaneProps FabricRuntimeProps EndToEnd FabricQuic Quipd DaemonApi QuipdApi QuipdControl QuipdServer QuipdProps QuipdSafety QuipdControlProps QuipdFiles Quip QuipCommands QuipProps.

(** The client reads what the daemon wrote. *)
Class DiscoveryLaws (C : Type) `{DiscoveryFormat C, ClientFiles C} : Prop :=
  read_discovery_text d : read_discovery (discovery_text d) = Ok d.

Section discovery.
Context `{Blake3, Varint, Base32, Curves, ArtifactJson, JsonBytes SessionCredentialUnsigned}.
Context {C : Type} `{StateFormatLaws C} `{BackupStoreLaws C} {Body : Type} `{ControlJson Body}.
Context `{DaemonJson} `{DiscoveryLaws C}.
Context {R : Type} `{RelayControl R} (clock : nat → Z) (rng : nat → nat → bytes).
Variable args : Args.
Variable identity : IdentityKeypair.
Variable cli : Cli.
Hypothesis same_discovery : cli_control_discovery_path cli = arg_control_discovery_path args.
Local Notation path := (arg_control_discovery_path args).

(** A guard of the path that is dropped leaves nothing to find. *)
Lemma dropped_lost (guard : ControlServerGuard) here (fs : Files C) :
  csg_discovery_path guard = path → ¬ discovers cli here (guard_drop guard fs).
Proof.
  intros Hg (contents & d & Hf & _). unfold guard_drop in Hf.
  rewrite Hg, same_discovery in Hf. by rewrite lookup_delete_eq in Hf.
Qed.
Lemma drop_other (guard : ControlServerGuard) (fs : Files C) other :
  csg_discovery_path guard = path → other ≠ path → at_path other (guard_drop guard fs) = at_path other fs.
Proof. intros Hg Ho. unfold at_path, guard_drop. rewrite Hg. by rewrite lookup_delete_ne. Qed.

(** What starting the server does to the files. *)
Lemma start_other bind directory fault pid now adapter (fs : Files C) other :
  other ≠ path →
  at_path other (start_control_server args bind directory fault pid now adapter fs).2 = at_path other fs.
Proof.
  intros Ho. unfold start_control_server, write_control_discovery, at_path.
  destruct (bind _) as [addr|e]; [|done]. destruct directory; [done|].
  destruct (fs_write fault _ _ fs) as [r fs1] eqn:Hw.
  pose proof (fs_write_other fault path (discovery_text {|
    ded_endpoint := "http://" +:+ addr +:+ "/rpc"; ded_network := arg_network args;
    ded_state_path := arg_state_path args; ded_identity_path := arg_identity_path args;
    ded_runtime_instance_id := runtime_instance_id adapter; ded_pid := pid;
    ded_started_at_unix_secs := now |}) fs other Ho) as Hf. rewrite Hw in Hf. exact Hf.
Qed.
Lemma start_failed bind directory fault pid now adapter (fs : Files C) e fs' :
  start_control_server args bind directory fault pid now adapter fs = (Err e, fs') →
  fs' = fs ∨ ∃ contents, fault = Some (BrokenOff contents e) ∧ fs' = <[path := contents]> (fs : gmap string C).
Proof.
  unfold start_control_server, write_control_discovery.
  destruct (bind _) as [addr|e1]; [|intros [= _ <-]; by left].
  destruct directory as [e1|]; [intros [= _ <-]; by left|].
  destruct fault as [[e1|contents e1]|]; intros [= <- <-]; [by left|right; by exists contents].
Qed.
Lemma started bind directory fault pid now adapter (fs : Files C) guard line fs' :
  start_control_server args bind directory fault pid now adapter fs = (Ok (guard, line), fs') →
  csg_discovery_path guard = path ∧
  ∃ addr d, bind (arg_control_bind args) = Ok addr ∧ ded_endpoint d = "http://" +:+ addr +:+ "/rpc" ∧
    at_path path fs' = Some (discovery_text d).
Proof.
  unfold start_control_server, write_control_discovery, at_path.
  destruct (bind (arg_control_bind args)) as [addr|e]; [|done].
  destruct directory; [done|]. destruct fault as [[]|]; [done..|].
  intros [= <- <- <-]. split; [reflexivity|]. eexists addr, _.
  split; [reflexivity|]. split; [|apply lookup_insert_eq]. reflexivity.
Qed.

(** C27.  A daemon whose control server starts is found, at the address its
    listener got, by the clients that share its discovery path: whatever it
    does and is asked, and whatever others do to other files, the discovery
    file names its listener until a guard of that path is dropped, and the
    listener answers unless a request with a session identifier cut inside a
    character has ended it.  This needs that its state file is elsewhere and that
    no bundle is asked for at that path.  Its own end drops its guard,
    and so does the end of any other daemon of the same path, even after this
    one has written the file: then no client finds it.  Starting and stopping
    touch no other file, and a start that fails touches none, unless the write
    of the discovery file breaks off. *)
Theorem started_daemon_is_found bind directory fault pid now (n : Node C (World R)) asked out
    (Helsewhere : path ≠ arg_state_path args)
    (Hasked : ∀ request, asked request → exports_onto path request = false) :
  let '(r, fs) := start_control_server args bind directory fault pid now
    (adapter (node_transport n)) (node_files n) in
  (∀ other, other ≠ path → at_path other fs = at_path other (node_files n)) ∧
  match r with
  | Err e => fs = node_files n ∨ ∃ contents, fault = Some (BrokenOff contents e)
  | Ok (guard, _) => ∃ addr, bind (arg_control_bind args) = Ok addr ∧
      (∀ n', rtc (serving clock rng args identity path asked)
               (served true (mk_Node fs (node_transport n))) n' →
         let endpoint := "http://" +:+ addr +:+ "/rpc" in
         discovers cli endpoint (node_files n') ∧
         (finds_daemon cli endpoint (mk_Shell n' out) ∨ ∃ request, asked request ∧ cutting request)) ∧
      ∀ guard' fs', csg_discovery_path guard' = csg_discovery_path guard →
        (∀ endpoint, ¬ discovers cli endpoint (guard_drop guard' fs')) ∧
        ∀ other, other ≠ path → at_path other (guard_drop guard' fs') = at_path other fs'
  end.
Proof.
  destruct (start_control_server _ _ _ _ _ _ _ _) as [r fs] eqn:Hs. split.
  { intros other Ho. by rewrite <-(start_other bind directory fault pid now (adapter (node_transport n))
      (node_files n) other Ho), Hs. }
  destruct r as [[guard line]|e].
  2: { destruct (start_failed _ _ _ _ _ _ _ _ _ Hs) as [->|(c & Hc & _)]; [by left|right; by exists c]. }
  destruct (started _ _ _ _ _ _ _ _ _ _ Hs) as (Hg & addr & d & Hb & Hd & Hf). exists addr.
  split; [exact Hb|]. split.
  - intros n' Hn'. cbv zeta.
    assert (discovers cli ("http://" +:+ addr +:+ "/rpc") (node_files n')) as Hdis.
    { exists (discovery_text d), d. rewrite same_discovery.
      pose proof (servings_kept clock rng args identity path Helsewhere asked Hasked _ _ Hn') as Hk.
      cbn [served node_files] in Hk. rewrite Hf in Hk. split; [exact Hk|].
      split; [apply read_discovery_text|exact Hd]. }
    split; [exact Hdis|].
    destruct (servings_listen clock rng args identity path asked _ _ Hn' eq_refl) as [Hl|Hc]; [left|by right].
    by split.
  - intros guard' fs' Hg'. rewrite Hg in Hg'. split.
    + intros endpoint. by apply dropped_lost.
    + intros other. by apply drop_other.
Qed.

(** Once [run] has returned, nobody finds it. *)
Lemma run_served_lost web bind directory fault pid now metadata inputs n outcome printed n' endpoint :
  run_served clock rng web args identity bind directory fault pid now metadata inputs n =
    (Ok outcome, printed, n') → ¬ discovers cli endpoint (node_files n').
Proof.
  unfold run_served. destruct (start_control_server _ _ _ _ _ _ _ _) as [[[guard line]|e] fs] eqn:Hs; [|done].
  destruct (run _ _ _ _ _ _ _ _) as [[o p] n1]. intros [= _ _ <-].
  apply dropped_lost. by destruct (started _ _ _ _ _ _ _ _ _ _ Hs).
Qed.
End discovery.

Section witnesses.
Import External.Demo DemoFiles DemoWire.
#[local] Existing Instances demo_authority_json demo_session_json demo_relays.
#[local] Existing Instances DemoControl.demo_backup_store DemoControl.demo_backup_store_laws.

#[local] Instance demo_discovery_format : DiscoveryFormat Contents := λ d, inl (discovery_object d).
#[local] Instance demo_discovery_laws : DiscoveryLaws Contents.
Proof. intros d. apply object_discovery_object. Qed.

(** A daemon that starts on the files of the examples is found where it listens,
    and still when a client has asked for its health, but not once it has
    stopped. *)
Lemma started_daemon_is_found_witness :
  let health := http_post (envelope_text (probe 7)) in
  match start_control_server (demo_args None None) (λ _, Ok "127.0.0.1:5000") None None 8 100
    (adapter (demo_carrying demo_negotiated)) (node_files (sh_node demo_shell)) with
  | (Ok (guard, line), fs) =>
      let started := served true (mk_Node fs (demo_carrying demo_negotiated)) in
      let n := (serve_request demo_clock demo_rng demo_down (demo_args None None) demo_source health started).2 in
      line = "quipd control ready endpoint=http://127.0.0.1:5000/rpc discovery_path=control.json" ∧
      finds_daemon (demo_cli Status) "http://127.0.0.1:5000/rpc" (mk_Shell n []) ∧
      ¬ discovers (demo_cli Status) "http://127.0.0.1:5000/rpc" (guard_drop guard (node_files n))
  | (Err _, _) => False
  end.
Proof.
  cbv zeta. set (health := http_post _).
  assert (exports_onto "control.json" health = false) as Hno by (vm_compute; reflexivity).
  assert (¬ cutting health) as Hwhole.
  { intros (body & envelope & Hb & He & Hc).
    assert (Ok body = Ok (envelope_text (probe 7))) as [= ->] by (rewrite <-Hb; vm_compute; reflexivity).
    rewrite wire_envelope in He. injection He as <-. destruct Hc as [[Hop _]|[Hop _]]; discriminate Hop. }
  pose proof (started_daemon_is_found demo_clock demo_rng (demo_args None None) demo_source
    (demo_cli Status) eq_refl (λ _, Ok "127.0.0.1:5000") None None 8 100
    (mk_Node (node_files (sh_node demo_shell)) (demo_carrying demo_negotiated)) (λ r, r = health) []
    ltac:(discriminate) ltac:(by intros request ->)) as Hs.
  cbn [node_transport node_files] in Hs.
  destruct (start_control_server _ _ _ _ _ _ _ _) as [[[guard line]|e] fs] eqn:Hstart.
  2: { unfold start_control_server in Hstart. discriminate Hstart. }
  destruct Hs as (_ & addr & Haddr & Hfound & Hlost). injection Haddr as <-.
  split; [|split].
  - unfold start_control_server in Hstart. cbn in Hstart. by injection Hstart as _ <- _.
  - destruct (Hfound _ (rtc_once _ _ (serving_request demo_clock demo_rng (demo_args None None) demo_source
      "control.json" (λ r, r = health) _ demo_down health eq_refl))) as [_ [Hf|(request & -> & Hc)]];
      [exact Hf|destruct (Hwhole Hc)].
  - apply (Hlost guard _ eq_refl).
Defined.
End witnesses.
