(* ===== verification/Scripts.v ===== *)
(** The operations on the state file as scripts of single accesses: the daemon,
    the thread of its control server and the commands of the client share the
    file, and nothing locks it.  Run alone, a script is the operation of
    [FabricPlane], [FabricRuntime], [Durable] or [Backup] it stands for.

    A file is written as [fs::write] does it: the file is created or cut to
    nothing, and then the text goes in, in one piece. *)
From stdpp Require Import countable option base relations list strings gmap pretty.
From Stdlib Require Import ZArith Lia Strings.Byte Strings.Ascii.
From S2P Require Import Prelude Text BTree F32 External Model Crypto Records Identity Netcheck Scheduler PeerStore Policy Routing RelayWire Relay Transport Membership Calendar Quic Control ControlFetch Fabric FabricProps FabricPaths Durable Backup FabricPlane FabricRuntime DurableProps FabricPlaneProps FabricQuic Quipd DaemonApi QuipdApi QuipdControl QuipdSafety Quip QuipCommands.

(** ** Scripts *)

(** A reading of the files, the opening of a file to be written, the writing
    of a text from the start of the opened file, and a removal. *)
Inductive Script (X A : Type) : Type :=
| Finish (r : result DaemonStateError A)
| Reading (k : Files (list X) → Script X A)
| Opening (path : string) (k : Script X A)
| Filling (path : string) (text : list X) (k : Script X A)
| Removing (path : string) (k : Script X A).
Arguments Finish {X A} r.
Arguments Reading {X A} k.
Arguments Opening {X A} path k.
Arguments Filling {X A} path text k.
Arguments Removing {X A} path k.

(** What they do.  A file that has been opened by another meanwhile is
    overwritten from its start; one that has been removed is not seen again. *)
Definition opened {X : Type} (path : string) (fs : Files (list X)) : Files (list X) :=
  <[path := []]> (fs : gmap string (list X)).
Definition filled {X : Type} (path : string) (text : list X) (fs : Files (list X)) : Files (list X) :=
  match (fs : gmap string (list X)) !! path with
  | Some old => <[path := text ++ drop (length text) old]> (fs : gmap string (list X))
  | None => fs
  end.
Definition removed {X : Type} (path : string) (fs : Files (list X)) : Files (list X) :=
  delete path (fs : gmap string (list X)).

Lemma filled_opened {X : Type} path (text : list X) fs :
  filled path text (opened path fs) = <[path := text]> (fs : gmap string (list X)).
Proof.
  unfold filled, opened. rewrite lookup_insert_eq, drop_nil, app_nil_r.
  apply (insert_insert_eq (M := gmap string)).
Qed.

Fixpoint script_then {X A B} (f : A → Script X B) (m : Script X A) : Script X B :=
  match m with
  | Finish (Ok a) => f a
  | Finish (Err e) => Finish (Err e)
  | Reading k => Reading (λ fs, script_then f (k fs))
  | Opening path k => Opening path (script_then f k)
  | Filling path text k => Filling path text (script_then f k)
  | Removing path k => Removing path (script_then f k)
  end.
#[export] Instance script_ret {X} : MRet (Script X) := λ A a, Finish (Ok a).
#[export] Instance script_bind {X} : MBind (Script X) := λ A B f m, script_then f m.

Definition script_lift {X A} (r : result DaemonStateError A) : Script X A := Finish r.
Definition script_read {X A} (f : Files (list X) → result DaemonStateError A) : Script X A :=
  Reading (λ fs, Finish (f fs)).
(** [fs::write]; what a path is to hold, if anything. *)
Definition script_write {X} (path : string) (text : list X) : Script X () :=
  Opening path (Filling path text (Finish (Ok ()))).
Definition script_set {X} (path : string) (contents : option (list X)) : Script X () :=
  match contents with
  | Some text => script_write path text
  | None => Removing path (Finish (Ok ()))
  end.

(** A script that runs alone. *)
Fixpoint run_script {X A} (m : Script X A) : FileM (list X) A := λ fs,
  match m with
  | Finish r => (r, fs)
  | Reading k => run_script (k fs) fs
  | Opening path k => run_script k (opened path fs)
  | Filling path text k => run_script k (filled path text fs)
  | Removing path k => run_script k (removed path fs)
  end.

(** The operation [m] does what the script does. *)
Definition scripted {X A} (m : FileM (list X) A) (script : Script X A) : Prop :=
  ∀ fs, run_script script fs = m fs.

Section scripted.
Context {X : Type}.
Local Notation C := (list X).

Lemma scripted_ret {A} (a : A) : scripted (X := X) (mret a) (mret a).
Proof. done. Qed.
Lemma scripted_lift {A} (r : result DaemonStateError A) :
  scripted (X := X) (filem_lift r) (script_lift r).
Proof. done. Qed.
Lemma scripted_read {A} (f : Files C → result DaemonStateError A) :
  scripted (filem_read f) (script_read f).
Proof. done. Qed.
Lemma scripted_write path (text : C) :
  scripted (filem_write (λ fs, <[path := text]> (fs : gmap string C))) (script_write path text).
Proof. intros fs. cbn. by rewrite filled_opened. Qed.

(** A script that is followed by others. *)
Lemma run_then {A B} (s : Script X A) (t : A → Script X B) fs :
  run_script (s ≫= t) fs =
  match run_script s fs with (Ok a, fs') => run_script (t a) fs' | (Err e, fs') => (Err e, fs') end.
Proof.
  unfold mbind, script_bind. revert fs.
  induction s as [[a|e]|k IH|path k IH|path text k IH|path k IH]; intros fs; cbn; auto.
Qed.

Lemma scripted_bind {A B} (m : FileM C A) s (f : A → FileM C B) t :
  scripted m s → (∀ a, scripted (f a) (t a)) → scripted (m ≫= f) (s ≫= t).
Proof.
  intros Hm Hf fs. unfold mbind at 2, filem_bind. rewrite run_then, (Hm fs).
  destruct (m fs) as [[a|e] fs']; [apply Hf|done].
Qed.

Lemma scripted_if {A} (b : bool) (m m' : FileM C A) s s' :
  scripted m s → scripted m' s' → scripted (if b then m else m') (if b then s else s').
Proof. by destruct b. Qed.
End scripted.

(** The operation [m] leaves the files that the script leaves. *)
Definition same_files {X A B} (m : FileM (list X) A) (script : Script X B) : Prop :=
  ∀ fs, (run_script script fs).2 = (m fs).2.

Section same_files.
Context {X : Type}.
Local Notation C := (list X).

Lemma same_files_bind {A B B'} (m : FileM C A) s (f : A → FileM C B) (t : A → Script X B') :
  scripted m s → (∀ a, same_files (f a) (t a)) → same_files (m ≫= f) (s ≫= t).
Proof.
  intros Hm Hf fs. unfold mbind at 2, filem_bind. rewrite run_then, (Hm fs).
  destruct (m fs) as [[a|e] fs']; [apply Hf|done].
Qed.

Lemma same_files_if {A B} (b : bool) (m m' : FileM C A) (s s' : Script X B) :
  same_files m s → same_files m' s' → same_files (if b then m else m') (if b then s else s').
Proof. by destruct b. Qed.
End same_files.

Create HintDb scripts.
#[export] Hint Resolve scripted_ret scripted_lift scripted_read scripted_write : scripts.
#[export] Hint Extern 1 (scripted (_ ≫= _) _) =>
  apply scripted_bind; [|intros ?] : scripts.
#[export] Hint Extern 1 (same_files (_ ≫= _) _) =>
  apply same_files_bind; [|intros ?] : scripts.
#[export] Hint Extern 1 (same_files (if _ then _ else _) _) => apply same_files_if : scripts.
#[export] Hint Extern 1 (scripted (if _ then _ else _) _) => apply scripted_if : scripts.

(** ** The operations *)

Section ops.
Context `{Blake3, Varint, Base32, Curves, ArtifactJson} {X : Type} `{StateFormat (list X)}.
Context {Body : Type} `{ControlJson Body}.
Variable web : string → HttpReply Body.
Variable config : DaemonConfig.

Local Notation Steps := (Script X).

(** What a save writes. *)
Definition saved_text (state : DaemonState) : list X :=
  encode_state (with_sessions [] (with_schema_version DAEMON_STATE_SCHEMA_VERSION state)).

Definition exists_script : Steps bool := script_read (λ fs, Ok (file_exists (cfg_state_path config) fs)).
Definition load_script : Steps DaemonState := script_read (daemon_load (cfg_state_path config)).
(* crates/fabric/src/lib.rs:417-426 DaemonState::save (accesses) *)
Definition save_script (state : DaemonState) : Steps () :=
  script_write (cfg_state_path config) (saved_text state).
Definition snapshot_script (path : string) : Steps AuthorityArtifactSnapshot :=
  script_read (λ fs, contents ← file_read path fs; map_err DsSerialization (decode_snapshot contents)).

(** A new state, saved and returned. *)
Definition create_script (state : DaemonState) : Steps DaemonState :=
  _ ← save_script state; mret state.

(* crates/fabric/src/lib.rs:1457-1470 LocalControlPlane::ensure_state (accesses) *)
Definition ensure_script : Steps DaemonState :=
  exists_ ← exists_script;
  if (exists_ : bool) then
    state ← load_script;
    mret (rebuild (with_roles (cfg_roles config) state))
  else create_script (rebuild (with_roles (cfg_roles config) (fixture_daemon_state (cfg_network config)))).

(* crates/fabric/src/lib.rs:1472-1488 LocalControlPlane::ensure_state_for_local_identity (accesses) *)
Definition ensure_identity_script (local_identity : IdentityKeypair) : Steps DaemonState :=
  exists_ ← exists_script;
  if (exists_ : bool) then ensure_script
  else create_script (rebuild (self_identity_daemon_state (cfg_network config) (cfg_roles config)
    local_identity)).

(* crates/fabric/src/lib.rs:1511-1524 LocalControlPlane::refresh_and_persist (accesses) *)
Definition refresh_script (ensured : Steps DaemonState) : Steps DaemonState :=
  state ← ensured; create_script state.

(* crates/fabric/src/lib.rs:1561-1602 LocalControlPlane::sync_authority_snapshot (accesses) *)
Definition sync_snapshot_script (path : string) : Steps () :=
  snapshot ← snapshot_script path;
  exists_ ← exists_script;
  if (exists_ : bool) then
    state ← load_script;
    '(state, _) ← script_lift (daemon_sync_snapshot (with_roles (cfg_roles config) state)
                    (local_client config) snapshot);
    save_script state
  else
    state ← script_lift (from_authority_snapshot (cfg_network config) (cfg_roles config) snapshot);
    save_script (rebuild state).

(* crates/fabric/src/lib.rs:1623-1667 LocalControlPlane::sync_authority_origin (accesses) *)
Definition sync_origin_script (origin : string) (subject : option string) : Steps () :=
  let client := authority_client (cfg_network config) origin in
  snapshot ← script_lift (map_err DsControl (fetch_authority_snapshot_for web client subject));
  relay_map ← script_lift (map_err DsControl (fetch_relay_map web client));
  exists_ ← exists_script;
  if (exists_ : bool) then
    state ← load_script;
    '(state, _) ← script_lift (daemon_sync_snapshot (with_roles (cfg_roles config) state) client snapshot);
    save_script (apply_relay_map state relay_map).1
  else
    state ← script_lift (from_authority_snapshot (cfg_network config) (cfg_roles config) snapshot);
    save_script (apply_relay_map (rebuild state) relay_map).1.

(* crates/fabric/src/lib.rs:1669-1680 LocalControlPlane::sync_authority_revocations_origin (accesses) *)
Definition sync_revocations_script (origin : string) : Steps () :=
  state ← ensure_script;
  let state := with_roles (cfg_roles config) state in
  let client := authority_client (cfg_network config) origin in
  revocations ← script_lift (map_err DsControl
    (fetch_revocations web client (max_revocation_sequence state)));
  save_script (apply_revocations state revocations).1.

(* crates/fabric/src/lib.rs:1526-1544 LocalControlPlane::reprobe_network_change (accesses) *)
Definition reprobe_script (why : string) : Steps () :=
  state ← ensure_script;
  save_script (rebuild (with_netcheck (reprobe_netcheck state why) state)).

(** The accesses of one operation. *)
Definition op_script (op : PlaneOp) : Steps () :=
  match op with
  | OpEnsure | OpInspectPeer _ | OpExplainPolicy _ _ => _ ← ensure_script; mret ()
  | OpEnsureFor k | OpEnsureBound k => _ ← ensure_identity_script k; mret ()
  | OpRefresh => _ ← refresh_script ensure_script; mret ()
  | OpRefreshFor k => _ ← refresh_script (ensure_identity_script k); mret ()
  | OpReprobe why => reprobe_script why
  | OpSyncSnapshot path => sync_snapshot_script path
  | OpSyncOrigin origin subject => sync_origin_script origin subject
  | OpSyncRevocations origin => sync_revocations_script origin
  end.
End ops.

(** ** Scripts are the operations *)

Section adequacy.
Context `{Blake3, Varint, Base32, Curves, ArtifactJson} {X : Type} `{StateFormat (list X)}.
Context {Body : Type} `{ControlJson Body}.
Variable web : string → HttpReply Body.
Variable config : DaemonConfig.
Local Notation C := (list X).

Lemma save_scripted state : scripted (plane_save (C := C) config state) (save_script config state).
Proof. intros fs. exact (scripted_write _ _ fs). Qed.
#[local] Hint Resolve save_scripted : scripts.

Lemma ensure_scripted : scripted (ensure_state (C := list X) config) (ensure_script config).
Proof. unfold ensure_state, ensure_script, create_script. cbv zeta. eauto 10 with scripts. Qed.

Lemma ensure_identity_scripted k :
  scripted (X := X) (ensure_state_for_local_identity config k) (ensure_identity_script config k).
Proof.
  pose proof ensure_scripted. unfold ensure_state_for_local_identity, ensure_identity_script, create_script.
  cbv zeta. eauto 10 with scripts.
Qed.

Lemma scripted_same {A} (m : FileM C A) s : scripted m s → same_files m (_ ← s; mret ()).
Proof.
  intros Hm fs. rewrite run_then, (Hm fs). by destruct (m fs) as [[a|e] fs'].
Qed.

Lemma scripted_then {A B} (m : FileM C A) s (f : A → FileM C B) :
  scripted m s → (∀ a fs, (f a fs).2 = fs) → same_files (m ≫= f) (_ ← s; mret ()).
Proof. intros Hm Hf. apply same_files_bind; [exact Hm|]. intros a fs. by rewrite Hf. Qed.

Lemma save_same {A} s (a : A) : same_files (_ ← plane_save config s; mret a) (save_script (X := X) config s).
Proof.
  intros fs. pose proof (save_scripted s fs) as Hs. unfold mbind, filem_bind. rewrite Hs.
  by destruct (plane_save config s fs) as [[[]|e] fs'].
Qed.

Lemma refresh_scripted (ensured : FileM C DaemonState) s :
  scripted ensured s → scripted (state ← ensured; _ ← plane_save config state; mret state)
    (refresh_script config s).
Proof. intros He. unfold refresh_script, create_script. eauto 10 with scripts. Qed.

Lemma exists_scripted : scripted (X := X) (plane_exists config) (exists_script config).
Proof. done. Qed.

(** A script that runs alone leaves what the operation leaves. *)
Lemma op_script_alone op fs : (run_script (op_script web config op) fs).2 = run_plane (C := list X) config web op fs.
Proof.
  pose proof ensure_scripted as He. pose proof ensure_identity_scripted as Hk. revert fs.
  destruct op; cbn [run_plane op_script].
  - by apply scripted_same.
  - by apply scripted_same.
  - apply scripted_then; [done|]. intros a fs. cbv zeta. by repeat case_match.
  - by apply scripted_same, refresh_scripted.
  - by apply scripted_same, refresh_scripted.
  - apply same_files_bind; [done|]. intros a. apply save_same.
  - apply same_files_bind; [done|]. intros snapshot.
    apply same_files_bind; [done|]. intros b. apply same_files_if.
    + apply same_files_bind; [done|]. intros state.
      apply same_files_bind; [done|]. intros [state' report]. apply save_same.
    + apply same_files_bind; [done|]. intros state. apply save_same.
  - apply same_files_bind; [done|]. intros snapshot.
    apply same_files_bind; [done|]. intros relay_map.
    apply same_files_bind; [done|]. intros b. apply same_files_if.
    + apply same_files_bind; [done|]. intros state.
      apply same_files_bind; [done|]. intros [state' report]. cbv zeta.
      destruct (apply_relay_map state' relay_map). apply save_same.
    + apply same_files_bind; [done|]. intros state. cbv zeta.
      destruct (apply_relay_map (rebuild state) relay_map). apply save_same.
  - apply same_files_bind; [done|]. intros state.
    apply same_files_bind; [done|]. intros revocations.
    destruct (apply_revocations _ revocations). apply save_same.
  - apply scripted_then; [done|]. intros a fs. unfold mbind, filem_bind, filem_lift. by destruct (ok_or _ _).
  - by apply scripted_then.
Qed.
End adequacy.


(** ** Whatever touches the files *)

(** What a restoration writes: the identity and the state, nothing else. *)
Class RestoreLaws (C : Type) `{ClientFiles C} : Prop :=
  restore_writes request (fs fs' : Files C) report :
    files_restore request fs = Ok (report, fs') →
    ∀ path, path ≠ rs_identity_path request → path ≠ rs_state_path request →
      (fs' : gmap string C) !! path = (fs : gmap string C) !! path.

#[export] Instance bytes_restore_laws
    `{Blake3, Varint, Base32, Curves, Sealing, Sha256, BackupFormat, KeyFileJson, StateFormat bytes} fault discovery :
  RestoreLaws bytes (H := bytes_client_files fault discovery).
Proof.
  intros request fs fs' report. cbn [files_restore bytes_client_files]. unfold restore_backup_bundle.
  destruct (_ && _); [done|].
  intros (? & _ & (? & _ & (? & _ & (? & _ & (? & _ & (? & _ & (? & _ & Hr
    )%result_bind_Ok)%result_bind_Ok)%result_bind_Ok)%result_bind_Ok)%result_bind_Ok)%result_bind_Ok)%result_bind_Ok.
  destruct (_ || _); [done|].
  apply result_bind_Ok in Hr as (? & _ & (? & _ & [= _ <-])%result_bind_Ok).
  intros path Hi Hs. by rewrite !lookup_insert_ne.
Qed.

Section works.
Context `{Blake3, Varint, Base32, Curves, ArtifactJson} {X : Type} `{StateFormat (list X)}.
Context `{BackupStore (list X), ClientFiles (list X)} {Body : Type} `{ControlJson Body}.
Variable config : DaemonConfig.
Local Notation C := (list X).

(** An operation of the control plane, with what the authority answers it; one
    that changes sessions and ends in [save_sessions]; a state seeded from a
    snapshot or an origin; a migration, a reset, an export and a restoration. *)
Inductive Work :=
| WorkPlane (web : string → HttpReply Body) (op : PlaneOp)
| WorkSessions (sessions : list SessionSnapshot)
| WorkSeedSnapshot (path : string)
| WorkSeedOrigin (web : string → HttpReply Body) (origin : string) (subject : option string)
| WorkMigrate
| WorkReset
| WorkExport (now : Z) (salt nonce : bytes) (request : DurableBackupExportRequest)
| WorkRestore (request : DurableBackupRestoreRequest).

(* crates/fabric/src/lib.rs:1732-1754 LocalControlPlane::close_session (accesses) *)
Definition sessions_script (sessions : list SessionSnapshot) : Script X () :=
  state ← ensure_script config; save_script config (with_sessions sessions state).

(* crates/fabric/src/lib.rs:1546-1559 LocalControlPlane::seed_from_authority_snapshot (accesses) *)
Definition seed_snapshot_script (path : string) : Script X () :=
  snapshot ← snapshot_script path;
  state ← script_lift (from_authority_snapshot (cfg_network config) (cfg_roles config) snapshot);
  save_script config (rebuild state).

(* crates/fabric/src/lib.rs:1604-1621 LocalControlPlane::seed_from_authority_origin (accesses) *)
Definition seed_origin_script (web : string → HttpReply Body) (origin : string)
    (subject : option string) : Script X () :=
  let client := authority_client (cfg_network config) origin in
  snapshot ← script_lift (map_err DsControl (fetch_authority_snapshot_for web client subject));
  relay_map ← script_lift (map_err DsControl (fetch_relay_map web client));
  state ← script_lift (from_authority_snapshot (cfg_network config) (cfg_roles config) snapshot);
  save_script config (apply_relay_map (rebuild state) relay_map).1.

(** An operation that gives the files it leaves, as one reading of the files
    and the writing of what it changes. *)
Definition change_script {B : Type} (m : Files C → result DaemonStateError (B * Files C))
    (paths : list string) : Script X () :=
  Reading (λ fs,
    match m fs with
    | Ok (_, fs') => foldr (λ path rest, _ ← script_set path ((fs' : gmap string C) !! path); rest)
                       (mret ()) paths
    | Err e => Finish (Err e)
    end).

(* crates/fabric/src/lib.rs:929-950 migrate_durable_state_file (accesses) *)
Definition migrate_script : Script X () :=
  change_script (migrate_durable_state_file (cfg_state_path config)) [cfg_state_path config].

(* crates/fabric/src/lib.rs:1714-1721 LocalControlPlane::reset_network_state (accesses) *)
Definition reset_script : Script X () :=
  exists_ ← exists_script config;
  if (exists_ : bool) then Removing (cfg_state_path config) (mret ()) else mret ().

(** The files an export or a restoration reads are read at once. *)
(* crates/fabric/src/lib.rs:1072-1072 export_backup_bundle (accesses) *)
Definition export_script (now : Z) (salt nonce : bytes) (request : DurableBackupExportRequest)
    : Script X () :=
  change_script (backup_export now salt nonce request) [ex_output_path request].
(* crates/fabric/src/lib.rs:1129-1130 restore_backup_bundle (accesses) *)
Definition restore_script (request : DurableBackupRestoreRequest) : Script X () :=
  change_script (files_restore request) [rs_identity_path request; rs_state_path request].

Definition work_script (work : Work) : Script X () :=
  match work with
  | WorkPlane web op => op_script web config op
  | WorkSessions sessions => sessions_script sessions
  | WorkSeedSnapshot path => seed_snapshot_script path
  | WorkSeedOrigin web origin subject => seed_origin_script web origin subject
  | WorkMigrate => migrate_script
  | WorkReset => reset_script
  | WorkExport now salt nonce request => export_script now salt nonce request
  | WorkRestore request => restore_script request
  end.

(** The files a work may write besides the state file. *)
Definition work_paths (work : Work) : list string :=
  match work with
  | WorkExport _ _ _ request => [ex_output_path request]
  | WorkRestore request => [rs_identity_path request; rs_state_path request]
  | _ => []
  end.

(** A work that is not meant to replace the state of the file: no seeding, no
    migration, no reset, no restoration, and no export onto it. *)
Definition keeps_state (work : Work) : bool :=
  match work with
  | WorkPlane _ _ | WorkSessions _ => true
  | WorkExport _ _ _ request => negb (String.eqb (ex_output_path request) (cfg_state_path config))
  | _ => false
  end.

(** *** Works are the operations *)

Definition changed_files {B : Type} (m : Files C → result DaemonStateError (B * Files C))
    (fs : Files C) : Files C :=
  match m fs with Ok (_, fs') => fs' | Err _ => fs end.

Definition run_work (work : Work) (fs : Files C) : Files C :=
  match work with
  | WorkPlane web op => run_plane config web op fs
  | WorkSessions sessions =>
      ((state ← ensure_state config; plane_save config (with_sessions sessions state)) fs).2
  | WorkSeedSnapshot path => (seed_from_authority_snapshot config path fs).2
  | WorkSeedOrigin web origin subject => (seed_from_authority_origin web config origin subject fs).2
  | WorkMigrate => changed_files (migrate_durable_state_file (cfg_state_path config)) fs
  | WorkReset => (reset_network_state config fs).2
  | WorkExport now salt nonce request => changed_files (backup_export now salt nonce request) fs
  | WorkRestore request => changed_files (files_restore request) fs
  end.

Lemma run_set path contents fs :
  run_script (script_set path contents) fs =
  (Ok (), partial_alter (λ _, contents) path (fs : gmap string C)).
Proof.
  destruct contents as [text|]; cbn; [by rewrite filled_opened|reflexivity].
Qed.

Lemma run_sets (fs' : Files C) paths fs :
  (∀ path, path ∉ paths → (fs' : gmap string C) !! path = (fs : gmap string C) !! path) →
  (run_script (foldr (λ path rest, _ ← script_set path ((fs' : gmap string C) !! path); rest)
     (mret ()) paths) fs).2 = fs'.
Proof.
  revert fs. induction paths as [|path paths IH]; intros fs Hother; cbn [foldr].
  - apply (map_eq (M := gmap string)). intros path. symmetry. apply Hother, not_elem_of_nil.
  - rewrite run_then, run_set. apply IH. intros p Hp. destruct (decide (p = path)) as [->|Hne].
    + by rewrite (lookup_partial_alter_eq (M := gmap string)).
    + rewrite (lookup_partial_alter_ne (M := gmap string)) by congruence.
      apply Hother. rewrite not_elem_of_cons. by split.
Qed.

Lemma change_alone {B : Type} (m : Files C → result DaemonStateError (B * Files C)) paths fs :
  (∀ b fs', m fs = Ok (b, fs') →
     ∀ path, path ∉ paths → (fs' : gmap string C) !! path = (fs : gmap string C) !! path) →
  (run_script (change_script m paths) fs).2 = changed_files m fs.
Proof.
  intros Hm. unfold change_script, changed_files. cbn [run_script].
  destruct (m fs) as [[b fs']|e]; [|done]. by eapply run_sets, Hm.
Qed.

Context `{!BackupStoreLaws C, !RestoreLaws C}.

(** A work that runs alone leaves what its operation leaves. *)
Lemma work_script_alone work fs : (run_script (work_script work) fs).2 = run_work work fs.
Proof.
  pose proof (ensure_scripted (X := X) config) as He.
  destruct work as [web op|sessions|path|web origin subject| | |now salt nonce request|request];
    cbn [work_script run_work].
  - apply op_script_alone.
  - revert fs. apply same_files_bind; [exact He|]. intros state fs. by rewrite (save_scripted config _ fs).
  - revert fs. apply same_files_bind; [done|]. intros snapshot.
    apply same_files_bind; [done|]. intros state. apply save_same.
  - revert fs. apply same_files_bind; [done|]. intros snapshot.
    apply same_files_bind; [done|]. intros relay_map.
    apply same_files_bind; [done|]. intros state. cbv zeta.
    destruct (apply_relay_map (rebuild state) relay_map). apply save_same.
  - apply change_alone. intros b fs' (? & _ & (? & _ & (? & _ & ([? ?] & _ & (? & _ & [= _ <-]
      )%result_bind_Ok)%result_bind_Ok)%result_bind_Ok)%result_bind_Ok)%result_bind_Ok path Hp.
    apply lookup_insert_ne. intros <-. apply Hp, list_elem_of_here.
  - unfold reset_script, reset_network_state, plane_exists, exists_script, script_read.
    rewrite run_then. cbn [run_script]. unfold mbind, filem_bind, filem_read.
    by destruct (file_exists (cfg_state_path config) fs).
  - apply change_alone. intros b fs' Hb path Hp. eapply backup_export_writes; [exact Hb|].
    intros ->. apply Hp, list_elem_of_here.
  - apply change_alone. intros b fs' Hb path Hp.
    rewrite !not_elem_of_cons in Hp. destruct Hp as (Hi & Hs & _).
    by eapply restore_writes.
Qed.
End works.

(** ** Operations that change sessions

    They save the state they began with, with other sessions, or stop before
    they save. *)

Section sessions.
Context `{Blake3, Varint, Base32, Curves, ArtifactJson} {X : Type} `{StateFormat (list X)}.
Context {W : Type} `{LifecycleTransport W}.
Variable config : DaemonConfig.
Local Notation C := (list X).
Local Notation M := (NodeM C W).

Definition still {A : Type} (Q : A → Prop) (m : M A) : Prop :=
  ∀ n, node_files (m n).2 = node_files n ∧ ∀ a, (m n).1 = Ok a → Q a.
Definition saves {A : Type} (s : DaemonState) (m : M A) : Prop := ∀ n,
  node_files (m n).2 = node_files n ∨
  ∃ l, node_files (m n).2 = daemon_save (with_sessions l s) (cfg_state_path config) (node_files n).

Lemma still_ret {A : Type} (Q : A → Prop) (a : A) : Q a → still Q (mret a).
Proof. intros Ha n. split; [done|]. by intros ? [= <-]. Qed.
Lemma still_lift {A : Type} (r : result DaemonStateError A) : still (λ _, True) (node_lift r).
Proof. done. Qed.
Lemma still_throw {A : Type} (Q : A → Prop) e : still Q (node_throw e : M A).
Proof. done. Qed.
Lemma still_transport {A : Type} (m : TransportM W A) : still (λ _, True) (on_transport m).
Proof. intros n. unfold on_transport. by destruct (m (node_transport n)). Qed.
Lemma still_try {A : Type} (m : TransportM W A) : still (λ _, True) (try_transport m).
Proof. intros n. unfold try_transport. by destruct (m (node_transport n)). Qed.
Lemma still_bind {A B : Type} Q (Q' : B → Prop) (m : M A) (f : A → M B) :
  still Q m → (∀ a, Q a → still Q' (f a)) → still Q' (m ≫= f).
Proof.
  intros Hm Hf n. destruct (Hm n) as [He HQ]. unfold mbind, node_bind.
  destruct (m n) as [[a|e] n']; cbn [fst snd] in *; [|by split].
  destruct (Hf a (HQ a eq_refl) n') as [He' HQ']. split; [by rewrite He'|exact HQ'].
Qed.
Lemma still_for {A B : Type} (Q : B → Prop) (l : list A) (body : A → B → M B) b :
  Q b → (∀ a b, Q b → still Q (body a b)) → still Q (node_for l body b).
Proof.
  intros Hb Hbody. revert b Hb. induction l as [|a l IH]; intros b Hb; cbn [node_for].
  - by apply still_ret.
  - eapply still_bind; [by apply Hbody|exact IH].
Qed.

Lemma saves_still {A : Type} s Q (m : M A) : still Q m → saves s m.
Proof. intros Hm n. left. apply Hm. Qed.
Lemma saves_bind {A B : Type} s Q (m : M A) (f : A → M B) :
  still Q m → (∀ a, Q a → saves s (f a)) → saves s (m ≫= f).
Proof.
  intros Hm Hf n. destruct (Hm n) as [He HQ]. unfold mbind, node_bind.
  destruct (m n) as [[a|e] n']; cbn [fst snd] in *; [|by left].
  rewrite <-He. exact (Hf a (HQ a eq_refl) n').
Qed.
Lemma saves_last {A B : Type} s (m : M A) (f : A → M B) :
  saves s m → (∀ a, still (λ _, True) (f a)) → saves s (m ≫= f).
Proof.
  intros Hm Hf n. pose proof (Hm n) as Hn. unfold mbind, node_bind.
  destruct (m n) as [[a|e] n']; cbn [fst snd] in *; [|exact Hn].
  by rewrite (proj1 (Hf a n')).
Qed.
Lemma saves_save s s' : same_but_sessions s s' → saves s (save_sessions config s').
Proof.
  intros Hs. unfold save_sessions. eapply saves_bind; [apply still_transport|]. intros l _ n. right. exists l.
  unfold on_files, plane_save, filem_write. cbn [snd node_files]. f_equal.
  change (with_sessions l (with_sessions [] s') = with_sessions l (with_sessions [] s)).
  unfold same_but_sessions in Hs. by rewrite Hs.
Qed.

Ltac quietly :=
  repeat first
    [ apply still_throw | apply still_ret; solve [exact I | exact eq_refl | assumption]
    | eapply still_bind; [first [apply still_transport|apply still_try|apply still_lift]|intros ? _]
    | apply still_transport | apply still_lift | case_match ].
Ltac saving :=
  cbv zeta;
  repeat first
    [ apply saves_save; solve [exact eq_refl | assumption]
    | apply saves_last; [apply saves_save; solve [exact eq_refl | assumption]|intros ?; quietly]
    | eapply saves_bind; [first [apply still_transport|apply still_try|apply still_lift]|intros ? _]
    | case_match | apply (saves_still _ (λ _, True)); solve [quietly] ].

Lemma known_still id : still (λ _, True) (known_session id : M SessionSnapshot).
Proof. unfold known_session. quietly. Qed.

Lemma close_saves id s :
  saves s (session ← known_session id;
    _ ← on_transport (lt_update_session_state id StClosing (Some OperatorRequested)
          (Some "operator requested close"));
    _ ← on_transport (lt_close_session session); save_sessions config s).
Proof. eapply saves_bind; [apply known_still|intros session _]. saving. Qed.

Lemma fail_still session cr sr : still (λ _, True) (fail_and_close_session session cr sr : M ()).
Proof. unfold fail_and_close_session, record_path_failure_event. quietly. Qed.

Lemma reconcile_still s listed g :
  same_but_sessions s (rg_state g) →
  still (λ g', same_but_sessions s (rg_state g')) (reconcile_session listed g : M Reconciling).
Proof.
  intros Hg. unfold reconcile_session. quietly.
  all: eapply still_bind; [apply fail_still|intros ? _; quietly].
Qed.

Lemma upgrade_saves id s : saves s (
    session ← known_session id;
    protocol ← node_lift (ok_or (DsInvalidSession "session has no negotiated protocol") (ss_protocol session));
    let policy := explain_policy s (ss_peer session) protocol in
    if negb (allowed policy) then
      _ ← on_transport (lt_update_session_state id StFailed (Some PolicyRejected) (Some (reason policy)));
      node_throw (DsPolicyDenied (reason policy))
    else
      _ ← on_transport (lt_update_session_state id StMigrating None (Some "daemon selected a better path"));
      route ← node_lift (route_plan s (ss_peer session) (Some protocol) (ss_class session));
      upgraded ← on_transport (lt_migrate session route);
      _ ← save_sessions config (with_active_session s upgraded);
      mret upgraded).
Proof. eapply saves_bind; [apply known_still|intros session _]. saving. Qed.

(** An operation that begins with the state of the file. *)
Lemma session_files {B : Type} (f : DaemonState → M B) n :
  (∀ s, saves s (f s)) →
  let fs := node_files ((on_files (ensure_state config) ≫= f) n).2 in
  fs = (run_script (ensure_script config) (node_files n)).2 ∨
  ∃ l, fs = (run_script (sessions_script config l) (node_files n)).2.
Proof.
  intros Hf. cbv zeta.
  assert (∀ l, run_script (sessions_script config l) (node_files n) =
    match run_script (ensure_script config) (node_files n) with
    | (Ok s, fs) => run_script (save_script config (with_sessions l s)) fs
    | (Err e, fs) => (Err e, fs)
    end) as Hs by (intros l; apply run_then).
  setoid_rewrite Hs. rewrite (ensure_scripted config (node_files n)). clear Hs.
  unfold mbind, node_bind, on_files.
  destruct (ensure_state config (node_files n)) as [[s|e] fs]; [|by left].
  destruct (Hf s (mk_Node fs (node_transport n))) as [He|[l He]]; cbn [node_files] in He; [by left|right].
  exists l. rewrite He. by rewrite (save_scripted config _ fs).
Qed.

(** So closing, upgrading, connecting and reconciling leave the files that
    [ensure_state] leaves, or those of a work on the sessions. *)
Definition works_on_sessions (fs fs' : Files C) : Prop :=
  fs' = (run_script (ensure_script config) fs).2 ∨
  ∃ l, fs' = (run_script (sessions_script config l) fs).2.
Lemma session_operations n id p q c :
  works_on_sessions (node_files n) (node_files (fabric_close_session config id n).2) ∧
  works_on_sessions (node_files n) (node_files (upgrade_session config id n).2) ∧
  works_on_sessions (node_files n) (node_files (realize_best_path config p q c n).2) ∧
  works_on_sessions (node_files n) (node_files (reconcile_sessions config n).2).
Proof.
  split_and!; apply session_files; intros s.
  - apply close_saves.
  - apply upgrade_saves.
  - saving.
  - eapply saves_bind; [apply still_transport|intros listed _].
    eapply saves_bind; [apply (still_for (λ g, same_but_sessions s (rg_state g)))|intros g Hg].
    + exact eq_refl.
    + intros session g Hg. by apply reconcile_still.
    + saving.
Qed.
End sessions.
