(* ===== verification/Interleaving.v ===== *)
(** Operations on the state file that run at the same time: a pool of scripts
    takes its single accesses in any order, and any of them may be stopped
    where it stands, a write in the middle of its text included. *)
From stdpp Require Import countable option base relations list strings gmap pretty.
From Stdlib Require Import ZArith Lia Strings.Byte Strings.Ascii.
From S2P Require Import Prelude Text BTree F32 External Model Crypto Records Identity Netcheck Scheduler PeerStore Policy Routing RelayWire Relay Transport Membership Calendar Quic Control ControlFetch Authority AuthorityProps Fabric FabricProps FabricPaths Durable Backup FabricPlane FabricRuntime DurableProps FabricPlaneProps EndToEnd FabricQuic Quipd DaemonApi QuipdApi QuipdControl QuipdSafety Quip QuipCommands QuipProps Scripts.

(** What serde_json promises of the text of a state: nothing, and no part of it
    from its start, is a value, and with more behind it it is either no value
    any more or still the same. *)
Class TornLaws (X : Type) `{StateFormat (list X)} : Prop := {
  empty_no_value : ∃ e, decode_value ([] : list X) = Err e;
  cut_no_value s n : n < length (encode_state s : list X) →
    ∃ e, decode_value (take n (encode_state s)) = Err e;
  tail_no_value s t : (∃ e, decode_value (encode_state s ++ t) = Err e) ∨
    (decode_value (encode_state s ++ t) = decode_value (encode_state s) ∧
     decode_state (encode_state s ++ t) = decode_state (encode_state s));
}.

Section files.
Context {X : Type}.
Local Notation C := (list X).
Implicit Type fs : Files C.

Lemma opened_other path p fs : p ≠ path → (opened path fs : gmap string C) !! p = (fs : gmap string C) !! p.
Proof. intros Hp. unfold opened. by rewrite lookup_insert_ne. Qed.
Lemma filled_at path text fs :
  (filled path text fs : gmap string C) !! path =
  (λ old, text ++ drop (length text) old) <$> (fs : gmap string C) !! path.
Proof.
  unfold filled. destruct ((fs : gmap string C) !! path) as [old|] eqn:Hf; [|exact Hf].
  apply lookup_insert_eq.
Qed.
Lemma filled_other path text p fs :
  p ≠ path → (filled path text fs : gmap string C) !! p = (fs : gmap string C) !! p.
Proof.
  intros Hp. unfold filled. destruct ((fs : gmap string C) !! path); [|done]. by rewrite lookup_insert_ne.
Qed.
Lemma removed_other path p fs : p ≠ path → (removed path fs : gmap string C) !! p = (fs : gmap string C) !! p.
Proof. intros Hp. unfold removed. by rewrite lookup_delete_ne. Qed.
End files.

(** ** Pools *)

Section pool.
Context `{Blake3, Varint, Base32, Curves, ArtifactJson} {X : Type} `{StateFormatLaws (list X), !TornLaws X}.
Context `{BackupStore (list X), ClientFiles (list X)} {Body : Type} `{ControlJson Body}.
Variable config : DaemonConfig.
(** What may start. *)
Variable may : Work (Body := Body) → Prop.
Local Notation C := (list X).
Local Notation path := (cfg_state_path config).
Local Notation at_path p fs := ((fs : gmap string C) !! p).

(** The files and the scripts under way.  A script starts, makes its next
    access, or is stopped where it stands; a write that breaks off leaves the
    beginning of its text.  (One that breaks off over the text of another is not
    considered.) *)
Notation Pool := (Files C * list (Script X ()))%type.
Inductive pool_step : relation Pool :=
| pool_start work fs ts : may work → pool_step (fs, ts) (fs, work_script config work :: ts)
| pool_read k fs before after :
    pool_step (fs, before ++ Reading k :: after) (fs, before ++ k fs :: after)
| pool_open p k fs before after :
    pool_step (fs, before ++ Opening p k :: after) (opened p fs, before ++ k :: after)
| pool_fill p text k fs before after :
    pool_step (fs, before ++ Filling p text k :: after) (filled p text fs, before ++ k :: after)
| pool_remove p k fs before after :
    pool_step (fs, before ++ Removing p k :: after) (removed p fs, before ++ k :: after)
| pool_cut p text n k fs before after :
    at_path p fs = Some [] →
    pool_step (fs, before ++ Filling p text k :: after) (filled p (take n text) fs, before ++ after)
| pool_stop t fs before after : pool_step (fs, before ++ t :: after) (fs, before ++ after).

(** A script that takes all its steps at once runs alone. *)
Lemma pool_alone m fs before after :
  ∃ r, rtc pool_step (fs, before ++ m :: after) ((run_script m fs).2, before ++ Finish r :: after).
Proof.
  revert fs. induction m as [r|k IH|p k IH|p text k IH|p k IH]; intros fs; cbn [run_script].
  - by exists r.
  - destruct (IH fs fs) as [r Hr]. exists r. eapply rtc_l; [apply pool_read|exact Hr].
  - destruct (IH (opened p fs)) as [r Hr]. exists r. eapply rtc_l; [apply pool_open|exact Hr].
  - destruct (IH (filled p text fs)) as [r Hr]. exists r. eapply rtc_l; [apply pool_fill|exact Hr].
  - destruct (IH (removed p fs)) as [r Hr]. exists r. eapply rtc_l; [apply pool_remove|exact Hr].
Qed.

(** *** What a work writes *)

Section within.
Variable P : string → Prop.

Fixpoint within {A} (m : Script X A) : Prop :=
  match m with
  | Finish _ => True
  | Reading k => ∀ fs, within (k fs)
  | Opening p k | Filling p _ k | Removing p k => P p ∧ within k
  end.

Lemma within_bind {A B} (m : Script X A) (f : A → Script X B) :
  within m → (∀ a, within (f a)) → within (m ≫= f).
Proof.
  intros Hm Hf. unfold mbind, script_bind.
  induction m as [[a|e]|k IH|p k IH|p text k IH|p k IH]; cbn in *; [apply Hf|done| | | |].
  - intros fs. apply IH, Hm.
  - split; [apply Hm|apply IH, Hm].
  - split; [apply Hm|apply IH, Hm].
  - split; [apply Hm|apply IH, Hm].
Qed.
Lemma within_set p contents : P p → within (script_set p contents).
Proof. intros Hp. destruct contents; cbn; auto. Qed.
Lemma within_change {B} (m : Files C → result DaemonStateError (B * Files C)) paths :
  (∀ p, p ∈ paths → P p) → within (change_script m paths).
Proof.
  intros Hp fs. destruct (m fs) as [[b fs']|e]; [|done]. clear m b fs.
  induction paths as [|p paths IH]; cbn [foldr]; [done|].
  apply within_bind; [apply within_set, Hp, list_elem_of_here|intros _; apply IH].
  intros q Hq. by apply Hp, list_elem_of_further.
Qed.

Hypothesis state_in : P path.

Lemma within_save s : within (save_script config s).
Proof. by cbn. Qed.

Ltac stay :=
  repeat first
    [ exact I | assumption
    | match goal with
      | |- within (_ ≫= _) => apply within_bind; [|intros ?]
      | |- within (save_script _ _) => apply within_save
      | |- within (script_read _) => intros ?; exact I
      end
    | case_match ].

Lemma within_ensure : within (ensure_script config).
Proof. unfold ensure_script, create_script, exists_script, load_script. stay. Qed.
Lemma within_identity k : within (ensure_identity_script config k).
Proof. pose proof within_ensure. unfold ensure_identity_script, create_script, exists_script. stay. Qed.

Lemma within_work work : (∀ p, p ∈ work_paths work → P p) → within (work_script config work).
Proof.
  intros Hp. pose proof within_ensure. pose proof within_identity.
  destruct work as [web op|sessions|p|web origin subject| | |now salt nonce request|request];
    cbn [work_script].
  - destruct op; cbn [op_script];
      unfold refresh_script, create_script, reprobe_script, sync_snapshot_script, sync_origin_script,
        sync_revocations_script, snapshot_script, exists_script, load_script; cbv zeta; stay; auto.
  - unfold sessions_script. stay.
  - unfold seed_snapshot_script, snapshot_script. stay.
  - unfold seed_origin_script. cbv zeta. stay.
  - apply within_change. by intros p ->%list_elem_of_singleton.
  - unfold reset_script, exists_script. stay. by cbn.
  - by apply within_change.
  - by apply within_change.
Qed.
End within.

(** No file but the state file and those the works name. *)
Lemma pool_others fs0 fs ts p :
  rtc pool_step (fs0, []) (fs, ts) → p ≠ path → (∀ work, may work → p ∉ work_paths work) →
  at_path p fs = at_path p fs0.
Proof.
  intros Hruns Hp Hmay.
  assert (∀ q q' : Pool, rtc pool_step q q' → Forall (within (λ r, r ≠ p)) q.2 →
    at_path p q'.1 = at_path p q.1) as Hg.
  { clear Hruns fs0 fs ts. intros q q'. induction 1 as [|q q1 q2 Hstep _ IH]; intros Hq; [done|].
    assert (Forall (within (λ r, r ≠ p)) q1.2 ∧ at_path p q1.1 = at_path p q.1) as [Hq1 He].
    { destruct Hstep as [work fs ts Hw|k fs b a|r k fs b a|r t k fs b a|r k fs b a|r t n k fs b a _|t fs b a];
        cbn [fst snd] in *.
      - split; [|done]. constructor; [|exact Hq]. apply within_work; [congruence|].
        intros r Hr ->. by apply (Hmay work Hw).
      - split; [|done]. apply Forall_app in Hq as [Hb [Hk Ha]%Forall_cons].
        apply Forall_app. split; [exact Hb|]. constructor; [apply Hk|exact Ha].
      - apply Forall_app in Hq as [Hb [[Hr Hk] Ha]%Forall_cons].
        split; [apply Forall_app; by repeat constructor|]. by apply opened_other.
      - apply Forall_app in Hq as [Hb [[Hr Hk] Ha]%Forall_cons].
        split; [apply Forall_app; by repeat constructor|]. by apply filled_other.
      - apply Forall_app in Hq as [Hb [[Hr Hk] Ha]%Forall_cons].
        split; [apply Forall_app; by repeat constructor|]. by apply removed_other.
      - apply Forall_app in Hq as [Hb [[Hr Hk] Ha]%Forall_cons].
        split; [by apply Forall_app|]. by apply filled_other.
      - apply Forall_app in Hq as [Hb [_ Ha]%Forall_cons]. split; [by apply Forall_app|done]. }
    by rewrite (IH Hq1), He. }
  exact (Hg _ _ Hruns (Forall_nil_2 _)).
Qed.

(** *** What the works that keep the state do to the state file *)

(** What loading makes of a text. *)
Definition load_text (text : C) : result DaemonStateError DaemonState :=
  value ← map_err DsSerialization (decode_value text);
  _ ← validate_durable_state_value value;
  state ← map_err DsSerialization (decode_state text);
  Ok (with_sessions [] state).

Lemma load_at fs text : at_path path fs = Some text → daemon_load path fs = load_text text.
Proof. intros Hf. unfold daemon_load, file_read. by rewrite Hf. Qed.

Section descent.
(** The files at the start. *)
Variable fs0 : Files C.

Definition starts : Prop := ∃ s0, daemon_load path fs0 = Ok s0.
(** A state that the one at the start steps to. *)
Definition descendant (s : DaemonState) : Prop := starts ∧ held config fs0 s.
(** A text that loads as such a state, or is no value. *)
Definition sound (text : C) : Prop :=
  (∃ s, load_text text = Ok s ∧ descendant s) ∨ ∃ e, decode_value text = Err e.
(** The state file is there with such a text; where the file does not load at
    the start it is as it was. *)
Definition descends (fs : Files C) : Prop :=
  ∃ text, at_path path fs = Some text ∧ sound text ∧ (starts ∨ at_path path fs0 = Some text).

(** A text whose writing leaves such texts, however far it gets. *)
Definition writable (text : C) : Prop := (∀ t, sound (text ++ t)) ∧ ∀ n, sound (take n text).

Lemma sound_empty : sound [].
Proof. right. apply empty_no_value. Qed.

Lemma descends_load fs s : descends fs → daemon_load path fs = Ok s → descendant s.
Proof.
  intros (text & Hf & [(s' & Hl & Hs)|[e He]] & _); rewrite (load_at fs text Hf).
  - rewrite Hl. by intros [= <-].
  - unfold load_text. by rewrite He.
Qed.
Lemma descends_exists fs : descends fs → file_exists path fs = true.
Proof. intros (text & Hf & _). unfold file_exists. rewrite Hf. by apply bool_decide_eq_true_2. Qed.
Lemma descends_same fs fs' : at_path path fs' = at_path path fs → descends fs → descends fs'.
Proof. intros He (text & Hf & Ht). exists text. by rewrite He. Qed.
Lemma descends_set fs text : starts → at_path path fs = Some text → sound text → descends fs.
Proof. intros Hst Hf Ht. exists text. auto. Qed.

(** What a script does to files that descend, and what it returns. *)
Fixpoint good {A} (Q : A → Prop) (m : Script X A) : Prop :=
  match m with
  | Finish (Ok a) => Q a
  | Finish (Err _) => True
  | Reading k => ∀ fs, descends fs → good Q (k fs)
  | Opening p k => (p = path → starts) ∧ good Q k
  | Filling p text k => (p = path → starts ∧ writable text) ∧ good Q k
  | Removing p k => p ≠ path ∧ good Q k
  end.

Lemma good_bind {A B} (Q : A → Prop) (R : B → Prop) m (f : A → Script X B) :
  good Q m → (∀ a, Q a → good R (f a)) → good R (m ≫= f).
Proof.
  intros Hm Hf. unfold mbind, script_bind.
  induction m as [[a|e]|k IH|p k IH|p text k IH|p k IH]; cbn in *; [by apply Hf|done| | | |].
  - intros fs Hfs. apply IH, Hm, Hfs.
  - split; [apply Hm|apply IH, Hm].
  - split; [apply Hm|apply IH, Hm].
  - split; [apply Hm|apply IH, Hm].
Qed.

Lemma good_lift {A B} (R : B → Prop) (r : result DaemonStateError A) (f : A → Script X B) :
  (∀ a, r = Ok a → good R (f a)) → good R (script_lift r ≫= f).
Proof. destruct r; [|done]. intros Hf. by apply Hf. Qed.

Lemma good_exists {B} (R : B → Prop) (m m' : Script X B) :
  good R m → good R (exists_ ← exists_script config; if (exists_ : bool) then m else m').
Proof. intros Hm fs Hfs. cbn. by rewrite (descends_exists fs Hfs). Qed.

Lemma good_load : good descendant (load_script config).
Proof.
  intros fs Hfs. cbn. destruct (daemon_load _ fs) as [s|e] eqn:Hl; [|done].
  by eapply descends_load.
Qed.

Lemma descendant_held s s' :
  descendant s → (held config fs0 s → held config fs0 s') → descendant s'.
Proof. intros [Hst Hs] Hstep. split; [exact Hst|by apply Hstep]. Qed.
Lemma descendant_roles s : descendant s → descendant (with_roles (cfg_roles config) s).
Proof.
  intros Hs. eapply descendant_held; [exact Hs|]. intros Hh. by eapply held_step; [|apply step_roles|].
Qed.

(** The text of a state that the one at the start steps to. *)
Lemma saved_writable sessions s : descendant s → writable (saved_text (with_sessions sessions s)).
Proof.
  intros [Hst [Hs Hsteps]].
  assert (descendant (with_sessions [] s)) as Hd.
  { split; [exact Hst|]. eapply held_step; [by split|apply step_sessions, NoDup_nil_2|done]. }
  set (text := saved_text (with_sessions sessions s)).
  assert (load_text text = Ok (with_sessions [] s)) as Hl.
  { destruct (save_current config s fs0 Hs) as [Hl _]. rewrite <-Hl. symmetry. apply load_at.
    unfold daemon_save. apply lookup_insert_eq. }
  assert (sound text) as Hsound by (left; by eexists).
  split.
  - intros t. destruct (tail_no_value (with_sessions [] (with_schema_version DAEMON_STATE_SCHEMA_VERSION
      (with_sessions sessions s))) t) as [He|[Hv Hds]]; [by right|left].
    exists (with_sessions [] s). split; [|exact Hd]. rewrite <-Hl. unfold load_text.
    change (decode_value (text ++ t) = decode_value text) in Hv.
    change (decode_state (text ++ t) = decode_state text) in Hds. by rewrite Hv, Hds.
  - intros n. destruct (decide (n < length text)) as [Hn|Hn].
    + right. by apply cut_no_value.
    + by rewrite take_ge by lia.
Qed.

Lemma good_save_sessions sessions s :
  descendant s → good (λ _, True) (save_script config (with_sessions sessions s)).
Proof.
  intros Hs. split; [intros _; apply Hs|]. split; [|exact I].
  intros _. split; [apply Hs|by apply saved_writable].
Qed.

Lemma good_save s : descendant s → good (λ _, True) (save_script config s).
Proof.
  intros Hs. replace s with (with_sessions (ds_active_sessions s) s) by (by destruct s).
  by apply good_save_sessions.
Qed.

Lemma good_create s : descendant s → good descendant (create_script config s).
Proof. intros Hs. unfold create_script. eapply good_bind; [by apply good_save|]. by intros []. Qed.

Lemma good_ensure : good descendant (ensure_script config).
Proof.
  apply good_exists. eapply good_bind; [apply good_load|]. intros s Hs.
  apply descendant_roles in Hs. exact (descendant_held _ _ Hs (held_rebuild config fs0 _)).
Qed.

Lemma good_ensure_identity k : good descendant (ensure_identity_script config k).
Proof. apply good_exists, good_ensure. Qed.

Lemma good_refresh m : good descendant m → good descendant (refresh_script config m).
Proof. intros Hm. eapply good_bind; [exact Hm|]. apply good_create. Qed.

Lemma good_ignored {A} (Q : A → Prop) m : good Q m → good (λ _, True) (_ ← m; mret ()).
Proof. intros Hm. by eapply good_bind. Qed.

Lemma good_sync_snapshot p : good (λ _, True) (sync_snapshot_script config p).
Proof.
  eapply (good_bind (λ _, True)).
  { intros fs _. cbn. by destruct (file_read _ _ ≫= _). }
  intros snapshot _. apply good_exists.
  eapply good_bind; [apply good_load|]. intros s Hs%descendant_roles. apply good_lift.
  intros [s' report] Hsync. apply good_save.
  eapply descendant_held; [exact Hs|]. intros Hh. by eapply held_sync.
Qed.

Lemma good_sync_origin web origin subject : good (λ _, True) (sync_origin_script web config origin subject).
Proof.
  apply good_lift. intros snapshot _. apply good_lift. intros relay_map _. apply good_exists.
  eapply good_bind; [apply good_load|]. intros s Hs%descendant_roles. apply good_lift.
  intros [s' report] Hsync. apply good_save.
  eapply descendant_held; [exact Hs|]. intros Hh. apply held_relay_map. by eapply held_sync.
Qed.

Lemma good_sync_revocations web origin : good (λ _, True) (sync_revocations_script web config origin).
Proof.
  eapply good_bind; [apply good_ensure|]. intros s Hs%descendant_roles. apply good_lift. intros revocations _.
  apply good_save. eapply descendant_held; [exact Hs|]. intros Hh.
  eapply held_step; [exact Hh|apply step_revocations|].
  unfold apply_revocations. by destruct (merge_revocations _ _).
Qed.

Lemma good_export {B} (m : Files C → result DaemonStateError (B * Files C)) p :
  p ≠ path → good (λ _, True) (change_script m [p]).
Proof.
  intros Hp fs _. destruct (m fs) as [[b fs']|e]; [|done].
  cbn [foldr]. destruct (at_path p fs'); by cbn.
Qed.

Lemma good_work work : keeps_state config work = true → good (λ _, True) (work_script config work).
Proof.
  destruct work as [web op|sessions|p|web origin subject| | |now salt nonce request|request];
    cbn [work_script keeps_state]; intros Hk; try discriminate Hk.
  - destruct op; cbn [op_script].
    + by eapply good_ignored, good_ensure.
    + by eapply good_ignored, good_ensure_identity.
    + by eapply good_ignored, good_ensure_identity.
    + by eapply good_ignored, good_refresh, good_ensure.
    + by eapply good_ignored, good_refresh, good_ensure_identity.
    + eapply good_bind; [apply good_ensure|]. intros s Hs. apply good_save.
      eapply descendant_held; [exact Hs|]. intros Hh. by eapply held_step; [|apply step_reprobe|].
    + apply good_sync_snapshot.
    + apply good_sync_origin.
    + apply good_sync_revocations.
    + by eapply good_ignored, good_ensure.
    + by eapply good_ignored, good_ensure.
  - eapply good_bind; [apply good_ensure|]. intros s Hs. by apply good_save_sessions.
  - apply good_export. by apply negb_true_iff, String.eqb_neq in Hk.
Qed.

(** *** Steps of a pool *)

Lemma descends_opened p fs : (p = path → starts) → descends fs → descends (opened p fs).
Proof.
  intros Hp Hfs. destruct (decide (p = path)) as [->|Hne].
  - eapply descends_set; [by apply Hp|apply lookup_insert_eq|apply sound_empty].
  - eapply descends_same; [|exact Hfs]. apply opened_other. congruence.
Qed.
Lemma descends_filled p text fs :
  (p = path → starts ∧ writable text) → descends fs → descends (filled p text fs).
Proof.
  intros Hp Hfs. destruct (decide (p = path)) as [->|Hne].
  - destruct (Hp eq_refl) as [Hst [Hw _]]. destruct Hfs as (old & Hf & _).
    eapply descends_set; [exact Hst|rewrite filled_at, Hf; reflexivity|apply Hw].
  - eapply descends_same; [|exact Hfs]. apply filled_other. congruence.
Qed.
Lemma descends_cut p text n fs :
  (p = path → starts ∧ writable text) → at_path p fs = Some [] → descends fs →
  descends (filled p (take n text) fs).
Proof.
  intros Hp He Hfs. destruct (decide (p = path)) as [->|Hne].
  - destruct (Hp eq_refl) as [Hst [_ Hw]].
    eapply descends_set; [exact Hst|rewrite filled_at, He; reflexivity|].
    rewrite drop_nil, app_nil_r. apply Hw.
  - eapply descends_same; [|exact Hfs]. apply filled_other. congruence.
Qed.
Lemma descends_removed p fs : p ≠ path → descends fs → descends (removed p fs).
Proof. intros Hp. apply descends_same, removed_other. congruence. Qed.

Hypothesis keeping : ∀ work, may work → keeps_state config work = true.

Definition pool_good (q : Pool) : Prop := descends q.1 ∧ Forall (good (λ _, True)) q.2.

Lemma pool_step_good q q' : pool_good q → pool_step q q' → pool_good q'.
Proof.
  intros [Hd Hts] Hstep.
  destruct Hstep as [work fs ts Hw|k fs b a|r k fs b a|r t k fs b a|r k fs b a|r t n k fs b a He|t fs b a];
    cbn [fst snd] in *.
  - split; [exact Hd|]. constructor; [by apply good_work, keeping|exact Hts].
  - apply Forall_app in Hts as [Hb [Hk Ha]%Forall_cons]. split; [exact Hd|].
    apply Forall_app. split; [exact Hb|]. constructor; [by apply Hk|exact Ha].
  - apply Forall_app in Hts as [Hb [[Hr Hk] Ha]%Forall_cons].
    split; [by apply descends_opened|]. apply Forall_app. by repeat constructor.
  - apply Forall_app in Hts as [Hb [[Hr Hk] Ha]%Forall_cons].
    split; [by apply descends_filled|]. apply Forall_app. by repeat constructor.
  - apply Forall_app in Hts as [Hb [[Hr Hk] Ha]%Forall_cons].
    split; [by apply descends_removed|]. apply Forall_app. by repeat constructor.
  - apply Forall_app in Hts as [Hb [[Hr Hk] Ha]%Forall_cons].
    split; [by apply descends_cut|]. by apply Forall_app.
  - apply Forall_app in Hts as [Hb [_ Ha]%Forall_cons]. split; [exact Hd|]. by apply Forall_app.
Qed.

Lemma pool_steps_descend fs ts : descends fs0 → rtc pool_step (fs0, []) (fs, ts) → descends fs.
Proof.
  intros Hd Hsteps. cut (pool_good (fs, ts)); [by intros []|].
  assert (pool_good (fs0, [])) as Hq by (split; [exact Hd|constructor]).
  induction Hsteps; eauto using pool_step_good.
Qed.
End descent.

(** A refresh that has loaded the file is about to write what it loaded. *)
Definition waiting (s : DaemonState) : Script X () :=
  script_write path (saved_text (rebuild (with_roles (cfg_roles config) s))).

Lemma refresh_waits web fs ts s :
  may (WorkPlane web OpRefresh) → daemon_load path fs = Ok s →
  rtc pool_step (fs, ts) (fs, waiting s :: ts).
Proof.
  intros Hmay Hl.
  eapply rtc_l; [exact (pool_start (WorkPlane web OpRefresh) fs ts Hmay)|].
  eapply rtc_l; [apply (pool_read _ fs [] ts)|]. cbn [app].
  rewrite (load_exists config fs s Hl).
  eapply rtc_l; [apply (pool_read _ fs [] ts)|]. cbn [app].
  assert (daemon_load path fs = Ok s) as -> by exact Hl. reflexivity.
Qed.

(** It writes, whatever the file holds by then, or is stopped in between. *)
Lemma waiting_writes s fs before after :
  current s → ∃ fs' s', rtc pool_step (fs, before ++ waiting s :: after) (fs', before ++ Finish (Ok ()) :: after) ∧
    daemon_load path fs' = Ok s' ∧ ds_revocations s' = ds_revocations s.
Proof.
  intros Hs. set (s1 := rebuild (with_roles (cfg_roles config) s)).
  exists (filled path (saved_text s1) (opened path fs)), (with_sessions [] s1). split_and!; [| |done].
  - eapply rtc_l; [apply pool_open|]. apply rtc_once, pool_fill.
  - rewrite filled_opened. apply (save_current config s1 fs).
    eapply current_step; [|apply step_rebuild|done]. by eapply current_step; [|apply step_roles|].
Qed.
Lemma waiting_stops s fs before after :
  rtc pool_step (fs, before ++ waiting s :: after) (opened path fs, before ++ after).
Proof. eapply rtc_l; [apply pool_open|]. apply rtc_once, pool_stop. Qed.

(** A state file that is cut to nothing stays so. *)
Lemma cut_stays fs fs' ts' :
  (∀ work, may work → keeps_state config work = true) →
  at_path path fs = Some [] → rtc pool_step (fs, []) (fs', ts') → at_path path fs' = Some [].
Proof.
  intros Hkeeps Hf Hruns.
  destruct (pool_steps_descend fs Hkeeps fs' ts') as (text & Hf' & _ & Hst); [|exact Hruns|].
  - exists []. split; [exact Hf|]. split; [apply sound_empty|by right].
  - destruct Hst as [[s Hl]|Hst]; [|by rewrite Hf', <-Hst, Hf].
    rewrite (load_at _ _ Hf) in Hl. unfold load_text in Hl.
    destruct empty_no_value as [e He]. by rewrite He in Hl.
Qed.

(** C13.  Works on the files run at the same time, in any order of their single
    accesses and stopped anywhere.  No file changes but the state file and
    those that an export or a restoration among them names.  If none of them
    is meant to replace the state (by seeding, migrating, resetting, restoring
    or exporting onto it), then from a state file that loads the file is always
    there, and its text is either no JSON value, because a write had only begun
    or another one ended behind it, or a state that descends from the one at the
    start by operations of the state.  Two things do go wrong.  A refresh that
    has loaded the file puts that state back later, whatever the others have
    saved since; and one that is stopped after it has opened the file leaves it
    empty, and when the others have ended none of these works ever writes it
    again. *)
Theorem interleaved_operations fs0 fs ts s0 (Hinv : plane_inv config fs0)
    (Hload : daemon_load path fs0 = Ok s0) (Hruns : rtc pool_step (fs0, []) (fs, ts)) :
  (∀ p, p ≠ path → (∀ work, may work → p ∉ work_paths work) → at_path p fs = at_path p fs0) ∧
  ((∀ work, may work → keeps_state config work = true) →
   ∃ text, at_path path fs = Some text ∧
   ((∃ e, decode_value text = Err e) ∨
    ∃ s, daemon_load path fs = Ok s ∧ daemon_wf s ∧ rtc daemon_step s0 s ∧ daemon_advances s0 s ∧
      ∀ web, may (WorkPlane web OpRefresh) →
        ∃ t, rtc pool_step (fs, ts) (fs, t :: ts) ∧ ∀ fs1 before after,
          (∃ fs2 s2, rtc pool_step (fs1, before ++ t :: after) (fs2, before ++ Finish (Ok ()) :: after) ∧
             daemon_load path fs2 = Ok s2 ∧ ds_revocations s2 = ds_revocations s) ∧
          ∃ fs3, rtc pool_step (fs1, before ++ t :: after) (fs3, before ++ after) ∧
            at_path path fs3 = Some [] ∧
            ∀ fs4 ts4, rtc pool_step (fs3, []) (fs4, ts4) → at_path path fs4 = Some [])).
Proof.
  split; [intros p Hp Hm; by eapply pool_others|]. intros Hkeeps.
  assert (descends fs0 fs0) as Hstart.
  { assert (descendant fs0 s0) as Hs0.
    { split; [by exists s0|]. split; [by apply Hinv|].
      intros s1 Hs1. rewrite Hload in Hs1. by injection Hs1 as ->. }
    destruct (at_path path fs0) as [text|] eqn:Hf.
    - exists text. split; [exact Hf|]. split; [left; exists s0|by right].
      split; [by rewrite <-(load_at fs0 text Hf)|exact Hs0].
    - unfold daemon_load, file_read in Hload. by rewrite Hf in Hload. }
  destruct (pool_steps_descend fs0 Hkeeps fs ts Hstart Hruns) as (text & Hf & [(s & Hl & Hst & Hc & Hs)|He] & _);
    exists text; (split; [exact Hf|]); [right|by left].
  assert (daemon_load path fs = Ok s) as Hls by (by rewrite (load_at fs text Hf)).
  exists s. split; [exact Hls|]. split; [apply Hc|]. split; [by apply Hs|].
  split; [by apply daemon_steps_advance, Hs|]. intros web Hmay.
  exists (waiting s). split; [by eapply refresh_waits|]. intros fs1 before after. split.
  - by apply waiting_writes.
  - exists (opened path fs1). split; [apply waiting_stops|]. split; [apply lookup_insert_eq|].
    intros fs4 ts4. apply cut_stays; [exact Hkeeps|apply lookup_insert_eq].
Qed.
End pool.

(** ** Torn files for the examples

    The text of a state or a value is a piece that holds it and a piece that
    ends it; without its end, or with more behind it, it is no value. *)
Module DemoPieces.
Import External.Demo DemoFiles.
Definition Piece : Type := Contents + ().
Definition whole {A : Type} (f : Contents → result string A) (text : list Piece) : result string A :=
  match text with
  | [inl c; inr ()] => f c
  | _ :: _ :: _ :: _ => Err "trailing characters"
  | _ => Err "EOF while parsing a value"
  end.
#[export] Instance pieces_format : StateFormat (list Piece) := {|
  decode_value := whole decode_value;
  decode_state := whole decode_state;
  decode_snapshot := whole decode_snapshot;
  encode_state s := [inl (encode_state s); inr ()];
  encode_value v := [inl (encode_value v); inr ()] |}.
#[export] Instance pieces_laws : StateFormatLaws (list Piece).
Proof.
  split.
  - exact (decode_encode_state (C := Contents)).
  - exact (decode_infinite_state (C := Contents)).
  - exact (encode_state_object (C := Contents)).
Qed.
#[export] Instance pieces_torn : TornLaws Piece.
Proof.
  split.
  - by eexists.
  - intros s [|[|n]] Hn; cbn in *; [by eexists..|lia].
  - intros s [|piece t]; [by right|left; by eexists].
Qed.

(** Exports and restorations fail. *)
#[export] Instance pieces_backup : BackupStore (list Piece) := λ _ _ _ _ _, Err (DsIo "disk full").
#[export] Instance pieces_client : ClientFiles (list Piece) := {|
  read_discovery _ := Err "no discovery";
  files_restore _ _ := Err (DsIo "disk full");
  files_store_key _ _ _ _ _ fs := (Err InvalidKeystore, fs) |}.
End DemoPieces.

Section witnesses.
Import External.Demo DemoFiles DemoPieces.
#[local] Existing Instance demo_authority_json.

(** A refresh loads the file, and a synchronization saves a revocation; then the
    refresh writes and forgets it, or is stopped and leaves an empty file. *)
Lemma interleaved_operations_witness :
  let runs := rtc (pool_step (X := Piece) demo_config (λ work, keeps_state demo_config work = true)) in
  ∃ s sa ts1 fs1 s1 ts2 fs2 s2 ts3 fs3, demo_state (demo_before ++ demo_after) = Some sa ∧
    runs (daemon_save s "state.json" ∅, []) (fs1, ts1) ∧
    daemon_load "state.json" fs1 = Ok s1 ∧ ds_revocations s1 = st_revocations sa ∧
    st_revocations sa ≠ [] ∧
    runs (fs1, ts1) (fs2, ts2) ∧ daemon_load "state.json" fs2 = Ok s2 ∧ ds_revocations s2 = [] ∧
    runs (fs1, ts1) (fs3, ts3) ∧ (fs3 : gmap string (list Piece)) !! "state.json" = Some [].
Proof.
  cbv zeta. set (may := λ work, keeps_state demo_config work = true).
  destruct demo_file as (s0 & s1 & _ & Hinv0 & Hload0 & Hrevs).
  pose proof (Hinv0 _ Hload0) as Hc0. clear Hinv0 Hload0 s1. set (s := with_sessions [] s0) in *.
  set (fs0 := daemon_save s "state.json" ∅ : Files (list Piece)).
  destruct (save_current demo_config s (∅ : Files (list Piece)) Hc0) as [Hload _].
  change (daemon_load "state.json" fs0 = Ok s) in Hload.
  assert (plane_inv demo_config fs0) as Hinv.
  { intros s1 Hs1. assert (Ok s = Ok s1) as [= <-] by (rewrite <-Hload; exact Hs1). exact Hc0. }
  destruct (demo_state_exists (demo_before ++ demo_after)) as [sa Hsa]; [by vm_compute|].
  destruct (demo_state_room (demo_before ++ demo_after) sa eq_refl Hsa) as [Hwf _].
  assert (length ∘ st_revocations <$> demo_state (demo_before ++ demo_after) = Some 1) as Hlen
    by (vm_compute; reflexivity).
  rewrite Hsa in Hlen. injection Hlen as Hlen.
  assert (Z.of_nat (length (st_revocations sa)) <= u64_max)%Z as Hroom
    by (rewrite Hlen; vm_compute; discriminate).
  destruct (revocations_synced demo_config 7 sa "http://a/" fs0 s 0 Hwf Hroom Hinv Hload Hrevs)
    as (s' & s2 & Hsync & Hl2 & Hr2 & _).
  set (web := authority_web 7 sa "http://a/") in *.
  destruct (interleaved_operations demo_config may fs0 fs0 [] s Hinv Hload (rtc_refl _ _)) as [_ Hkeep].
  destruct (Hkeep (λ work Hw, Hw)) as (text & Hf & [[e He]|(s1 & Hl1 & _ & _ & _ & Hlose)]).
  { rewrite (load_at demo_config fs0 text Hf) in Hload. unfold load_text in Hload.
    rewrite He in Hload. discriminate Hload. }
  assert (Ok s1 = Ok s) as [= ->] by (rewrite <-Hl1; exact Hload).
  destruct (Hlose (λ _, HttpFailed "") eq_refl) as (t & Hrefresh & Hback).
  set (m := work_script (X := Piece) demo_config (WorkPlane web (OpSyncRevocations "http://a/"))).
  destruct (pool_alone demo_config may m fs0 [] [t]) as [r Halone].
  pose proof (op_script_alone (X := Piece) web demo_config (OpSyncRevocations "http://a/") fs0) as Hsame.
  cbn [run_plane] in Hsame. rewrite Hsync in Hsame. cbn [snd] in Hsame.
  change (run_script m fs0).2 with
    (run_script (op_script (X := Piece) web demo_config (OpSyncRevocations "http://a/")) fs0).2 in Halone.
  rewrite Hsame in Halone.
  destruct (Hback (daemon_save s' "state.json" fs0) [Finish r] [])
    as [(fs2 & s3 & Hwrite & Hl3 & Hr3) (fs3 & Hstop & Hempty & _)].
  exists s, sa, [Finish r; t], (daemon_save s' "state.json" fs0), s2,
    ([Finish r] ++ [Finish (Ok ())]), fs2, s3, ([Finish r] ++ []), fs3.
  split; [exact Hsa|]. split.
  { etrans; [exact Hrefresh|]. eapply rtc_l; [|exact Halone].
    exact (pool_start demo_config may (WorkPlane web (OpSyncRevocations "http://a/")) _ _ eq_refl). }
  split; [exact Hl2|]. split; [exact Hr2|]. split; [by intros Hn; rewrite Hn in Hlen|].
  split; [exact Hwrite|]. split; [exact Hl3|]. split; [rewrite Hr3; exact Hrevs|].
  split; [exact Hstop|exact Hempty].
Defined.
End witnesses.
