(* ===== verification/RelayHttp.v ===== *)
(** The relay across the network: the relay process of cmd/relay, from its
    arguments to its answers, and the HTTP control of crates/relay that drives
    it.  The client's HTTP library is an interface; a network of relay
    processes implements it, and over that network the HTTP control does what
    the in-process one does. *)
From stdpp Require Import countable option base list strings gmap pretty.
From Stdlib Require Import ZArith Lia Strings.Byte Strings.Ascii.
From S2P Require Import Prelude Text External Model Crypto Identity RelayWire Relay.

(** ** The process *)

(* cmd/relay/src/main.rs:10-32 Args *)
Record RelayArgs := {
  ra_arg_region : string;
  ra_arg_max_bandwidth_mbps : Z;
  ra_arg_peer_seed : option string;
  ra_arg_bind : string;
  ra_arg_control_endpoint : string;
  ra_arg_advertise_addresses : list string;
  ra_arg_allow_destinations : list string;
}.

(* cmd/relay/src/main.rs:8-8 MAX_CONTROL_BODY_BYTES *)
Definition MAX_CONTROL_BODY_BYTES : Z := 64 * 1024.

Section process.
Context `{Blake3, Varint, Base32, Curves, JsonBytes SessionCredentialUnsigned}.
Context `{JsonText, RelayJson}.

(* cmd/relay/src/main.rs:146-164 parse_destinations *)
Definition parse_destinations (values : list string) : outcome (list RelayDestination) :=
  mapM (λ value,
    '(peer, protocols) ← expect_some (split_once "="%char value);
    peer ← expect_ok (PeerId_from_str peer);
    protocols ← mapM (λ protocol, expect_ok (ProtocolId_new protocol))
      (retain (λ protocol, negb (String.eqb protocol "")) (trim <$> split_char ","%char protocols));
    Returns {| rd_peer := peer; rd_protocols := protocols |}) values.

(* cmd/relay/src/main.rs:37-63 main (node) *)
Definition relay_node (args : RelayArgs) : outcome RelayNode :=
  let peer_seed := default ("relay:" +:+ ra_arg_region args) (ra_arg_peer_seed args) in
  let peer_id := peer_id (from_secret_bytes (hash_bytes (as_bytes peer_seed))) in
  destinations ← parse_destinations (ra_arg_allow_destinations args);
  Returns {|
    announcement := {|
      ra_peer_id := peer_id;
      ra_region := ra_arg_region args;
      ra_advertised_endpoints := match ra_arg_advertise_addresses args with
                                 | [] => ["quic://127.0.0.1:443"]
                                 | addresses => addresses end;
      ra_control_endpoint := ra_arg_control_endpoint args;
      ra_max_bandwidth_bps := u64_wrap (ra_arg_max_bandwidth_mbps args * 1000000);
      ra_supports_quic_datagrams := true;
      ra_supports_path_migration := true;
      ra_traffic_classes := ["NetworkControl"; "InteractiveRpc"; "Background"] |};
    quotas := [];
    destinations := destinations |}.

(* cmd/relay/src/main.rs:109-144 read_request_body *)
Definition read_request_body (request : HttpRequest) : result (Z * string) bytes :=
  let method := req_method request in
  if String.eqb method "GET" || String.eqb method "HEAD" then Ok []
  else
    match req_body_length request with
    | None => Err (411%Z, error_json "relay control requests must include Content-Length")
    | Some limit =>
        if (MAX_CONTROL_BODY_BYTES <? limit)%Z then
          Err (413%Z, error_json ("relay control request body exceeds " +:+
            pretty MAX_CONTROL_BODY_BYTES +:+ " bytes"))
        else
          match req_read request with
          | Ok body => Ok body
          | Err error => Err (400%Z, error_json
              ("relay control request body could not be read: " +:+ error))
          end
    end.

(** One turn of the loop: the answer to a request and the service after it. *)
(* cmd/relay/src/main.rs:76-96 main (request) *)
Definition relay_turn (now : Z) (random : bytes) (service : RelayService) (request : HttpRequest)
    : outcome ((Z * string) * RelayService) :=
  match read_request_body request with
  | Err (status, payload) => Returns ((status, payload), service)
  | Ok body => control_response now random service (req_method request) (req_url request) body
  end.

(** A request as it arrives, with the readings its admission may take, and
    whether its answer can be written. *)
Record RelayInput := {
  ri_now : Z;
  ri_random : bytes;
  ri_request : HttpRequest;
  ri_written : bool;
}.

(** The answers written, and the service, unless a panic has ended the process. *)
(* cmd/relay/src/main.rs:75-106 main (loop) *)
Fixpoint relay_loop (inputs : list RelayInput) (service : RelayService)
    : list (Z * string) * outcome RelayService :=
  match inputs with
  | [] => ([], Returns service)
  | input :: inputs =>
      match relay_turn (ri_now input) (ri_random input) service (ri_request input) with
      | Panics => ([], Panics)
      | Returns (answer, service) =>
          if ri_written input then
            let '(answers, o) := relay_loop inputs service in (answer :: answers, o)
          else ([], Panics)
      end
  end.

(** The line printed, the answers, and the service. *)
(* cmd/relay/src/main.rs:34-107 main *)
Definition relay_main (args : RelayArgs) (inputs : list RelayInput)
    : outcome (string * (list (Z * string) * outcome RelayService)) :=
  node ← relay_node args;
  let service := RelayService_new node in
  let ready := "relay ready in region " +:+ ra_region (announcement node) +:+ " with " +:+
    pretty (ra_max_bandwidth_bps (announcement node)) +:+ " bps capacity destinations=" +:+
    pretty (Z.of_nat (length (destinations node))) +:+ " control_endpoint=" +:+
    ra_control_endpoint (announcement node) +:+ " bind=" +:+ ra_arg_bind args in
  Returns (ready, relay_loop inputs service).
End process.

(** ** The client *)

(** What a request comes to: a response below 400 or from 400 on, with the text
    of its body or the error of reading it, or no response. *)
Inductive HttpAnswer :=
| AnswerOk (body : result string string)
| AnswerStatus (code : Z) (body : result string string)
| AnswerFailed (text : string).

(** The HTTP library: a method, a URL and a body, sent in a world of this kind. *)
Class HttpNet (R : Type) := http_send : string → string → bytes → R → HttpAnswer * R.

(** serde_json at the types the client writes and reads. *)
Class RelayClientJson := {
  open_json : RelayOpenRequest → string;
  read_accepted : string → result string RelaySessionAccepted;
  read_rejected : string → result string RelaySessionRejected;
  read_session : string → result string RelaySession;
}.

(** [into_json], and [into_string] with an error in place of the text. *)
Definition into_json {A : Type} (decode : string → result string A) (body : result string string)
    : result RelayError A := map_err ControlDecode (body ≫= decode).
Definition into_string (body : result string string) : string :=
  match body with Ok text => text | Err error => error end.

Section client.
Context `{JsonText, RelayClientJson} {R : Type} `{HttpNet R}.

Definition sessions_url (endpoint : string) : string :=
  trim_end_matches "/"%char endpoint +:+ "/sessions".
Definition session_url (endpoint : string) (session_id : bytes) : string :=
  trim_end_matches "/"%char endpoint +:+ "/sessions/" +:+ hex_session_id session_id.
Definition close_text (reason : string) : string := json_text (JObj [("reason", JStr reason)]).

(* crates/relay/src/lib.rs:322-344 HttpRelayControl::open_session *)
Definition http_open_session (endpoint : string) (request : RelayOpenRequest) (r : R)
    : result RelayError RelaySessionAccepted * R :=
  let '(answer, r) := http_send "POST" (sessions_url endpoint) (as_bytes (open_json request)) r in
  (match answer with
   | AnswerOk body => into_json read_accepted body
   | AnswerStatus _ body =>
       rejected ← into_json read_rejected body;
       Err (map_rejected_to_error rejected)
   | AnswerFailed error => Err (ControlTransport error)
   end, r).

(* crates/relay/src/lib.rs:346-372 HttpRelayControl::close_session *)
Definition http_close_session (endpoint : string) (session_id : bytes) (reason : string) (r : R)
    : result RelayError () * R :=
  let '(answer, r) := http_send "DELETE" (session_url endpoint session_id)
    (as_bytes (close_text reason)) r in
  (match answer with
   | AnswerOk _ => Ok ()
   | AnswerStatus code body =>
       if (code =? 404)%Z then Err SessionNotFound else Err (ControlTransport (into_string body))
   | AnswerFailed error => Err (ControlTransport error)
   end, r).

(* crates/relay/src/lib.rs:374-399 HttpRelayControl::session *)
Definition http_session (endpoint : string) (session_id : bytes) (r : R)
    : result RelayError (option RelaySession) * R :=
  let '(answer, r) := http_send "GET" (session_url endpoint session_id) [] r in
  (match answer with
   | AnswerOk body => session ← into_json read_session body; Ok (Some session)
   | AnswerStatus code body =>
       if (code =? 404)%Z then Ok None else Err (ControlTransport (into_string body))
   | AnswerFailed error => Err (ControlTransport error)
   end, r).

(* crates/relay/src/lib.rs:318-319 HttpRelayControl *)
Definition http_relay_control : RelayControl R := {|
  rc_open_session := http_open_session;
  rc_close_session := http_close_session;
  rc_session endpoint session_id r := (http_session endpoint session_id r).1;
|}.
End client.

(** ** URLs

    An origin is a scheme, [://] and an authority; the path starts at the next
    slash. *)
Fixpoint before_slash (s : string) : string * string :=
  match s with
  | EmptyString => ("", "")
  | String a t =>
      if Ascii.eqb a "/" then ("", s) else let '(authority, path) := before_slash t in
        (String a authority, path)
  end.
Fixpoint split_origin (s : string) : option (string * string) :=
  match strip_prefix "://" s with
  | Some rest => let '(authority, path) := before_slash rest in Some ("://" +:+ authority, path)
  | None =>
      match s with
      | EmptyString => None
      | String a t => '(origin, path) ← split_origin t; Some (String a origin, path)
      end
  end.

Lemma before_slash_app s : (before_slash s).1 +:+ (before_slash s).2 = s.
Proof.
  induction s as [|a s IH]; [done|]. cbn [before_slash]. destruct (Ascii.eqb a "/"); [done|].
  destruct (before_slash s) as [x y]. cbn [fst snd] in *.
  change (String a (x +:+ y) = String a s). by rewrite IH.
Qed.
Lemma split_origin_app s o p : split_origin s = Some (o, p) → o +:+ p = s.
Proof.
  revert o p. induction s as [|a s IH]; intros o p; [done|]. cbn [split_origin].
  destruct (strip_prefix "://" (String a s)) as [rest|] eqn:Hs.
  - apply strip_prefix_Some in Hs. pose proof (before_slash_app rest) as Hr.
    destruct (before_slash rest) as [authority path]. intros [= <- <-]. cbn [fst snd] in Hr. by rewrite Hs, <-Hr.
  - destruct (split_origin s) as [[o' p']|]; [|done]. cbn. intros [= <- <-].
    change (String a (o' +:+ p') = String a s). by rewrite (IH o' p' eq_refl).
Qed.

Lemma before_slash_ext s p q :
  before_slash (s +:+ String "/" p) = (s, String "/" p) →
  before_slash (s +:+ String "/" q) = (s, String "/" q).
Proof.
  induction s as [|a s IH]; [done|]. cbn [before_slash String.app].
  change (String a s +:+ String "/" p) with (String a (s +:+ String "/" p)).
  change (String a s +:+ String "/" q) with (String a (s +:+ String "/" q)). cbn [before_slash].
  destruct (Ascii.eqb a "/"); [done|].
  destruct (before_slash (s +:+ String "/" p)) as [x y]. intros [= -> ->]. by rewrite (IH eq_refl).
Qed.

Lemma scheme_prefix a o q :
  strip_prefix "://" (String a (o +:+ "/sessions")) = None →
  strip_prefix "://" (String a (o +:+ "/sessions" +:+ q)) = None.
Proof.
  assert (∀ x t, strip_prefix "://" (String a (String x t)) =
    if Ascii.eqb ":" a then if Ascii.eqb "/" x then strip_prefix "/" t else None else None) as Hp by done.
  assert (∀ x t, strip_prefix "/" (String x t) = if Ascii.eqb "/" x then Some t else None) as Hq by done.
  destruct o as [|b [|c o]].
  - intros _. change ("" +:+ "/sessions" +:+ q) with (String "/" (String "s" ("essions" +:+ q))).
    rewrite Hp, Hq. by destruct (Ascii.eqb ":" a).
  - change (String b "" +:+ "/sessions") with (String b (String "/" "sessions")).
    change (String b "" +:+ "/sessions" +:+ q) with (String b (String "/" ("sessions" +:+ q))).
    rewrite !Hp, !Hq. by destruct (Ascii.eqb ":" a), (Ascii.eqb "/" b).
  - change (String b (String c o) +:+ "/sessions") with (String b (String c (o +:+ "/sessions"))).
    change (String b (String c o) +:+ "/sessions" +:+ q) with (String b (String c (o +:+ "/sessions" +:+ q))).
    rewrite !Hp, !Hq. by destruct (Ascii.eqb ":" a), (Ascii.eqb "/" b), (Ascii.eqb "/" c).
Qed.

(** An endpoint that reaches an origin's sessions reaches what is below them. *)
Lemma split_origin_ext o q :
  split_origin (o +:+ "/sessions") = Some (o, "/sessions") →
  split_origin (o +:+ "/sessions" +:+ q) = Some (o, "/sessions" +:+ q).
Proof.
  induction o as [|a o IH]; [done|].
  change (String a o +:+ "/sessions") with (String a (o +:+ "/sessions")).
  change (String a o +:+ "/sessions" +:+ q) with (String a (o +:+ "/sessions" +:+ q)).
  cbn [split_origin].
  destruct (strip_prefix "://" (String a (o +:+ "/sessions"))) as [rest|] eqn:Hs.
  - apply strip_prefix_Some in Hs.
    pose proof (before_slash_app rest) as Hr. destruct (before_slash rest) as [auth path] eqn:Hb.
    intros Heq. injection Heq as Ha Ho Hp. subst path.
    assert (o = "//" +:+ auth) as -> by done. subst a. cbn in Hr.
    replace (strip_prefix "://" (String ":" (("//" +:+ auth) +:+ "/sessions" +:+ q)))
      with (Some (auth +:+ "/sessions" +:+ q)) by done.
    rewrite <-Hr in Hb. change ("/sessions" +:+ q) with (String "/" ("sessions" +:+ q)).
    by rewrite (before_slash_ext _ _ _ Hb).
  - rewrite (scheme_prefix a o q Hs).
    destruct (split_origin (o +:+ "/sessions")) as [[o' p']|]; [|done]. cbn [mbind option_bind].
    intros Heq. injection Heq as -> ->. by rewrite (IH eq_refl).
Qed.
