(* ===== verification/RelayHttpProps.v ===== *)
(** Relays across the network: over relay processes the HTTP control does what
    the services do, so it keeps the laws a transport relies on, and a relay
    process only ever holds sessions it serves. *)
From stdpp Require Import countable option base list strings gmap pretty.
From Stdlib Require Import ZArith Lia Strings.Byte Strings.Ascii.
From S2P Require Import Prelude Text External Model Crypto Identity RelayWire Relay RelayHttp.

(** What one side writes the other reads. *)
Class RelayWireLaws `{JsonText, RelayJson, RelayClientJson} : Prop := {
  wire_open request : parse_open (as_bytes (open_json request)) = Ok request;
  wire_close_reason reason : parse_close (as_bytes (close_text reason)) = Ok reason;
  wire_accepted accepted : read_accepted (accepted_json accepted) = Ok accepted;
  wire_rejected rejected : read_rejected (rejected_json rejected) = Ok rejected;
  wire_session session : read_session (session_json session) = Ok session;
}.

(** ** Session paths *)

Definition no_slash (s : string) : bool := string_forallb (λ a, negb (Ascii.eqb a "/")) s.

Lemma no_slash_digits acc d v : digits_value acc d = Some v → no_slash d = true.
Proof.
  revert acc. induction d as [|a d IH]; intros acc; [done|]. cbn [digits_value no_slash string_forallb].
  destruct (digit_value a) as [x|] eqn:Ha; [|done]. destruct (_ <? _)%N; [|done]. intros Hd.
  fold (no_slash d). rewrite (IH _ Hd), andb_true_r. by destruct (Ascii.eqb_spec a "/") as [->|].
Qed.
Lemma no_slash_u8 d b : u8_from_hex d = Some b → no_slash d = true.
Proof.
  destruct d as [|a d]; [done|]. unfold u8_from_hex. destruct (Ascii.eqb_spec a "+") as [->|].
  - destruct d as [|c d]; [done|]. intros (v & Hn & _)%bind_Some. apply no_slash_digits in Hn. exact Hn.
  - intros (v & Hn & _)%bind_Some. by eapply no_slash_digits.
Qed.
Lemma no_slash_hex l : no_slash (hex_string l) = true.
Proof.
  unfold no_slash. induction l as [|b l IH]; [done|]. cbn [hex_string].
  rewrite string_forallb_app, IH, andb_true_r. by destruct b.
Qed.

(** The slots that parse have no slash. *)
Lemma parsed_bytes_no_slash value index fuel l :
  parse_session_bytes value index fuel = Returns (Some l) → length l = fuel ∧
  ∀ i, index * 2 ≤ i < (index + fuel) * 2 → String.get i value ≠ Some "/"%char.
Proof.
  revert index l. induction fuel as [|fuel IH]; intros index l; cbn [parse_session_bytes].
  { intros [= <-]. split; [done|]. lia. }
  unfold str_slice. destruct (_ && _); [|done].
  replace (index * 2 + 2 - index * 2) with 2 by lia.
  destruct (u8_from_hex _) as [b|] eqn:Hb; [|done].
  destruct (parse_session_bytes value (S index) fuel) as [[rest|]|] eqn:Hrest; try done.
  intros [= <-]. destruct (IH _ _ Hrest) as [Hlen Hi]. split; [cbn; lia|]. intros i Hrange Hget.
  destruct (decide (i < S index * 2)) as [Hlow|]; [|apply (Hi i); [lia|exact Hget]].
  apply no_slash_u8 in Hb.
  assert (String.get (i - index * 2) (String.substring (index * 2) 2 value) = Some "/"%char) as Hs.
  { rewrite String.substring_correct1 by lia. by replace (i - index * 2 + index * 2) with i by lia. }
  by pose proof (string_forallb_get _ _ _ _ Hb Hs).
Qed.

Lemma parsed_id_no_slash value id :
  parse_session_id value = Returns (Some id) → length id = 16 ∧ no_slash value = true.
Proof.
  unfold parse_session_id. destruct (decide _) as [|Hlen%dec_stable]; [done|].
  intros [Hid Hi]%parsed_bytes_no_slash. split; [done|]. clear Hid id.
  assert (∀ i, String.get i value ≠ Some "/"%char) as Hall.
  { intros i Hget. destruct (decide (i < 32)); [by apply (Hi i); [lia|]|].
    assert (String.get i value = None) as Hn by (apply string_get_None; unfold str_len in Hlen; lia).
    congruence. }
  clear Hi Hlen. induction value as [|a value IH]; [done|]. cbn [no_slash string_forallb].
  fold (no_slash value). rewrite IH, andb_true_r by (intros i; apply (Hall (S i))).
  destruct (Ascii.eqb_spec a "/") as [->|]; [by destruct (Hall 0)|done].
Qed.

(** The text after the last slash. *)
Lemma last_slash s1 t1 s2 t2 :
  no_slash t1 = true → no_slash t2 = true →
  s1 +:+ String "/" t1 = s2 +:+ String "/" t2 → s1 = s2 ∧ t1 = t2.
Proof.
  intros Ht1 Ht2. revert s2. induction s1 as [|a s1 IH]; intros [|b s2] Heq.
  - by injection Heq.
  - injection Heq as _ ->. unfold no_slash in Ht1. rewrite string_forallb_app in Ht1.
    cbn [string_forallb] in Ht1. by rewrite andb_false_r in Ht1.
  - injection Heq as _ <-. unfold no_slash in Ht2. rewrite string_forallb_app in Ht2.
    cbn [string_forallb] in Ht2. by rewrite andb_false_r in Ht2.
  - injection Heq as -> Heq. by destruct (IH s2 Heq) as [-> ->].
Qed.

(** The session a path of a session URL names is that of the URL. *)
Lemma session_url_id endpoint id origin path id' :
  split_origin (session_url endpoint id) = Some (origin, path) →
  parse_session_path path = Returns (Some id') → id' = id.
Proof.
  intros Hs Hp. unfold parse_session_path in Hp.
  destruct (strip_prefix "/sessions/" path) as [t|] eqn:Ht; [|done].
  apply strip_prefix_Some in Ht as ->. destruct (parsed_id_no_slash _ _ Hp) as [Hlen Hslash].
  apply split_origin_app in Hs. unfold session_url in Hs.
  assert (t = hex_session_id id) as ->.
  { apply (last_slash (origin +:+ "/sessions") t (trim_end_matches "/"%char endpoint +:+ "/sessions"));
      [exact Hslash|apply no_slash_hex|].
    rewrite !string_app_assoc. exact Hs. }
  assert (length id = 16) as Hid.
  { unfold parse_session_id in Hp. destruct (decide _) as [|Hl%dec_stable]; [done|].
    unfold str_len, hex_session_id in Hl. rewrite length_hex_string in Hl. lia. }
  rewrite (parse_session_id_hex id Hid) in Hp. by injection Hp.
Qed.

Section network.
Context `{Blake3, Varint, Base32, Curves, JsonBytes SessionCredentialUnsigned}.
Context `{RelayWireLaws}.

(** Relay processes by the origin they listen on; a POST takes the next
    readings of the clock and the generator, which draws 16 bytes. *)
Definition Relays : Type := gmap string RelayService * nat.
Context (clock : nat → Z) (rng : nat → bytes) (Hrng : ∀ n, length (rng n) = 16).

Definition client_request (method path : string) (body : bytes) : HttpRequest := {|
  req_method := method; req_url := path; req_body_length := Some (Z.of_nat (length body));
  req_read := Ok body |}.

(** A process that panics answers nothing any more. *)
#[export] Instance relay_net : HttpNet Relays := λ method url body '(services, n),
  match split_origin url with
  | None => (AnswerFailed "invalid url", (services, n))
  | Some (origin, path) =>
      match services !! origin with
      | None => (AnswerFailed "connection refused", (services, n))
      | Some service =>
          let n' := if String.eqb method "POST" then S n else n in
          match relay_turn (clock n) (rng n) service (client_request method path body) with
          | Panics => (AnswerFailed "connection closed", (delete origin services, n'))
          | Returns ((status, payload), service') =>
              (if (status <? 400)%Z then AnswerOk (Ok payload) else AnswerStatus status (Ok payload),
               (<[origin := service']> services, n'))
          end
      end
  end.

(** An endpoint that reaches the process at an origin. *)
Definition reaches (endpoint origin : string) : Prop :=
  trim_end_matches "/"%char endpoint = origin ∧
  split_origin (origin +:+ "/sessions") = Some (origin, "/sessions").

Definition short (body : bytes) : Prop := (Z.of_nat (length body) <= MAX_CONTROL_BODY_BYTES)%Z.

Lemma turn_short now random service method path body :
  short body →
  relay_turn now random service (client_request method path body) =
  control_response now random service method path
    (if String.eqb method "GET" || String.eqb method "HEAD" then [] else body).
Proof.
  intros Hs. unfold relay_turn, read_request_body. cbn [req_method req_url req_body_length req_read client_request].
  destruct (_ || _); [done|]. by rewrite (proj2 (Z.ltb_ge _ _)) by exact Hs.
Qed.

Lemma url_sessions endpoint origin :
  reaches endpoint origin → split_origin (sessions_url endpoint) = Some (origin, "/sessions").
Proof. unfold sessions_url. by intros [-> ?]. Qed.
Lemma url_session endpoint origin id :
  reaches endpoint origin → split_origin (session_url endpoint id) = Some (origin, session_path id).
Proof.
  unfold session_url. intros [-> Ho].
  exact (split_origin_ext origin ("/" +:+ hex_session_id id) Ho).
Qed.

Lemma close_session_cases self id reason :
  close_session self id reason =
  match session self id with
  | Some _ => (Ok (), {| node := node self;
      runtime := alter (with_status Closed) id (runtime self : gmap bytes RelaySession) |})
  | None => (Err SessionNotFound, self)
  end.
Proof. unfold close_session, session. by destruct (runtime_session (runtime self) id). Qed.

(** C6.  Over relay processes, the HTTP control does to the relay an endpoint
    reaches, and answers, what the operations of its service do: opening
    answers the acceptance or the error of the rejection, closing succeeds or
    does not find the session, and asking tells the session and changes
    nothing. *)
Theorem http_control_agrees endpoint origin request id reason services n service
    (Hreach : reaches endpoint origin) (Hservice : services !! origin = Some service)
    (Hid : length id = 16)
    (Hopen : short (as_bytes (open_json request))) (Hclose : short (as_bytes (close_text reason))) :
  http_open_session endpoint request (services, n) =
    (let '(r, service') := open_session (clock n) (rng n) service request in
     (map_err map_rejected_to_error r, (<[origin := service']> services, S n))) ∧
  http_close_session endpoint id reason (services, n) =
    (let '(r, service') := close_session service id reason in (r, (<[origin := service']> services, n))) ∧
  http_session endpoint id (services, n) = (Ok (session service id), (services, n)).
Proof.
  split_and!.
  - unfold http_open_session, http_send, relay_net.
    rewrite (url_sessions _ _ Hreach), Hservice, turn_short by done.
    unfold control_response. cbn [String.eqb Ascii.eqb Bool.eqb andb orb]. rewrite wire_open.
    destruct (open_session (clock n) (rng n) service request) as [[accepted|rejected] service'].
    + cbn. unfold into_json. cbn. by rewrite wire_accepted.
    + cbn. unfold into_json. cbn. by rewrite wire_rejected.
  - unfold http_close_session, http_send, relay_net.
    rewrite (url_session _ _ _ Hreach), Hservice, turn_short by done.
    rewrite (control_delete _ _ _ _ _ reason Hid) by apply wire_close_reason.
    rewrite close_session_cases. by destruct (session service id).
  - unfold http_session, http_send, relay_net.
    rewrite (url_session _ _ _ Hreach), Hservice, turn_short by done.
    rewrite control_get by done. rewrite insert_id by done.
    destruct (session service id) as [x|]; [|done]. cbn. unfold into_json. cbn. by rewrite wire_session.
Qed.

(** ** The laws of the control *)

Lemma turn_get now random service path body :
  relay_turn now random service (client_request "GET" path body) =
  control_response now random service "GET" path [].
Proof. reflexivity. Qed.

(** A POST that is answered below 400 has opened a session. *)
Lemma post_ok now random service path request status payload service' :
  relay_turn now random service (client_request "POST" path (as_bytes (open_json request))) =
    Returns ((status, payload), service') → (status < 400)%Z →
  path = "/sessions" ∧ ∃ accepted, open_session now random service request = (Ok accepted, service') ∧
    payload = accepted_json accepted.
Proof.
  unfold relay_turn, read_request_body.
  cbn [req_method req_url req_body_length req_read client_request String.eqb Ascii.eqb Bool.eqb orb].
  destruct (_ <? _)%Z; [intros [= <- <- <-]; lia|]. unfold control_response.
  destruct (String.eqb_spec path "/sessions") as [->|Hp]; cbn [andb String.eqb Ascii.eqb Bool.eqb].
  - rewrite wire_open. destruct (open_session now random service request) as [[accepted|rejected] s'];
      intros [= <- <- <-]; [|lia]. by eauto.
  - intros [= <- <- <-]; lia.
Qed.

(** A DELETE that is answered below 400 has closed the session of its path. *)
Lemma delete_ok now random service path body status payload service' :
  relay_turn now random service (client_request "DELETE" path body) =
    Returns ((status, payload), service') → (status < 400)%Z →
  starts_with "/sessions/" path = true ∧ ∃ id x, parse_session_path path = Returns (Some id) ∧
    session service id = Some x ∧ service' = {| node := node service;
      runtime := alter (with_status Closed) id (runtime service : gmap bytes RelaySession) |}.
Proof.
  unfold relay_turn, read_request_body.
  cbn [req_method req_url req_body_length req_read client_request String.eqb Ascii.eqb Bool.eqb orb].
  destruct (_ <? _)%Z; [intros [= <- <- <-]; lia|]. unfold control_response.
  cbn [andb String.eqb Ascii.eqb Bool.eqb].
  destruct (starts_with _ path); [|intros [= <- <- <-]; lia].
  destruct (parse_session_path path) as [[id|]|]; [|intros [= <- <- <-]; lia|done].
  destruct (parse_close body) as [reason|e]; [|intros [= <- <- <-]; lia].
  rewrite close_session_cases. destruct (session service id) as [x|] eqn:Hx; intros [= <- <- <-]; [|lia].
  split; [done|]. by exists id, x.
Qed.

(** Below the sessions a GET tells the session of the path. *)
Lemma get_session now random service path id body :
  starts_with "/sessions/" path = true → parse_session_path path = Returns (Some id) →
  relay_turn now random service (client_request "GET" path body) =
  Returns (match session service id with
           | Some x => (200%Z, session_json x)
           | None => (404%Z, not_found_json id)
           end, service).
Proof.
  intros Hs Hp. rewrite turn_get. unfold control_response.
  destruct (String.eqb_spec path "/healthz") as [->|]; [done|].
  cbn [andb String.eqb Ascii.eqb Bool.eqb]. rewrite Hs, Hp. by destruct (session service id).
Qed.

Lemma http_session_at endpoint id services n origin path service :
  split_origin (session_url endpoint id) = Some (origin, path) → services !! origin = Some service →
  starts_with "/sessions/" path = true → parse_session_path path = Returns (Some id) →
  (http_session endpoint id (services, n)).1 = Ok (session service id).
Proof.
  intros Hu Hs Hst Hp. unfold http_session, http_send, relay_net. rewrite Hu, Hs.
  rewrite (get_session _ _ _ _ id) by done. destruct (session service id); [|done].
  cbn. unfold into_json. cbn. by rewrite wire_session.
Qed.

(** A close that succeeds has reached a relay and closed the session there. *)
Lemma http_close_ok endpoint id reason services n r' :
  http_close_session endpoint id reason (services, n) = (Ok (), r') →
  ∃ origin path service x, split_origin (session_url endpoint id) = Some (origin, path) ∧
    services !! origin = Some service ∧ starts_with "/sessions/" path = true ∧
    parse_session_path path = Returns (Some id) ∧ session service id = Some x ∧
    r' = (<[origin := {| node := node service;
      runtime := alter (with_status Closed) id (runtime service : gmap bytes RelaySession) |}]> services, n).
Proof.
  unfold http_close_session, http_send, relay_net.
  destruct (split_origin (session_url endpoint id)) as [[origin path]|] eqn:Hu; [|done].
  destruct (services !! origin) as [service|] eqn:Hs; [|done]. cbn [String.eqb Ascii.eqb Bool.eqb].
  destruct (relay_turn _ _ _ _) as [[[status payload] service']|] eqn:Ht; [|done].
  destruct (Z.ltb_spec status 400) as [Hlt|].
  2: { intros Hr. exfalso. revert Hr. by destruct (status =? 404)%Z. }
  intros [= <-]. apply delete_ok in Ht as (Hst & id' & x & Hp & Hx & ->); [|done].
  assert (id' = id) as -> by by eapply session_url_id.
  exists origin, path, service, x. by split_and!.
Qed.

(** Other sessions are told as before. *)
Lemma http_session_frame endpoint id' services n origin service service' :
  services !! origin = Some service → (session service' id' = session service id') →
  (http_session endpoint id' (<[origin := service']> services, n)).1 =
  (http_session endpoint id' (services, n)).1.
Proof.
  intros Hs Heq. unfold http_session, http_send, relay_net.
  destruct (split_origin (session_url endpoint id')) as [[origin' path]|] eqn:Hu; [|done].
  destruct (decide (origin' = origin)) as [->|Ho].
  2: { rewrite lookup_insert_ne by done. destruct (services !! origin') as [r|]; [|done].
       rewrite !turn_get. by destruct (control_response (clock n) (rng n) r "GET" path []) as [[[]]|]. }
  rewrite lookup_insert_eq, Hs, !turn_get. unfold control_response.
  destruct (String.eqb_spec path "/healthz") as [->|]; cbn [andb String.eqb Ascii.eqb Bool.eqb].
  { exfalso. apply split_origin_app in Hu. unfold session_url in Hu.
    destruct (last_slash origin "healthz" (trim_end_matches "/"%char endpoint +:+ "/sessions")
      (hex_session_id id') eq_refl (no_slash_hex _)) as [_ Hh].
    - rewrite Hu. by rewrite string_app_assoc.
    - pose proof (length_hex_string id') as Hl. unfold hex_session_id in Hh. rewrite <-Hh in Hl.
      cbn in Hl. lia. }
  destruct (starts_with _ path); [|done].
  destruct (parse_session_path path) as [[id|]|] eqn:Hp; [|done..].
  rewrite (session_url_id _ _ _ _ _ Hu Hp), Heq. by destruct (session service id').
Qed.

#[export] Instance http_relay_control_laws : @RelayControlLaws Relays http_relay_control.
Proof.
  split.
  - intros endpoint request [services n] a r'. cbn [rc_open_session rc_session http_relay_control].
    unfold http_open_session, http_send, relay_net.
    destruct (split_origin (sessions_url endpoint)) as [[origin path]|] eqn:Hu; [|done].
    destruct (services !! origin) as [service|] eqn:Hs; [|done]. cbn [String.eqb Ascii.eqb Bool.eqb].
    destruct (relay_turn _ _ _ _) as [[[status payload] service']|] eqn:Ht; [|done].
    destruct (Z.ltb_spec status 400) as [Hlt|].
    2: { intros Hr. exfalso. revert Hr. cbn. by destruct (into_json read_rejected (Ok payload)). }
    apply post_ok in Ht as (-> & accepted & Ho & ->); [|done]. unfold into_json. cbn.
    rewrite wire_accepted. cbn. intros [= -> <-].
    assert (reaches endpoint origin) as Hreach.
    { pose proof (split_origin_app _ _ _ Hu) as Happ. unfold sessions_url in *.
      destruct (last_slash origin "sessions" (trim_end_matches "/"%char endpoint) "sessions"
        eq_refl eq_refl Happ) as [-> _]. by split. }
    pose proof (open_session_cases (clock n) (rng n) service request) as Hc. rewrite Ho in Hc.
    destruct Hc as (_ & _ & Hacc & _ & ->).
    assert (sa_session_id a = rng n) as -> by by apply (f_equal rs_session_id) in Hacc.
    exists (granted request (rng n)). split; [|done].
    rewrite (http_session_at _ _ _ _ _ _ _ (url_session _ _ (rng n) Hreach) (lookup_insert_eq _ _ _)).
    + unfold session, runtime_session, opened. cbn. by rewrite lookup_insert_eq.
    + apply session_path_starts.
    + apply parse_session_path_hex, Hrng.
  - intros endpoint id reason [services n] r' Hclose.
    destruct (http_close_ok _ _ _ _ _ _ Hclose) as (origin & path & service & x & Hu & Hs & Hst & Hp & Hx & ->).
    exists x. cbn [rc_session http_relay_control]. split.
    + by rewrite (http_session_at _ _ _ _ _ _ _ Hu Hs Hst Hp), Hx.
    + rewrite (http_session_at _ _ _ _ _ _ _ Hu (lookup_insert_eq _ _ _) Hst Hp).
      unfold session, runtime_session in *. cbn. by rewrite lookup_alter_eq, Hx.
  - intros endpoint id reason [services n] r' endpoint' id' Hclose Hne.
    destruct (http_close_ok _ _ _ _ _ _ Hclose) as (origin & path & service & x & _ & Hs & _ & _ & _ & ->).
    apply (http_session_frame _ _ _ _ _ service); [done|].
    unfold session, runtime_session. cbn. by rewrite lookup_alter_ne.
Qed.
End network.

(** ** The process *)

Section process.
Context `{Blake3, Varint, Base32, Curves, JsonBytes SessionCredentialUnsigned}.
Context `{JsonText, RelayJson}.

(** A path that cuts a character in two. *)
Definition cuts_path (path : string) : Prop :=
  ∃ value, path = "/sessions/" +:+ value ∧ str_len value = 32%Z ∧ is_ascii value = false.

Lemma parse_path_panics path : parse_session_path path = Panics → cuts_path path.
Proof.
  unfold parse_session_path. destruct (strip_prefix "/sessions/" path) as [value|] eqn:Hp; [|done].
  apply strip_prefix_Some in Hp. unfold parse_session_id. destruct (decide _) as [|Hlen%dec_stable]; [done|].
  intros Hpanic. exists value. split_and!; [done|done|]. destruct (is_ascii value) eqn:Ha; [|done].
  unfold str_len in Hlen. by destruct (parse_session_bytes_ascii value 0 16 Ha ltac:(lia)).
Qed.

Definition relay_statuses : list Z := [200; 204; 400; 403; 404; 411; 413]%Z.

Lemma status_listed status : bool_decide (status ∈ relay_statuses) = true → status ∈ relay_statuses.
Proof. apply bool_decide_eq_true. Qed.

(** A turn answers with one of these statuses and is at most one step of the
    service, or the path of the request cuts a character. *)
Lemma turn_cases now random service request :
  match relay_turn now random service request with
  | Returns ((status, _), service') =>
      status ∈ relay_statuses ∧ (service' = service ∨ relay_step service service')
  | Panics => cuts_path (req_url request)
  end.
Proof.
  assert (∀ status : Z, status ∈ relay_statuses → status ∈ relay_statuses ∧
    (service = service ∨ relay_step service service)) as Hsame by (intros status ?; split; [done|by left]).
  unfold relay_turn, read_request_body.
  destruct (_ || _); [|destruct (req_body_length request) as [limit|]; [destruct (_ <? _)%Z;
    [|destruct (req_read request)]|]].
  all: try (by apply Hsame, status_listed).
  all: unfold control_response; repeat destruct (_ && _).
  all: try (by apply Hsame, status_listed).
  all: try destruct (parse_open _) as [open|]; try (by apply Hsame, status_listed).
  all: try (pose proof (step_open now random service open) as Hstep;
    destruct (open_session now random service open) as [[] service'];
    by split; [apply status_listed|right]).
  all: destruct (parse_session_path (req_url request)) as [[id|]|] eqn:Hp;
    [|by apply Hsame, status_listed|by apply parse_path_panics].
  all: try (destruct (session service id); by apply Hsame, status_listed).
  all: destruct (parse_close _) as [reason|]; [|by apply Hsame, status_listed].
  all: pose proof (step_close service id reason) as Hstep; rewrite close_session_cases in *;
    destruct (session service id); [by split; [apply status_listed|right]|by apply Hsame, status_listed].
Qed.

(** C7.  A relay process that starts answers every request with 200, 204, 400,
    403, 404, 411 or 413 and only ever holds sessions it serves, under their
    own identifiers; it stops only when an answer cannot be written or a path
    of 32 bytes below /sessions/ cuts a character in two. *)
Theorem relay_process_serves args node inputs (Hnode : relay_node args = Returns node) :
  let '(answers, o) := relay_loop inputs (RelayService_new node) in
  Forall (λ answer, answer.1 ∈ relay_statuses) answers ∧
  match o with
  | Returns service => length answers = length inputs ∧
      ∀ id x, session service id = Some x → rs_session_id x = id ∧ served node x
  | Panics => ∃ input, input ∈ inputs ∧
      (ri_written input = false ∨ cuts_path (req_url (ri_request input)))
  end.
Proof.
  assert (node_wf node) as Hwf.
  { unfold relay_node in Hnode. apply outcome_bind_Returns in Hnode as (ds & _ & [= <-]).
    intros q Hq. by apply elem_of_nil in Hq. }
  assert (∀ service, relay_reachable node service →
    let '(answers, o) := relay_loop inputs service in
    Forall (λ answer, answer.1 ∈ relay_statuses) answers ∧
    match o with
    | Returns service => length answers = length inputs ∧ relay_reachable node service
    | Panics => ∃ input, input ∈ inputs ∧
        (ri_written input = false ∨ cuts_path (req_url (ri_request input)))
    end) as Hloop.
  { induction inputs as [|input inputs IH]; intros service Hs; cbn [relay_loop]; [done|].
    pose proof (turn_cases (ri_now input) (ri_random input) service (ri_request input)) as Ht.
    destruct (relay_turn _ _ _ _) as [[[status payload] service']|].
    2: { split; [done|]. exists input. split; [by left|by right]. }
    destruct Ht as [Hstatus Hstep]. destruct (ri_written input) eqn:Hw.
    2: { split; [done|]. exists input. split; [by left|by left]. }
    assert (relay_reachable node service') as Hs' by (destruct Hstep as [->|]; [done|by eapply reach_step]).
    specialize (IH service' Hs'). destruct (relay_loop inputs service') as [answers o].
    destruct IH as [Hall Ho]. split; [by constructor|].
    destruct o as [final|]; [split; [cbn; f_equal; apply Ho|apply Ho]|].
    destruct Ho as (i & Hi & Hwhy). exists i. split; [by right|done]. }
  specialize (Hloop _ (reach_new node)). destruct (relay_loop inputs _) as [answers [service|]]; [|done].
  destruct Hloop as (Hall & Hlen & Hr). split; [done|]. split; [done|].
  destruct (relay_reachable_held _ _ Hwf Hr) as [_ Hk Hserved _]. naive_solver.
Qed.
End process.

(** ** A wire for the examples

    A message is the sequence of its fields, each ended by a zero byte, with a
    one before every byte of it. *)
Module DemoRelayWire.
Import External.Demo.

Fixpoint field_bytes (l : bytes) : bytes :=
  match l with [] => [x00] | b :: l => x01 :: b :: field_bytes l end.
Definition join_fields (ls : list bytes) : bytes := concat (field_bytes <$> ls).
Fixpoint split_fields (l : bytes) : list bytes :=
  match l with
  | x01 :: b :: l => match split_fields l with f :: fs => (b :: f) :: fs | [] => [[b]] end
  | _ :: l => [] :: split_fields l
  | [] => []
  end.
Lemma split_join_fields ls : split_fields (join_fields ls) = ls.
Proof.
  induction ls as [|f ls IH]; [done|]. unfold join_fields in *. cbn [fmap list_fmap concat].
  induction f as [|b f IHf]; cbn [field_bytes app]; [change (([] : bytes) :: split_fields (concat
    (field_bytes <$> ls)) = [] :: ls); by rewrite IH|].
  change (match split_fields (field_bytes f ++ concat (field_bytes <$> ls)) with
    | f :: fs => (b :: f) :: fs | [] => [[b]] end = (b :: f) :: ls). by rewrite IHf.
Qed.

Definition text_of (ls : list bytes) : string := String.string_of_list_byte (join_fields ls).
Definition of_text (s : string) : list bytes := split_fields (as_bytes s).
Lemma of_text_of ls : of_text (text_of ls) = ls.
Proof. unfold of_text, text_of, as_bytes. by rewrite String.list_byte_of_string_of_list_byte, split_join_fields. Qed.
Lemma as_bytes_text ls : split_fields (as_bytes (text_of ls)) = ls.
Proof. apply of_text_of. Qed.

Definition nat_of (l : bytes) : nat := default 0 (unpack l).
Definition Z_of (l : bytes) : Z := default 0%Z (unpack l).
Lemma nat_of_pack n : nat_of (pack n) = n.
Proof. unfold nat_of. by rewrite unpack_pack. Qed.
Lemma Z_of_pack z : Z_of (pack z) = z.
Proof. unfold Z_of. by rewrite unpack_pack. Qed.
Definition string_of (l : bytes) : string := String.string_of_list_byte l.
Lemma string_of_bytes s : string_of (as_bytes s) = s.
Proof. apply String.string_of_list_byte_of_string. Qed.
Definition protocol_bytes (o : option ProtocolId) : bytes :=
  match o with None => [] | Some p => x00 :: as_bytes (protocol_text p) end.
Definition bytes_protocol (l : bytes) : option ProtocolId :=
  match l with [] => None | _ :: l => Some (mk_ProtocolId (string_of l)) end.
Lemma bytes_protocol_bytes o : bytes_protocol (protocol_bytes o) = o.
Proof. destruct o as [[p]|]; [|done]. cbn [bytes_protocol protocol_bytes protocol_text]. by rewrite string_of_bytes. Qed.

Definition class_number (c : TrafficClass) : nat :=
  match c with Control => 0 | Interactive => 1 | Bulk => 2 | Background => 3 end.
Definition number_class (n : nat) : TrafficClass :=
  match n with 0 => Control | 1 => Interactive | 2 => Bulk | _ => Background end.
Definition code_number (c : RelayRejectCode) : nat :=
  match c with
  | RejUnauthorized => 0 | RejUnsupportedTrafficClass => 1 | RejCapacityExceeded => 2
  | RejSessionExists => 3 | RejInvalidIdentityProof => 4 | RejDestinationUnauthorized => 5
  | RejDestinationProtocolRejected => 6 | RejInvalidRequest => 7
  end.
Definition number_code (n : nat) : RelayRejectCode :=
  match n with
  | 0 => RejUnauthorized | 1 => RejUnsupportedTrafficClass | 2 => RejCapacityExceeded
  | 3 => RejSessionExists | 4 => RejInvalidIdentityProof | 5 => RejDestinationUnauthorized
  | 6 => RejDestinationProtocolRejected | _ => RejInvalidRequest
  end.
Definition status_number (s : RelaySessionStatus) : nat :=
  match s with Pending => 0 | Open => 1 | Closed => 2 end.
Definition number_status (n : nat) : RelaySessionStatus :=
  match n with 0 => Pending | 1 => Open | _ => Closed end.
Definition algorithm_number (a : KeyAlgorithm) : nat := match a with Ed25519 => 0 | X25519 => 1 end.
Definition number_algorithm (n : nat) : KeyAlgorithm := match n with 0 => Ed25519 | _ => X25519 end.
Lemma number_class_number c : number_class (class_number c) = c.
Proof. by destruct c. Qed.
Lemma number_code_number c : number_code (code_number c) = c.
Proof. by destruct c. Qed.
Lemma number_status_number c : number_status (status_number c) = c.
Proof. by destruct c. Qed.
Lemma number_algorithm_number a : number_algorithm (algorithm_number a) = a.
Proof. by destruct a. Qed.

Definition open_fields (r : RelayOpenRequest) : list bytes :=
  let c := or_source_credential r in [
  or_attempt_id r; network_bytes (or_network_id r); peer_bytes (or_source r);
  pack (algorithm_number (pk_algorithm (or_source_public_key r))); pk_bytes (or_source_public_key r);
  network_bytes (sc_network_id c); peer_bytes (sc_peer_id c); sc_session_public_key c;
  pack (sc_issued_at c); pack (sc_expires_at c); join_fields (as_bytes <$> sc_protocol_versions c);
  pack (sc_key_epoch c); sc_nonce c; signature_bytes (sc_identity_signature c);
  peer_bytes (or_destination r); protocol_bytes (or_protocol r);
  pack (class_number (or_traffic_class r))].
Definition fields_open (ls : list bytes) : result string RelayOpenRequest :=
  match ls with
  | [attempt; network; source; algorithm; key; cn; cp; ck; ci; ce; cv; cepoch; cnonce; csig;
     destination; protocol; class] => Ok {|
      or_attempt_id := attempt; or_network_id := mk_NetworkId network; or_source := mk_PeerId source;
      or_source_public_key := {|
        pk_algorithm := number_algorithm (nat_of algorithm); pk_bytes := key |};
      or_source_credential := {|
        sc_network_id := mk_NetworkId cn; sc_peer_id := mk_PeerId cp; sc_session_public_key := ck;
        sc_issued_at := Z_of ci; sc_expires_at := Z_of ce;
        sc_protocol_versions := string_of <$> split_fields cv; sc_key_epoch := Z_of cepoch;
        sc_nonce := cnonce; sc_identity_signature := mk_SignatureBytes csig |};
      or_destination := mk_PeerId destination; or_protocol := bytes_protocol protocol;
      or_traffic_class := number_class (nat_of class) |}
  | _ => Err "no request"
  end.
Lemma fields_open_fields r : fields_open (open_fields r) = Ok r.
Proof.
  destruct r as [? [] [] [] [[] [] ? ? ? versions ? ? []] [] ? ?]. unfold fields_open, open_fields.
  cbn -[pack nat_of Z_of split_fields join_fields protocol_bytes bytes_protocol algorithm_number
    number_algorithm class_number number_class fmap].
  rewrite !nat_of_pack, !Z_of_pack, split_join_fields, number_algorithm_number, number_class_number,
    bytes_protocol_bytes, <-list_fmap_compose.
  do 3 f_equal. rewrite <-(list_fmap_id versions) at 2. apply list_fmap_ext. intros. apply string_of_bytes.
Qed.

Definition accepted_fields (a : RelaySessionAccepted) : list bytes := [
  sa_attempt_id a; sa_session_id a; peer_bytes (sa_source a); peer_bytes (sa_destination a);
  protocol_bytes (sa_protocol a); pack (class_number (sa_traffic_class a))].
Definition fields_accepted (ls : list bytes) : result string RelaySessionAccepted :=
  match ls with
  | [attempt; id; source; destination; protocol; class] => Ok {|
      sa_attempt_id := attempt; sa_session_id := id; sa_source := mk_PeerId source;
      sa_destination := mk_PeerId destination; sa_protocol := bytes_protocol protocol;
      sa_traffic_class := number_class (nat_of class) |}
  | _ => Err "no acceptance"
  end.
Definition rejected_fields (r : RelaySessionRejected) : list bytes := [
  sr_attempt_id r; pack (code_number (sr_code r)); peer_bytes (sr_source r);
  peer_bytes (sr_destination r); protocol_bytes (sr_protocol r);
  pack (class_number (sr_traffic_class r)); as_bytes (sr_reason r)].
Definition fields_rejected (ls : list bytes) : result string RelaySessionRejected :=
  match ls with
  | [attempt; code; source; destination; protocol; class; reason] => Ok {|
      sr_attempt_id := attempt; sr_code := number_code (nat_of code); sr_source := mk_PeerId source;
      sr_destination := mk_PeerId destination; sr_protocol := bytes_protocol protocol;
      sr_traffic_class := number_class (nat_of class); sr_reason := string_of reason |}
  | _ => Err "no rejection"
  end.
Definition session_fields (s : RelaySession) : list bytes := [
  rs_session_id s; peer_bytes (rs_source s); peer_bytes (rs_destination s);
  protocol_bytes (rs_protocol s); pack (class_number (rs_traffic_class s));
  pack (status_number (rs_status s))].
Definition fields_session (ls : list bytes) : result string RelaySession :=
  match ls with
  | [id; source; destination; protocol; class; status] => Ok {|
      rs_session_id := id; rs_source := mk_PeerId source; rs_destination := mk_PeerId destination;
      rs_protocol := bytes_protocol protocol; rs_traffic_class := number_class (nat_of class);
      rs_status := number_status (nat_of status) |}
  | _ => Err "no session"
  end.

(** Of JSON values only objects of texts are told apart. *)
#[export] Instance demo_json_text : JsonText := λ v,
  match v with
  | JObj l => text_of (concat ((λ kv, match kv.2 with
      | JStr s => [as_bytes kv.1; as_bytes s] | _ => [] end) <$> l))
  | _ => ""
  end.
#[export] Instance demo_relay_json : RelayJson := {|
  accepted_json a := text_of (accepted_fields a);
  rejected_json r := text_of (rejected_fields r);
  session_json s := text_of (session_fields s);
  parse_open body := fields_open (split_fields body);
  parse_close body :=
    match split_fields body with
    | [key; reason] => if String.eqb (string_of key) "reason" then Ok (string_of reason) else Err "no reason"
    | _ => Err "no reason"
    end |}.
#[export] Instance demo_client_json : RelayClientJson := {|
  open_json r := text_of (open_fields r);
  read_accepted s := fields_accepted (of_text s);
  read_rejected s := fields_rejected (of_text s);
  read_session s := fields_session (of_text s) |}.

#[export] Instance demo_relay_wire_laws : RelayWireLaws.
Proof.
  split; intros x; unfold parse_open, parse_close, open_json, close_text, json_text, read_accepted,
    accepted_json, read_rejected, rejected_json, read_session, session_json, demo_json_text,
    demo_relay_json, demo_client_json; rewrite ?as_bytes_text, ?of_text_of.
  - apply fields_open_fields.
  - cbn [fmap list_fmap concat app fst snd]. by rewrite !string_of_bytes.
  - destruct x as [? ? [] [] ? ?]. unfold fields_accepted, accepted_fields.
    cbn -[string_of as_bytes pack nat_of bytes_protocol protocol_bytes].
    by rewrite nat_of_pack, number_class_number, bytes_protocol_bytes.
  - destruct x as [? ? [] [] ? ? ?]. unfold fields_rejected, rejected_fields.
    cbn -[string_of as_bytes pack nat_of bytes_protocol protocol_bytes].
    by rewrite !nat_of_pack, number_class_number, number_code_number, bytes_protocol_bytes, string_of_bytes.
  - destruct x as [? [] [] ? ? ?]. unfold fields_session, session_fields.
    cbn -[string_of as_bytes pack nat_of bytes_protocol protocol_bytes].
    by rewrite !nat_of_pack, number_class_number, number_status_number, bytes_protocol_bytes.
Qed.
End DemoRelayWire.

Section witnesses.
Import External.Demo DemoRelayWire.
#[local] Existing Instance Relay.demo_credential_json.

Definition demo_clock (n : nat) : Z := 120.
Definition demo_rng (n : nat) : bytes := replicate 16 x02.
Definition demo_relays : gmap string RelayService := {["http://relay" := demo_relay]}.

#[local] Instance demo_net : HttpNet Relays := relay_net demo_clock demo_rng.

(** The relay of the examples over HTTP: the session opens, is told, and closes. *)
Lemma http_control_agrees_witness :
  let '(r, w) := http_open_session "http://relay/" demo_request ((demo_relays, 0) : Relays) in
  is_ok r = true ∧ (http_close_session "http://relay/" demo_id "done" w).1 = Ok ().
Proof.
  assert (reaches "http://relay/" "http://relay") as Hreach by (split; vm_compute; reflexivity).
  assert (short (as_bytes (open_json demo_request))) as Hopen
    by (apply Z.leb_le; vm_compute; reflexivity).
  assert (short (as_bytes (close_text "done"))) as Hclose
    by (apply Z.leb_le; vm_compute; reflexivity).
  assert (http_open_session "http://relay/" demo_request ((demo_relays, 0) : Relays) =
    let '(r, service) := open_session (demo_clock 0) (demo_rng 0) demo_relay demo_request in
    (map_err map_rejected_to_error r, (<["http://relay" := service]> demo_relays, 1))) as ->
    by exact (proj1 (http_control_agrees demo_clock demo_rng "http://relay/" "http://relay" demo_request
      demo_id "done" demo_relays 0 demo_relay Hreach eq_refl eq_refl Hopen Hclose)).
  assert (is_ok (open_session (demo_clock 0) (demo_rng 0) demo_relay demo_request).1 = true) as Hok
    by (vm_compute; reflexivity).
  assert (match session (open_session (demo_clock 0) (demo_rng 0) demo_relay demo_request).2 demo_id with
    | Some _ => true | None => false end = true) as Hs by (vm_compute; reflexivity).
  destruct (open_session _ _ demo_relay demo_request) as [[a|e] service]; [|discriminate Hok].
  split; [reflexivity|]. cbn [snd] in Hs.
  assert (http_close_session "http://relay/" demo_id "done" ((<["http://relay" := service]> demo_relays, 1) : Relays) =
    let '(r, service') := close_session service demo_id "done" in
    (r, (<["http://relay" := service']> (<["http://relay" := service]> demo_relays), 1))) as ->
    by exact (proj1 (proj2 (http_control_agrees demo_clock demo_rng "http://relay/" "http://relay"
      demo_request demo_id "done" (<["http://relay" := service]> demo_relays) 1 service Hreach
      (lookup_insert_eq _ _ _) eq_refl Hopen Hclose))).
  rewrite close_session_cases. destruct (session service demo_id); [reflexivity|discriminate Hs].
Defined.

Definition demo_relay_args : RelayArgs := {|
  ra_arg_region := "local"; ra_arg_max_bandwidth_mbps := 9000; ra_arg_peer_seed := None;
  ra_arg_bind := "127.0.0.1:9081"; ra_arg_control_endpoint := "http://127.0.0.1:9081";
  ra_arg_advertise_addresses := [];
  ra_arg_allow_destinations := [PeerId_to_text demo_target +:+ "= /app/1 ,/app/2"] |}.
Definition demo_inputs : list RelayInput :=
  let input method path body := {| ri_now := 120; ri_random := demo_id;
    ri_request := client_request method path body; ri_written := true |} in
  [input "POST" "/sessions" (as_bytes (open_json demo_request)); input "GET" "/healthz" [];
   input "GET" (session_path demo_id) []; input "PUT" "/sessions" [];
   input "DELETE" (session_path demo_id) (as_bytes (close_text "done"))].

Lemma relay_process_serves_witness :
  match relay_node demo_relay_args with
  | Returns node =>
      let '(answers, o) := relay_loop demo_inputs (RelayService_new node) in
      answers.*1 = [200; 200; 200; 404; 204]%Z ∧
      match o with
      | Returns service => ∃ x, session service demo_id = Some x ∧ served node x
      | Panics => False
      end
  | Panics => False
  end.
Proof.
  destruct (relay_node demo_relay_args) as [node|] eqn:Hn; [|discriminate (f_equal (λ o, match o with Returns _ => true | Panics => false end) Hn)].
  pose proof (relay_process_serves demo_relay_args node demo_inputs Hn) as Hp.
  assert (match relay_node demo_relay_args with
    | Returns node => let '(answers, o) := relay_loop demo_inputs (RelayService_new node) in
        (answers.*1, match o with Returns service => bool_decide (is_Some (session service demo_id)) | Panics => false end)
    | Panics => ([], false) end = ([200; 200; 200; 404; 204]%Z, true)) as Hv by (vm_compute; reflexivity).
  rewrite Hn in Hv. destruct (relay_loop demo_inputs (RelayService_new node)) as [answers [service|]];
    [|discriminate Hv].
  injection Hv as Ha Hs. split; [exact Ha|]. apply bool_decide_eq_true in Hs as [x Hx].
  exists x. split; [exact Hx|]. exact (proj2 (proj2 (proj2 Hp) demo_id x Hx)).
Defined.
End witnesses.
